(** * A shallow embedding of the COMP4981 poll-based HTTP server

    The development follows the three translation units of the program:
    - [path.c]   : [contains_traversal], [starts_with_doc_root], [resolve_path];
    - [http.c]   : [find_request_line_end], [parse_http_request],
                   [http_reason_phrase], [guess_mime_type], [format_http_date],
                   [build_response_headers];
    - [server.c] : the per-client record [client_t] and the read / prepare /
                   write transitions driven by the poll loop.

    Conventions.
    - A C string is the list of its bytes before the terminating NUL.
    - A [char] array is the list of its cells; writing into it replaces a
      run of cells and leaves the others as they were.
    - [int], [size_t], [ssize_t] and [off_t] values are integers in [Z]; the
      casts that can wrap are written out with [to_int].
    - The kernel is an explicit [world]: a script of the answers the next
      system calls will get, and the trace of what the calls did.  A function
      returns [None] when the script ends before the C function returns. *)

From Stdlib Require Import ZArith Ascii String Lia Bool Arith List.
From Stdlib Require Import Permutation.
Import ListNotations.
Local Open Scope Z_scope.

(** ** Bytes, C strings and the pieces of libc the program uses *)

Definition bytes := list ascii.

Definition lit (s : string) : bytes := list_ascii_of_string s.

Definition NUL : ascii := "000"%char.
Definition CR : ascii := "013"%char.
Definition LF : ascii := "010"%char.
Definition CRLF : bytes := [CR; LF].

Definition code (c : ascii) : Z := Z.of_nat (nat_of_ascii c).

(** [strlen] *)
Definition len (s : bytes) : Z := Z.of_nat (length s).

Definition INT_MAX : Z := 2147483647.

(** Conversion to a 32-bit [int], with the wrap-around of the cast. *)
Definition to_int (z : Z) : Z := (z + 2147483648) mod 4294967296 - 2147483648.

(** [strcmp(a, b) == 0] *)
Fixpoint bytes_eqb (a b : bytes) : bool :=
  match a, b with
  | [], [] => true
  | x :: a', y :: b' => Ascii.eqb x y && bytes_eqb a' b'
  | _, _ => false
  end.

(** [strncmp(s, p, strlen(p)) == 0] *)
Fixpoint is_prefix (p s : bytes) : bool :=
  match p, s with
  | [], _ => true
  | x :: p', y :: s' => Ascii.eqb x y && is_prefix p' s'
  | _ :: _, [] => false
  end.

(** [strstr(hay, needle) != NULL] *)
Fixpoint strstr (hay needle : bytes) : bool :=
  is_prefix needle hay ||
  match hay with
  | [] => false
  | _ :: hay' => strstr hay' needle
  end.

(** [strchr(s, c) != NULL] *)
Definition strchr (s : bytes) (c : ascii) : bool := existsb (Ascii.eqb c) s.

(** [strrchr(s, c)]: the suffix of [s] that starts at the last [c]. *)
Fixpoint strrchr (s : bytes) (c : ascii) : option bytes :=
  match s with
  | [] => None
  | x :: s' =>
      match strrchr s' c with
      | Some r => Some r
      | None => if Ascii.eqb x c then Some s else None
      end
  end.

(** The last [n] bytes of [s]: [s + strlen(s) - n]. *)
Definition last_n (n : nat) (s : bytes) : bytes := skipn (length s - n) s.

(** [isspace], [iscntrl] and [tolower] in the C locale. *)
Definition isspace (c : ascii) : bool :=
  (code c =? 32) || ((9 <=? code c) && (code c <=? 13)).

Definition iscntrl (c : ascii) : bool :=
  (code c <? 32) || (code c =? 127).

Definition tolower (c : ascii) : ascii :=
  if (65 <=? code c) && (code c <=? 90)
  then ascii_of_nat (nat_of_ascii c + 32)
  else c.

(** [strcasecmp(a, b) == 0] *)
Definition strcaseeq (a b : bytes) : bool :=
  bytes_eqb (map tolower a) (map tolower b).

(** What [snprintf] returns for a formatted text [s]: its length, or a
    negative value when the length does not fit an [int]. *)
Definition snprintf_ret (s : bytes) : Z :=
  if INT_MAX <? len s then -1 else len s.

(** The C string [snprintf(dst, cap, ...)] leaves in [dst] ([cap > 0]). *)
Definition snprintf_str (cap : Z) (s : bytes) : bytes :=
  firstn (Z.to_nat (cap - 1)) s.

(** The cells of the array [dst] after [snprintf(dst, cap, ...)] formatted
    [s]: nothing is written when [cap] is 0, otherwise at most [cap - 1]
    bytes of [s] and a NUL, over the first cells of [dst]. *)
Definition snprintf_buf (dst : bytes) (cap : Z) (s : bytes) : bytes :=
  if cap <=? 0 then dst
  else
    let w := snprintf_str cap s ++ [NUL] in
    w ++ skipn (length w) dst.

(** Decimal digits of a non-negative number, least significant first; twenty
    digits cover every 64-bit value. *)
Fixpoint digits_rev (fuel : nat) (n : Z) : bytes :=
  match fuel with
  | O => []
  | S f =>
      let d := ascii_of_nat (48 + Z.to_nat (n mod 10)) in
      if n <? 10 then [d] else d :: digits_rev f (n / 10)
  end.

(** The text [%d] and [%lld] print. *)
Definition dec (z : Z) : bytes :=
  if z <? 0 then "-"%char :: rev (digits_rev 20 (- z))
  else rev (digits_rev 20 z).

(** The text [%02d]-style conversions of [strftime] print. *)
Definition dec2 (z : Z) : bytes :=
  if (0 <=? z) && (z <? 10) then "0"%char :: dec z else dec z.

(** ** The file system, as [path.c] and [server.c] see it *)

Inductive errno_t : Type :=
| ENOENT | ENOTDIR | EACCES | ENAMETOOLONG | EAGAIN | EWOULDBLOCK | EINTR | EIO.

Record stat_t : Type := mk_stat {
  st_size : Z;
  st_isreg : bool
}.

(** [realpath] and [stat] are functions of the path: the tree does not change
    while one request is prepared. *)
Record filesys : Type := mk_fs {
  fs_realpath : bytes -> errno_t + bytes;
  fs_stat : bytes -> errno_t + stat_t
}.

Definition PATH_MAX : Z := 4096.
Arguments PATH_MAX : simpl never.

(** [realpath(path, canonical)] with a [PATH_MAX]-byte result buffer: a
    result that does not fit is the error ENAMETOOLONG. *)
Definition realpath (fs : filesys) (path : bytes) : errno_t + bytes :=
  match fs_realpath fs path with
  | inr q => if len q <? PATH_MAX then inr q else inl ENAMETOOLONG
  | inl e => inl e
  end.

(** ** path.c *)

(** Basic checks for directory traversal attempts. *)
Definition contains_traversal (p : bytes) : bool :=
  if strchr p "\"%char then true
  else if bytes_eqb p (lit "/..") then true
  else if is_prefix (lit "/../") p then true
  else if strstr p (lit "/../") then true
  else if (3 <=? len p) && bytes_eqb (last_n 3 p) (lit "/..") then true
  else if strstr p (lit "%2e%2e") || strstr p (lit "%2E%2E") ||
          strstr p (lit "%2e.") || strstr p (lit ".%2e") ||
          strstr p (lit "%2E.") then true
  else false.

(** Ensure resolved path stays inside document root. *)
Definition starts_with_doc_root (full doc_root : bytes) : bool :=
  if negb (is_prefix doc_root full) then false
  else
    match skipn (length doc_root) full with
    | [] => true
    | c :: _ => Ascii.eqb c "/"%char
    end.

(** The copy loop that strips the query string and fragment: it stops at the
    end of the target, at ['?'], at ['#'], or after [n] bytes. *)
Definition is_stop (c : ascii) : bool :=
  Ascii.eqb c NUL || Ascii.eqb c "?"%char || Ascii.eqb c "#"%char.

Fixpoint strip_query (n : nat) (s : bytes) : bytes :=
  match n, s with
  | S n', c :: s' => if is_stop c then [] else c :: strip_query n' s'
  | _, _ => []
  end.

(** Map filesystem errno to HTTP status ([server.c] has it as a function,
    [path.c] writes the same three tests inline). *)
Definition status_from_errno (e : errno_t) : Z :=
  match e with
  | ENOENT | ENOTDIR => 404
  | EACCES => 403
  | _ => 500
  end.

(** Default document handling (the three-way branch on the cleaned target):
    [inl 400] when the appended name would not fit. *)
Definition normalize_target (target : bytes) : Z + bytes :=
  if bytes_eqb target (lit "/") then
    inr (snprintf_str PATH_MAX (lit "/index.html"))
  else if match last_n 1 target with [c] => Ascii.eqb c "/"%char | _ => false end then
    if len target + len (lit "index.html") + 1 >? PATH_MAX then inl 400
    else inr (snprintf_str PATH_MAX (target ++ lit "index.html"))
  else inr (snprintf_str PATH_MAX target).

(** The part of [resolve_path] after the copy loop, on the cleaned
    [target]: the result is the returned code and the C string held by
    [out_path]. *)
Definition resolve_cleaned (fs : filesys) (doc_root target out_path : bytes)
    (out_sz : Z) : Z * bytes :=
  match target with
  | [] => (400, out_path)
  | _ :: _ =>
    (* Block traversal attempts early. *)
    if contains_traversal target then (403, out_path)
    else
    match normalize_target target with
    | inl rc => (rc, out_path)
    | inr normalized =>
      (* Build candidate absolute path. *)
      if snprintf_ret (doc_root ++ normalized) >=? to_int PATH_MAX
      then (400, out_path)
      else
      let candidate := snprintf_str PATH_MAX (doc_root ++ normalized) in
      (* Canonicalize to resolve symlinks and "..". *)
      match realpath fs candidate with
      | inl e => (status_from_errno e, out_path)
      | inr canonical =>
        (* Final safety check: path must remain inside doc_root. *)
        if negb (starts_with_doc_root canonical doc_root) then (403, out_path)
        else
        (* Must be a regular file. *)
        match fs_stat fs canonical with
        | inl e => (status_from_errno e, out_path)
        | inr st =>
          if negb (st_isreg st) then (403, out_path)
          (* Return resolved safe path. *)
          else if snprintf_ret canonical >=? to_int out_sz
               then (500, snprintf_str out_sz canonical)
               else (0, snprintf_str out_sz canonical)
        end
      end
    end
  end.

(** Convert URL target into a safe filesystem path under doc_root. *)
Definition resolve_path (fs : filesys) (doc_root url_target out_path : bytes)
    (out_sz : Z) : Z * bytes :=
  if out_sz =? 0 then (500, out_path)
  else
  match url_target with
  | [] => (400, out_path)
  | c0 :: _ =>
    (* Only absolute URL paths are allowed. *)
    if negb (Ascii.eqb c0 "/"%char) then (400, out_path)
    else
    (* Strip query string and fragment. *)
    resolve_cleaned fs doc_root
      (strip_query (Z.to_nat (PATH_MAX - 1)) url_target) out_path out_sz
  end.

(** ** http.c *)

Inductive http_method_t : Type :=
| HTTP_METHOD_GET
| HTTP_METHOD_HEAD
| HTTP_METHOD_UNSUPPORTED.

Record http_request_t : Type := mk_request {
  method : http_method_t;
  target : bytes
}.

(** Index of the first CR that is followed by LF, counting from [i]. *)
Fixpoint find_crlf (s : bytes) (i : Z) : option Z :=
  match s with
  | a :: (b :: _) as s' =>
      if Ascii.eqb a CR && Ascii.eqb b LF then Some i else find_crlf s' (i + 1)
  | _ => None
  end.

(** Find the end of the first request line (\r\n); the index is returned
    through a cast to [int]. *)
Definition find_request_line_end (raw : bytes) : Z :=
  match find_crlf raw 0 with
  | Some i => to_int i
  | None => -1
  end.

(** The C string that starts at the first cell of an array. *)
Fixpoint c_str (s : bytes) : bytes :=
  match s with
  | [] => []
  | c :: s' => if Ascii.eqb c NUL then [] else c :: c_str s'
  end.

(** [sscanf]: white space is skipped before a [%s] and by a blank in the
    format; [%Ns] then takes the non-blank bytes, [N] at most. *)
Fixpoint skip_space (s : bytes) : bytes :=
  match s with
  | c :: s' => if isspace c then skip_space s' else s
  | [] => []
  end.

Fixpoint take_token (w : nat) (s : bytes) : bytes * bytes :=
  match w, s with
  | S w', c :: s' =>
      if isspace c then ([], s)
      else let (t, r) := take_token w' s' in (c :: t, r)
  | _, _ => ([], s)
  end.

Definition scan_s (w : nat) (s : bytes) : option (bytes * bytes) :=
  match skip_space s with
  | [] => None
  | s' => Some (take_token w s')
  end.

(** [sscanf(line, "%15s %4095s %15s", method, target, version)]: the number
    of conversions done (EOF, -1, when the line holds no token) and the
    three arrays, which start out zeroed. *)
Definition sscanf_request (line : bytes) : Z * bytes * bytes * bytes :=
  match scan_s 15 line with
  | None => (-1, [], [], [])
  | Some (m, r1) =>
      match scan_s 4095 r1 with
      | None => (1, m, [], [])
      | Some (t, r2) =>
          match scan_s 15 r2 with
          | None => (2, m, t, [])
          | Some (v, _) => (3, m, t, v)
          end
      end
  end.

(** Parse HTTP request line and fill method/target.  [raw] is the array of
    [raw_len] bytes; the result is the returned code and [*out]. *)
Definition parse_http_request (raw : bytes) (out : http_request_t)
    : Z * http_request_t :=
  if len raw =? 0 then (400, out)
  else
  let line_end := find_request_line_end raw in
  if (line_end <=? 0) || (line_end >=? 2048) then (400, out)
  else
  let line := c_str (firstn (Z.to_nat line_end) raw) in
  let '(parts, method, target, version) := sscanf_request line in
  if negb (parts =? 3) then (400, out)
  else if negb (bytes_eqb version (lit "HTTP/1.1")) &&
          negb (bytes_eqb version (lit "HTTP/1.0")) then (400, out)
  else if negb (match target with c :: _ => Ascii.eqb c "/"%char | [] => false end)
       then (400, out)
  else if existsb iscntrl target then (400, out)
  else
  let saved := firstn (Z.to_nat (PATH_MAX - 1)) target in
  if strcaseeq method (lit "GET") then
    (0, mk_request HTTP_METHOD_GET saved)
  else if strcaseeq method (lit "HEAD") then
    (0, mk_request HTTP_METHOD_HEAD saved)
  else
    (405, mk_request HTTP_METHOD_UNSUPPORTED saved).

(** Return reason phrase for HTTP status code *)
Definition http_reason_phrase (status_code : Z) : bytes :=
  if status_code =? 200 then lit "OK"
  else if status_code =? 400 then lit "Bad Request"
  else if status_code =? 403 then lit "Forbidden"
  else if status_code =? 404 then lit "Not Found"
  else if status_code =? 405 then lit "Method Not Allowed"
  else lit "Internal Server Error".

(** Guess MIME type from file extension *)
Definition guess_mime_type (path : bytes) : bytes :=
  match strrchr path "."%char with
  | None => lit "application/octet-stream"
  | Some dot =>
      if strcaseeq dot (lit ".html") || strcaseeq dot (lit ".htm")
      then lit "text/html; charset=utf-8"
      else if strcaseeq dot (lit ".txt") then lit "text/plain; charset=utf-8"
      else if strcaseeq dot (lit ".css") then lit "text/css; charset=utf-8"
      else if strcaseeq dot (lit ".js")
      then lit "application/javascript; charset=utf-8"
      else if strcaseeq dot (lit ".json")
      then lit "application/json; charset=utf-8"
      else if strcaseeq dot (lit ".jpg") || strcaseeq dot (lit ".jpeg")
      then lit "image/jpeg"
      else if strcaseeq dot (lit ".png") then lit "image/png"
      else if strcaseeq dot (lit ".gif") then lit "image/gif"
      else if strcaseeq dot (lit ".svg") then lit "image/svg+xml"
      else lit "application/octet-stream"
  end.

(** The broken-down UTC time [gmtime_r] hands to [strftime]. *)
Record tm_t : Type := mk_tm {
  tm_sec : Z;
  tm_min : Z;
  tm_hour : Z;
  tm_mday : Z;
  tm_mon : Z;
  tm_year : Z;
  tm_wday : Z
}.

Definition name_of (names : list string) (i : Z) : bytes :=
  if (0 <=? i) && (i <? Z.of_nat (length names))
  then lit (nth (Z.to_nat i) names "?"%string)
  else lit "?".

(** Format current UTC time in HTTP date format:
    [strftime(dst, dst_sz, "%a, %d %b %Y %H:%M:%S GMT", &gm)]. *)
Definition format_http_date (gm : tm_t) : bytes :=
  name_of ["Sun"; "Mon"; "Tue"; "Wed"; "Thu"; "Fri"; "Sat"]%string (tm_wday gm)
  ++ lit ", " ++ dec2 (tm_mday gm) ++ lit " "
  ++ name_of ["Jan"; "Feb"; "Mar"; "Apr"; "May"; "Jun";
              "Jul"; "Aug"; "Sep"; "Oct"; "Nov"; "Dec"]%string (tm_mon gm)
  ++ lit " " ++ dec (tm_year gm + 1900) ++ lit " "
  ++ dec2 (tm_hour gm) ++ lit ":" ++ dec2 (tm_min gm) ++ lit ":"
  ++ dec2 (tm_sec gm) ++ lit " GMT".

(** The text the format string of [build_response_headers] expands to. *)
Definition header_text (date : bytes) (status_code : Z) (content_type : bytes)
    (content_length : Z) (include_allow_header : bool) : bytes :=
  lit "HTTP/1.1 " ++ dec status_code ++ lit " "
    ++ http_reason_phrase status_code ++ CRLF
  ++ lit "Date: " ++ date ++ CRLF
  ++ lit "Server: comp4981-httpd/1.0" ++ CRLF
  ++ lit "Connection: close" ++ CRLF
  ++ lit "Content-Type: " ++ content_type ++ CRLF
  ++ lit "Content-Length: " ++ dec content_length ++ CRLF
  ++ (if include_allow_header then lit "Allow: GET, HEAD" ++ CRLF else [])
  ++ CRLF.

(** Build HTTP response headers into dst.  The result is the returned value
    and the cells of [dst] afterwards. *)
Definition build_response_headers (dst : bytes) (cap : Z) (gm : tm_t)
    (status_code : Z) (content_type : bytes) (content_length : Z)
    (include_allow_header : bool) : Z * bytes :=
  let text := header_text (format_http_date gm) status_code content_type
                content_length include_allow_header in
  let n := snprintf_ret text in
  let dst' := snprintf_buf dst cap text in
  if (n <? 0) || (n >=? cap) then (-1, dst') else (n, dst').

(** ** server.c *)

(** Maximum concurrent clients handled by poll. *)
Definition MAX_CLIENTS : Z := 1024.
(** Hard cap for request header bytes. *)
Definition MAX_HEADER_BYTES : Z := 16384.
(** Buffer size for generated response headers. *)
Definition MAX_RESP_HEADER : Z := 2048.
(** Buffer size for generated error response body. *)
Definition MAX_ERROR_BODY : Z := 512.
(** File streaming chunk size. *)
Definition FILE_CHUNK : Z := 8192.

Arguments MAX_CLIENTS : simpl never.
Arguments MAX_HEADER_BYTES : simpl never.
Arguments MAX_RESP_HEADER : simpl never.
Arguments MAX_ERROR_BODY : simpl never.
Arguments FILE_CHUNK : simpl never.

(** Client mode in the event loop. *)
Inductive io_mode_t : Type := MODE_READING | MODE_WRITING.

Definition mode_eqb (a b : io_mode_t) : bool :=
  match a, b with
  | MODE_READING, MODE_READING | MODE_WRITING, MODE_WRITING => true
  | _, _ => false
  end.

(** Per-client state. *)
Record client_t : Type := mk_client {
  active : bool;
  fd : Z;
  mode : io_mode_t;
  req_buf : bytes;
  req_len : Z;
  hdr_buf : bytes;
  hdr_len : Z;
  hdr_sent : Z;
  mem_body : bytes;
  mem_len : Z;
  mem_sent : Z;
  is_head : bool;
  file_fd : Z;
  file_size : Z;
  file_sent : Z;
  chunk : bytes;
  chunk_len : Z;
  chunk_sent : Z
}.

(** Field assignments [c->f = v]. *)
Definition set_active (v : bool) (c : client_t) : client_t :=
  mk_client v (fd c) (mode c) (req_buf c) (req_len c) (hdr_buf c) (hdr_len c)
    (hdr_sent c) (mem_body c) (mem_len c) (mem_sent c) (is_head c) (file_fd c)
    (file_size c) (file_sent c) (chunk c) (chunk_len c) (chunk_sent c).

Definition set_fd (v : Z) (c : client_t) : client_t :=
  mk_client (active c) v (mode c) (req_buf c) (req_len c) (hdr_buf c) (hdr_len
    c) (hdr_sent c) (mem_body c) (mem_len c) (mem_sent c) (is_head c) (file_fd
    c) (file_size c) (file_sent c) (chunk c) (chunk_len c) (chunk_sent c).

Definition set_mode (v : io_mode_t) (c : client_t) : client_t :=
  mk_client (active c) (fd c) v (req_buf c) (req_len c) (hdr_buf c) (hdr_len
    c) (hdr_sent c) (mem_body c) (mem_len c) (mem_sent c) (is_head c) (file_fd
    c) (file_size c) (file_sent c) (chunk c) (chunk_len c) (chunk_sent c).

Definition set_req_buf (v : bytes) (c : client_t) : client_t :=
  mk_client (active c) (fd c) (mode c) v (req_len c) (hdr_buf c) (hdr_len c)
    (hdr_sent c) (mem_body c) (mem_len c) (mem_sent c) (is_head c) (file_fd c)
    (file_size c) (file_sent c) (chunk c) (chunk_len c) (chunk_sent c).

Definition set_req_len (v : Z) (c : client_t) : client_t :=
  mk_client (active c) (fd c) (mode c) (req_buf c) v (hdr_buf c) (hdr_len c)
    (hdr_sent c) (mem_body c) (mem_len c) (mem_sent c) (is_head c) (file_fd c)
    (file_size c) (file_sent c) (chunk c) (chunk_len c) (chunk_sent c).

Definition set_hdr_buf (v : bytes) (c : client_t) : client_t :=
  mk_client (active c) (fd c) (mode c) (req_buf c) (req_len c) v (hdr_len c)
    (hdr_sent c) (mem_body c) (mem_len c) (mem_sent c) (is_head c) (file_fd c)
    (file_size c) (file_sent c) (chunk c) (chunk_len c) (chunk_sent c).

Definition set_hdr_len (v : Z) (c : client_t) : client_t :=
  mk_client (active c) (fd c) (mode c) (req_buf c) (req_len c) (hdr_buf c) v
    (hdr_sent c) (mem_body c) (mem_len c) (mem_sent c) (is_head c) (file_fd c)
    (file_size c) (file_sent c) (chunk c) (chunk_len c) (chunk_sent c).

Definition set_hdr_sent (v : Z) (c : client_t) : client_t :=
  mk_client (active c) (fd c) (mode c) (req_buf c) (req_len c) (hdr_buf c)
    (hdr_len c) v (mem_body c) (mem_len c) (mem_sent c) (is_head c) (file_fd
    c) (file_size c) (file_sent c) (chunk c) (chunk_len c) (chunk_sent c).

Definition set_mem_body (v : bytes) (c : client_t) : client_t :=
  mk_client (active c) (fd c) (mode c) (req_buf c) (req_len c) (hdr_buf c)
    (hdr_len c) (hdr_sent c) v (mem_len c) (mem_sent c) (is_head c) (file_fd
    c) (file_size c) (file_sent c) (chunk c) (chunk_len c) (chunk_sent c).

Definition set_mem_len (v : Z) (c : client_t) : client_t :=
  mk_client (active c) (fd c) (mode c) (req_buf c) (req_len c) (hdr_buf c)
    (hdr_len c) (hdr_sent c) (mem_body c) v (mem_sent c) (is_head c) (file_fd
    c) (file_size c) (file_sent c) (chunk c) (chunk_len c) (chunk_sent c).

Definition set_mem_sent (v : Z) (c : client_t) : client_t :=
  mk_client (active c) (fd c) (mode c) (req_buf c) (req_len c) (hdr_buf c)
    (hdr_len c) (hdr_sent c) (mem_body c) (mem_len c) v (is_head c) (file_fd
    c) (file_size c) (file_sent c) (chunk c) (chunk_len c) (chunk_sent c).

Definition set_is_head (v : bool) (c : client_t) : client_t :=
  mk_client (active c) (fd c) (mode c) (req_buf c) (req_len c) (hdr_buf c)
    (hdr_len c) (hdr_sent c) (mem_body c) (mem_len c) (mem_sent c) v (file_fd
    c) (file_size c) (file_sent c) (chunk c) (chunk_len c) (chunk_sent c).

Definition set_file_fd (v : Z) (c : client_t) : client_t :=
  mk_client (active c) (fd c) (mode c) (req_buf c) (req_len c) (hdr_buf c)
    (hdr_len c) (hdr_sent c) (mem_body c) (mem_len c) (mem_sent c) (is_head c)
    v (file_size c) (file_sent c) (chunk c) (chunk_len c) (chunk_sent c).

Definition set_file_size (v : Z) (c : client_t) : client_t :=
  mk_client (active c) (fd c) (mode c) (req_buf c) (req_len c) (hdr_buf c)
    (hdr_len c) (hdr_sent c) (mem_body c) (mem_len c) (mem_sent c) (is_head c)
    (file_fd c) v (file_sent c) (chunk c) (chunk_len c) (chunk_sent c).

Definition set_file_sent (v : Z) (c : client_t) : client_t :=
  mk_client (active c) (fd c) (mode c) (req_buf c) (req_len c) (hdr_buf c)
    (hdr_len c) (hdr_sent c) (mem_body c) (mem_len c) (mem_sent c) (is_head c)
    (file_fd c) (file_size c) v (chunk c) (chunk_len c) (chunk_sent c).

Definition set_chunk (v : bytes) (c : client_t) : client_t :=
  mk_client (active c) (fd c) (mode c) (req_buf c) (req_len c) (hdr_buf c)
    (hdr_len c) (hdr_sent c) (mem_body c) (mem_len c) (mem_sent c) (is_head c)
    (file_fd c) (file_size c) (file_sent c) v (chunk_len c) (chunk_sent c).

Definition set_chunk_len (v : Z) (c : client_t) : client_t :=
  mk_client (active c) (fd c) (mode c) (req_buf c) (req_len c) (hdr_buf c)
    (hdr_len c) (hdr_sent c) (mem_body c) (mem_len c) (mem_sent c) (is_head c)
    (file_fd c) (file_size c) (file_sent c) (chunk c) v (chunk_sent c).

Definition set_chunk_sent (v : Z) (c : client_t) : client_t :=
  mk_client (active c) (fd c) (mode c) (req_buf c) (req_len c) (hdr_buf c)
    (hdr_len c) (hdr_sent c) (mem_body c) (mem_len c) (mem_sent c) (is_head c)
    (file_fd c) (file_size c) (file_sent c) (chunk c) (chunk_len c) v.

Record server_config_t : Type := mk_config {
  port : bytes;
  doc_root : bytes;          (* canonical (realpath) *)
  max_header_size : Z;
  backlog : Z
}.

Record pollfd : Type := mk_pollfd {
  pfd_fd : Z;
  events : Z;
  revents : Z
}.

Definition POLLIN : Z := 1.
Definition POLLOUT : Z := 4.
Definition POLLERR : Z := 8.
Definition POLLHUP : Z := 16.
Definition POLLNVAL : Z := 32.

(** *** The kernel *)

(** What a system call is answered. *)
Inductive answer : Type :=
| Bytes (bs : bytes)        (* recv, read: the bytes handed over; none at end of stream *)
| Count (k : Z)             (* send: how many bytes the socket takes *)
| Done                      (* a call that succeeds with nothing to report *)
| Fd (n : Z)                (* accept, open: the new descriptor *)
| Ready (revs : list Z)     (* poll: the revents of every entry *)
| Err (e : errno_t).        (* the call fails and sets errno *)

(** What a system call did. *)
Inductive event : Type :=
| EvRecv (s : Z) (bs : bytes)
| EvSend (s : Z) (bs : bytes)
| EvRead (f : Z) (bs : bytes)
| EvOpen (path : bytes) (f : Z)
| EvClose (d : Z).

Record world : Type := mk_world {
  script : list answer;     (* the answers of the calls to come *)
  trace : list event;       (* the calls made so far, oldest first *)
  clock : tm_t              (* what gmtime_r(time(NULL)) gives *)
}.

Definition would_block (e : errno_t) : bool :=
  match e with
  | EAGAIN | EWOULDBLOCK => true
  | _ => false
  end.

(** The bytes every [send] on socket [s] took, in order. *)
Definition sent_on (s : Z) (tr : list event) : bytes :=
  flat_map (fun e => match e with
                     | EvSend s' bs => if s' =? s then bs else []
                     | _ => []
                     end) tr.

(** The bytes every [read] on descriptor [f] returned, in order. *)
Definition read_on (f : Z) (tr : list event) : bytes :=
  flat_map (fun e => match e with
                     | EvRead f' bs => if f' =? f then bs else []
                     | _ => []
                     end) tr.

(** The paths passed to a successful [open]. *)
Definition opened (tr : list event) : list bytes :=
  flat_map (fun e => match e with
                     | EvOpen p _ => [p]
                     | _ => []
                     end) tr.

(** The descriptors passed to [close]. *)
Definition closed (tr : list event) : list Z :=
  flat_map (fun e => match e with
                     | EvClose d => [d]
                     | _ => []
                     end) tr.

(** Conversion to [size_t], with the wrap-around of unsigned arithmetic. *)
Definition to_size (z : Z) : Z := z mod 18446744073709551616.

Definition zeros (n : Z) : bytes := repeat NUL (Z.to_nat n).

(** Writing the bytes [src] into the array [dst] from cell [off] on. *)
Definition buf_write (dst : bytes) (off : Z) (src : bytes) : bytes :=
  firstn (Z.to_nat off) dst ++ src
  ++ skipn (Z.to_nat off + length src) dst.

(** The [n] cells of [buf] from cell [off] on: what [send(fd, buf + off, n)]
    is given. *)
Definition slice (buf : bytes) (off n : Z) : bytes :=
  firstn (Z.to_nat n) (skipn (Z.to_nat off) buf).

(** Return 1 if request buffer contains "\r\n\r\n". *)
Definition has_header_end (buf : bytes) (n : Z) : bool :=
  if n <? 4 then false
  else strstr (firstn (Z.to_nat n) buf) (CRLF ++ CRLF).

(** Reset one client slot. *)
Definition reset_client : client_t :=
  mk_client false (-1) MODE_READING
    (zeros (MAX_HEADER_BYTES + 1)) 0
    (zeros MAX_RESP_HEADER) 0 0
    (zeros MAX_ERROR_BODY) 0 0
    false
    (-1) 0 0
    (zeros FILE_CHUNK) 0 0.

Definition add_event (e : event) (w : world) : world :=
  mk_world (script w) (trace w ++ [e]) (clock w).

(** Close client and clear its poll slot. *)
Definition close_client_slot (pfd : pollfd) (c : client_t) (w : world)
    : pollfd * client_t * world :=
  let w1 := if 0 <=? fd c then add_event (EvClose (fd c)) w else w in
  let w2 := if 0 <=? file_fd c then add_event (EvClose (file_fd c)) w1 else w1 in
  (mk_pollfd (-1) 0 0, reset_client, w2).

(** The generated HTML error page. *)
Definition error_page (status : Z) : bytes :=
  lit "<html><body><h1>" ++ dec status ++ lit " " ++ http_reason_phrase status
  ++ lit "</h1></body></html>" ++ [LF].

(** Build generated HTML error response. *)
Definition make_error_response (gm : tm_t) (c : client_t) (status : Z)
    (is_head_ include_allow : bool) : Z * client_t :=
  (* Error response is memory-backed. *)
  let c := set_is_head is_head_ c in
  let c := set_file_fd (-1) c in
  let c := set_file_size 0 c in
  let c := set_file_sent 0 c in
  let c := set_chunk_len 0 c in
  let c := set_chunk_sent 0 c in
  let n := snprintf_ret (error_page status) in
  let c := set_mem_body
             (snprintf_buf (mem_body c) MAX_ERROR_BODY (error_page status)) c in
  if n <? 0 then (-1, c)
  else
  let c := set_mem_len n c in
  let c := set_mem_sent 0 c in
  let '(h, hdr) :=
    build_response_headers (hdr_buf c) MAX_RESP_HEADER gm status
      (lit "text/html; charset=utf-8") (mem_len c) include_allow in
  let c := set_hdr_buf hdr c in
  if h <? 0 then (-1, c)
  else
  let c := set_hdr_len h c in
  let c := set_hdr_sent 0 c in
  let c := set_mode MODE_WRITING c in
  (0, c).

(** The request record of [prepare_response] before the parser fills it: the
    parser writes both fields on every path whose result is read. *)
Definition fresh_request : http_request_t := mk_request HTTP_METHOD_GET [].

(** Parse request and prepare success/error response state. *)
Definition prepare_response (fs : filesys) (cfg : server_config_t)
    (c : client_t) (w : world) : option (Z * client_t * world) :=
  let '(rc, req) :=
    parse_http_request (firstn (Z.to_nat (req_len c)) (req_buf c)) fresh_request in
  (* Parsing/method errors. *)
  if rc =? 400 then Some (make_error_response (clock w) c 400 false false, w)
  else if rc =? 405 then Some (make_error_response (clock w) c 405 false true, w)
  else
  let is_head_ :=
    match method req with HTTP_METHOD_HEAD => true | _ => false end in
  (* Resolve URL target under doc root safely. *)
  let '(rc, fs_path) := resolve_path fs (doc_root cfg) (target req) [] PATH_MAX in
  if negb (rc =? 0) then
    let rc := if negb (rc =? 400) && negb (rc =? 403) && negb (rc =? 404)
              then 500 else rc in
    Some (make_error_response (clock w) c rc is_head_ false, w)
  else
  (* Stat for existence/type/size. *)
  match fs_stat fs fs_path with
  | inl e =>
      Some (make_error_response (clock w) c (status_from_errno e) is_head_ false, w)
  | inr st =>
      (* Build 200 response headers. *)
      let '(h, hdr) :=
        build_response_headers (hdr_buf c) MAX_RESP_HEADER (clock w) 200
          (guess_mime_type fs_path) (st_size st) false in
      let c := set_hdr_buf hdr c in
      if h <? 0 then Some (make_error_response (clock w) c 500 is_head_ false, w)
      else
      let c := set_hdr_len h c in
      let c := set_hdr_sent 0 c in
      (* No memory body for success path. *)
      let c := set_mem_len 0 c in
      let c := set_mem_sent 0 c in
      let c := set_is_head is_head_ c in
      (* Reset file stream state. *)
      let c := set_file_fd (-1) c in
      let c := set_file_size (st_size st) c in
      let c := set_file_sent 0 c in
      let c := set_chunk_len 0 c in
      let c := set_chunk_sent 0 c in
      (* GET streams file body; HEAD skips body. *)
      if negb is_head_ then
        match script w with
        | Fd n :: rest =>
            if n <? 0 then None
            else
              let w := mk_world rest (trace w ++ [EvOpen fs_path n]) (clock w) in
              Some (0, set_mode MODE_WRITING (set_file_fd n c), w)
        | Err e :: rest =>
            let w := mk_world rest (trace w) (clock w) in
            Some (make_error_response (clock w) c (status_from_errno e)
                    is_head_ false, w)
        | _ => None
        end
      else Some (0, set_mode MODE_WRITING c, w)
  end.

(** Read request bytes until full headers are received.  Every turn of the
    loop starts with one [recv]. *)
Fixpoint recv_loop (fs : filesys) (cfg : server_config_t) (gm : tm_t)
    (scr : list answer) (tr : list event) (c : client_t)
    : option (Z * client_t * world) :=
  match scr with
  | [] => None
  | Bytes bs :: scr' =>
      let room := to_size (max_header_size cfg - req_len c) in
      let data := firstn (Z.to_nat room) bs in
      let n := len data in
      if 0 <? n then
        let tr := tr ++ [EvRecv (fd c) data] in
        let c := set_req_buf (buf_write (req_buf c) (req_len c) data) c in
        let c := set_req_len (req_len c + n) c in
        let c := set_req_buf (buf_write (req_buf c) (req_len c) [NUL]) c in
        (* Reject oversized headers. *)
        if req_len c >=? max_header_size cfg then
          Some (make_error_response gm c 400 false false, mk_world scr' tr gm)
        (* When headers complete, move to response prep. *)
        else if has_header_end (req_buf c) (req_len c) then
          prepare_response fs cfg c (mk_world scr' tr gm)
        (* Keep draining readable bytes this loop. *)
        else recv_loop fs cfg gm scr' tr c
      else Some (-1, c, mk_world scr' tr gm) (* Peer closed. *)
  | Err e :: scr' =>
      if would_block e then Some (0, c, mk_world scr' tr gm) (* Try later. *)
      else Some (-1, c, mk_world scr' tr gm) (* Hard recv error. *)
  | _ :: _ => None
  end.

Definition read_client_request (fs : filesys) (cfg : server_config_t)
    (c : client_t) (w : world) : option (Z * client_t * world) :=
  recv_loop fs cfg (clock w) (script w) (trace w) c.

(** The value of one [send(s, p, count, 0)] answered [Count k]: the socket
    takes [k] bytes, and never more than it is offered. *)
Definition send_count (k count : Z) : Z :=
  if k <=? 0 then 0 else Z.min k count.

(** Send memory buffer with partial-send support.  The result is the
    returned value and [*sent]. *)
Fixpoint send_loop (s : Z) (buf : bytes) (n : Z) (scr : list answer)
    (tr : list event) (sent : Z) : option (Z * Z * list answer * list event) :=
  if sent <? n then
    match scr with
    | [] => None
    | Count k :: scr' =>
        let m := send_count k (n - sent) in
        if 0 <? m then
          send_loop s buf n scr' (tr ++ [EvSend s (slice buf sent m)]) (sent + m)
        else Some (-1, sent, scr', tr)
    | Err e :: scr' =>
        if would_block e then Some (0, sent, scr', tr)
        else Some (-1, sent, scr', tr)
    | _ :: _ => None
    end
  else Some (1, sent, scr, tr). (* Done. *)

Definition send_buffer (s : Z) (buf : bytes) (n sent : Z) (w : world)
    : option (Z * Z * world) :=
  match send_loop s buf n (script w) (trace w) sent with
  | Some (r, sent', scr, tr) => Some (r, sent', mk_world scr tr (clock w))
  | None => None
  end.

(** Stream file body chunk-by-chunk.  The two nested loops of the C function
    are one loop here, a turn per system call: a [read] when no chunk is
    pending ([chunk_len == 0 || chunk_sent == chunk_len]), a [send] while
    [chunk_sent < chunk_len]; with [chunk_sent > chunk_len] the C loops
    would spin without a call. *)
Fixpoint flush_loop (scr : list answer) (tr : list event) (c : client_t)
    : option (Z * client_t * list answer * list event) :=
  match scr with
  | [] => None
  | a :: scr' =>
      if (chunk_len c =? 0) || (chunk_sent c =? chunk_len c) then
        (* Load new chunk if needed. *)
        match a with
        | Bytes bs =>
            let data := firstn (Z.to_nat FILE_CHUNK) bs in
            let r := len data in
            if r =? 0 then Some (1, c, scr', tr) (* EOF *)
            else
              let c := set_chunk (buf_write (chunk c) 0 data) c in
              let c := set_chunk_len r c in
              let c := set_chunk_sent 0 c in
              flush_loop scr' (tr ++ [EvRead (file_fd c) data]) c
        | Err e =>
            match e with
            | EINTR => flush_loop scr' tr c
            | _ => Some (-1, c, scr', tr)
            end
        | _ => None
        end
      else if chunk_sent c <? chunk_len c then
        (* Send current chunk. *)
        match a with
        | Count k =>
            let m := send_count k (chunk_len c - chunk_sent c) in
            if 0 <? m then
              let tr := tr ++ [EvSend (fd c) (slice (chunk c) (chunk_sent c) m)] in
              let c := set_chunk_sent (chunk_sent c + m) c in
              let c := set_file_sent (file_sent c + m) c in
              flush_loop scr' tr c
            else Some (-1, c, scr', tr)
        | Err e =>
            if would_block e then Some (0, c, scr', tr)
            else Some (-1, c, scr', tr)
        | _ => None
        end
      else None
  end.

Definition flush_file (c : client_t) (w : world)
    : option (Z * client_t * world) :=
  if file_fd c <? 0 then Some (1, c, w)
  else
    match flush_loop (script w) (trace w) c with
    | Some (r, c', scr, tr) => Some (r, c', mk_world scr tr (clock w))
    | None => None
    end.

(** Write headers first, then optional body. *)
Definition write_client_response (c : client_t) (w : world)
    : option (Z * client_t * world) :=
  match send_buffer (fd c) (hdr_buf c) (hdr_len c) (hdr_sent c) w with
  | None => None
  | Some (r, sent, w) =>
      let c := set_hdr_sent sent c in
      if r <=? 0 then Some (r, c, w) (* -1 error, 0 would block *)
      (* HEAD is headers-only. *)
      else if is_head c then Some (1, c, w)
      (* Error pages have memory body. *)
      else if 0 <? mem_len c then
        match send_buffer (fd c) (mem_body c) (mem_len c) (mem_sent c) w with
        | None => None
        | Some (r, sent, w) => Some (r, set_mem_sent sent c, w)
        end
      (* Normal GET streams file. *)
      else flush_file c w
  end.

(** Add new client socket to first free slot.  Both tables hold
    [MAX_CLIENTS + 1] entries; [add_client_from] scans the entries from
    index 1 on. *)
Definition claimed_client (client_fd : Z) : client_t :=
  let c := reset_client in
  let c := set_active true c in
  let c := set_fd client_fd c in
  let c := set_mode MODE_READING c in
  set_file_fd (-1) c.

Fixpoint add_client_from (pfds : list pollfd) (clients : list client_t)
    (client_fd : Z) : option (list pollfd * list client_t) :=
  match pfds, clients with
  | p :: ps, c :: cs =>
      if negb (active c) then
        Some (mk_pollfd client_fd POLLIN 0 :: ps, claimed_client client_fd :: cs)
      else
        match add_client_from ps cs client_fd with
        | Some (ps', cs') => Some (p :: ps', c :: cs')
        | None => None
        end
  | _, _ => None
  end.

Definition add_client_to_slot (pfds : list pollfd) (clients : list client_t)
    (client_fd : Z) : Z * list pollfd * list client_t :=
  match pfds, clients with
  | p0 :: ps, c0 :: cs =>
      match add_client_from ps cs client_fd with
      | Some (ps', cs') => (0, p0 :: ps', c0 :: cs')
      | None => (-1, pfds, clients) (* No room. *)
      end
  | _, _ => (-1, pfds, clients)
  end.

(** Accept all pending client connections.  A turn of the loop makes an
    [accept] and, when it succeeds, a [set_nonblocking]: [fuel] bounds the
    turns by the length of the script. *)
Fixpoint accept_loop (fuel : nat) (pfds : list pollfd)
    (clients : list client_t) (w : world)
    : option (list pollfd * list client_t * world) :=
  match fuel with
  | O => None
  | S fuel' =>
      match script w with
      | Fd cfd :: Done :: rest =>
          if cfd <? 0 then None
          else
            let w := mk_world rest (trace w) (clock w) in
            let '(r, pfds', clients') := add_client_to_slot pfds clients cfd in
            (* Drop if client table is full. *)
            if negb (r =? 0) then
              accept_loop fuel' pfds' clients' (add_event (EvClose cfd) w)
            else accept_loop fuel' pfds' clients' w
      | Fd cfd :: Err _ :: rest =>
          if cfd <? 0 then None
          else
            (* Non-blocking client sockets are required for poll loop. *)
            accept_loop fuel' pfds clients
              (add_event (EvClose cfd) (mk_world rest (trace w) (clock w)))
      | Err _ :: rest => Some (pfds, clients, mk_world rest (trace w) (clock w))
      | _ => None
      end
  end.

Definition accept_new_clients (pfds : list pollfd) (clients : list client_t)
    (w : world) : option (list pollfd * list client_t * world) :=
  accept_loop (length (script w)) pfds clients w.

Definition has_flag (rev flags : Z) : bool := negb (Z.land rev flags =? 0).

Definition set_events (v : Z) (p : pollfd) : pollfd :=
  mk_pollfd (pfd_fd p) v (revents p).

(** The body of the loop over the client slots in [run_server]. *)
Definition service_client (fs : filesys) (cfg : server_config_t)
    (p : pollfd) (c : client_t) (w : world)
    : option (pollfd * client_t * world) :=
  if negb (active c) then Some (p, c, w)
  else
  let rev := revents p in
  if rev =? 0 then Some (p, c, w)
  (* Close on poll/socket errors. *)
  else if has_flag rev (Z.lor POLLERR (Z.lor POLLHUP POLLNVAL)) then
    Some (close_client_slot p c w)
  else
  (* Read phase. *)
  let after_read : option (bool * (pollfd * client_t * world)) :=
    if mode_eqb (mode c) MODE_READING && has_flag rev POLLIN then
      match read_client_request fs cfg c w with
      | None => None
      | Some (r, c1, w1) =>
          if r <? 0 then Some (false, close_client_slot p c1 w1)
          (* If response is prepared, switch to write events. *)
          else if mode_eqb (mode c1) MODE_WRITING
          then Some (true, (set_events POLLOUT p, c1, w1))
          else Some (true, (p, c1, w1))
      end
    else Some (true, (p, c, w)) in
  match after_read with
  | None => None
  | Some (false, st) => Some st
  | Some (true, (p, c, w)) =>
      (* Write phase. *)
      if active c && mode_eqb (mode c) MODE_WRITING && has_flag rev POLLOUT then
        match write_client_response c w with
        | None => None
        | Some (wr, c2, w2) =>
            (* Done or failed -> close connection. *)
            if (wr <? 0) || (0 <? wr) then Some (close_client_slot p c2 w2)
            else Some (p, c2, w2)
        end
      else Some (p, c, w)
  end.

(** Handle client events: the slots from index 1 on, in order. *)
Fixpoint service_clients (fs : filesys) (cfg : server_config_t)
    (pfds : list pollfd) (clients : list client_t) (w : world)
    : option (list pollfd * list client_t * world) :=
  match pfds, clients with
  | p :: ps, c :: cs =>
      match service_client fs cfg p c w with
      | None => None
      | Some (p', c', w') =>
          match service_clients fs cfg ps cs w' with
          | None => None
          | Some (ps', cs', w'') => Some (p' :: ps', c' :: cs', w'')
          end
      end
  | _, _ => Some (pfds, clients, w)
  end.

(** What [poll] leaves in the table: entries with a negative descriptor are
    ignored and report nothing. *)
Fixpoint poll_fill (pfds : list pollfd) (revs : list Z) : list pollfd :=
  match pfds with
  | [] => []
  | p :: ps =>
      mk_pollfd (pfd_fd p) (events p)
        (if pfd_fd p <? 0 then 0 else hd 0 revs)
      :: poll_fill ps (tl revs)
  end.

(** The value [poll] returns: the number of entries that report something. *)
Definition poll_count (pfds : list pollfd) : Z :=
  Z.of_nat (length (filter (fun p => negb (revents p =? 0)) pfds)).

(** One turn of the main event loop; the flag tells whether the loop goes
    on ([false] after the [break]). *)
Definition loop_iteration (fs : filesys) (cfg : server_config_t)
    (pfds : list pollfd) (clients : list client_t) (w : world)
    : option (bool * list pollfd * list client_t * world) :=
  match script w with
  | Ready revs :: rest =>
      let w := mk_world rest (trace w) (clock w) in
      let pfds := poll_fill pfds revs in
      if poll_count pfds =? 0 then Some (true, pfds, clients, w) (* timeout *)
      else
        (* Accept new connections. *)
        let accepted :=
          if has_flag (revents (hd (mk_pollfd (-1) 0 0) pfds)) POLLIN
          then accept_new_clients pfds clients w
          else Some (pfds, clients, w) in
        match accepted with
        | None => None
        | Some (pfds, clients, w) =>
            match pfds, clients with
            | p0 :: ps, c0 :: cs =>
                match service_clients fs cfg ps cs w with
                | None => None
                | Some (ps', cs', w') => Some (true, p0 :: ps', c0 :: cs', w')
                end
            | _, _ => Some (true, pfds, clients, w)
            end
        end
  | Err e :: rest =>
      let w := mk_world rest (trace w) (clock w) in
      match e with
      | EINTR => Some (true, pfds, clients, w)
      | _ => Some (false, pfds, clients, w)
      end
  | _ => None
  end.

(** The first [n] turns of the main event loop: the stop flag is still clear
    when each of them starts. *)
Fixpoint event_loop (n : nat) (fs : filesys) (cfg : server_config_t)
    (pfds : list pollfd) (clients : list client_t) (w : world)
    : option (list pollfd * list client_t * world) :=
  match n with
  | O => Some (pfds, clients, w)
  | S n' =>
      match loop_iteration fs cfg pfds clients w with
      | None => None
      | Some (true, pfds', clients', w') => event_loop n' fs cfg pfds' clients' w'
      | Some (false, pfds', clients', w') => Some (pfds', clients', w')
      end
  end.

(** The tables [run_server] starts the loop with: every slot empty, poll
    slot 0 reserved for the listening socket. *)
Definition initial_pfds (listen_fd : Z) : list pollfd :=
  mk_pollfd listen_fd POLLIN 0
  :: repeat (mk_pollfd (-1) 0 0) (Z.to_nat MAX_CLIENTS).

Definition initial_clients : list client_t :=
  repeat reset_client (Z.to_nat (MAX_CLIENTS + 1)).

(** *** Start-up and shutdown *)

(** [strtol] in base 10, as [parse_port_number] calls it. *)

Definition LONG_MAX : Z := 9223372036854775807.
Definition LONG_MIN : Z := -9223372036854775808.

Definition isdigit (c : ascii) : bool := (48 <=? code c) && (code c <=? 57).

(** The digits [strtol] converts, most significant first: the value so far
    and the text left over. *)
Fixpoint strtol_digits (acc : Z) (s : bytes) : Z * bytes :=
  match s with
  | c :: s' =>
      if isdigit c then strtol_digits (acc * 10 + (code c - 48)) s' else (acc, s)
  | [] => (acc, [])
  end.

(** [strtol(s, &end, 10)]: the value and the text [end] points to.  White
    space and one sign are skipped; without a digit nothing is converted and
    [end] is [s]; a value outside [long] is clamped. *)
Definition strtol (s : bytes) : Z * bytes :=
  let s1 := skip_space s in
  let '(neg, s2) :=
    match s1 with
    | c :: r =>
        if Ascii.eqb c "-"%char then (true, r)
        else if Ascii.eqb c "+"%char then (false, r)
        else (false, s1)
    | [] => (false, s1)
    end in
  match s2 with
  | c :: _ =>
      if isdigit c then
        let '(v, rest) := strtol_digits 0 s2 in
        (if neg then Z.max LONG_MIN (- v) else Z.min LONG_MAX v, rest)
      else (0, s)
  | [] => (0, s)
  end.

(** Validate numeric TCP port. *)
Definition parse_port_number (port_str : bytes) : Z :=
  match port_str with
  | [] => -1
  | _ :: _ =>
      let '(v, e) := strtol port_str in
      match e with
      | _ :: _ => -1
      | [] => if (v <? 1) || (v >? 65535) then -1 else to_int v
      end
  end.

(** What the start-up code asks of the C library and of the file system
    besides [realpath] and [stat]: whether [inet_pton] accepts a text as an
    IPv4 or an IPv6 literal, and whether the mode [stat] reports for a path
    is that of a directory. *)
Record host_t : Type := mk_host {
  inet_pton4 : bytes -> bool;
  inet_pton6 : bytes -> bool;
  st_isdir : bytes -> bool
}.

(** Validate literal IPv4/IPv6 string. *)
Definition is_valid_ip_literal (h : host_t) (ip : bytes) : bool :=
  match ip with
  | [] => false
  | _ :: _ =>
      if inet_pton4 h ip then true
      else if inet_pton6 h ip then true
      else false
  end.

(** Parse CLI args: <ip> <port> <doc_root>.  [argv] holds the [argc]
    arguments; the result is the returned value, [*cfg] and [g_bind_ip]
    (the messages written to stderr are left out). *)
Definition parse_arguments (h : host_t) (fs : filesys) (argv : list bytes)
    (g_bind_ip : bytes) : Z * server_config_t * bytes :=
  (* Default config values. *)
  let cfg := mk_config [] [] 8192 128 in
  match argv with
  | [_; ip; port_str; root] =>
      (* Validate and store bind IP. *)
      if negb (is_valid_ip_literal h ip) then (-1, cfg, g_bind_ip)
      else
      let g_bind_ip := snprintf_str 64 ip in
      (* Validate and store port. *)
      if parse_port_number port_str <? 0 then (-1, cfg, g_bind_ip)
      else
      let cfg := mk_config (snprintf_str 16 port_str) (doc_root cfg)
                   (max_header_size cfg) (backlog cfg) in
      (* Canonicalize and validate document root. *)
      match realpath fs root with
      | inl _ => (-1, cfg, g_bind_ip)
      | inr canonical =>
          match fs_stat fs canonical with
          | inl _ => (-1, cfg, g_bind_ip)
          | inr _ =>
              if negb (st_isdir h canonical) then (-1, cfg, g_bind_ip)
              else
              let cfg := mk_config (port cfg) (snprintf_str PATH_MAX canonical)
                           (max_header_size cfg) (backlog cfg) in
              (* Clamp max header size to safe limits. *)
              let cfg :=
                if (max_header_size cfg <=? 0)
                   || (max_header_size cfg >? MAX_HEADER_BYTES)
                then mk_config (port cfg) (doc_root cfg) 8192 (backlog cfg)
                else cfg in
              (0, cfg, g_bind_ip)
          end
      end
  | _ => (-1, cfg, g_bind_ip) (* Expect exactly 3 args after program name. *)
  end.

(** The candidates of [getaddrinfo], tried in order until one succeeds:
    [socket] is answered a descriptor or fails; [bind], [listen] and
    [set_nonblocking] are called in turn as long as they succeed, and a
    socket on which one of them fails is closed.  The result is the
    listening socket, or -1 when the [k] candidates are used up. *)
Fixpoint try_candidates (k : nat) (w : world) : option (Z * world) :=
  match k with
  | O => Some (-1, w)
  | S k' =>
      match script w with
      | Err _ :: rest =>
          try_candidates k' (mk_world rest (trace w) (clock w))
      | Fd fd :: rest =>
          if fd <? 0 then None
          else
            match rest with
            | Done :: Done :: Done :: rest' =>
                Some (fd, mk_world rest' (trace w) (clock w))
            | Err _ :: rest'
            | Done :: Err _ :: rest'
            | Done :: Done :: Err _ :: rest' =>
                try_candidates k'
                  (add_event (EvClose fd) (mk_world rest' (trace w) (clock w)))
            | _ => None
            end
      | _ => None
      end
  end.

(** Create, bind, listen, and set non-blocking listening socket.
    [getaddrinfo] is answered the number of candidates ([Count k]) or
    fails. *)
Definition init_server_socket (bind_ip port_ : bytes) (backlog_ : Z)
    (w : world) : option (Z * world) :=
  match script w with
  | Err _ :: rest => Some (-1, mk_world rest (trace w) (clock w))
  | Count k :: rest =>
      try_candidates (Z.to_nat k) (mk_world rest (trace w) (clock w))
  | _ => None
  end.

(** Cleanup active clients: the slots from index 1 on. *)
Fixpoint close_active (pfds : list pollfd) (clients : list client_t)
    (w : world) : list pollfd * list client_t * world :=
  match pfds, clients with
  | p :: ps, c :: cs =>
      let '(p', c', w') :=
        if active c then close_client_slot p c w else (p, c, w) in
      let '(ps', cs', w'') := close_active ps cs w' in
      (p' :: ps', c' :: cs', w'')
  | _, _ => (pfds, clients, w)
  end.

(** Run poll-based server loop.  [turns] is the number of turns the main
    loop starts before it sees the stop flag set, [alloc_ok] whether both
    [calloc] calls succeed; the result is the value returned (what is
    printed is left out). *)
Definition run_server (turns : nat) (alloc_ok : bool) (fs : filesys)
    (cfg : server_config_t) (g_bind_ip : bytes) (w : world)
    : option (Z * world) :=
  (* Initialize listening socket. *)
  match init_server_socket g_bind_ip (port cfg) (backlog cfg) w with
  | None => None
  | Some (listen_fd, w) =>
      if listen_fd <? 0 then Some (1, w)
      (* Allocate poll and client arrays. *)
      else if negb alloc_ok then Some (1, add_event (EvClose listen_fd) w)
      else
        (* Main event loop. *)
        match event_loop turns fs cfg (initial_pfds listen_fd)
                initial_clients w with
        | None => None
        | Some (pfds, clients, w) =>
            (* Cleanup active clients. *)
            let '(_, _, w) := close_active (tl pfds) (tl clients) w in
            Some (0, add_event (EvClose listen_fd) w)
        end
  end.

(** Entry point: parse CLI args, then start server.  [g_bind_ip] starts out
    as its initializer. *)
Definition main (h : host_t) (fs : filesys) (argv : list bytes)
    (turns : nat) (alloc_ok : bool) (w : world) : option (Z * world) :=
  let '(rc, cfg, g_bind_ip) := parse_arguments h fs argv (lit "0.0.0.0") in
  (* Validate and load config from command line. *)
  if negb (rc =? 0) then Some (1, w)
  (* Run server loop. *)
  else run_server turns alloc_ok fs cfg g_bind_ip w.

(** *** What a slot has staged *)

(** The header block a slot has staged: the first [hdr_len] cells of
    [hdr_buf]; and its in-memory body. *)
Definition staged_headers (c : client_t) : bytes :=
  firstn (Z.to_nat (hdr_len c)) (hdr_buf c).

Definition staged_body (c : client_t) : bytes :=
  firstn (Z.to_nat (mem_len c)) (mem_body c).

(** The slot [make_error_response] leaves when both of its [snprintf] calls
    fit. *)
Definition error_response (gm : tm_t) (c : client_t) (status : Z)
    (is_head_ include_allow : bool) : client_t :=
  let page := error_page status in
  let text := header_text (format_http_date gm) status
                (lit "text/html; charset=utf-8") (len page) include_allow in
  mk_client (active c) (fd c) MODE_WRITING (req_buf c) (req_len c)
    (snprintf_buf (hdr_buf c) MAX_RESP_HEADER text) (len text) 0
    (snprintf_buf (mem_body c) MAX_ERROR_BODY page) (len page) 0
    is_head_ (-1) 0 0 (chunk c) 0 0.

(** The slot [prepare_response] leaves on its 200 path, with [ffd] in
    [file_fd]. *)
Definition file_response (gm : tm_t) (c : client_t) (fs_path : bytes)
    (st : stat_t) (is_head_ : bool) (ffd : Z) : client_t :=
  let text := header_text (format_http_date gm) 200 (guess_mime_type fs_path)
                (st_size st) false in
  mk_client (active c) (fd c) MODE_WRITING (req_buf c) (req_len c)
    (snprintf_buf (hdr_buf c) MAX_RESP_HEADER text) (len text) 0
    (mem_body c) 0 0
    is_head_ ffd (st_size st) 0 (chunk c) 0 0.

(** Total bytes sent on any buffer never exceeds that buffer's length. *)
Definition sent_inv (c : client_t) : Prop :=
  0 <= hdr_sent c <= hdr_len c /\
  0 <= mem_sent c <= mem_len c /\
  0 <= chunk_sent c <= chunk_len c.

(** The part of the current chunk that is read but not yet sent. *)
Definition pending_chunk (c : client_t) : bytes :=
  slice (chunk c) (chunk_sent c) (chunk_len c - chunk_sent c).

(** The successive write transitions the event loop makes for one slot: it
    calls [write_client_response] again at the next writability notification
    as long as the call returns 0, and closes the slot otherwise. *)
Fixpoint write_turns (n : nat) (c : client_t) (w : world)
    : option (Z * client_t * world) :=
  match n with
  | O => Some (0, c, w)
  | S n' =>
      match write_client_response c w with
      | None => None
      | Some (r, c', w') =>
          if r =? 0 then write_turns n' c' w' else Some (r, c', w')
      end
  end.

(** Events that are sends on socket [s], or reads on descriptor [f]. *)
Definition is_send_on (s : Z) (e : event) : Prop :=
  exists bs, e = EvSend s bs.

Definition is_send_or_read (s f : Z) (e : event) : Prop :=
  (exists bs, e = EvSend s bs) \/ (exists bs, e = EvRead f bs).

(** The fields of a slot other than the chunk cursor ([chunk], [chunk_len],
    [chunk_sent], [file_sent]). *)
Definition outside_chunk (c : client_t) :=
  (active c, fd c, mode c, req_buf c, req_len c,
   (hdr_buf c, hdr_len c, hdr_sent c), (mem_body c, mem_len c, mem_sent c),
   is_head c, file_fd c, file_size c).

(** The fields of a slot that no write transition assigns. *)
Definition static_part (c : client_t) :=
  (active c, fd c, mode c, req_buf c, req_len c,
   (hdr_buf c, hdr_len c), (mem_body c, mem_len c),
   is_head c, file_fd c, file_size c).

(** The body of the response a slot has staged, given the events since it
    was staged: none for HEAD, the generated page for an error, and for a
    file whatever [read] returned on the open descriptor. *)
Definition response_body (c : client_t) (evs : list event) : bytes :=
  if is_head c then []
  else if 0 <? mem_len c then staged_body c
  else if file_fd c <? 0 then []
  else read_on (file_fd c) evs.

(** A slot as [prepare_response] and [make_error_response] leave it: nothing
    sent yet, no chunk loaded. *)
Definition fresh_response (c : client_t) : Prop :=
  hdr_sent c = 0 /\ mem_sent c = 0 /\ chunk_len c = 0 /\ chunk_sent c = 0 /\
  0 <= hdr_len c /\ 0 <= mem_len c.

(** What the socket has received once the header block is out, [evs] being
    the events since the response was staged. *)
Definition body_inv (c : client_t) (evs : list event) : Prop :=
  if is_head c then sent_on (fd c) evs = staged_headers c
  else if 0 <? mem_len c then
    sent_on (fd c) evs
    = staged_headers c ++ firstn (Z.to_nat (mem_sent c)) (mem_body c)
  else if file_fd c <? 0 then sent_on (fd c) evs = staged_headers c
  else
    sent_on (fd c) evs ++ pending_chunk c
    = staged_headers c ++ read_on (file_fd c) evs.

(** What the socket has received while the header block is not out yet. *)
Definition head_inv (c : client_t) (evs : list event) : Prop :=
  sent_on (fd c) evs = firstn (Z.to_nat (hdr_sent c)) (hdr_buf c) /\
  mem_sent c = 0 /\ pending_chunk c = [] /\ read_on (file_fd c) evs = [].

Definition wire_inv (c : client_t) (evs : list event) : Prop :=
  sent_inv c /\
  (hdr_sent c < hdr_len c -> head_inv c evs) /\
  (hdr_sent c = hdr_len c -> body_inv c evs).

(** Whether the next system call of a write transition on the slot is a
    [send]: the header block is not out, or a body byte is waiting. *)
Definition next_call_is_send (c : client_t) : bool :=
  (hdr_sent c <? hdr_len c) ||
  negb (is_head c) &&
  (if 0 <? mem_len c then mem_sent c <? mem_len c
   else negb (file_fd c <? 0) &&
        negb ((chunk_len c =? 0) || (chunk_sent c =? chunk_len c)) &&
        (chunk_sent c <? chunk_len c)).

(** The answers a destination that takes one byte per [send] gives while a
    file response goes out: a header block of [hlen] bytes, then the chunks
    [read] returns, each forwarded byte by byte, then the end of the file. *)
Definition one_byte_script (hlen : nat) (chunks : list bytes) : list answer :=
  repeat (Count 1) hlen
  ++ flat_map (fun ch => Bytes ch :: repeat (Count 1) (length ch)) chunks
  ++ [Bytes []].

(** *** Descriptors, arrays and tables *)

(** The value of a run of decimal digits. *)
Definition digits_value (ds : bytes) : Z :=
  fold_left (fun a c => a * 10 + (code c - 48)) ds 0.

(** The descriptors a script hands out: the answers of [socket], [accept]
    and [open]. *)
Definition handed (scr : list answer) : list Z :=
  flat_map (fun a => match a with Fd n => [n] | _ => [] end) scr.

(** The descriptors a slot holds: its socket and its open file. *)
Definition held (c : client_t) : list Z :=
  (if 0 <=? fd c then [fd c] else [])
  ++ (if 0 <=? file_fd c then [file_fd c] else []).

(** The bytes every [recv] on socket [s] returned, in order. *)
Definition recv_on (s : Z) (tr : list event) : bytes :=
  flat_map (fun e => match e with
                     | EvRecv s' bs => if s' =? s then bs else []
                     | _ => []
                     end) tr.

(** From [w] to [w']: the calls in between consumed the answers [used] and
    made the events [evs]. *)
Definition advances (w w' : world) (used : list answer) (evs : list event)
    : Prop :=
  script w = used ++ script w' /\ trace w' = trace w ++ evs /\
  clock w' = clock w.

(** Between [w] and [w'] the descriptors handed out, with those held
    [before], are the descriptors closed, with those held [after]: each one
    as often on both sides. *)
Definition balanced (w w' : world) (before after : list Z) : Prop :=
  exists used evs,
    advances w w' used evs /\
    Permutation (handed used ++ before) (closed evs ++ after).

(** Events that are a [send] or a [read]. *)
Definition is_io (e : event) : Prop :=
  match e with
  | EvSend _ _ | EvRead _ _ => True
  | _ => False
  end.

(** The arrays of a slot keep their declared sizes and the lengths recorded
    for them stay inside: no write goes past the end of an array. *)
Definition arrays_inv (cfg : server_config_t) (c : client_t) : Prop :=
  len (req_buf c) = MAX_HEADER_BYTES + 1 /\
  len (hdr_buf c) = MAX_RESP_HEADER /\
  len (mem_body c) = MAX_ERROR_BODY /\
  len (chunk c) = FILE_CHUNK /\
  0 <= req_len c <= max_header_size cfg /\
  0 <= hdr_len c < MAX_RESP_HEADER /\
  0 <= mem_len c < MAX_ERROR_BODY /\
  0 <= chunk_len c <= FILE_CHUNK.

(** While a slot is read into, there is room left for at least one byte and
    the terminating NUL. *)
Definition buffers_inv (cfg : server_config_t) (c : client_t) : Prop :=
  arrays_inv cfg c /\
  (mode c = MODE_READING -> req_len c < max_header_size cfg).

(** A poll entry and the client slot of the same index agree. *)
Definition slot_coherent (p : pollfd) (c : client_t) : Prop :=
  if active c then
    0 <= fd c /\ pfd_fd p = fd c /\
    match mode c with
    | MODE_READING => events p = POLLIN /\ file_fd c = -1
    | MODE_WRITING => events p = POLLOUT /\ (file_fd c = -1 \/ 0 <= file_fd c)
    end
  else p = mk_pollfd (-1) 0 0 /\ c = reset_client.

(** What the event loop keeps of the two tables: their lengths, client slot
    0, and the descriptor and the events of poll entry 0. *)
Definition same_frame (pfds pfds' : list pollfd) (clients clients' : list client_t)
    : Prop :=
  length pfds' = length pfds /\ length clients' = length clients /\
  hd_error clients' = hd_error clients /\
  option_map (fun p => (pfd_fd p, events p)) (hd_error pfds')
  = option_map (fun p => (pfd_fd p, events p)) (hd_error pfds).

(** The answers [accept] and [set_nonblocking] get for a queue of pending
    connections, each with its new descriptor and with whether it could be
    made non-blocking. *)
Definition pending_answers (conns : list (Z * bool)) : list answer :=
  flat_map (fun conn : Z * bool =>
              [Fd (fst conn); if snd conn then Done else Err EIO]) conns.

(** *** Notions of the specification *)




(** The substrings the traversal pre-filter looks for anywhere in the
    cleaned target. *)
Definition prefilter_patterns : list bytes :=
  [lit "\"; lit "/../"; lit "%2e%2e"; lit "%2E%2E"; lit "%2e."; lit ".%2e";
   lit "%2E."].

(** A hit of the pre-filter at [pat], [post] being what follows it in the
    target: one of the substrings, or a "/.." that ends the path part. *)
Definition prefilter_hit (pat post : bytes) : Prop :=
  In pat prefilter_patterns \/
  (pat = lit "/.." /\
   match post with [] => True | c :: _ => is_stop c = true end).

(** A token of a request line: no white space and no NUL in it. *)
Definition is_token (s : bytes) : bool :=
  negb (existsb (fun c => isspace c || Ascii.eqb c NUL) s).

(** The request line [METHOD SP TARGET SP VERSION]. *)
Definition request_line (m t v : bytes) : bytes :=
  m ++ " "%char :: t ++ " "%char :: v.




(** *** Auxiliary notions for the proofs *)

(** No ['/'] of the needle is followed by ['i']. *)
Fixpoint no_slash_i (n : bytes) : bool :=
  match n with
  | [] => true
  | x :: n' =>
      match n' with
      | y :: _ => negb (Ascii.eqb x "/"%char && Ascii.eqb y "i"%char)
      | [] => true
      end && no_slash_i n'
  end.

(** The test of [contains_traversal] for a trailing ["/.."]. *)
Definition ends_with_dotdot (p : bytes) : bool :=
  (3 <=? len p) && bytes_eqb (last_n 3 p) (lit "/..").

(** *** Sample values for the examples *)

Definition sample_time : tm_t := mk_tm 7 6 5 1 10 126 0.

(** A sample tree for the examples: [/srv/www] holds [index.html] (five
    bytes), a directory literally named [.%2E] with a file [x], and a symlink
    [leak] that points out of the root. *)
Definition sample_fs : filesys :=
  mk_fs
    (fun p =>
       if bytes_eqb p (lit "/srv/www/index.html") then inr p
       else if bytes_eqb p (lit "/srv/www/.%2E/x") then inr p
       else if bytes_eqb p (lit "/srv/www/leak") then inr (lit "/etc/passwd")
       else inl ENOENT)
    (fun p =>
       if bytes_eqb p (lit "/srv/www/index.html") then inr (mk_stat 5 true)
       else if bytes_eqb p (lit "/srv/www/.%2E/x") then inr (mk_stat 7 true)
       else if bytes_eqb p (lit "/etc/passwd") then inr (mk_stat 999 true)
       else inl ENOENT).

Definition sample_cfg : server_config_t :=
  mk_config (lit "8080") (lit "/srv/www") 8192 128.

(** A slot whose request buffer holds a HEAD request for [/index.html]. *)
Definition sample_head_request : bytes :=
  lit "HEAD /index.html HTTP/1.1" ++ CRLF ++ lit "Host: localhost" ++ CRLF ++ CRLF.

(** The slot of socket 5 once [raw] has been received. *)
Definition slot_with_request (raw : bytes) : client_t :=
  set_req_len (len raw)
    (set_req_buf (buf_write (req_buf reset_client) 0 raw) (claimed_client 5)).

Definition sample_head_slot : client_t := slot_with_request sample_head_request.


Definition sample_open : world := mk_world [Fd 9] [] sample_time.


Definition sample_idle : world := mk_world [] [] sample_time.

Definition sample_head_prepared : client_t :=
  match prepare_response sample_fs sample_cfg sample_head_slot sample_idle with
  | Some (_, c, _) => c
  | None => sample_head_slot
  end.


(** A slot with a staged 404 page on socket 5. *)
Definition sample_error_slot : client_t :=
  error_response sample_time (claimed_client 5) 404 false false.

(** A socket that takes ten bytes, then blocks, then one byte, then blocks,
    then the rest of the header block, then the whole page. *)
Definition sample_sends : world :=
  mk_world [Count 10; Err EAGAIN; Count 1; Err EWOULDBLOCK; Count 5000;
            Count 5000] [] sample_time.

Definition sample_written : Z * client_t * world :=
  match write_turns 3 sample_error_slot sample_sends with
  | Some res => res
  | None => (0, sample_error_slot, sample_sends)
  end.

(** A request whose method token has sixteen bytes. *)
Definition sample_long_method_slot : client_t :=
  slot_with_request (lit "ABCDEFGHIJKLMNOP /x HTTP/1.1" ++ CRLF ++ CRLF).

(** A request line with a fourth token. *)
Definition sample_extra_token_slot : client_t :=
  slot_with_request (lit "GET /index.html HTTP/1.1 extra" ++ CRLF ++ CRLF).

Definition sample_extra_token_prepared : Z * client_t * world :=
  match prepare_response sample_fs sample_cfg sample_extra_token_slot sample_open with
  | Some res => res
  | None => (0, sample_extra_token_slot, sample_open)
  end.

(** A PUT request. *)
Definition sample_put_slot : client_t :=
  slot_with_request (request_line (lit "PUT") (lit "/index.html") (lit "HTTP/1.1")
                     ++ CRLF ++ CRLF).

(** A whole exchange: a connection arrives on the listening socket 3 and is
    accepted as socket 7; its GET request is read and [/index.html] opened
    as descriptor 9; the header block and the five bytes of the file are
    sent, and the slot is closed. *)
Definition sample_session : world :=
  mk_world
    [Ready [POLLIN]; Fd 7; Done; Err EAGAIN;
     Ready [0; POLLIN];
     Bytes (lit "GET /index.html HTTP/1.1" ++ CRLF ++ CRLF); Fd 9;
     Ready [0; POLLOUT];
     Count 5000; Bytes (lit "hello"); Count 5000; Bytes []]
    [] sample_time.

Definition sample_served : list pollfd * list client_t * world :=
  match event_loop 3 sample_fs sample_cfg (initial_pfds 3) initial_clients
          sample_session with
  | Some res => res
  | None => (initial_pfds 3, initial_clients, sample_session)
  end.



(** A host for the examples: it knows the literals 127.0.0.1 and ::1, and
    the tree of [sample_fs] with its root [/srv/www], reached from the
    working directory as [./www]. *)
Definition sample_host : host_t :=
  mk_host (fun ip => bytes_eqb ip (lit "127.0.0.1"))
          (fun ip => bytes_eqb ip (lit "::1"))
          (fun p => bytes_eqb p (lit "/srv/www")).

Definition sample_boot_fs : filesys :=
  mk_fs
    (fun p => if bytes_eqb p (lit "./www") then inr (lit "/srv/www")
              else fs_realpath sample_fs p)
    (fun p => if bytes_eqb p (lit "/srv/www") then inr (mk_stat 4096 false)
              else fs_stat sample_fs p).

Definition sample_argv : list bytes :=
  [lit "./server"; lit "127.0.0.1"; lit "8080"; lit "./www"].

(** A turn of the loop on the slot with the staged 404 page, when the
    socket is writable and takes whatever it is offered. *)
Definition sample_write_turn : pollfd * client_t * world :=
  match service_client sample_fs sample_cfg (mk_pollfd 5 POLLOUT POLLOUT)
          sample_error_slot (mk_world [Count 5000; Count 5000] [] sample_time) with
  | Some res => res
  | None => (mk_pollfd 5 POLLOUT POLLOUT, sample_error_slot, sample_idle)
  end.

(** Small tables: entry 0 for the listening socket 3, slot 1 in use by
    socket 7, slot 2 free. *)
Definition sample_small_pfds : list pollfd :=
  [mk_pollfd 3 POLLIN 0; mk_pollfd 7 POLLIN 0; mk_pollfd (-1) 0 0].

Definition sample_small_clients : list client_t :=
  [reset_client; claimed_client 7; reset_client].

(** A whole run: [getaddrinfo] gives two candidates; [listen] fails on the
    first, socket 3, and the second, socket 4, becomes the listening socket;
    then the exchange of [sample_session] takes place. *)
Definition sample_run : world :=
  mk_world
    ([Count 2; Fd 3; Done; Err EIO; Fd 4; Done; Done; Done]
     ++ script sample_session)
    [] sample_time.

Definition sample_ran : Z * world :=
  match run_server 3 true sample_fs sample_cfg (lit "127.0.0.1") sample_run with
  | Some res => res
  | None => (1, sample_run)
  end.

(** A request that arrives in two pieces. *)
Definition sample_pieces : world :=
  mk_world [Bytes (lit "GET /index.html HT"); Bytes (lit "TP/1.1");
            Err EAGAIN] [] sample_time.

Definition sample_received : Z * client_t * world :=
  match read_client_request sample_fs sample_cfg (claimed_client 5)
          sample_pieces with
  | Some res => res
  | None => (0, claimed_client 5, sample_pieces)
  end.

(** The whole program on the command line of [sample_argv] and the kernel
    of [sample_run]. *)
Definition sample_main : Z * world :=
  match main sample_host sample_boot_fs sample_argv 3 true sample_run with
  | Some res => res
  | None => (1, sample_run)
  end.

(** A slot whose request buffer holds a GET request for [/index.html]. *)
Definition sample_get_request : bytes :=
  lit "GET /index.html HTTP/1.1" ++ CRLF ++ lit "Host: localhost" ++ CRLF ++ CRLF.

Definition sample_get_slot : client_t := slot_with_request sample_get_request.

Definition sample_get_prepared : Z * client_t * world :=
  match prepare_response sample_fs sample_cfg sample_get_slot sample_open with
  | Some res => res
  | None => (0, sample_get_slot, sample_open)
  end.

Definition sample_head_prepared_open : Z * client_t * world :=
  match prepare_response sample_fs sample_cfg sample_head_slot sample_open with
  | Some res => res
  | None => (0, sample_head_slot, sample_open)
  end.





(** * Properties *)

(** ** Bytes and C strings *)

Lemma len_nonneg (s : bytes) : 0 <= len s.
Proof. unfold len. lia. Qed.

Lemma len_app (a b : bytes) : len (a ++ b) = len a + len b.
Proof. unfold len. rewrite length_app. lia. Qed.

Lemma len_cons (x : ascii) (s : bytes) : len (x :: s) = 1 + len s.
Proof. unfold len. simpl length. lia. Qed.

Lemma bytes_eqb_refl (a : bytes) : bytes_eqb a a = true.
Proof.
  induction a as [|x a IH]; simpl; [reflexivity|].
  now rewrite Ascii.eqb_refl, IH.
Qed.

Lemma bytes_eqb_eq (a b : bytes) : bytes_eqb a b = true <-> a = b.
Proof.
  split.
  - revert b. induction a as [|x a IH]; intros [|y b]; simpl; try discriminate; auto.
    intros H. apply andb_prop in H as [Hx Hab].
    apply Ascii.eqb_eq in Hx. subst y. f_equal. now apply IH.
  - intros ->. apply bytes_eqb_refl.
Qed.

Lemma bytes_eqb_neq (a b : bytes) : bytes_eqb a b = false <-> a <> b.
Proof.
  split.
  - intros H E. apply bytes_eqb_eq in E. congruence.
  - intros H. destruct (bytes_eqb a b) eqn:E; [|reflexivity].
    apply bytes_eqb_eq in E. contradiction.
Qed.

Lemma is_prefix_app (p s : bytes) : is_prefix p (p ++ s) = true.
Proof.
  induction p as [|x p IH]; simpl; [reflexivity|].
  now rewrite Ascii.eqb_refl, IH.
Qed.

Lemma is_prefix_split (p s : bytes) :
  is_prefix p s = true -> exists r, s = p ++ r.
Proof.
  revert s. induction p as [|x p IH]; intros s H.
  - now exists s.
  - destruct s as [|y s]; simpl in H; [discriminate|].
    apply andb_prop in H as [Hx Hp]. apply Ascii.eqb_eq in Hx. subst y.
    destruct (IH _ Hp) as [r ->]. now exists r.
Qed.

Lemma is_prefix_firstn (p s : bytes) :
  is_prefix p s = true -> firstn (length p) s = p.
Proof.
  intros H. destruct (is_prefix_split _ _ H) as [r ->].
  rewrite firstn_app, Nat.sub_diag, firstn_all. simpl. apply app_nil_r.
Qed.

Lemma strstr_here (hay needle : bytes) :
  is_prefix needle hay = true -> strstr hay needle = true.
Proof. intros H. destruct hay; simpl in *; rewrite H; reflexivity. Qed.

Lemma strstr_later (x : ascii) (hay needle : bytes) :
  strstr hay needle = true -> strstr (x :: hay) needle = true.
Proof. intros H. simpl. rewrite H. apply orb_true_r. Qed.

Lemma strstr_infix (pre needle post : bytes) :
  strstr (pre ++ needle ++ post) needle = true.
Proof.
  induction pre as [|x pre IH].
  - simpl app. apply strstr_here, is_prefix_app.
  - simpl app. now apply strstr_later.
Qed.

Lemma last_n_app (a b : bytes) : last_n (length b) (a ++ b) = b.
Proof.
  unfold last_n. rewrite length_app.
  replace (length a + length b - length b)%nat with (length a) by lia.
  rewrite skipn_app, skipn_all, Nat.sub_diag. reflexivity.
Qed.

(** ** Casts *)

Lemma to_int_small (z : Z) : 0 <= z <= INT_MAX -> to_int z = z.
Proof.
  unfold to_int, INT_MAX. intros H.
  rewrite Z.mod_small by lia. lia.
Qed.

Lemma to_int_le (z : Z) : 0 <= z -> to_int z <= z.
Proof.
  unfold to_int. intros H.
  pose proof (Z.mod_le (z + 2147483648) 4294967296 ltac:(lia) ltac:(lia)). lia.
Qed.

Lemma to_size_small (z : Z) : 0 <= z < 18446744073709551616 -> to_size z = z.
Proof. unfold to_size. intros H. now apply Z.mod_small. Qed.

(** ** The length of what the formatting functions print *)

Lemma digits_rev_length (fuel : nat) (n : Z) :
  (length (digits_rev fuel n) <= fuel)%nat.
Proof.
  revert n. induction fuel as [|f IH]; intros n; simpl; [lia|].
  destruct (n <? 10); simpl; [lia|]. specialize (IH (n / 10)). lia.
Qed.

Lemma dec_length (z : Z) : (length (dec z) <= 21)%nat.
Proof.
  unfold dec. destruct (z <? 0); cbn [length]; rewrite length_rev.
  - pose proof (digits_rev_length 20 (- z)). lia.
  - pose proof (digits_rev_length 20 z). lia.
Qed.

Lemma dec2_length (z : Z) : (length (dec2 z) <= 22)%nat.
Proof.
  unfold dec2. pose proof (dec_length z).
  destruct ((0 <=? z) && (z <? 10)); cbn [length]; lia.
Qed.

Lemma name_of_length (names : list string) (i : Z) :
  Forall (fun s => (length (lit s) <= 3)%nat) names ->
  (length (name_of names i) <= 3)%nat.
Proof.
  intros H. unfold name_of.
  destruct ((0 <=? i) && (i <? Z.of_nat (length names))) eqn:E; [|simpl; lia].
  apply andb_prop in E as [E1 E2]. apply Z.leb_le in E1. apply Z.ltb_lt in E2.
  rewrite Forall_forall in H. apply H, nth_In. lia.
Qed.

Lemma format_http_date_length (gm : tm_t) :
  (length (format_http_date gm) <= 127)%nat.
Proof.
  unfold format_http_date. repeat rewrite length_app.
  pose proof (dec2_length (tm_mday gm)). pose proof (dec2_length (tm_hour gm)).
  pose proof (dec2_length (tm_min gm)). pose proof (dec2_length (tm_sec gm)).
  pose proof (dec_length (tm_year gm + 1900)).
  assert (H4 : (length (name_of ["Sun"; "Mon"; "Tue"; "Wed"; "Thu"; "Fri"; "Sat"]%string
                          (tm_wday gm)) <= 3)%nat).
  { apply name_of_length. repeat (constructor; [simpl; lia|]). constructor. }
  assert (H5 : (length (name_of ["Jan"; "Feb"; "Mar"; "Apr"; "May"; "Jun";
                                 "Jul"; "Aug"; "Sep"; "Oct"; "Nov"; "Dec"]%string
                          (tm_mon gm)) <= 3)%nat).
  { apply name_of_length. repeat (constructor; [simpl; lia|]). constructor. }
  simpl (length (lit _)). lia.
Qed.

Lemma http_reason_phrase_length (status : Z) :
  (length (http_reason_phrase status) <= 21)%nat.
Proof.
  unfold http_reason_phrase.
  repeat match goal with |- context [if ?b then _ else _] => destruct b end;
    simpl; lia.
Qed.

Lemma header_text_length (date : bytes) (status : Z) (ct : bytes) (cl : Z)
    (allow : bool) :
  (length (header_text date status ct cl allow)
   <= 184 + length date + length ct)%nat.
Proof.
  unfold header_text. repeat rewrite length_app.
  pose proof (dec_length status). pose proof (dec_length cl).
  pose proof (http_reason_phrase_length status).
  assert (Ha : (length (if allow then lit "Allow: GET, HEAD" ++ CRLF else []) <= 18)%nat).
  { destruct allow; simpl; lia. }
  simpl (length (lit _)). simpl (length CRLF). lia.
Qed.

Lemma error_page_length (status : Z) : (length (error_page status) <= 79)%nat.
Proof.
  unfold error_page. repeat rewrite length_app.
  pose proof (dec_length status). pose proof (http_reason_phrase_length status).
  simpl (length (lit _)). simpl (length [LF]). lia.
Qed.

(** ** [snprintf] into an array *)

Lemma snprintf_ret_fits (s : bytes) : len s <= INT_MAX -> snprintf_ret s = len s.
Proof.
  intros H. unfold snprintf_ret.
  destruct (INT_MAX <? len s) eqn:E; [apply Z.ltb_lt in E; lia|reflexivity].
Qed.

Lemma snprintf_str_fits (cap : Z) (s : bytes) :
  len s < cap -> snprintf_str cap s = s.
Proof.
  intros H. unfold snprintf_str. apply firstn_all2. unfold len in H. lia.
Qed.

Lemma snprintf_buf_fits (dst : bytes) (cap : Z) (s : bytes) :
  len s < cap ->
  snprintf_buf dst cap s = s ++ NUL :: skipn (length s + 1) dst.
Proof.
  intros H. unfold snprintf_buf. pose proof (len_nonneg s).
  destruct (cap <=? 0) eqn:E; [apply Z.leb_le in E; lia|].
  rewrite snprintf_str_fits by assumption.
  rewrite <- app_assoc, length_app. reflexivity.
Qed.

Lemma firstn_snprintf_buf (dst : bytes) (cap : Z) (s : bytes) :
  len s < cap -> firstn (Z.to_nat (len s)) (snprintf_buf dst cap s) = s.
Proof.
  intros H. rewrite snprintf_buf_fits by assumption.
  unfold len. rewrite Nat2Z.id, firstn_app, Nat.sub_diag, firstn_all.
  simpl. apply app_nil_r.
Qed.

Lemma snprintf_buf_length (dst : bytes) (cap : Z) (s : bytes) :
  len s < cap -> len s < len (snprintf_buf dst cap s).
Proof.
  intros H. rewrite snprintf_buf_fits by assumption.
  rewrite len_app, len_cons. pose proof (len_nonneg (skipn (length s + 1) dst)). lia.
Qed.

(** ** The header block always fits the 2048-byte header buffer *)

Lemma build_response_headers_fits (dst : bytes) (gm : tm_t) (status : Z)
    (ct : bytes) (cl : Z) (allow : bool) :
  (length ct <= 64)%nat ->
  let text := header_text (format_http_date gm) status ct cl allow in
  build_response_headers dst MAX_RESP_HEADER gm status ct cl allow
  = (len text, snprintf_buf dst MAX_RESP_HEADER text)
  /\ 0 <= len text < MAX_RESP_HEADER.
Proof.
  intros Hct text.
  assert (Hlen : 0 <= len text < MAX_RESP_HEADER).
  { pose proof (header_text_length (format_http_date gm) status ct cl allow).
    pose proof (format_http_date_length gm).
    unfold MAX_RESP_HEADER, len. fold text in H. lia. }
  split; [|exact Hlen].
  unfold build_response_headers. fold text.
  rewrite snprintf_ret_fits by (unfold INT_MAX, MAX_RESP_HEADER in *; lia).
  destruct (len text <? 0) eqn:E1; [apply Z.ltb_lt in E1; lia|].
  destruct (len text >=? MAX_RESP_HEADER) eqn:E2; [apply Z.geb_le in E2; lia|].
  reflexivity.
Qed.

Lemma make_error_response_ok (gm : tm_t) (c : client_t) (status : Z)
    (is_head_ include_allow : bool) :
  make_error_response gm c status is_head_ include_allow
  = (0, error_response gm c status is_head_ include_allow).
Proof.
  unfold make_error_response, error_response.
  pose proof (error_page_length status) as Hp.
  rewrite snprintf_ret_fits by (unfold INT_MAX, len; lia).
  destruct (len (error_page status) <? 0) eqn:E;
    [apply Z.ltb_lt in E; unfold len in E; lia|].
  match goal with
  | |- context [build_response_headers ?d _ _ _ ?ct ?cl _] =>
      destruct (build_response_headers_fits d gm status ct cl include_allow)
        as [Hb Hl]; [simpl; lia|]
  end.
  rewrite Hb.
  match goal with
  | |- context [if ?b then _ else _] =>
      replace b with false by (symmetry; apply Z.ltb_ge; apply Hl)
  end.
  destruct c; reflexivity.
Qed.

(** ** What [prepare_response] stages, path by path *)

Lemma guess_mime_type_length (path : bytes) :
  (length (guess_mime_type path) <= 64)%nat.
Proof.
  unfold guess_mime_type. destruct (strrchr path "."%char); [|simpl; lia].
  repeat match goal with |- context [if ?b then _ else _] => destruct b end;
    simpl; lia.
Qed.

Lemma prepare_response_eq (fs : filesys) (cfg : server_config_t)
    (c : client_t) (w : world) :
  prepare_response fs cfg c w =
  let gm := clock w in
  let '(rc, req) :=
    parse_http_request (firstn (Z.to_nat (req_len c)) (req_buf c)) fresh_request in
  if rc =? 400 then Some (0, error_response gm c 400 false false, w)
  else if rc =? 405 then Some (0, error_response gm c 405 false true, w)
  else
  let is_head_ :=
    match method req with HTTP_METHOD_HEAD => true | _ => false end in
  let '(rc, fs_path) := resolve_path fs (doc_root cfg) (target req) [] PATH_MAX in
  if negb (rc =? 0) then
    Some (0, error_response gm c
               (if negb (rc =? 400) && negb (rc =? 403) && negb (rc =? 404)
                then 500 else rc) is_head_ false, w)
  else
  match fs_stat fs fs_path with
  | inl e => Some (0, error_response gm c (status_from_errno e) is_head_ false, w)
  | inr st =>
      if negb is_head_ then
        match script w with
        | Fd n :: rest =>
            if n <? 0 then None
            else Some (0, file_response gm c fs_path st false n,
                       mk_world rest (trace w ++ [EvOpen fs_path n]) gm)
        | Err e :: rest =>
            Some (0, error_response gm (file_response gm c fs_path st false (-1))
                       (status_from_errno e) false false,
                  mk_world rest (trace w) gm)
        | _ => None
        end
      else Some (0, file_response gm c fs_path st true (-1), w)
  end.
Proof.
  unfold prepare_response. cbv zeta.
  destruct (parse_http_request _ _) as [rc req].
  destruct (rc =? 400); [now rewrite make_error_response_ok|].
  destruct (rc =? 405); [now rewrite make_error_response_ok|].
  destruct (resolve_path _ _ _ _ _) as [rc2 fs_path].
  destruct (negb (rc2 =? 0)); [now rewrite make_error_response_ok|].
  destruct (fs_stat fs fs_path) as [e|st]; [now rewrite make_error_response_ok|].
  destruct (build_response_headers_fits (hdr_buf c) (clock w) 200
              (guess_mime_type fs_path) (st_size st) false
              (guess_mime_type_length fs_path)) as [Hb Hl].
  rewrite Hb.
  replace (len (header_text (format_http_date (clock w)) 200
                  (guess_mime_type fs_path) (st_size st) false) <? 0)
    with false by (symmetry; apply Z.ltb_ge; apply Hl).
  destruct (match method req with HTTP_METHOD_HEAD => true | _ => false end).
  - reflexivity.
  - cbn [negb]. destruct (script w) as [|[bs|k| |n|revs|e] rest]; try reflexivity.
    rewrite make_error_response_ok. reflexivity.
Qed.

(** ** The sent counters stay within the buffer lengths *)

Lemma sent_inv_reset : sent_inv reset_client.
Proof. unfold sent_inv, reset_client. cbn. lia. Qed.

Lemma sent_inv_error_response (gm : tm_t) (c : client_t) (status : Z)
    (ih allow : bool) :
  sent_inv (error_response gm c status ih allow).
Proof.
  unfold sent_inv, error_response. cbn [hdr_sent hdr_len mem_sent mem_len chunk_sent chunk_len].
  pose proof (len_nonneg (error_page status)).
  pose proof (len_nonneg (header_text (format_http_date gm) status
                (lit "text/html; charset=utf-8") (len (error_page status)) allow)).
  lia.
Qed.

Lemma sent_inv_file_response (gm : tm_t) (c : client_t) (p : bytes)
    (st : stat_t) (ih : bool) (ffd : Z) :
  sent_inv (file_response gm c p st ih ffd).
Proof.
  unfold sent_inv, file_response. cbn [hdr_sent hdr_len mem_sent mem_len chunk_sent chunk_len].
  pose proof (len_nonneg (header_text (format_http_date gm) 200
                (guess_mime_type p) (st_size st) false)).
  lia.
Qed.

Lemma make_error_response_inv (gm : tm_t) (c : client_t) (status : Z)
    (ih allow : bool) :
  sent_inv (snd (make_error_response gm c status ih allow)).
Proof. rewrite make_error_response_ok. apply sent_inv_error_response. Qed.

Lemma prepare_response_inv (fs : filesys) (cfg : server_config_t)
    (c : client_t) (w : world) (r : Z) (c' : client_t) (w' : world) :
  prepare_response fs cfg c w = Some (r, c', w') -> sent_inv c'.
Proof.
  rewrite prepare_response_eq. cbv zeta.
  destruct (parse_http_request _ _) as [rc req].
  repeat match goal with
  | |- Some _ = Some _ -> _ => intros [= <- <- <-]
  | |- None = Some _ -> _ => discriminate
  | |- context [match ?x with _ => _ end] =>
      match type of x with
      | _ => destruct x
      end
  end; auto using sent_inv_error_response, sent_inv_file_response.
Qed.

(** ** Slices of an array and projections of a trace *)

Lemma slice_nil (buf : bytes) (off n : Z) : n <= 0 -> slice buf off n = [].
Proof.
  intros H. unfold slice. replace (Z.to_nat n) with O by lia. reflexivity.
Qed.

Lemma slice_app (buf : bytes) (off m k : Z) :
  0 <= off -> 0 <= m -> 0 <= k ->
  slice buf off m ++ slice buf (off + m) k = slice buf off (m + k).
Proof.
  intros Ho Hm Hk. unfold slice.
  rewrite !Z2Nat.inj_add by lia.
  replace (skipn (Z.to_nat off + Z.to_nat m) buf)
    with (skipn (Z.to_nat m) (skipn (Z.to_nat off) buf))
    by (rewrite skipn_skipn; f_equal; lia).
  set (l := skipn (Z.to_nat off) buf).
  rewrite <- (firstn_skipn (Z.to_nat m) (firstn (Z.to_nat m + Z.to_nat k) l)).
  rewrite firstn_firstn, Nat.min_l by lia.
  f_equal. rewrite skipn_firstn_comm. f_equal. lia.
Qed.

Lemma slice_0_firstn (buf : bytes) (n : Z) :
  slice buf 0 n = firstn (Z.to_nat n) buf.
Proof. reflexivity. Qed.

Lemma firstn_firstn_le (buf : bytes) (a b : Z) :
  0 <= a <= b ->
  firstn (Z.to_nat a) (firstn (Z.to_nat b) buf) = firstn (Z.to_nat a) buf.
Proof. intros H. rewrite firstn_firstn, Nat.min_l by lia. reflexivity. Qed.

Lemma sent_on_app (s : Z) (a b : list event) :
  sent_on s (a ++ b) = sent_on s a ++ sent_on s b.
Proof. apply flat_map_app. Qed.

Lemma read_on_app (f : Z) (a b : list event) :
  read_on f (a ++ b) = read_on f a ++ read_on f b.
Proof. apply flat_map_app. Qed.

Lemma opened_app (a b : list event) : opened (a ++ b) = opened a ++ opened b.
Proof. apply flat_map_app. Qed.

Lemma closed_app (a b : list event) : closed (a ++ b) = closed a ++ closed b.
Proof. apply flat_map_app. Qed.

Lemma sends_read_nothing (s f : Z) (evs : list event) :
  Forall (is_send_on s) evs -> read_on f evs = [].
Proof.
  induction 1 as [|e evs [bs ->] _ IH]; [reflexivity|]. simpl. exact IH.
Qed.

Lemma sends_open_nothing (s : Z) (evs : list event) :
  Forall (is_send_on s) evs -> opened evs = [].
Proof.
  induction 1 as [|e evs [bs ->] _ IH]; [reflexivity|]. simpl. exact IH.
Qed.

Lemma sends_reads_open_nothing (s f : Z) (evs : list event) :
  Forall (is_send_or_read s f) evs -> opened evs = [].
Proof.
  induction 1 as [|e evs [[bs ->]|[bs ->]] _ IH]; [reflexivity| |]; simpl; exact IH.
Qed.

Lemma sends_are_sends_or_reads (s f : Z) (evs : list event) :
  Forall (is_send_on s) evs -> Forall (is_send_or_read s f) evs.
Proof. apply Forall_impl. intros e H. now left. Qed.

(** ** [send_buffer]: the offset advances by what the socket took *)

Lemma send_count_bounds (k count : Z) :
  0 < send_count k count -> 0 < send_count k count <= count.
Proof. unfold send_count. destruct (k <=? 0); lia. Qed.

Lemma send_loop_spec (s : Z) (buf : bytes) (n : Z) (scr : list answer) :
  forall (tr : list event) (sent r sent' : Z) (scr' : list answer)
         (tr' : list event),
  0 <= sent <= n ->
  send_loop s buf n scr tr sent = Some (r, sent', scr', tr') ->
  sent <= sent' <= n /\
  (r = 1 /\ sent' = n \/ (r = 0 \/ r = -1) /\ sent' < n) /\
  exists evs, tr' = tr ++ evs /\ Forall (is_send_on s) evs /\
              sent_on s evs = slice buf sent (sent' - sent).
Proof.
  induction scr as [|a scr IH]; intros tr sent r sent' scr' tr' Hb H.
  - simpl in H. destruct (sent <? n) eqn:E; [discriminate|].
    apply Z.ltb_ge in E. injection H as <- <- <- <-.
    split; [lia|]. split; [left; split; [reflexivity|lia]|].
    exists []. rewrite app_nil_r, slice_nil by lia. repeat split. constructor.
  - simpl in H. destruct (sent <? n) eqn:E.
    + apply Z.ltb_lt in E.
      destruct a as [bs|k| |fd0|revs|e]; try discriminate.
      * destruct (0 <? send_count k (n - sent)) eqn:Em.
        -- apply Z.ltb_lt in Em. apply send_count_bounds in Em.
           apply IH in H; [|lia].
           destruct H as (Hs & Hr & evs & -> & Hall & Hout).
           split; [lia|]. split; [exact Hr|].
           exists (EvSend s (slice buf sent (send_count k (n - sent))) :: evs).
           split; [now rewrite <- app_assoc|]. split.
           ++ constructor; [now eexists|exact Hall].
           ++ simpl. rewrite Z.eqb_refl, Hout, slice_app by lia.
              f_equal. lia.
        -- injection H as <- <- <- <-.
           split; [lia|]. split; [right; split; [now right|lia]|].
           exists []. rewrite app_nil_r, slice_nil by lia. repeat split. constructor.
      * destruct (would_block e); injection H as <- <- <- <-;
          (split; [lia|]); (split; [right; split; [auto|lia]|]);
          exists []; rewrite app_nil_r, slice_nil by lia; repeat split; constructor.
    + apply Z.ltb_ge in E. injection H as <- <- <- <-.
      split; [lia|]. split; [left; split; [reflexivity|lia]|].
      exists []. rewrite app_nil_r, slice_nil by lia. repeat split. constructor.
Qed.

Lemma send_buffer_spec (s : Z) (buf : bytes) (n sent : Z) (w : world)
    (r sent' : Z) (w' : world) :
  0 <= sent <= n ->
  send_buffer s buf n sent w = Some (r, sent', w') ->
  sent <= sent' <= n /\
  (r = 1 /\ sent' = n \/ (r = 0 \/ r = -1) /\ sent' < n) /\
  clock w' = clock w /\
  exists evs, trace w' = trace w ++ evs /\ Forall (is_send_on s) evs /\
              sent_on s evs = slice buf sent (sent' - sent).
Proof.
  intros Hb H. unfold send_buffer in H.
  destruct (send_loop s buf n (script w) (trace w) sent) as [[[[r0 s0] scr0] tr0]|] eqn:E;
    [|discriminate].
  injection H as <- <- <-.
  destruct (send_loop_spec _ _ _ _ _ _ _ _ _ _ Hb E) as (H1 & H2 & H3).
  simpl. auto.
Qed.

(** ** [flush_file]: every byte read is sent once, in order *)

Lemma pending_after_read (c : client_t) (data : bytes) :
  pending_chunk
    (set_chunk_sent 0 (set_chunk_len (len data)
       (set_chunk (buf_write (chunk c) 0 data) c))) = data.
Proof.
  unfold pending_chunk, slice, buf_write. cbn.
  rewrite Z.sub_0_r. unfold len. rewrite Nat2Z.id.
  rewrite firstn_app, Nat.sub_diag, firstn_all. simpl. apply app_nil_r.
Qed.

Lemma pending_none (c : client_t) :
  0 <= chunk_sent c ->
  (chunk_len c =? 0) || (chunk_sent c =? chunk_len c) = true ->
  pending_chunk c = [].
Proof.
  intros H0 H. unfold pending_chunk. apply slice_nil.
  apply orb_prop in H as [H|H]; apply Z.eqb_eq in H; lia.
Qed.

Lemma flush_loop_cons (a : answer) (scr' : list answer) (tr : list event)
    (c : client_t) :
  flush_loop (a :: scr') tr c =
  if (chunk_len c =? 0) || (chunk_sent c =? chunk_len c) then
    match a with
    | Bytes bs =>
        let data := firstn (Z.to_nat FILE_CHUNK) bs in
        if len data =? 0 then Some (1, c, scr', tr)
        else
          flush_loop scr' (tr ++ [EvRead (file_fd c) data])
            (set_chunk_sent 0 (set_chunk_len (len data)
               (set_chunk (buf_write (chunk c) 0 data) c)))
    | Err e =>
        match e with
        | EINTR => flush_loop scr' tr c
        | _ => Some (-1, c, scr', tr)
        end
    | _ => None
    end
  else if chunk_sent c <? chunk_len c then
    match a with
    | Count k =>
        let m := send_count k (chunk_len c - chunk_sent c) in
        if 0 <? m then
          flush_loop scr' (tr ++ [EvSend (fd c) (slice (chunk c) (chunk_sent c) m)])
            (set_file_sent (file_sent c + m) (set_chunk_sent (chunk_sent c + m) c))
        else Some (-1, c, scr', tr)
    | Err e =>
        if would_block e then Some (0, c, scr', tr) else Some (-1, c, scr', tr)
    | _ => None
    end
  else None.
Proof. reflexivity. Qed.

Lemma flush_loop_spec (scr : list answer) :
  forall (tr : list event) (c : client_t) (r : Z) (c' : client_t)
         (scr' : list answer) (tr' : list event),
  0 <= chunk_sent c <= chunk_len c ->
  flush_loop scr tr c = Some (r, c', scr', tr') ->
  0 <= chunk_sent c' <= chunk_len c' /\
  outside_chunk c' = outside_chunk c /\
  (r = 1 \/ r = 0 \/ r = -1) /\
  exists evs, tr' = tr ++ evs /\
    Forall (is_send_or_read (fd c) (file_fd c)) evs /\
    pending_chunk c ++ read_on (file_fd c) evs
      = sent_on (fd c) evs ++ pending_chunk c' /\
    (r = 1 -> pending_chunk c' = []).
Proof.
  induction scr as [|a scr IH]; intros tr c r c' scr' tr' Hb H; [discriminate|].
  rewrite flush_loop_cons in H. cbv zeta in H.
  destruct ((chunk_len c =? 0) || (chunk_sent c =? chunk_len c)) eqn:Enew.
  - (* a read *)
    pose proof (pending_none c (proj1 Hb) Enew) as Hp.
    destruct a as [bs|k| |fd0|revs|e]; try discriminate.
    + destruct (len (firstn (Z.to_nat FILE_CHUNK) bs) =? 0) eqn:Er.
      * injection H as <- <- <- <-.
        split; [exact Hb|]. split; [reflexivity|]. split; [auto|].
        exists []. rewrite app_nil_r. simpl. rewrite app_nil_r.
        repeat split; auto.
      * apply Z.eqb_neq in Er.
        set (data := firstn (Z.to_nat FILE_CHUNK) bs) in *.
        apply IH in H; [|cbn; pose proof (len_nonneg data); lia].
        destruct H as (Hinv & Hout & Hr & evs & -> & Hall & Hlaw & Hdone).
        split; [exact Hinv|]. split; [exact Hout|]. split; [exact Hr|].
        exists (EvRead (file_fd c) data :: evs).
        split; [now rewrite <- app_assoc|]. split.
        -- constructor; [right; now eexists|exact Hall].
        -- split; [|exact Hdone].
           rewrite pending_after_read in Hlaw. cbn in Hlaw.
           rewrite Hp. simpl. rewrite Z.eqb_refl. exact Hlaw.
    + destruct e; try (injection H as <- <- <- <-;
        (split; [exact Hb|]); (split; [reflexivity|]); (split; [auto|]);
        exists []; rewrite app_nil_r; simpl; rewrite app_nil_r;
        repeat split; auto; intros; discriminate).
      apply IH in H; [|exact Hb]. exact H.
  - (* a send *)
    apply orb_false_elim in Enew as [E0 E1].
    apply Z.eqb_neq in E0. apply Z.eqb_neq in E1.
    destruct (chunk_sent c <? chunk_len c) eqn:Elt; [|discriminate].
    apply Z.ltb_lt in Elt.
    destruct a as [bs|k| |fd0|revs|e]; try discriminate.
    + destruct (0 <? send_count k (chunk_len c - chunk_sent c)) eqn:Em.
      * apply Z.ltb_lt in Em. apply send_count_bounds in Em.
        set (m := send_count k (chunk_len c - chunk_sent c)) in *.
        apply IH in H; [|cbn; lia].
        destruct H as (Hinv & Hout & Hr & evs & -> & Hall & Hlaw & Hdone).
        split; [exact Hinv|]. split; [exact Hout|]. split; [exact Hr|].
        exists (EvSend (fd c) (slice (chunk c) (chunk_sent c) m) :: evs).
        split; [now rewrite <- app_assoc|]. split.
        -- constructor; [left; now eexists|exact Hall].
        -- split; [|exact Hdone].
           cbn in Hlaw. simpl. rewrite Z.eqb_refl, <- app_assoc, <- Hlaw.
           rewrite app_assoc. f_equal.
           unfold pending_chunk. cbn.
           rewrite slice_app by lia. f_equal. lia.
      * injection H as <- <- <- <-.
        split; [exact Hb|]. split; [reflexivity|]. split; [auto|].
        exists []. rewrite app_nil_r. simpl. rewrite app_nil_r.
        repeat split; auto. intros; discriminate.
    + destruct (would_block e); injection H as <- <- <- <-;
        (split; [exact Hb|]); (split; [reflexivity|]); (split; [auto|]);
        exists []; rewrite app_nil_r; simpl; rewrite app_nil_r;
        repeat split; auto; intros; discriminate.
Qed.

(** ** The write transition: header first, then the body, nothing twice *)

Ltac fields :=
  unfold set_hdr_sent, set_mem_sent, set_chunk_sent, set_file_sent,
    set_chunk_len, set_chunk in *;
  cbn [active fd mode req_buf req_len hdr_buf hdr_len hdr_sent mem_body
       mem_len mem_sent is_head file_fd file_size file_sent chunk chunk_len
       chunk_sent] in *.

Ltac static :=
  unfold static_part, set_hdr_sent, set_mem_sent, set_chunk_sent,
    set_file_sent, set_chunk_len, set_chunk;
  cbn [active fd mode req_buf req_len hdr_buf hdr_len hdr_sent mem_body
       mem_len mem_sent is_head file_fd file_size file_sent chunk chunk_len
       chunk_sent];
  congruence.

Lemma wire_inv_fresh (c : client_t) : fresh_response c -> wire_inv c [].
Proof.
  intros (Hh & Hm & Hcl & Hcs & Hhl & Hml).
  assert (Hp : pending_chunk c = []).
  { unfold pending_chunk. apply slice_nil. lia. }
  split; [unfold sent_inv; lia|]. split.
  - intros _. unfold head_inv. rewrite Hh. simpl. auto.
  - intros E. unfold body_inv, staged_headers. rewrite <- E, Hh, Hm, Hp. simpl.
    destruct (is_head c); [reflexivity|].
    destruct (0 <? mem_len c); [reflexivity|].
    destruct (file_fd c <? 0); reflexivity.
Qed.

Lemma header_out (c : client_t) (evs evs1 : list event) (sent' : Z) :
  wire_inv c evs ->
  hdr_sent c <= sent' <= hdr_len c ->
  Forall (is_send_on (fd c)) evs1 ->
  sent_on (fd c) evs1 = slice (hdr_buf c) (hdr_sent c) (sent' - hdr_sent c) ->
  wire_inv (set_hdr_sent sent' c) (evs ++ evs1).
Proof.
  intros (Hs & Hhead & Hbody) Hb Hall Hout.
  pose proof (sends_read_nothing _ (file_fd c) _ Hall) as Hrd.
  unfold wire_inv, sent_inv, head_inv, body_inv, staged_headers, pending_chunk in *.
  fields. rewrite sent_on_app, read_on_app, Hrd, Hout, app_nil_r.
  destruct Hs as (Hs1 & Hs2 & Hs3).
  split; [lia|].
  destruct (Z.eq_dec (hdr_sent c) (hdr_len c)) as [E|E].
  - (* the header was out already *)
    assert (sent' = hdr_len c) by lia. subst sent'.
    rewrite slice_nil, app_nil_r by lia.
    split; [lia|]. intros _. apply Hbody, E.
  - specialize (Hhead ltac:(lia)). destruct Hhead as (H1 & H2 & H3 & H4).
    assert (Hnew : sent_on (fd c) evs
                   ++ slice (hdr_buf c) (hdr_sent c) (sent' - hdr_sent c)
                   = firstn (Z.to_nat sent') (hdr_buf c)).
    { rewrite H1, <- slice_0_firstn, slice_app by lia.
      rewrite slice_0_firstn. f_equal. lia. }
    rewrite Hnew. split.
    + intros _. auto.
    + intros ->. rewrite H2, H3, H4. simpl. rewrite !app_nil_r.
      destruct (is_head c); [reflexivity|].
      destruct (0 <? mem_len c); [reflexivity|].
      destruct (file_fd c <? 0); reflexivity.
Qed.

Lemma write_step (c : client_t) (w : world) (evs : list event) (r : Z)
    (c' : client_t) (w' : world) :
  wire_inv c evs ->
  write_client_response c w = Some (r, c', w') ->
  (r = 1 \/ r = 0 \/ r = -1) /\
  static_part c' = static_part c /\
  clock w' = clock w /\
  exists evs', trace w' = trace w ++ evs' /\
    Forall (is_send_or_read (fd c) (file_fd c)) evs' /\
    wire_inv c' (evs ++ evs') /\
    (r = 1 -> sent_on (fd c) (evs ++ evs')
              = staged_headers c ++ response_body c (evs ++ evs')).
Proof.
  intros Hinv H. unfold write_client_response in H.
  destruct (send_buffer (fd c) (hdr_buf c) (hdr_len c) (hdr_sent c) w)
    as [[[r1 sent1] w1]|] eqn:E1; [|discriminate].
  pose proof Hinv as (Hs & _). destruct Hs as (Hs1 & Hs2 & Hs3).
  destruct (send_buffer_spec _ _ _ _ _ _ _ _ Hs1 E1)
    as (Hb1 & Hr1 & Hclk1 & evs1 & Htr1 & Hall1 & Hout1).
  pose proof (header_out c evs evs1 sent1 Hinv Hb1 Hall1 Hout1) as Hinv1.
  destruct (r1 <=? 0) eqn:Er1.
  { (* the header block is not out, or the socket failed *)
    injection H as <- <- <-. apply Z.leb_le in Er1.
    split; [lia|]. split; [static|]. split; [exact Hclk1|].
    exists evs1. split; [exact Htr1|].
    split; [now apply sends_are_sends_or_reads|]. split; [exact Hinv1|]. lia. }
  apply Z.leb_gt in Er1.
  assert (sent1 = hdr_len c) by lia. subst sent1.
  destruct Hinv1 as (Hsi1 & _ & Hbody1). specialize (Hbody1 eq_refl).
  unfold body_inv, staged_headers in Hbody1. unfold response_body, staged_headers, staged_body.
  fields.
  destruct (is_head c) eqn:Ehead.
  { (* HEAD is headers-only *)
    injection H as <- <- <-.
    split; [auto|]. split; [static|]. split; [exact Hclk1|].
    exists evs1. split; [exact Htr1|].
    split; [now apply sends_are_sends_or_reads|]. split.
    - split; [exact Hsi1|]. split; [fields; lia|]. intros _.
      unfold body_inv, staged_headers. fields. rewrite ?Ehead. exact Hbody1.
    - intros _. rewrite app_nil_r. exact Hbody1. }
  destruct (0 <? mem_len c) eqn:Emem.
  { (* the generated page *)
    destruct (send_buffer (fd c) (mem_body c) (mem_len c) (mem_sent c) w1)
      as [[[r2 sent2] w2]|] eqn:E2; [|discriminate].
    injection H as <- <- <-.
    destruct (send_buffer_spec _ _ _ _ _ _ _ _ Hs2 E2)
      as (Hb2 & Hr2 & Hclk2 & evs2 & Htr2 & Hall2 & Hout2).
    split; [lia|]. split; [static|]. split; [congruence|].
    exists (evs1 ++ evs2). split; [rewrite Htr2, Htr1; now rewrite app_assoc|].
    split; [apply Forall_app; split; now apply sends_are_sends_or_reads|].
    assert (Hnew : sent_on (fd c) (evs ++ evs1 ++ evs2)
                   = firstn (Z.to_nat (hdr_len c)) (hdr_buf c)
                     ++ firstn (Z.to_nat sent2) (mem_body c)).
    { rewrite app_assoc, sent_on_app, Hbody1, Hout2, <- app_assoc. f_equal.
      rewrite <- slice_0_firstn, slice_app by lia.
      rewrite slice_0_firstn. f_equal. lia. }
    split.
    - split; [unfold sent_inv; fields; lia|]. split; [fields; lia|]. intros _.
      unfold body_inv, staged_headers. fields. rewrite ?Ehead, ?Emem. exact Hnew.
    - intros Hr. rewrite Hnew. f_equal. f_equal. lia. }
  (* the file *)
  unfold flush_file in H. fields.
  destruct (file_fd c <? 0) eqn:Effd.
  { injection H as <- <- <-.
    split; [auto|]. split; [static|]. split; [exact Hclk1|].
    exists evs1. split; [exact Htr1|].
    split; [now apply sends_are_sends_or_reads|]. split.
    - split; [exact Hsi1|]. split; [fields; lia|]. intros _.
      unfold body_inv, staged_headers. fields. rewrite ?Ehead, ?Emem, ?Effd.
      exact Hbody1.
    - intros _. rewrite app_nil_r. exact Hbody1. }
  match type of H with
  | context [flush_loop ?scr ?tr ?c1] =>
      destruct (flush_loop scr tr c1) as [[[[r2 c2] scr2] tr2]|] eqn:E2;
        [|discriminate]
  end.
  injection H as <- <- <-.
  apply flush_loop_spec in E2; [|fields; exact Hs3].
  destruct E2 as (Hc2 & Hout2 & Hr2 & evs2 & -> & Hall2 & Hlaw & Hdone).
  unfold outside_chunk in Hout2. fields.
  injection Hout2 as Ha Hfd Hmode Hrb Hrl Hhb Hhl Hhs Hmb Hml Hms Hih Hff Hfs.
  split; [lia|]. split; [unfold static_part; congruence|]. split; [exact Hclk1|].
  exists (evs1 ++ evs2). cbn [trace]. split; [rewrite Htr1; now rewrite app_assoc|].
  split; [apply Forall_app; split; [now apply sends_are_sends_or_reads|exact Hall2]|].
  unfold pending_chunk in Hlaw at 1. fields.
  assert (Hnew : sent_on (fd c) (evs ++ evs1 ++ evs2) ++ pending_chunk c2
                 = firstn (Z.to_nat (hdr_len c)) (hdr_buf c)
                   ++ read_on (file_fd c) (evs ++ evs1 ++ evs2)).
  { rewrite app_assoc, sent_on_app, read_on_app, <- app_assoc, <- Hlaw.
    rewrite !app_assoc. f_equal. exact Hbody1. }
  split.
  - split; [unfold sent_inv; rewrite Hhs, Hhl, Hms, Hml; lia|].
    split; [rewrite Hhs, Hhl; lia|]. intros _.
    unfold body_inv, staged_headers.
    rewrite Hih, Hml, Hff, Hfd, Hhl, Hhb, ?Ehead, ?Emem, ?Effd. exact Hnew.
  - intros Hr. rewrite (Hdone Hr), app_nil_r in Hnew. exact Hnew.
Qed.

Lemma static_fd (c c' : client_t) :
  static_part c' = static_part c ->
  fd c' = fd c /\ file_fd c' = file_fd c /\ hdr_len c' = hdr_len c /\
  staged_headers c' = staged_headers c /\
  (forall evs, response_body c' evs = response_body c evs).
Proof.
  unfold static_part. intros H.
  injection H as Ha Hfd Hmode Hrb Hrl Hhb Hhl Hmb Hml Hih Hff Hfs.
  unfold staged_headers, response_body, staged_body.
  rewrite Hfd, Hff, Hhl, Hhb, Hmb, Hml, Hih. repeat split.
Qed.

Lemma wire_inv_prefix (c : client_t) (evs : list event) :
  wire_inv c evs ->
  (exists rest,
     staged_headers c ++ response_body c evs = sent_on (fd c) evs ++ rest) /\
  (hdr_sent c < hdr_len c ->
     sent_on (fd c) evs = firstn (Z.to_nat (hdr_sent c)) (staged_headers c)).
Proof.
  intros ((Hs1 & Hs2 & Hs3) & Hhead & Hbody).
  destruct (Z.eq_dec (hdr_sent c) (hdr_len c)) as [E|E].
  - split; [|lia]. specialize (Hbody E).
    unfold body_inv in Hbody. unfold response_body, staged_body.
    destruct (is_head c).
    + exists []. now rewrite Hbody.
    + destruct (0 <? mem_len c).
      * exists (skipn (Z.to_nat (mem_sent c)) (firstn (Z.to_nat (mem_len c)) (mem_body c))).
        rewrite Hbody, <- app_assoc. f_equal.
        rewrite <- (firstn_firstn_le (mem_body c) (mem_sent c) (mem_len c)) by lia.
        now rewrite firstn_skipn.
      * destruct (file_fd c <? 0).
        -- exists []. now rewrite Hbody.
        -- exists (pending_chunk c). now rewrite Hbody.
  - specialize (Hhead ltac:(lia)). destruct Hhead as (H1 & _).
    assert (Hf : sent_on (fd c) evs
                 = firstn (Z.to_nat (hdr_sent c)) (staged_headers c)).
    { rewrite H1. unfold staged_headers.
      now rewrite firstn_firstn_le by lia. }
    split; [|intros _; exact Hf].
    exists (skipn (Z.to_nat (hdr_sent c)) (staged_headers c) ++ response_body c evs).
    rewrite Hf, app_assoc. now rewrite firstn_skipn.
Qed.

Lemma write_turns_inv (n : nat) :
  forall (c : client_t) (w : world) (evs0 : list event) (r : Z)
         (c' : client_t) (w' : world),
  wire_inv c evs0 ->
  write_turns n c w = Some (r, c', w') ->
  exists evs, trace w' = trace w ++ evs /\
    static_part c' = static_part c /\
    wire_inv c' (evs0 ++ evs) /\
    (r = 1 -> sent_on (fd c) (evs0 ++ evs)
              = staged_headers c ++ response_body c (evs0 ++ evs)).
Proof.
  induction n as [|n IH]; intros c w evs0 r c' w' Hinv H; simpl in H.
  - injection H as <- <- <-. exists []. rewrite !app_nil_r.
    split; [reflexivity|]. split; [reflexivity|]. split; [exact Hinv|].
    intros; discriminate.
  - destruct (write_client_response c w) as [[[r1 c1] w1]|] eqn:E; [|discriminate].
    destruct (write_step _ _ _ _ _ _ Hinv E)
      as (Hr1 & Hst1 & _ & evs1 & Htr1 & _ & Hinv1 & Hdone1).
    destruct (r1 =? 0) eqn:Er.
    + destruct (IH _ _ _ _ _ _ Hinv1 H) as (evs2 & Htr2 & Hst2 & Hinv2 & Hdone2).
      destruct (static_fd _ _ Hst1) as (Hfd & _ & _ & Hh & Hb).
      exists (evs1 ++ evs2). rewrite Htr2, Htr1, !app_assoc.
      split; [reflexivity|]. split; [congruence|].
      rewrite <- !app_assoc in Hinv2, Hdone2. rewrite <- !app_assoc.
      split; [exact Hinv2|]. intros Hr. specialize (Hdone2 Hr).
      now rewrite Hfd, Hh, Hb in Hdone2.
    + injection H as <- <- <-. exists evs1. auto.
Qed.

(** A would-block answer to a [send] defers the transition and leaves the
    slot as it was. *)
Lemma write_would_block (c : client_t) (w : world) (e : errno_t)
    (rest : list answer) :
  next_call_is_send c = true ->
  would_block e = true ->
  script w = Err e :: rest ->
  write_client_response c w = Some (0, c, mk_world rest (trace w) (clock w)).
Proof.
  intros Hnext He Hscr.
  unfold write_client_response, send_buffer, flush_file. rewrite Hscr.
  unfold next_call_is_send in Hnext. destruct c. fields. simpl send_loop.
  destruct (hdr_sent0 <? hdr_len0) eqn:Eh.
  - rewrite He. reflexivity.
  - cbn [orb] in Hnext. apply andb_prop in Hnext as [Hih Hnext].
    fields. destruct is_head0; [discriminate|].
    destruct (0 <? mem_len0).
    + simpl send_loop. rewrite Hnext, He. reflexivity.
    + apply andb_prop in Hnext as [Hnext Hlt].
      apply andb_prop in Hnext as [Hffd Hnew].
      destruct (file_fd0 <? 0); [discriminate|].
      cbn [script trace clock Z.leb Z.compare]. rewrite flush_loop_cons. fields.
      destruct ((chunk_len0 =? 0) || (chunk_sent0 =? chunk_len0));
        [discriminate|].
      rewrite Hlt, He. reflexivity.
Qed.

(** ** A destination that takes one byte per [send] *)

Lemma send_loop_done (s : Z) (buf : bytes) (n : Z) (scr : list answer)
    (tr : list event) (sent : Z) :
  n <= sent -> send_loop s buf n scr tr sent = Some (1, sent, scr, tr).
Proof.
  intros H. apply Z.ltb_ge in H. destruct scr; simpl; rewrite H; reflexivity.
Qed.

Lemma send_loop_one_byte (s : Z) (buf : bytes) (n : Z) (k : nat) :
  forall (rest : list answer) (tr : list event) (sent : Z),
  sent + Z.of_nat k = n ->
  exists tr', send_loop s buf n (repeat (Count 1) k ++ rest) tr sent
              = Some (1, n, rest, tr').
Proof.
  induction k as [|k IH]; intros rest tr sent H.
  - exists tr. simpl app. rewrite send_loop_done by lia. f_equal. f_equal. f_equal. f_equal. lia.
  - simpl. assert (E : (sent <? n) = true) by (apply Z.ltb_lt; lia). rewrite E.
    assert (Em : send_count 1 (n - sent) = 1) by (unfold send_count; simpl; lia).
    rewrite Em. simpl. apply IH. lia.
Qed.

Lemma flush_sends_one_byte (k : nat) :
  forall (scr : list answer) (tr : list event) (c : client_t),
  0 <= chunk_sent c ->
  chunk_sent c + Z.of_nat k = chunk_len c ->
  exists evs c',
    flush_loop (repeat (Count 1) k ++ scr) tr c = flush_loop scr (tr ++ evs) c' /\
    read_on (file_fd c) evs = [] /\
    0 <= chunk_sent c' /\ chunk_sent c' = chunk_len c' /\
    file_fd c' = file_fd c.
Proof.
  induction k as [|k IH]; intros scr tr c H0 H.
  - exists [], c. rewrite app_nil_r. simpl. repeat split; auto; lia.
  - simpl repeat. simpl app. rewrite flush_loop_cons.
    assert (E1 : (chunk_len c =? 0) || (chunk_sent c =? chunk_len c) = false).
    { apply orb_false_intro; apply Z.eqb_neq; lia. }
    assert (E2 : (chunk_sent c <? chunk_len c) = true) by (apply Z.ltb_lt; lia).
    assert (Em : send_count 1 (chunk_len c - chunk_sent c) = 1)
      by (unfold send_count; simpl; lia).
    rewrite E1, E2. cbv zeta. rewrite Em. simpl (0 <? 1).  cbv iota.
    match goal with
    | |- context [flush_loop (?s1 ++ scr) ?tr1 ?c1] =>
        destruct (IH scr tr1 c1) as (evs & c' & Heq & Hrd & Hc0 & Hc1 & Hff);
          [fields; lia|fields; lia|]
    end.
    eexists (_ :: evs), c'. rewrite Heq. rewrite <- app_assoc. simpl app.
    split; [reflexivity|]. simpl. fields. auto.
Qed.

Lemma flush_one_byte (chunks : list bytes) :
  forall (tr : list event) (c : client_t),
  0 <= chunk_sent c ->
  (chunk_len c =? 0) || (chunk_sent c =? chunk_len c) = true ->
  Forall (fun ch => ch <> [] /\ len ch <= FILE_CHUNK) chunks ->
  exists c' evs,
    flush_loop
      (flat_map (fun ch => Bytes ch :: repeat (Count 1) (length ch)) chunks
       ++ [Bytes []]) tr c
    = Some (1, c', [], tr ++ evs) /\
    read_on (file_fd c) evs = concat chunks.
Proof.
  induction chunks as [|ch chunks IH]; intros tr c H0 Hnew Hall.
  - exists c, []. simpl app. rewrite flush_loop_cons, Hnew. simpl.
    rewrite app_nil_r. auto.
  - inversion Hall as [|? ? [Hne Hlen] Hall']; subst.
    match goal with
    | |- context [flush_loop ?scr _ _] =>
        replace scr with
          (Bytes ch :: repeat (Count 1) (length ch)
           ++ (flat_map (fun ch => Bytes ch :: repeat (Count 1) (length ch)) chunks
               ++ [Bytes []]))
          by (simpl; now rewrite <- app_assoc)
    end.
    rewrite flush_loop_cons, Hnew. cbv zeta.
    assert (Hd : firstn (Z.to_nat FILE_CHUNK) ch = ch).
    { apply firstn_all2. unfold len in Hlen. lia. }
    rewrite Hd.
    assert (El : (len ch =? 0) = false).
    { apply Z.eqb_neq. unfold len. destruct ch; [contradiction|simpl; lia]. }
    rewrite El.
    match goal with
    | |- context [flush_loop (repeat _ _ ++ ?scr) ?tr1 ?c1] =>
        destruct (flush_sends_one_byte (length ch) scr tr1 c1)
          as (evs1 & c1' & Heq & Hrd & Hc0 & Hc1 & Hff);
          [fields; lia|fields; unfold len; lia|]
    end.
    rewrite Heq.
    destruct (IH (((tr ++ [EvRead (file_fd c) ch]) ++ evs1)) c1' Hc0)
      as (c' & evs2 & Heq2 & Hrd2); [rewrite Hc1, Z.eqb_refl; apply orb_true_r|exact Hall'|].
    rewrite Heq2. exists c', (EvRead (file_fd c) ch :: evs1 ++ evs2).
    split; [now rewrite <- !app_assoc|].
    fields. simpl. rewrite Z.eqb_refl, read_on_app. rewrite Hff in Hrd2.
    fields. now rewrite Hrd, Hrd2.
Qed.

Lemma write_one_byte (c : client_t) (w : world) (chunks : list bytes) :
  fresh_response c ->
  is_head c = false -> mem_len c = 0 -> 0 <= file_fd c ->
  Forall (fun ch => ch <> [] /\ len ch <= FILE_CHUNK) chunks ->
  script w = one_byte_script (Z.to_nat (hdr_len c)) chunks ->
  exists c' w' evs,
    write_client_response c w = Some (1, c', w') /\
    script w' = [] /\ trace w' = trace w ++ evs /\
    sent_on (fd c) evs = staged_headers c ++ concat chunks.
Proof.
  intros Hfresh Hih Hml Hffd Hall Hscr.
  pose proof Hfresh as (Hh & Hm & Hcl & Hcs & Hhl & _).
  assert (Hres : exists c' evs,
            write_client_response c w
            = Some (1, c', mk_world [] (trace w ++ evs) (clock w)) /\
            read_on (file_fd c) evs = concat chunks).
  { unfold write_client_response, send_buffer. rewrite Hscr. unfold one_byte_script.
    destruct (send_loop_one_byte (fd c) (hdr_buf c) (hdr_len c)
                (Z.to_nat (hdr_len c))
                (flat_map (fun ch => Bytes ch :: repeat (Count 1) (length ch)) chunks
                 ++ [Bytes []]) (trace w) (hdr_sent c)) as (tr1 & E1); [lia|].
    rewrite E1.
    assert (Hb0 : 0 <= hdr_sent c <= hdr_len c) by lia.
    destruct (send_loop_spec _ _ _ _ _ _ _ _ _ _ Hb0 E1)
      as (_ & _ & evs1 & -> & Hall1 & _).
    simpl (1 <=? 0). cbv iota. fields. rewrite Hih, Hml. simpl (0 <? 0). cbv iota.
    unfold flush_file. fields.
    assert (Ef : (file_fd c <? 0) = false) by (apply Z.ltb_ge; lia).
    rewrite Ef. cbn [script trace clock].
    match goal with
    | |- context [flush_loop _ ?tr1 ?c1] =>
        destruct (flush_one_byte chunks tr1 c1) as (c' & evs2 & E2 & Hrd2);
          [fields; lia|fields; rewrite Hcl; reflexivity|exact Hall|]
    end.
    rewrite E2. exists c', (evs1 ++ evs2). split; [now rewrite app_assoc|].
    fields. rewrite read_on_app, Hrd2.
    now rewrite (sends_read_nothing _ _ _ Hall1). }
  destruct Hres as (c' & evs & E & Hrd).
  exists c', (mk_world [] (trace w ++ evs) (clock w)), evs.
  split; [exact E|]. split; [reflexivity|]. split; [reflexivity|].
  destruct (write_step c w [] 1 c' _ (wire_inv_fresh c Hfresh) E)
    as (_ & _ & _ & evs' & Htr & _ & _ & Hdone).
  cbn [trace] in Htr. apply app_inv_head in Htr. subst evs'.
  specialize (Hdone eq_refl). simpl app in Hdone. rewrite Hdone.
  unfold response_body. rewrite Hih, Hml. simpl (0 <? 0). cbv iota.
  replace (file_fd c <? 0) with false by (symmetry; apply Z.ltb_ge; lia).
  now rewrite Hrd.
Qed.

(** C2.  Every run of write transitions on a freshly staged response puts on
    the socket a prefix of the header block followed by the body: no body
    byte goes out while the header block is incomplete, a run that ends with
    1 has put out exactly the header block and then the whole body, and the
    sent counters stay within their buffers.  A would-block answer to a send
    returns 0 and leaves the slot as it was.  A destination that takes one
    byte per send receives the whole header-then-file stream of a 200
    response. *)
Theorem write_delivers_header_then_body :
  (forall (n : nat) (c : client_t) (w : world) (r : Z) (c' : client_t)
          (w' : world),
     fresh_response c ->
     write_turns n c w = Some (r, c', w') ->
     exists evs, trace w' = trace w ++ evs /\
       (exists rest, staged_headers c ++ response_body c evs
                     = sent_on (fd c) evs ++ rest) /\
       (hdr_sent c' < hdr_len c ->
        sent_on (fd c) evs = firstn (Z.to_nat (hdr_sent c')) (staged_headers c)) /\
       (r = 1 -> sent_on (fd c) evs = staged_headers c ++ response_body c evs) /\
       sent_inv c') /\
  (forall (c : client_t) (w : world) (e : errno_t) (rest : list answer),
     next_call_is_send c = true ->
     would_block e = true ->
     script w = Err e :: rest ->
     write_client_response c w = Some (0, c, mk_world rest (trace w) (clock w))) /\
  (forall (c : client_t) (w : world) (chunks : list bytes),
     fresh_response c ->
     is_head c = false -> mem_len c = 0 -> 0 <= file_fd c ->
     Forall (fun ch => ch <> [] /\ len ch <= FILE_CHUNK) chunks ->
     script w = one_byte_script (Z.to_nat (hdr_len c)) chunks ->
     exists c' w' evs,
       write_client_response c w = Some (1, c', w') /\
       script w' = [] /\ trace w' = trace w ++ evs /\
       sent_on (fd c) evs = staged_headers c ++ concat chunks).
Proof.
  split; [|split; [exact write_would_block|exact write_one_byte]].
  intros n c w r c' w' Hfresh H.
  destruct (write_turns_inv n c w [] r c' w' (wire_inv_fresh c Hfresh) H)
    as (evs & Htr & Hst & Hinv & Hdone).
  simpl app in Hinv, Hdone.
  destruct (static_fd _ _ Hst) as (Hfd & _ & Hhl & Hh & Hb).
  destruct (wire_inv_prefix _ _ Hinv) as (Hpre & Hhead).
  rewrite Hfd, Hh, Hb in Hpre. rewrite Hfd, Hh, Hhl in Hhead.
  exists evs. split; [exact Htr|]. split; [exact Hpre|]. split; [exact Hhead|].
  split; [exact Hdone|]. apply Hinv.
Qed.

Lemma write_delivers_header_then_body_witness :
  fresh_response sample_error_slot /\
  write_turns 3 sample_error_slot sample_sends
  = Some (1, snd (fst sample_written), snd sample_written) /\
  exists evs, trace (snd sample_written) = trace sample_sends ++ evs /\
    (exists rest, staged_headers sample_error_slot
                  ++ response_body sample_error_slot evs
                  = sent_on (fd sample_error_slot) evs ++ rest) /\
    (hdr_sent (snd (fst sample_written)) < hdr_len sample_error_slot ->
     sent_on (fd sample_error_slot) evs
     = firstn (Z.to_nat (hdr_sent (snd (fst sample_written))))
         (staged_headers sample_error_slot)) /\
    (1 = 1 -> sent_on (fd sample_error_slot) evs
              = staged_headers sample_error_slot
                ++ response_body sample_error_slot evs) /\
    sent_inv (snd (fst sample_written)).
Proof.
  assert (Hf : fresh_response sample_error_slot).
  { unfold fresh_response. vm_compute. repeat split; discriminate. }
  assert (Hw : write_turns 3 sample_error_slot sample_sends
               = Some (1, snd (fst sample_written), snd sample_written)).
  { vm_compute. reflexivity. }
  split; [exact Hf|]. split; [exact Hw|].
  exact (proj1 write_delivers_header_then_body 3%nat sample_error_slot sample_sends
           1 (snd (fst sample_written)) (snd sample_written) Hf Hw).
Defined.

(** ** The invariant through the read and write transitions and the loop *)

Lemma recv_loop_cons (fs : filesys) (cfg : server_config_t) (gm : tm_t)
    (a : answer) (scr' : list answer) (tr : list event) (c : client_t) :
  recv_loop fs cfg gm (a :: scr') tr c =
  match a with
  | Bytes bs =>
      let data :=
        firstn (Z.to_nat (to_size (max_header_size cfg - req_len c))) bs in
      if 0 <? len data then
        let c1 :=
          set_req_buf
            (buf_write (buf_write (req_buf c) (req_len c) data)
               (req_len c + len data) [NUL])
            (set_req_len (req_len c + len data) c) in
        let tr1 := tr ++ [EvRecv (fd c) data] in
        if req_len c1 >=? max_header_size cfg then
          Some (make_error_response gm c1 400 false false, mk_world scr' tr1 gm)
        else if has_header_end (req_buf c1) (req_len c1) then
          prepare_response fs cfg c1 (mk_world scr' tr1 gm)
        else recv_loop fs cfg gm scr' tr1 c1
      else Some (-1, c, mk_world scr' tr gm)
  | Err e =>
      if would_block e then Some (0, c, mk_world scr' tr gm)
      else Some (-1, c, mk_world scr' tr gm)
  | _ => None
  end.
Proof. destruct a; reflexivity. Qed.

Lemma recv_loop_inv (fs : filesys) (cfg : server_config_t) (gm : tm_t)
    (scr : list answer) :
  forall (tr : list event) (c : client_t) (r : Z) (c' : client_t) (w' : world),
  sent_inv c ->
  recv_loop fs cfg gm scr tr c = Some (r, c', w') -> sent_inv c'.
Proof.
  induction scr as [|a scr IH]; intros tr c r c' w' Hinv H; [discriminate|].
  rewrite recv_loop_cons in H. destruct a as [bs|k| |n|revs|e]; try discriminate.
  - cbv zeta in H.
    destruct (0 <? len _) in H; [|injection H as <- <- <-; exact Hinv].
    match type of H with
    | context [make_error_response gm ?c1 _ _ _] =>
        assert (Hinv1 : sent_inv c1) by exact Hinv
    end.
    destruct (_ >=? _) in H.
    + rewrite make_error_response_ok in H. injection H as <- <- <-.
      apply sent_inv_error_response.
    + destruct (has_header_end _ _) in H.
      * eapply prepare_response_inv, H.
      * eapply IH; [exact Hinv1|exact H].
  - destruct (would_block e); injection H as <- <- <-; exact Hinv.
Qed.

Lemma write_client_response_inv (c : client_t) (w : world) (r : Z)
    (c' : client_t) (w' : world) :
  sent_inv c ->
  write_client_response c w = Some (r, c', w') -> sent_inv c'.
Proof.
  intros (Hs1 & Hs2 & Hs3) H. unfold write_client_response in H.
  destruct (send_buffer (fd c) (hdr_buf c) (hdr_len c) (hdr_sent c) w)
    as [[[r1 sent1] w1]|] eqn:E1; [|discriminate].
  destruct (send_buffer_spec _ _ _ _ _ _ _ _ Hs1 E1) as (Hb1 & _).
  assert (Hinv1 : sent_inv (set_hdr_sent sent1 c)).
  { unfold sent_inv. fields. lia. }
  destruct (r1 <=? 0); [injection H as <- <- <-; exact Hinv1|].
  destruct (is_head (set_hdr_sent sent1 c)); [injection H as <- <- <-; exact Hinv1|].
  destruct (0 <? mem_len (set_hdr_sent sent1 c)).
  - fields.
    destruct (send_buffer (fd c) (mem_body c) (mem_len c) (mem_sent c) w1)
      as [[[r2 sent2] w2]|] eqn:E2; [|discriminate].
    destruct (send_buffer_spec _ _ _ _ _ _ _ _ Hs2 E2) as (Hb2 & _).
    injection H as <- <- <-. unfold sent_inv. fields. lia.
  - unfold flush_file in H.
    destruct (file_fd (set_hdr_sent sent1 c) <? 0);
      [injection H as <- <- <-; exact Hinv1|].
    destruct (flush_loop (script w1) (trace w1) (set_hdr_sent sent1 c))
      as [[[[r2 c2] scr2] tr2]|] eqn:E2; [|discriminate].
    injection H as <- <- <-.
    apply flush_loop_spec in E2; [|fields; exact Hs3].
    destruct E2 as (Hc2 & Hout2 & _).
    unfold outside_chunk in Hout2. fields.
    injection Hout2 as Ha Hfd Hmode Hrb Hrl Hhb Hhl Hhs Hmb Hml Hms Hih Hff Hfs.
    unfold sent_inv. rewrite Hhs, Hhl, Hms, Hml. lia.
Qed.

Lemma service_client_inv (fs : filesys) (cfg : server_config_t) (p : pollfd)
    (c : client_t) (w : world) (p' : pollfd) (c' : client_t) (w' : world) :
  sent_inv c ->
  service_client fs cfg p c w = Some (p', c', w') -> sent_inv c'.
Proof.
  intros Hinv H. unfold service_client in H.
  destruct (negb (active c)); [injection H as <- <- <-; exact Hinv|].
  destruct (revents p =? 0); [injection H as <- <- <-; exact Hinv|].
  destruct (has_flag (revents p) _);
    [injection H as <- <- <-; apply sent_inv_reset|].
  assert (Hread : forall b p1 c1 w1,
            (if mode_eqb (mode c) MODE_READING && has_flag (revents p) POLLIN
             then
               match read_client_request fs cfg c w with
               | None => None
               | Some (r, c1, w1) =>
                   if r <? 0 then Some (false, close_client_slot p c1 w1)
                   else if mode_eqb (mode c1) MODE_WRITING
                   then Some (true, (set_events POLLOUT p, c1, w1))
                   else Some (true, (p, c1, w1))
               end
             else Some (true, (p, c, w))) = Some (b, (p1, c1, w1)) ->
            sent_inv c1).
  { intros b p1 c1 w1 Hr.
    destruct (mode_eqb (mode c) MODE_READING && has_flag (revents p) POLLIN).
    - destruct (read_client_request fs cfg c w) as [[[r0 c0] w0]|] eqn:E;
        [|discriminate].
      assert (sent_inv c0) by (eapply recv_loop_inv; [exact Hinv|exact E]).
      destruct (r0 <? 0); [injection Hr as <- <- <- <-; apply sent_inv_reset|].
      destruct (mode_eqb (mode c0) MODE_WRITING);
        injection Hr as <- <- <- <-; assumption.
    - injection Hr as <- <- <- <-. exact Hinv. }
  destruct (if mode_eqb (mode c) MODE_READING && has_flag (revents p) POLLIN
            then _ else _) as [[b [[p1 c1] w1]]|] eqn:E; [|discriminate].
  specialize (Hread _ _ _ _ eq_refl).
  destruct b; [|injection H as <- <- <-; exact Hread].
  destruct (active c1 && mode_eqb (mode c1) MODE_WRITING
            && has_flag (revents p) POLLOUT);
    [|injection H as <- <- <-; exact Hread].
  destruct (write_client_response c1 w1) as [[[wr c2] w2]|] eqn:E2; [|discriminate].
  assert (sent_inv c2) by (eapply write_client_response_inv; eassumption).
  destruct ((wr <? 0) || (0 <? wr)); injection H as <- <- <-;
    [apply sent_inv_reset|assumption].
Qed.

Lemma service_clients_inv (fs : filesys) (cfg : server_config_t)
    (pfds : list pollfd) :
  forall (clients : list client_t) (w : world) (pfds' : list pollfd)
         (clients' : list client_t) (w' : world),
  Forall sent_inv clients ->
  service_clients fs cfg pfds clients w = Some (pfds', clients', w') ->
  Forall sent_inv clients'.
Proof.
  induction pfds as [|p ps IH]; intros clients w pfds' clients' w' Hall H.
  - simpl in H. injection H as <- <- <-. exact Hall.
  - destruct clients as [|c cs]; simpl in H;
      [injection H as <- <- <-; exact Hall|].
    inversion Hall as [|? ? Hc Hcs]; subst.
    destruct (service_client fs cfg p c w) as [[[p1 c1] w1]|] eqn:E1;
      [|discriminate].
    destruct (service_clients fs cfg ps cs w1) as [[[ps2 cs2] w2]|] eqn:E2;
      [|discriminate].
    injection H as <- <- <-. constructor.
    + eapply service_client_inv; eassumption.
    + eapply IH; eassumption.
Qed.

Lemma sent_inv_claimed (client_fd : Z) : sent_inv (claimed_client client_fd).
Proof. unfold sent_inv, claimed_client. cbn. lia. Qed.

Lemma add_client_from_inv (pfds : list pollfd) :
  forall (clients : list client_t) (client_fd : Z) (pfds' : list pollfd)
         (clients' : list client_t),
  Forall sent_inv clients ->
  add_client_from pfds clients client_fd = Some (pfds', clients') ->
  Forall sent_inv clients'.
Proof.
  induction pfds as [|p ps IH]; intros clients cfd pfds' clients' Hall H;
    [discriminate|].
  destruct clients as [|c cs]; [discriminate|]. simpl in H.
  inversion Hall as [|? ? Hc Hcs]; subst.
  destruct (negb (active c)).
  - injection H as <- <-. constructor; [apply sent_inv_claimed|exact Hcs].
  - destruct (add_client_from ps cs cfd) as [[ps' cs']|] eqn:E; [|discriminate].
    injection H as <- <-. constructor; [exact Hc|eapply IH; eassumption].
Qed.

Lemma add_client_to_slot_inv (pfds : list pollfd) (clients : list client_t)
    (client_fd : Z) :
  Forall sent_inv clients ->
  Forall sent_inv (snd (add_client_to_slot pfds clients client_fd)).
Proof.
  intros Hall. unfold add_client_to_slot.
  destruct pfds as [|p0 ps]; [exact Hall|].
  destruct clients as [|c0 cs]; [exact Hall|].
  inversion Hall as [|? ? Hc Hcs]; subst.
  destruct (add_client_from ps cs client_fd) as [[ps' cs']|] eqn:E; [|exact Hall].
  simpl. constructor; [exact Hc|eapply add_client_from_inv; eassumption].
Qed.

Lemma accept_loop_inv (fuel : nat) :
  forall (pfds : list pollfd) (clients : list client_t) (w : world)
         (pfds' : list pollfd) (clients' : list client_t) (w' : world),
  Forall sent_inv clients ->
  accept_loop fuel pfds clients w = Some (pfds', clients', w') ->
  Forall sent_inv clients'.
Proof.
  induction fuel as [|fuel IH]; intros pfds clients w pfds' clients' w' Hall H;
    [discriminate|].
  simpl in H.
  destruct (script w) as [|[bs|k| |cfd|revs|e] rest]; try discriminate.
  - destruct rest as [|[bs|k| |n|revs|e] rest]; try discriminate.
    + destruct (cfd <? 0); [discriminate|].
      pose proof (add_client_to_slot_inv pfds clients cfd Hall) as Hadd.
      destruct (add_client_to_slot pfds clients cfd) as [[r ps1] cs1].
      simpl in Hadd.
      destruct (negb (r =? 0)); eapply IH; eassumption.
    + destruct (cfd <? 0); [discriminate|]. eapply IH; eassumption.
  - injection H as <- <- <-. exact Hall.
Qed.

Lemma loop_iteration_inv (fs : filesys) (cfg : server_config_t)
    (pfds : list pollfd) (clients : list client_t) (w : world) (go : bool)
    (pfds' : list pollfd) (clients' : list client_t) (w' : world) :
  Forall sent_inv clients ->
  loop_iteration fs cfg pfds clients w = Some (go, pfds', clients', w') ->
  Forall sent_inv clients'.
Proof.
  intros Hall H. unfold loop_iteration in H.
  destruct (script w) as [|[bs|k| |n|revs|e] rest]; try discriminate.
  - destruct (poll_count _ =? 0); [injection H as <- <- <- <-; exact Hall|].
    match type of H with
    | context [if ?b then accept_new_clients ?p ?c ?w0 else _] =>
        assert (Hacc : forall ps cs w1,
                  (if b then accept_new_clients p c w0 else Some (p, c, w0))
                  = Some (ps, cs, w1) -> Forall sent_inv cs);
          [intros ps cs w1 Ha; destruct b;
             [eapply accept_loop_inv; [exact Hall|exact Ha]
             |injection Ha as <- <- <-; exact Hall]|];
        destruct (if b then accept_new_clients p c w0 else Some (p, c, w0))
          as [[[ps cs] w1]|] eqn:E; [|discriminate]
    end.
    specialize (Hacc _ _ _ eq_refl).
    destruct ps as [|p0 ps]; [injection H as <- <- <- <-; exact Hacc|].
    destruct cs as [|c0 cs]; [injection H as <- <- <- <-; exact Hacc|].
    inversion Hacc as [|? ? Hc Hcs]; subst.
    destruct (service_clients fs cfg ps cs w1) as [[[ps2 cs2] w2]|] eqn:E2;
      [|discriminate].
    injection H as <- <- <- <-. constructor; [exact Hc|].
    eapply service_clients_inv; eassumption.
  - destruct e; injection H as <- <- <- <-; exact Hall.
Qed.

Lemma event_loop_inv (n : nat) (fs : filesys) (cfg : server_config_t) :
  forall (pfds : list pollfd) (clients : list client_t) (w : world)
         (pfds' : list pollfd) (clients' : list client_t) (w' : world),
  Forall sent_inv clients ->
  event_loop n fs cfg pfds clients w = Some (pfds', clients', w') ->
  Forall sent_inv clients'.
Proof.
  induction n as [|n IH]; intros pfds clients w pfds' clients' w' Hall H;
    simpl in H.
  - injection H as <- <- <-. exact Hall.
  - destruct (loop_iteration fs cfg pfds clients w) as [[[[go ps] cs] w1]|] eqn:E;
      [|discriminate].
    pose proof (loop_iteration_inv _ _ _ _ _ _ _ _ _ Hall E) as Hall1.
    destruct go; [eapply IH; eassumption|].
    injection H as <- <- <-. exact Hall1.
Qed.

Lemma initial_clients_inv : Forall sent_inv initial_clients.
Proof.
  unfold initial_clients. apply Forall_forall. intros c Hc.
  apply repeat_spec in Hc. subst c. apply sent_inv_reset.
Qed.

(** C9.  The bytes-sent counter of each buffer never exceeds that buffer's
    length: the read, prepare and write operations each keep
    [hdr_sent <= hdr_len], [mem_sent <= mem_len] and
    [chunk_sent <= chunk_len], and so every slot satisfies them after any
    number of turns of the event loop started on the initial table. *)
Theorem sent_never_exceeds_length :
  (forall fs cfg c w r c' w',
     sent_inv c ->
     read_client_request fs cfg c w = Some (r, c', w') -> sent_inv c') /\
  (forall fs cfg c w r c' w',
     sent_inv c ->
     prepare_response fs cfg c w = Some (r, c', w') -> sent_inv c') /\
  (forall c w r c' w',
     sent_inv c ->
     write_client_response c w = Some (r, c', w') -> sent_inv c') /\
  (forall n fs cfg listen_fd w pfds clients w',
     event_loop n fs cfg (initial_pfds listen_fd) initial_clients w
     = Some (pfds, clients, w') ->
     Forall sent_inv clients).
Proof.
  split; [|split; [|split]].
  - intros fs cfg c w r c' w' Hinv H. unfold read_client_request in H.
    eapply recv_loop_inv; eassumption.
  - intros fs cfg c w r c' w' _ H. eapply prepare_response_inv; eassumption.
  - intros c w r c' w' Hinv H. eapply write_client_response_inv; eassumption.
  - intros n fs cfg listen_fd w pfds clients w' H.
    eapply event_loop_inv; [apply initial_clients_inv|exact H].
Qed.

(** ** HEAD: headers alone *)

Lemma header_text_content_length (date : bytes) (status : Z) (ct : bytes)
    (cl : Z) :
  exists pre,
    header_text date status ct cl false
    = pre ++ lit "Content-Length: " ++ dec cl ++ CRLF ++ CRLF.
Proof.
  unfold header_text. eexists. rewrite app_nil_l.
  repeat rewrite app_assoc. reflexivity.
Qed.

Lemma staged_headers_file_response (gm : tm_t) (c : client_t) (p : bytes)
    (st : stat_t) (ih : bool) (ffd : Z) :
  staged_headers (file_response gm c p st ih ffd)
  = header_text (format_http_date gm) 200 (guess_mime_type p) (st_size st) false.
Proof.
  unfold staged_headers, file_response.
  cbn [hdr_len hdr_buf].
  apply firstn_snprintf_buf.
  apply (build_response_headers_fits [] gm 200 (guess_mime_type p) (st_size st)
           false (guess_mime_type_length p)).
Qed.

Lemma staged_headers_error_response (gm : tm_t) (c : client_t) (status : Z)
    (ih allow : bool) :
  staged_headers (error_response gm c status ih allow)
  = header_text (format_http_date gm) status (lit "text/html; charset=utf-8")
      (len (error_page status)) allow.
Proof.
  unfold staged_headers, error_response.
  cbn [hdr_len hdr_buf]. cbv zeta.
  apply firstn_snprintf_buf.
  apply (build_response_headers_fits [] gm status
           (lit "text/html; charset=utf-8") (len (error_page status)) allow).
  simpl. lia.
Qed.

Lemma staged_body_error_response (gm : tm_t) (c : client_t) (status : Z)
    (ih allow : bool) :
  staged_body (error_response gm c status ih allow) = error_page status.
Proof.
  unfold staged_body, error_response. cbn [mem_len mem_body]. cbv zeta.
  apply firstn_snprintf_buf.
  pose proof (error_page_length status). unfold MAX_ERROR_BODY, len. lia.
Qed.

Lemma fresh_error_response (gm : tm_t) (c : client_t) (status : Z)
    (ih allow : bool) :
  fresh_response (error_response gm c status ih allow).
Proof.
  unfold fresh_response, error_response.
  cbn [hdr_sent mem_sent chunk_len chunk_sent hdr_len mem_len]. cbv zeta.
  repeat split; try reflexivity; apply len_nonneg.
Qed.

Lemma fresh_file_response (gm : tm_t) (c : client_t) (p : bytes) (st : stat_t)
    (ih : bool) (ffd : Z) :
  fresh_response (file_response gm c p st ih ffd).
Proof.
  unfold fresh_response, file_response.
  cbn [hdr_sent mem_sent chunk_len chunk_sent hdr_len mem_len]. cbv zeta.
  repeat split; try reflexivity; try apply len_nonneg; lia.
Qed.

(** C3.  For a request the parser accepts with the HEAD method, preparing
    the response makes no system call, so it opens no file, and leaves
    [file_fd] at -1 with the no-body flag set; when the target resolves, the
    staged header block is the 200 block whose Content-Length is the
    [st_size] that [stat] reports.  A write transition on a no-body slot
    sends bytes of the header buffer only, reads nothing, leaves the body
    counters alone, and returns 1 exactly when the header block is out. *)
Theorem head_never_opens_file :
  (forall fs cfg c w req,
     parse_http_request (firstn (Z.to_nat (req_len c)) (req_buf c)) fresh_request
     = (0, req) ->
     method req = HTTP_METHOD_HEAD ->
     exists c',
       prepare_response fs cfg c w = Some (0, c', w) /\
       file_fd c' = -1 /\ is_head c' = true /\ mode c' = MODE_WRITING /\
       fresh_response c' /\
       forall p st,
         resolve_path fs (doc_root cfg) (target req) [] PATH_MAX = (0, p) ->
         fs_stat fs p = inr st ->
         staged_headers c'
         = header_text (format_http_date (clock w)) 200 (guess_mime_type p)
             (st_size st) false /\
         exists pre,
           staged_headers c'
           = pre ++ lit "Content-Length: " ++ dec (st_size st) ++ CRLF ++ CRLF) /\
  (forall c w r c' w',
     is_head c = true ->
     sent_inv c ->
     write_client_response c w = Some (r, c', w') ->
     (r = 1 <-> hdr_sent c' = hdr_len c) /\
     c' = set_hdr_sent (hdr_sent c') c /\
     exists evs, trace w' = trace w ++ evs /\
       Forall (is_send_on (fd c)) evs /\
       sent_on (fd c) evs
       = slice (hdr_buf c) (hdr_sent c) (hdr_sent c' - hdr_sent c)).
Proof.
  split.
  - intros fs cfg c w req Hparse Hm.
    rewrite prepare_response_eq. cbv zeta. rewrite Hparse, Hm.
    simpl (0 =? 400). simpl (0 =? 405). cbv iota.
    destruct (resolve_path fs (doc_root cfg) (target req) [] PATH_MAX)
      as [rc p] eqn:Er.
    destruct (negb (rc =? 0)) eqn:Erc.
    + exists (error_response (clock w) c
                (if negb (rc =? 400) && negb (rc =? 403) && negb (rc =? 404)
                 then 500 else rc) true false).
      split; [reflexivity|].
      split; [reflexivity|]. split; [reflexivity|]. split; [reflexivity|].
      split; [apply fresh_error_response|].
      intros p0 st0 [= -> _]. discriminate.
    + destruct (fs_stat fs p) as [e|st] eqn:Es.
      * exists (error_response (clock w) c (status_from_errno e) true false).
        split; [reflexivity|].
        split; [reflexivity|]. split; [reflexivity|]. split; [reflexivity|].
        split; [apply fresh_error_response|].
        intros p0 st0 [= _ <-] Hs. congruence.
      * exists (file_response (clock w) c p st true (-1)).
        split; [reflexivity|].
        split; [reflexivity|]. split; [reflexivity|]. split; [reflexivity|].
        split; [apply fresh_file_response|].
        intros p0 st0 [= _ <-] Hs.
        assert (st0 = st) by congruence. subst st0.
        rewrite staged_headers_file_response. split; [reflexivity|].
        apply header_text_content_length.
  - intros c w r c' w' Hih (Hs1 & _) H. unfold write_client_response in H.
    destruct (send_buffer (fd c) (hdr_buf c) (hdr_len c) (hdr_sent c) w)
      as [[[r1 sent1] w1]|] eqn:E1; [|discriminate].
    destruct (send_buffer_spec _ _ _ _ _ _ _ _ Hs1 E1)
      as (Hb1 & Hr1 & _ & evs1 & Htr1 & Hall1 & Hout1).
    assert (Hres : r = r1 /\ c' = set_hdr_sent sent1 c /\ w' = w1).
    { destruct (r1 <=? 0) eqn:Er; [now injection H as <- <- <-|].
      apply Z.leb_gt in Er.
      replace (is_head (set_hdr_sent sent1 c)) with true in H by (symmetry; exact Hih).
      injection H as <- <- <-. repeat split. lia. }
    destruct Hres as (-> & -> & ->). fields.
    split; [lia|]. split; [reflexivity|].
    exists evs1. auto.
Qed.

Lemma head_never_opens_file_witness :
  parse_http_request
    (firstn (Z.to_nat (req_len sample_head_slot)) (req_buf sample_head_slot))
    fresh_request
  = (0, mk_request HTTP_METHOD_HEAD (lit "/index.html")) /\
  exists c',
    prepare_response sample_fs sample_cfg sample_head_slot sample_idle
    = Some (0, c', sample_idle) /\
    file_fd c' = -1 /\ is_head c' = true /\ mode c' = MODE_WRITING /\
    fresh_response c' /\
    forall p st,
      resolve_path sample_fs (doc_root sample_cfg) (lit "/index.html") []
        PATH_MAX = (0, p) ->
      fs_stat sample_fs p = inr st ->
      staged_headers c'
      = header_text (format_http_date (clock sample_idle)) 200
          (guess_mime_type p) (st_size st) false /\
      exists pre,
        staged_headers c'
        = pre ++ lit "Content-Length: " ++ dec (st_size st) ++ CRLF ++ CRLF.
Proof.
  assert (Hp : parse_http_request
                 (firstn (Z.to_nat (req_len sample_head_slot))
                    (req_buf sample_head_slot)) fresh_request
               = (0, mk_request HTTP_METHOD_HEAD (lit "/index.html"))).
  { vm_compute. reflexivity. }
  split; [exact Hp|].
  exact (proj1 head_never_opens_file sample_fs sample_cfg sample_head_slot
           sample_idle (mk_request HTTP_METHOD_HEAD (lit "/index.html"))
           Hp eq_refl).
Defined.

(** ** The header byte budget *)









(** ** The default document *)

Lemma strip_query_stop (n : nat) (s x : bytes) :
  existsb is_stop s = true -> strip_query n (s ++ x) = strip_query n s.
Proof.
  revert n. induction s as [|c s IH]; intros n H; [discriminate|].
  destruct n as [|n]; [reflexivity|]. simpl in *.
  destruct (is_stop c); [reflexivity|]. simpl in H. f_equal. now apply IH.
Qed.

Lemma strip_query_nostop (n : nat) (s : bytes) :
  existsb is_stop s = false -> strip_query n s = firstn n s.
Proof.
  revert n. induction s as [|c s IH]; intros n H; [now destruct n|].
  destruct n as [|n]; [reflexivity|]. simpl in *.
  apply orb_false_elim in H as [Hc Hs]. rewrite Hc. f_equal. now apply IH.
Qed.

Lemma is_prefix_firstn_mono (n : bytes) :
  forall (k : nat) (s : bytes),
  is_prefix n (firstn k s) = true -> is_prefix n s = true.
Proof.
  induction n as [|x n IH]; intros k s H; [reflexivity|].
  destruct k as [|k]; [discriminate|]. destruct s as [|y s]; [discriminate|].
  simpl in *. apply andb_prop in H as [Hx Hn]. rewrite Hx. simpl. eapply IH, Hn.
Qed.

Lemma strstr_firstn_mono (n : bytes) (s : bytes) :
  forall (k : nat), strstr (firstn k s) n = true -> strstr s n = true.
Proof.
  induction s as [|a s IH]; intros k H.
  - now rewrite firstn_nil in H.
  - destruct k as [|k].
    + simpl in H. rewrite orb_false_r in H. destruct n; [|discriminate].
      reflexivity.
    + change (firstn (S k) (a :: s)) with (a :: firstn k s) in H.
      simpl in H. apply orb_prop in H as [H|H].
      * apply strstr_here. apply (is_prefix_firstn_mono n (S k) (a :: s)). exact H.
      * apply strstr_later. eapply IH, H.
Qed.

Lemma existsb_firstn_mono (f : ascii -> bool) (s : bytes) :
  forall (k : nat), existsb f (firstn k s) = true -> existsb f s = true.
Proof.
  induction s as [|a s IH]; intros k H.
  - now rewrite firstn_nil in H.
  - destruct k as [|k]; [discriminate|]. simpl in *.
    apply orb_prop in H as [H|H]; [now rewrite H|].
    rewrite (IH _ H). apply orb_true_r.
Qed.

(** A needle in which no ['/'] is followed by ['i'] cannot start before a
    ['/'] and end after the ['i'] that follows it. *)
Lemma is_prefix_boundary (n : bytes) :
  forall (l p : bytes),
  no_slash_i n = true ->
  is_prefix n (l ++ "/"%char :: "i"%char :: p) = is_prefix n (l ++ ["/"%char]).
Proof.
  induction n as [|x n IH]; intros l p H; [reflexivity|].
  cbn [no_slash_i] in H. apply andb_prop in H as [Hx Hn].
  destruct l as [|a l].
  - cbn [app is_prefix].
    destruct n as [|y n]; [reflexivity|]. cbn [is_prefix].
    destruct (Ascii.eqb x "/"%char); [|reflexivity].
    destruct (Ascii.eqb y "i"%char); [discriminate|reflexivity].
  - cbn [app is_prefix]. f_equal. now apply IH.
Qed.

Lemma strstr_boundary (n l p : bytes) :
  no_slash_i n = true ->
  strstr ("i"%char :: p) n = false ->
  strstr (l ++ "/"%char :: "i"%char :: p) n = strstr (l ++ ["/"%char]) n.
Proof.
  intros Hn Hp. induction l as [|a l IH].
  - change (strstr ([] ++ "/"%char :: "i"%char :: p) n)
      with (is_prefix n ([] ++ "/"%char :: "i"%char :: p)
            || strstr ("i"%char :: p) n).
    rewrite Hp, orb_false_r, is_prefix_boundary by exact Hn.
    simpl. destruct n; simpl; [reflexivity|].
    now rewrite !orb_false_r.
  - change (strstr ((a :: l) ++ "/"%char :: "i"%char :: p) n)
      with (is_prefix n ((a :: l) ++ "/"%char :: "i"%char :: p)
            || strstr (l ++ "/"%char :: "i"%char :: p) n).
    change (strstr ((a :: l) ++ ["/"%char]) n)
      with (is_prefix n ((a :: l) ++ ["/"%char]) || strstr (l ++ ["/"%char]) n).
    now rewrite IH, is_prefix_boundary by exact Hn.
Qed.

Lemma ends_with_dotdot_last (s : bytes) :
  ends_with_dotdot s = true -> last s NUL = "."%char.
Proof.
  unfold ends_with_dotdot. intros H. apply andb_prop in H as [_ H].
  apply bytes_eqb_eq in H.
  rewrite <- (firstn_skipn (length s - 3) s). fold (last_n 3 s). rewrite H.
  change (lit "/..") with (lit "/." ++ ["."%char]).
  now rewrite app_assoc, last_last.
Qed.

Lemma last_app_nonempty (a b : bytes) (d : ascii) :
  b <> [] -> last (a ++ b) d = last b d.
Proof.
  intros Hb. destruct (exists_last Hb) as (b' & x & ->).
  now rewrite app_assoc, !last_last.
Qed.

(** The non-empty prefixes of [index.html]. *)
Lemma index_prefix_cases (k : nat) :
  (1 <= k)%nat ->
  exists p, firstn k (lit "index.html") = "i"%char :: p /\
    last ("i"%char :: p) NUL <> "/"%char /\
    (last ("i"%char :: p) NUL <> "."%char \/ "i"%char :: p = lit "index.").
Proof.
  intros Hk. destruct k as [|k]; [lia|].
  do 10 (destruct k as [|k]; [eexists; split; [reflexivity|];
                              split; [discriminate|];
                              first [right; reflexivity|left; discriminate]|]).
  eexists; split; [reflexivity|]. split; [discriminate|]. left; discriminate.
Qed.

Lemma ends_with_dotdot_slash (l : bytes) :
  ends_with_dotdot (l ++ ["/"%char]) = false.
Proof.
  destruct (ends_with_dotdot (l ++ ["/"%char])) eqn:E; [|reflexivity].
  apply ends_with_dotdot_last in E. rewrite last_last in E. discriminate.
Qed.

Lemma ends_with_dotdot_index (l : bytes) (k : nat) :
  (1 <= k)%nat ->
  ends_with_dotdot ((l ++ ["/"%char]) ++ firstn k (lit "index.html")) = false.
Proof.
  intros Hk. destruct (index_prefix_cases k Hk) as (p & -> & _ & [Hd|Hp]).
  - destruct (ends_with_dotdot _) eqn:E; [|reflexivity].
    apply ends_with_dotdot_last in E.
    rewrite last_app_nonempty in E by discriminate. contradiction.
  - rewrite Hp. unfold ends_with_dotdot.
    change (lit "index.") with (lit "ind" ++ lit "ex.").
    rewrite app_assoc.
    pose proof (last_n_app ((l ++ ["/"%char]) ++ lit "ind") (lit "ex.")) as Hl.
    change (length (lit "ex.")) with 3%nat in Hl. rewrite Hl.
    apply andb_false_r.
Qed.

Lemma bytes_eqb_dotdot_ends (s : bytes) :
  ends_with_dotdot s = false -> bytes_eqb s (lit "/..") = false.
Proof.
  intros H. destruct (bytes_eqb s (lit "/..")) eqn:E; [|reflexivity].
  apply bytes_eqb_eq in E. subst s. discriminate.
Qed.

Lemma contains_traversal_index (l : bytes) (k : nat) :
  (1 <= k)%nat ->
  contains_traversal ((l ++ ["/"%char]) ++ firstn k (lit "index.html"))
  = contains_traversal (l ++ ["/"%char]).
Proof.
  intros Hk.
  pose proof (ends_with_dotdot_index l k Hk) as He2.
  pose proof (ends_with_dotdot_slash l) as He1.
  pose proof (bytes_eqb_dotdot_ends _ He1) as Hq1.
  pose proof (bytes_eqb_dotdot_ends _ He2) as Hq2.
  unfold contains_traversal. fold (ends_with_dotdot (l ++ ["/"%char])).
  fold (ends_with_dotdot ((l ++ ["/"%char]) ++ firstn k (lit "index.html"))).
  rewrite He1, He2, Hq1, Hq2.
  assert (Hc : strchr ((l ++ ["/"%char]) ++ firstn k (lit "index.html")) "\"%char
               = strchr (l ++ ["/"%char]) "\"%char).
  { unfold strchr. rewrite existsb_app.
    destruct (existsb _ (firstn k (lit "index.html"))) eqn:E;
      [|apply orb_false_r].
    apply existsb_firstn_mono in E. discriminate. }
  rewrite Hc.
  destruct (index_prefix_cases k Hk) as (p & Hp & _).
  assert (Hs : forall n, no_slash_i n = true ->
                 strstr (lit "index.html") n = false ->
                 strstr ((l ++ ["/"%char]) ++ firstn k (lit "index.html")) n
                 = strstr (l ++ ["/"%char]) n).
  { intros n Hn Hx. rewrite Hp, <- app_assoc. simpl app.
    apply strstr_boundary; [exact Hn|].
    rewrite <- Hp. destruct (strstr (firstn k (lit "index.html")) n) eqn:E;
      [|reflexivity].
    apply strstr_firstn_mono in E. congruence. }
  assert (Hpre : is_prefix (lit "/../")
                   ((l ++ ["/"%char]) ++ firstn k (lit "index.html"))
                 = is_prefix (lit "/../") (l ++ ["/"%char])).
  { rewrite Hp, <- app_assoc. simpl app. now apply is_prefix_boundary. }
  rewrite Hpre.
  rewrite !Hs by reflexivity. reflexivity.
Qed.

Lemma last_n_1 (s : bytes) : s <> [] -> last_n 1 s = [last s NUL].
Proof.
  intros Hs. destruct (exists_last Hs) as (s' & x & ->).
  rewrite last_last. apply (last_n_app s' [x]).
Qed.

Lemma normalize_target_file (s : bytes) :
  s <> [] -> last s NUL <> "/"%char -> len s < PATH_MAX ->
  normalize_target s = inr s.
Proof.
  intros Hne Hlast Hlen. unfold normalize_target.
  destruct (bytes_eqb s (lit "/")) eqn:E.
  { apply bytes_eqb_eq in E. subst s. now contradiction Hlast. }
  rewrite last_n_1 by exact Hne.
  destruct (Ascii.eqb (last s NUL) "/"%char) eqn:El.
  { apply Ascii.eqb_eq in El. contradiction. }
  now rewrite snprintf_str_fits.
Qed.

Lemma normalize_target_slash (l : bytes) :
  len (l ++ ["/"%char]) + 11 <= PATH_MAX ->
  normalize_target (l ++ ["/"%char]) = inr ((l ++ ["/"%char]) ++ lit "index.html").
Proof.
  intros Hlen. unfold normalize_target.
  destruct (bytes_eqb (l ++ ["/"%char]) (lit "/")) eqn:E.
  { apply bytes_eqb_eq in E. rewrite E. reflexivity. }
  rewrite last_n_1, last_last, Ascii.eqb_refl by (now destruct l).
  change (len (lit "index.html")) with 10.
  destruct (len (l ++ ["/"%char]) + 10 + 1 >? PATH_MAX) eqn:Eg.
  { apply Z.gtb_lt in Eg. lia. }
  rewrite snprintf_str_fits; [reflexivity|].
  rewrite len_app. change (len (lit "index.html")) with 10. lia.
Qed.

Lemma normalize_target_slash_long (l : bytes) :
  PATH_MAX < len (l ++ ["/"%char]) + 11 ->
  normalize_target (l ++ ["/"%char]) = inl 400.
Proof.
  intros Hlen. unfold normalize_target.
  destruct (bytes_eqb (l ++ ["/"%char]) (lit "/")) eqn:E.
  { apply bytes_eqb_eq in E. rewrite E in Hlen. unfold PATH_MAX in Hlen.
    simpl in Hlen. lia. }
  rewrite last_n_1, last_last, Ascii.eqb_refl by (now destruct l).
  change (len (lit "index.html")) with 10.
  destruct (len (l ++ ["/"%char]) + 10 + 1 >? PATH_MAX) eqn:Eg; [reflexivity|].
  rewrite Z.gtb_ltb in Eg. apply Z.ltb_ge in Eg. lia.
Qed.

Lemma resolve_cleaned_cons (fs : filesys) (doc_root target out : bytes)
    (out_sz : Z) :
  target <> [] ->
  resolve_cleaned fs doc_root target out out_sz =
  if contains_traversal target then (403, out)
  else
    match normalize_target target with
    | inl rc => (rc, out)
    | inr normalized =>
        if snprintf_ret (doc_root ++ normalized) >=? to_int PATH_MAX
        then (400, out)
        else
          match realpath fs (snprintf_str PATH_MAX (doc_root ++ normalized)) with
          | inl e => (status_from_errno e, out)
          | inr canonical =>
              if negb (starts_with_doc_root canonical doc_root) then (403, out)
              else
                match fs_stat fs canonical with
                | inl e => (status_from_errno e, out)
                | inr st =>
                    if negb (st_isreg st) then (403, out)
                    else if snprintf_ret canonical >=? to_int out_sz
                         then (500, snprintf_str out_sz canonical)
                         else (0, snprintf_str out_sz canonical)
                end
          end
    end.
Proof. intros H. destruct target; [contradiction|reflexivity]. Qed.

Lemma resolve_path_cons (fs : filesys) (doc_root t out : bytes) (out_sz : Z)
    (c0 : ascii) (r : bytes) :
  t = c0 :: r ->
  resolve_path fs doc_root t out out_sz =
  if out_sz =? 0 then (500, out)
  else if negb (Ascii.eqb c0 "/"%char) then (400, out)
  else resolve_cleaned fs doc_root (strip_query (Z.to_nat (PATH_MAX - 1)) t)
         out out_sz.
Proof. intros ->. reflexivity. Qed.

(** C8.  Resolving a target that ends in a separator, the root marker "/"
    among them, gives the same code and the same path as resolving that
    target with [index.html] appended, for every document root that the
    configuration can hold (a non-empty path shorter than [PATH_MAX]). *)
Theorem default_document_same_path (fs : filesys)
    (doc_root t0 out : bytes) (out_sz : Z) :
  0 < len doc_root < PATH_MAX ->
  resolve_path fs doc_root (t0 ++ lit "/") out out_sz
  = resolve_path fs doc_root (t0 ++ lit "/index.html") out out_sz.
Proof.
  intros Hroot.
  change (lit "/index.html") with (lit "/" ++ lit "index.html").
  rewrite app_assoc. change (lit "/") with ["/"%char].
  set (T := t0 ++ ["/"%char]).
  assert (HT : T <> []) by (unfold T; now destruct t0).
  assert (Hhd : exists c0 r, T = c0 :: r) by (destruct T; [contradiction|eauto]).
  destruct Hhd as (c0 & r & HTc).
  rewrite (resolve_path_cons fs doc_root T out out_sz c0 r HTc).
  rewrite (resolve_path_cons fs doc_root (T ++ lit "index.html") out out_sz c0
             (r ++ lit "index.html")) by (rewrite HTc; reflexivity).
  destruct (out_sz =? 0); [reflexivity|].
  destruct (negb (Ascii.eqb c0 "/"%char)); [reflexivity|].
  destruct (existsb is_stop T) eqn:Estop.
  { now rewrite strip_query_stop. }
  rewrite !strip_query_nostop;
    [|rewrite existsb_app, Estop; reflexivity|exact Estop].
  set (N := Z.to_nat (PATH_MAX - 1)).
  rewrite firstn_app.
  destruct (Nat.le_gt_cases N (length T)) as [Hlong|Hshort].
  { replace (N - length T)%nat with O by lia. simpl. now rewrite app_nil_r. }
  rewrite (firstn_all2 T) by lia.
  assert (Hk : (1 <= N - length T)%nat) by lia.
  set (k := (N - length T)%nat) in *.
  assert (HTP : T ++ firstn k (lit "index.html") <> []).
  { intros E. apply app_eq_nil in E as [E _]. contradiction. }
  rewrite !resolve_cleaned_cons by assumption.
  pose proof (contains_traversal_index t0 k Hk) as Hct. fold T in Hct.
  rewrite Hct.
  destruct (contains_traversal T); [reflexivity|].
  assert (HN : Z.of_nat N = 4095) by reflexivity.
  destruct (Nat.le_gt_cases 10 k) as [Hfit|Hcut].
  - (* the whole name fits *)
    rewrite (firstn_all2 (lit "index.html")) by exact Hfit.
    pose proof (normalize_target_slash t0) as Hn. fold T in Hn.
    rewrite Hn by (unfold len, PATH_MAX; lia).
    rewrite normalize_target_file; [reflexivity| | |].
    + intros E. apply app_eq_nil in E as [E _]. contradiction.
    + rewrite last_app_nonempty by discriminate. discriminate.
    + rewrite len_app. change (len (lit "index.html")) with 10.
      unfold len, PATH_MAX. lia.
  - (* the name is cut: both calls answer 400 *)
    pose proof (normalize_target_slash_long t0) as Hn. fold T in Hn.
    rewrite Hn by (unfold len, PATH_MAX; lia).
    destruct (index_prefix_cases k Hk) as (p & Hp & Hlast & _).
    assert (Hlen : length (firstn k (lit "index.html")) = k).
    { rewrite length_firstn. simpl length. lia. }
    rewrite normalize_target_file.
    + assert (Hcand : len (doc_root ++ T ++ firstn k (lit "index.html"))
                      = len doc_root + 4095).
      { rewrite !len_app. unfold len. rewrite Hlen. lia. }
      rewrite snprintf_ret_fits by (rewrite Hcand; unfold INT_MAX, PATH_MAX in *; lia).
      rewrite Hcand.
      replace (len doc_root + 4095 >=? to_int PATH_MAX) with true; [reflexivity|].
      symmetry. rewrite Z.geb_leb. apply Z.leb_le.
      change (to_int PATH_MAX) with 4096. lia.
    + exact HTP.
    + rewrite Hp, last_app_nonempty by discriminate. exact Hlast.
    + rewrite len_app. unfold len. rewrite Hlen. unfold PATH_MAX. lia.
Qed.

(** ** Containment in the document root *)





(** ** The traversal pre-filter *)

Lemma strip_query_app_nostop (a : bytes) :
  forall (n : nat) (b : bytes),
  existsb is_stop a = false -> (length a <= n)%nat ->
  strip_query n (a ++ b) = a ++ strip_query (n - length a) b.
Proof.
  induction a as [|c a IH]; intros n b Hs Hn.
  - simpl. now rewrite Nat.sub_0_r.
  - destruct n as [|n]; [simpl in Hn; lia|]. simpl in *.
    apply orb_false_elim in Hs as [Hc Ha]. rewrite Hc. f_equal.
    apply IH; [exact Ha|lia].
Qed.

Lemma contains_traversal_backslash (p : bytes) :
  strchr p "\"%char = true -> contains_traversal p = true.
Proof. intros H. unfold contains_traversal. now rewrite H. Qed.

Lemma contains_traversal_strstr (p n : bytes) :
  In n [lit "/../"; lit "%2e%2e"; lit "%2E%2E"; lit "%2e."; lit ".%2e";
        lit "%2E."] ->
  strstr p n = true -> contains_traversal p = true.
Proof.
  intros Hin H. unfold contains_traversal.
  destruct (strchr p "\"%char); [reflexivity|].
  destruct (bytes_eqb p (lit "/..")); [reflexivity|].
  destruct (is_prefix (lit "/../") p); [reflexivity|].
  destruct (strstr p (lit "/../")) eqn:E1; [reflexivity|].
  destruct (_ && _); [reflexivity|].
  cbn [In] in Hin.
  repeat (destruct Hin as [<-|Hin]; [try congruence; rewrite H;
                                     rewrite ?orb_true_r; reflexivity|]).
  contradiction.
Qed.

Lemma contains_traversal_ends (p : bytes) :
  ends_with_dotdot p = true -> contains_traversal p = true.
Proof.
  intros H. unfold contains_traversal. fold (ends_with_dotdot p). rewrite H.
  destruct (strchr p "\"%char); [reflexivity|].
  destruct (bytes_eqb p (lit "/..")); [reflexivity|].
  destruct (is_prefix (lit "/../") p); [reflexivity|].
  destruct (strstr p (lit "/../")); reflexivity.
Qed.

Lemma strchr_infix (pre post : bytes) (c : ascii) :
  strchr (pre ++ [c] ++ post) c = true.
Proof.
  unfold strchr. rewrite !existsb_app. simpl. rewrite Ascii.eqb_refl.
  simpl. apply orb_true_r.
Qed.

Lemma strip_query_at_stop (n : nat) (post : bytes) :
  match post with [] => True | c :: _ => is_stop c = true end ->
  strip_query n post = [].
Proof.
  intros H. destruct n as [|n]; destruct post as [|c post]; try reflexivity.
  simpl. now rewrite H.
Qed.

Lemma prefilter_hit_rejected (fs : filesys)
    (root pre pat post out : bytes) (sz : Z) :
  sz <> 0 ->
  hd_error (pre ++ pat ++ post) = Some "/"%char ->
  existsb is_stop pre = false ->
  len (pre ++ pat) < PATH_MAX ->
  prefilter_hit pat post ->
  resolve_path fs root (pre ++ pat ++ post) out sz = (403, out).
Proof.
  intros Hsz Hhd Hpre Hlen Hhit.
  assert (Hpat : existsb is_stop pat = false).
  { destruct Hhit as [Hin|[-> _]]; [|reflexivity].
    cbn [In prefilter_patterns] in Hin.
    repeat (destruct Hin as [<-|Hin]; [reflexivity|]). contradiction. }
  assert (Hpat_ne : pat <> []).
  { destruct Hhit as [Hin|[-> _]]; [|discriminate].
    cbn [In prefilter_patterns] in Hin.
    repeat (destruct Hin as [<-|Hin]; [discriminate|]). contradiction. }
  destruct (pre ++ pat ++ post) as [|c0 r] eqn:Et; [discriminate|].
  injection Hhd as ->.
  rewrite (resolve_path_cons fs root ("/"%char :: r) out sz "/"%char r)
    by reflexivity.
  replace (sz =? 0) with false by (symmetry; now apply Z.eqb_neq).
  simpl (negb _). cbv iota. rewrite <- Et, app_assoc.
  rewrite strip_query_app_nostop;
    [|rewrite existsb_app, Hpre, Hpat; reflexivity
     |unfold len, PATH_MAX in *; lia].
  set (rest := strip_query _ post).
  rewrite resolve_cleaned_cons.
  2:{ intros E. apply app_eq_nil in E as [E _].
      apply app_eq_nil in E as [_ E]. contradiction. }
  replace (contains_traversal ((pre ++ pat) ++ rest)) with true; [reflexivity|].
  symmetry. rewrite <- app_assoc.
  destruct Hhit as [Hin|[-> Hpost]].
  - cbn [In prefilter_patterns] in Hin. destruct Hin as [<-|Hin].
    + apply contains_traversal_backslash. apply (strchr_infix pre rest).
    + apply (contains_traversal_strstr _ pat); [exact Hin|apply strstr_infix].
  - unfold rest. rewrite strip_query_at_stop by exact Hpost.
    rewrite app_nil_r. apply contains_traversal_ends.
    unfold ends_with_dotdot.
    pose proof (last_n_app pre (lit "/..")) as Hl.
    change (length (lit "/..")) with 3%nat in Hl. rewrite Hl.
    rewrite len_app. change (len (lit "/..")) with 3.
    pose proof (len_nonneg pre).
    replace (3 <=? len pre + 3) with true by (symmetry; apply Z.leb_le; lia).
    reflexivity.
Qed.

(** ** What the parser guarantees about an accepted target *)

Lemma parse_accepted_target (raw : bytes) (out : http_request_t) (rc : Z)
    (req : http_request_t) :
  parse_http_request raw out = (rc, req) ->
  rc <> 400 ->
  hd_error (target req) = Some "/"%char /\
  len (target req) < PATH_MAX /\
  existsb iscntrl (target req) = false /\
  (rc = 0 /\ method req <> HTTP_METHOD_UNSUPPORTED
   \/ rc = 405 /\ method req = HTTP_METHOD_UNSUPPORTED).
Proof.
  unfold parse_http_request. intros H Hrc.
  destruct (len raw =? 0); [injection H as <- _; contradiction|].
  destruct (_ || _); [injection H as <- _; contradiction|].
  destruct (sscanf_request _) as [[[parts m] t] v].
  destruct (negb (parts =? 3)); [injection H as <- _; contradiction|].
  destruct (_ && _); [injection H as <- _; contradiction|].
  destruct t as [|c t]; [injection H as <- _; contradiction|].
  destruct (Ascii.eqb c "/"%char) eqn:Ec;
    [|injection H as <- _; contradiction].
  cbn [negb] in H.
  destruct (existsb iscntrl (c :: t)) eqn:Ectl;
    [injection H as <- _; contradiction|].
  apply Ascii.eqb_eq in Ec. subst c.
  assert (Hsaved : forall s, s = firstn (Z.to_nat (PATH_MAX - 1)) ("/"%char :: t) ->
            hd_error s = Some "/"%char /\ len s < PATH_MAX /\
            existsb iscntrl s = false).
  { intros s ->. split; [reflexivity|]. split.
    - unfold len, PATH_MAX.
      pose proof (firstn_le_length (Z.to_nat (4096 - 1)) ("/"%char :: t)). lia.
    - destruct (existsb iscntrl (firstn _ _)) eqn:E; [|reflexivity].
      apply existsb_firstn_mono in E. congruence. }
  destruct (strcaseeq m (lit "GET")).
  { injection H as <- <-. cbn [target method].
    destruct (Hsaved _ eq_refl) as (H1 & H2 & H3). repeat split; auto.
    left. split; [reflexivity|discriminate]. }
  destruct (strcaseeq m (lit "HEAD")).
  { injection H as <- <-. cbn [target method].
    destruct (Hsaved _ eq_refl) as (H1 & H2 & H3). repeat split; auto.
    left. split; [reflexivity|discriminate]. }
  injection H as <- <-. cbn [target method].
  destruct (Hsaved _ eq_refl) as (H1 & H2 & H3). repeat split; auto.
Qed.

Lemma prepare_response_prefilter (fs : filesys) (cfg : server_config_t)
    (c : client_t) (w : world) (req : http_request_t) (pre pat post : bytes) :
  parse_http_request (firstn (Z.to_nat (req_len c)) (req_buf c)) fresh_request
  = (0, req) ->
  target req = pre ++ pat ++ post ->
  existsb is_stop pre = false ->
  prefilter_hit pat post ->
  prepare_response fs cfg c w
  = Some (0, error_response (clock w) c 403
               (match method req with HTTP_METHOD_HEAD => true | _ => false end)
               false, w).
Proof.
  intros Hparse Ht Hpre Hhit.
  destruct (parse_accepted_target _ _ _ _ Hparse ltac:(discriminate))
    as (Hhd & Hlen & _ & _).
  rewrite prepare_response_eq. cbv zeta. rewrite Hparse.
  simpl (0 =? 400). simpl (0 =? 405). cbv iota.
  rewrite Ht, prefilter_hit_rejected; try assumption.
  - reflexivity.
  - discriminate.
  - now rewrite <- Ht.
  - rewrite Ht, app_assoc, len_app in Hlen.
    pose proof (len_nonneg post). lia.
Qed.


Lemma status_from_errno_cases (e : errno_t) :
  In (status_from_errno e) [400; 403; 404; 405; 500].
Proof. destruct e; simpl; auto 10. Qed.

(** What [prepare_response] stages is an error page, or the 200 block of a
    file that [resolve_path] placed inside the document root; it opens at
    most that file. *)
Lemma prepare_response_outcome (fs : filesys) (cfg : server_config_t)
    (c : client_t) (w : world) (r : Z) (c' : client_t) (w' : world) :
  prepare_response fs cfg c w = Some (r, c', w') ->
  (exists c1 status ih allow,
     c' = error_response (clock w) c1 status ih allow /\
     In status [400; 403; 404; 405; 500] /\
     opened (trace w') = opened (trace w)) \/
  (exists req p st ih ffd,
     parse_http_request (firstn (Z.to_nat (req_len c)) (req_buf c)) fresh_request
     = (0, req) /\
     resolve_path fs (doc_root cfg) (target req) [] PATH_MAX = (0, p) /\
     c' = file_response (clock w) c p st ih ffd /\
     (opened (trace w') = opened (trace w) \/
      opened (trace w') = opened (trace w) ++ [p])).
Proof.
  rewrite prepare_response_eq. cbv zeta.
  destruct (parse_http_request _ _) as [rc req] eqn:Hparse.
  destruct (rc =? 400) eqn:E400.
  { intros [= <- <- <-]. left. do 4 eexists. split; [reflexivity|]. simpl; auto. }
  destruct (rc =? 405) eqn:E405.
  { intros [= <- <- <-]. left. do 4 eexists. split; [reflexivity|]. simpl; auto 10. }
  assert (rc = 0).
  { apply Z.eqb_neq in E400, E405.
    destruct (Z.eq_dec rc 400) as [|Hne]; [contradiction|].
    destruct (parse_accepted_target _ _ _ _ Hparse Hne) as (_ & _ & _ & [[? _]|[? _]]);
      [assumption|contradiction]. }
  subst rc.
  destruct (resolve_path _ _ _ _ _) as [rc2 p] eqn:Hres.
  destruct (negb (rc2 =? 0)) eqn:Erc.
  { intros [= <- <- <-]. left. do 4 eexists. split; [reflexivity|].
    split; [|reflexivity].
    destruct (rc2 =? 400) eqn:E1; [apply Z.eqb_eq in E1; subst; simpl; auto|].
    destruct (rc2 =? 403) eqn:E2; [apply Z.eqb_eq in E2; subst; simpl; auto|].
    destruct (rc2 =? 404) eqn:E3; [apply Z.eqb_eq in E3; subst; simpl; auto|].
    simpl; auto 10. }
  apply negb_false_iff, Z.eqb_eq in Erc. subst rc2.
  destruct (fs_stat fs p) as [e|st].
  { intros [= <- <- <-]. left. do 4 eexists. split; [reflexivity|].
    split; [apply status_from_errno_cases|reflexivity]. }
  destruct (negb _).
  - destruct (script w) as [|[bs|k| |n|revs|e] rest]; try discriminate.
    + destruct (n <? 0); [discriminate|]. intros [= <- <- <-].
      right. exists req, p, st, false, n.
      split; [reflexivity|]. split; [exact Hres|]. split; [reflexivity|].
      right. cbn [trace]. rewrite opened_app. reflexivity.
    + intros [= <- <- <-]. left. do 4 eexists. split; [reflexivity|].
      split; [apply status_from_errno_cases|reflexivity].
  - intros [= <- <- <-]. right. exists req, p, st, true, (-1).
    split; [reflexivity|]. split; [exact Hres|]. split; [reflexivity|].
    now left.
Qed.








Lemma default_document_same_path_witness :
  0 < len (lit "/srv/www") < PATH_MAX /\
  resolve_path sample_fs (lit "/srv/www") ([] ++ lit "/") [] 4096
  = resolve_path sample_fs (lit "/srv/www") ([] ++ lit "/index.html") [] 4096.
Proof.
  assert (H : 0 < len (lit "/srv/www") < PATH_MAX).
  { vm_compute. split; reflexivity. }
  split; [exact H|].
  exact (default_document_same_path sample_fs (lit "/srv/www") [] [] 4096 H).
Defined.

(** ** Scanning a well-formed request line *)

Lemma is_token_cons (c : ascii) (s : bytes) :
  is_token (c :: s) = true ->
  isspace c = false /\ Ascii.eqb c NUL = false /\ is_token s = true.
Proof.
  unfold is_token. simpl. intros H. apply negb_true_iff in H.
  apply orb_false_elim in H as [Hc Hs]. apply orb_false_elim in Hc as [H1 H2].
  rewrite Hs. auto.
Qed.

Lemma take_token_token (tok : bytes) :
  forall (w : nat) (rest : bytes),
  is_token tok = true -> (length tok <= w)%nat ->
  match rest with [] => True | c :: _ => isspace c = true end ->
  take_token w (tok ++ rest) = (tok, rest).
Proof.
  induction tok as [|c tok IH]; intros w rest Ht Hw Hrest.
  - simpl. destruct w, rest as [|c r]; try reflexivity. simpl. now rewrite Hrest.
  - destruct w as [|w]; [simpl in Hw; lia|].
    apply is_token_cons in Ht as (Hc & _ & Ht). simpl. rewrite Hc.
    rewrite IH; [reflexivity|exact Ht|simpl in Hw; lia|exact Hrest].
Qed.

Lemma scan_s_token (w : nat) (tok rest : bytes) :
  tok <> [] -> is_token tok = true -> (length tok <= w)%nat ->
  match rest with [] => True | c :: _ => isspace c = true end ->
  scan_s w (tok ++ rest) = Some (tok, rest).
Proof.
  intros Hne Ht Hw Hrest. unfold scan_s.
  destruct tok as [|c tok]; [contradiction|].
  pose proof (is_token_cons _ _ Ht) as (Hc & _ & _).
  simpl app. cbn [skip_space]. rewrite Hc.
  change (c :: tok ++ rest) with ((c :: tok) ++ rest).
  now rewrite take_token_token.
Qed.

Lemma scan_s_space_token (w : nat) (tok rest : bytes) :
  tok <> [] -> is_token tok = true -> (length tok <= w)%nat ->
  match rest with [] => True | c :: _ => isspace c = true end ->
  scan_s w (" "%char :: tok ++ rest) = Some (tok, rest).
Proof.
  intros Hne Ht Hw Hrest.
  pose proof (scan_s_token w tok rest Hne Ht Hw Hrest) as H.
  unfold scan_s in *. cbn [skip_space]. change (isspace " "%char) with true.
  cbv iota. exact H.
Qed.

Lemma sscanf_request_line (m t v : bytes) :
  m <> [] -> t <> [] -> v <> [] ->
  is_token m = true -> is_token t = true -> is_token v = true ->
  (length m <= 15)%nat -> (length t <= 4095)%nat -> (length v <= 15)%nat ->
  sscanf_request (request_line m t v) = (3, m, t, v).
Proof.
  intros Hm Ht Hv Tm Tt Tv Lm Lt Lv. unfold sscanf_request, request_line.
  rewrite scan_s_token by (auto; reflexivity).
  rewrite scan_s_space_token by (auto; reflexivity).
  replace (" "%char :: v) with (" "%char :: v ++ []) by now rewrite app_nil_r.
  rewrite scan_s_space_token by auto. reflexivity.
Qed.

Lemma is_token_no (c : ascii) (s : bytes) :
  isspace c = true \/ c = NUL ->
  is_token s = true -> existsb (Ascii.eqb c) s = false.
Proof.
  intros Hc. induction s as [|x s IH]; intros Ht; [reflexivity|].
  apply is_token_cons in Ht as (Hx & Hn & Ht). simpl. rewrite (IH Ht).
  destruct (Ascii.eqb c x) eqn:E; [|reflexivity].
  apply Ascii.eqb_eq in E. subst x.
  destruct Hc as [Hc| ->]; [congruence|]. discriminate.
Qed.

Lemma is_token_app (a b : bytes) :
  is_token (a ++ b) = is_token a && is_token b.
Proof. unfold is_token. rewrite existsb_app. now destruct (existsb _ a). Qed.

Lemma find_crlf_cons (a b : ascii) (l : bytes) (i : Z) :
  find_crlf (a :: b :: l) i =
  if Ascii.eqb a CR && Ascii.eqb b LF then Some i
  else find_crlf (b :: l) (i + 1).
Proof. reflexivity. Qed.

Lemma find_crlf_app (s rest : bytes) :
  forall (i : Z),
  existsb (Ascii.eqb CR) s = false ->
  find_crlf (s ++ CR :: LF :: rest) i = Some (i + len s).
Proof.
  induction s as [|a s IH]; intros i H.
  - simpl. f_equal. unfold len. simpl. lia.
  - cbn [existsb] in H. apply orb_false_elim in H as [Ha Hs].
    assert (Hne : Ascii.eqb a CR = false).
    { rewrite Ascii.eqb_sym. exact Ha. }
    simpl app. specialize (IH (i + 1) Hs).
    destruct (s ++ CR :: LF :: rest) as [|b l] eqn:E.
    { destruct s; discriminate. }
    rewrite find_crlf_cons, Hne. cbn [andb]. rewrite IH.
    f_equal. rewrite len_cons. lia.
Qed.

Lemma c_str_id (s : bytes) :
  existsb (Ascii.eqb NUL) s = false -> c_str s = s.
Proof.
  induction s as [|c s IH]; intros H; [reflexivity|].
  cbn [existsb c_str] in *. apply orb_false_elim in H as [Hc Hs].
  rewrite Ascii.eqb_sym, Hc. f_equal. now apply IH.
Qed.

Lemma existsb_request_line (c : ascii) (m t v : bytes) :
  Ascii.eqb c " "%char = false ->
  existsb (Ascii.eqb c) m = false ->
  existsb (Ascii.eqb c) t = false ->
  existsb (Ascii.eqb c) v = false ->
  existsb (Ascii.eqb c) (request_line m t v) = false.
Proof.
  intros Hsp Hm Ht Hv. unfold request_line.
  rewrite existsb_app. simpl. rewrite existsb_app. simpl.
  now rewrite Hm, Ht, Hv, Hsp.
Qed.

(** The parser on a request line of three tokens with an accepted version:
    what is left is the tests on the target and the method. *)
Lemma parse_request_line (m t v rest : bytes) (out : http_request_t) :
  m <> [] -> t <> [] ->
  is_token m = true -> is_token t = true ->
  (length m <= 15)%nat ->
  len (request_line m t v) < 2048 ->
  v = lit "HTTP/1.1" \/ v = lit "HTTP/1.0" ->
  parse_http_request (request_line m t v ++ CRLF ++ rest) out =
  if negb (match t with c :: _ => Ascii.eqb c "/"%char | [] => false end)
  then (400, out)
  else if existsb iscntrl t then (400, out)
  else if strcaseeq m (lit "GET") then (0, mk_request HTTP_METHOD_GET t)
  else if strcaseeq m (lit "HEAD") then (0, mk_request HTTP_METHOD_HEAD t)
  else (405, mk_request HTTP_METHOD_UNSUPPORTED t).
Proof.
  intros Hm Ht Tm Tt Lm Hlen Hv.
  assert (Tv : is_token v = true) by (destruct Hv as [-> | ->]; reflexivity).
  assert (Lv : (length v <= 15)%nat) by (destruct Hv as [-> | ->]; simpl; lia).
  assert (Nv : v <> []) by (destruct Hv as [-> | ->]; discriminate).
  assert (Hlt : (length t <= 4095)%nat).
  { unfold request_line, len in Hlen. rewrite length_app in Hlen.
    simpl in Hlen. rewrite length_app in Hlen. lia. }
  set (line := request_line m t v) in *.
  assert (Hcr : existsb (Ascii.eqb CR) line = false).
  { apply existsb_request_line; [reflexivity| | |];
      apply is_token_no; auto; left; reflexivity. }
  assert (Hnul : existsb (Ascii.eqb NUL) line = false).
  { apply existsb_request_line; [reflexivity| | |];
      apply is_token_no; auto. }
  assert (Hpos : 0 < len line).
  { unfold line, request_line. rewrite len_app.
    destruct m; [contradiction|]. rewrite len_cons.
    pose proof (len_nonneg m). pose proof (len_nonneg (" "%char :: t ++ " "%char :: v)).
    lia. }
  unfold parse_http_request.
  replace (len (line ++ CRLF ++ rest) =? 0) with false.
  2:{ symmetry. apply Z.eqb_neq. rewrite len_app.
      pose proof (len_nonneg (CRLF ++ rest)). lia. }
  unfold find_request_line_end. unfold CRLF at 1 2. simpl app.
  rewrite find_crlf_app by exact Hcr.
  rewrite Z.add_0_l, to_int_small by (unfold INT_MAX; lia).
  replace ((len line <=? 0) || (len line >=? 2048)) with false.
  2:{ symmetry. apply orb_false_intro; [apply Z.leb_gt; lia|].
      rewrite Z.geb_leb. apply Z.leb_gt. lia. }
  unfold len at 1. rewrite Nat2Z.id, firstn_app, Nat.sub_diag, firstn_all.
  simpl (firstn 0 _). rewrite app_nil_r, c_str_id by exact Hnul.
  unfold line. rewrite sscanf_request_line by auto.
  simpl (negb (3 =? 3)). cbv iota.
  replace (negb (bytes_eqb v (lit "HTTP/1.1")) && negb (bytes_eqb v (lit "HTTP/1.0")))
    with false by (destruct Hv as [-> | ->]; reflexivity).
  rewrite (firstn_all2 t) by (unfold PATH_MAX; lia).
  reflexivity.
Qed.

(** ** Unsupported methods *)

Lemma header_text_allow (date : bytes) (status : Z) (ct : bytes) (cl : Z) :
  exists pre,
    header_text date status ct cl true
    = lit "HTTP/1.1 " ++ dec status ++ lit " " ++ http_reason_phrase status
      ++ CRLF ++ pre ++ lit "Allow: GET, HEAD" ++ CRLF ++ CRLF.
Proof.
  exists (lit "Date: " ++ date ++ CRLF
          ++ lit "Server: comp4981-httpd/1.0" ++ CRLF
          ++ lit "Connection: close" ++ CRLF
          ++ lit "Content-Type: " ++ ct ++ CRLF
          ++ lit "Content-Length: " ++ dec cl ++ CRLF).
  unfold header_text. now rewrite <- !app_assoc.
Qed.

(** X23.  A request line [METHOD SP TARGET SP VERSION] shorter
    than 2048 bytes, whose method token has at most 15 bytes and is neither
    GET nor HEAD in any letter case, whose target starts with "/" and holds
    no control byte, and whose version is one of the two literals, makes the
    parser return 405 with the unsupported-method tag and the target in the
    output; the reply staged is the 405 block, which carries the header
    [Allow: GET, HEAD], and the 405 page. *)
Theorem unsupported_method_405 (fs : filesys) (cfg : server_config_t)
    (c : client_t) (w : world) (m t v rest : bytes) :
  m <> [] -> is_token m = true -> (length m <= 15)%nat ->
  strcaseeq m (lit "GET") = false -> strcaseeq m (lit "HEAD") = false ->
  is_token t = true -> hd_error t = Some "/"%char ->
  existsb iscntrl t = false ->
  v = lit "HTTP/1.1" \/ v = lit "HTTP/1.0" ->
  len (request_line m t v) < 2048 ->
  firstn (Z.to_nat (req_len c)) (req_buf c) = request_line m t v ++ CRLF ++ rest ->
  parse_http_request (request_line m t v ++ CRLF ++ rest) fresh_request
  = (405, mk_request HTTP_METHOD_UNSUPPORTED t) /\
  exists c',
    prepare_response fs cfg c w = Some (0, c', w) /\
    mode c' = MODE_WRITING /\
    staged_headers c'
    = header_text (format_http_date (clock w)) 405
        (lit "text/html; charset=utf-8") (len (error_page 405)) true /\
    (exists pre,
       staged_headers c'
       = lit "HTTP/1.1 405 Method Not Allowed" ++ CRLF ++ pre
         ++ lit "Allow: GET, HEAD" ++ CRLF ++ CRLF) /\
    staged_body c' = error_page 405.
Proof.
  intros Hm Tm Lm Hget Hhead Tt Hhd Hctl Hv Hlen Hbuf.
  assert (Ht : t <> []) by (destruct t; discriminate).
  assert (Hparse : parse_http_request (request_line m t v ++ CRLF ++ rest)
                     fresh_request
                   = (405, mk_request HTTP_METHOD_UNSUPPORTED t)).
  { rewrite parse_request_line by assumption.
    destruct t as [|c0 t]; [contradiction|]. injection Hhd as ->.
    rewrite Hctl, Hget, Hhead. reflexivity. }
  split; [exact Hparse|].
  exists (error_response (clock w) c 405 false true).
  split.
  { rewrite prepare_response_eq. cbv zeta. rewrite Hbuf, Hparse. reflexivity. }
  split; [reflexivity|].
  rewrite staged_headers_error_response.
  split; [reflexivity|]. split; [|apply staged_body_error_response].
  destruct (header_text_allow (format_http_date (clock w)) 405
              (lit "text/html; charset=utf-8") (len (error_page 405)))
    as (pre & Hpre).
  exists pre. rewrite Hpre. reflexivity.
Qed.

Lemma unsupported_method_405_witness :
  parse_http_request
    (request_line (lit "PUT") (lit "/index.html") (lit "HTTP/1.1")
     ++ CRLF ++ CRLF) fresh_request
  = (405, mk_request HTTP_METHOD_UNSUPPORTED (lit "/index.html")) /\
  exists c',
    prepare_response sample_fs sample_cfg sample_put_slot sample_idle
    = Some (0, c', sample_idle) /\
    mode c' = MODE_WRITING /\
    staged_headers c'
    = header_text (format_http_date (clock sample_idle)) 405
        (lit "text/html; charset=utf-8") (len (error_page 405)) true /\
    (exists pre,
       staged_headers c'
       = lit "HTTP/1.1 405 Method Not Allowed" ++ CRLF ++ pre
         ++ lit "Allow: GET, HEAD" ++ CRLF ++ CRLF) /\
    staged_body c' = error_page 405.
Proof.
  apply (unsupported_method_405 sample_fs sample_cfg sample_put_slot sample_idle
           (lit "PUT") (lit "/index.html") (lit "HTTP/1.1") CRLF).
  - discriminate.
  - reflexivity.
  - simpl. lia.
  - reflexivity.
  - reflexivity.
  - reflexivity.
  - reflexivity.
  - reflexivity.
  - left. reflexivity.
  - vm_compute. reflexivity.
  - vm_compute. reflexivity.
Defined.

(** ** A method token longer than the scan width *)

(** [%Ns] on a token followed by white space or by the end of the line: it
    takes [N] bytes of the token at most and leaves the others. *)
Lemma take_token_split (tok : bytes) :
  forall (w : nat) (rest : bytes),
  is_token tok = true ->
  match rest with [] => True | c :: _ => isspace c = true end ->
  take_token w (tok ++ rest) = (firstn w tok, skipn w tok ++ rest).
Proof.
  induction tok as [|c tok IH]; intros w rest Ht Hrest.
  - rewrite firstn_nil, skipn_nil. cbn [app].
    destruct w, rest as [|c r]; try reflexivity. cbn [take_token].
    now rewrite Hrest.
  - destruct w as [|w]; [reflexivity|].
    apply is_token_cons in Ht as (Hc & _ & Ht).
    cbn [app take_token firstn skipn]. rewrite Hc.
    now rewrite IH.
Qed.

Lemma is_token_skipn (n : nat) (s : bytes) :
  is_token s = true -> is_token (skipn n s) = true.
Proof.
  intros H. rewrite <- (firstn_skipn n s), is_token_app in H.
  now apply andb_true_iff in H as [_ H].
Qed.

(** What [sscanf] makes of a request line whose method token has more than
    fifteen bytes: the tail of the method is taken for the target and the
    start of the target for the version. *)
Lemma sscanf_long_method (m t v : bytes) :
  is_token m = true -> (15 < length m <= 4110)%nat ->
  t <> [] -> is_token t = true ->
  sscanf_request (request_line m t v)
  = (3, firstn 15 m, skipn 15 m, firstn 15 t).
Proof.
  intros Tm Lm Ht Tt. unfold sscanf_request, request_line.
  assert (Hs : scan_s 15 (m ++ " "%char :: t ++ " "%char :: v)
               = Some (firstn 15 m, skipn 15 m ++ " "%char :: t ++ " "%char :: v)).
  { unfold scan_s. destruct m as [|c m]; [cbn [length] in Lm; lia|].
    pose proof (is_token_cons _ _ Tm) as (Hc & _ & _).
    cbn [app skip_space]. rewrite Hc.
    change (c :: m ++ " "%char :: t ++ " "%char :: v)
      with ((c :: m) ++ " "%char :: t ++ " "%char :: v).
    now rewrite take_token_split. }
  rewrite Hs.
  rewrite scan_s_token;
    [|intros E; apply (f_equal (@length ascii)) in E;
      rewrite length_skipn in E; cbn [length] in E; lia
     |now apply is_token_skipn
     |rewrite length_skipn; lia
     |reflexivity].
  assert (Hv : scan_s 15 (" "%char :: t ++ " "%char :: v)
               = Some (firstn 15 t, skipn 15 t ++ " "%char :: v)).
  { unfold scan_s. cbn [skip_space]. change (isspace " "%char) with true.
    cbv iota. destruct t as [|c t]; [contradiction|].
    pose proof (is_token_cons _ _ Tt) as (Hc & _ & _).
    cbn [app skip_space]. rewrite Hc.
    change (c :: t ++ " "%char :: v) with ((c :: t) ++ " "%char :: v).
    now rewrite take_token_split. }
  rewrite Hv. reflexivity.
Qed.

(** The parser up to the call of [sscanf], on a first line without CR or
    NUL that is shorter than 2048 bytes. *)
Lemma parse_scanned_line (line rest : bytes) (out : http_request_t) :
  existsb (Ascii.eqb CR) line = false ->
  existsb (Ascii.eqb NUL) line = false ->
  0 < len line < 2048 ->
  parse_http_request (line ++ CRLF ++ rest) out =
  let '(parts, method, target, version) := sscanf_request line in
  if negb (parts =? 3) then (400, out)
  else if negb (bytes_eqb version (lit "HTTP/1.1")) &&
          negb (bytes_eqb version (lit "HTTP/1.0")) then (400, out)
  else if negb (match target with c :: _ => Ascii.eqb c "/"%char | [] => false end)
       then (400, out)
  else if existsb iscntrl target then (400, out)
  else
  let saved := firstn (Z.to_nat (PATH_MAX - 1)) target in
  if strcaseeq method (lit "GET") then
    (0, mk_request HTTP_METHOD_GET saved)
  else if strcaseeq method (lit "HEAD") then
    (0, mk_request HTTP_METHOD_HEAD saved)
  else
    (405, mk_request HTTP_METHOD_UNSUPPORTED saved).
Proof.
  intros Hcr Hnul Hlen. unfold parse_http_request.
  replace (len (line ++ CRLF ++ rest) =? 0) with false.
  2:{ symmetry. apply Z.eqb_neq. rewrite len_app.
      pose proof (len_nonneg (CRLF ++ rest)). lia. }
  unfold find_request_line_end. unfold CRLF at 1 2. simpl app.
  rewrite find_crlf_app by exact Hcr.
  rewrite Z.add_0_l, to_int_small by (unfold INT_MAX; lia).
  replace ((len line <=? 0) || (len line >=? 2048)) with false.
  2:{ symmetry. apply orb_false_intro; [apply Z.leb_gt; lia|].
      rewrite Z.geb_leb. apply Z.leb_gt. lia. }
  unfold len at 1. rewrite Nat2Z.id, firstn_app, Nat.sub_diag, firstn_all.
  simpl (firstn 0 _). rewrite app_nil_r, c_str_id by exact Hnul.
  reflexivity.
Qed.

(** C6 at its failing inputs.  A request line [METHOD SP TARGET SP VERSION]
    shorter than 2048 bytes whose method token has more than fifteen bytes,
    and so is neither GET nor HEAD, with a target that starts with "/" and a
    version that is one of the two literals: [%15s] splits the method token,
    the tail of the method is taken for the target and the start of the
    target for the version, the parser returns 400 and leaves the output
    untouched, and the reply staged is the 400 block and page, without an
    [Allow] header, where 405 is due. *)
Theorem long_method_token_rejected (fs : filesys) (cfg : server_config_t)
    (c : client_t) (w : world) (m t v rest : bytes) :
  is_token m = true -> (15 < length m)%nat ->
  is_token t = true -> hd_error t = Some "/"%char ->
  existsb iscntrl t = false ->
  v = lit "HTTP/1.1" \/ v = lit "HTTP/1.0" ->
  len (request_line m t v) < 2048 ->
  firstn (Z.to_nat (req_len c)) (req_buf c) = request_line m t v ++ CRLF ++ rest ->
  strcaseeq m (lit "GET") = false /\ strcaseeq m (lit "HEAD") = false /\
  sscanf_request (request_line m t v)
  = (3, firstn 15 m, skipn 15 m, firstn 15 t) /\
  parse_http_request (request_line m t v ++ CRLF ++ rest) fresh_request
  = (400, fresh_request) /\
  exists c',
    prepare_response fs cfg c w = Some (0, c', w) /\
    mode c' = MODE_WRITING /\
    staged_headers c'
    = header_text (format_http_date (clock w)) 400
        (lit "text/html; charset=utf-8") (len (error_page 400)) false /\
    staged_body c' = error_page 400.
Proof.
  intros Tm Lm Tt Hhd Hctl Hv Hlen Hbuf.
  assert (Ht : t <> []) by (destruct t; discriminate).
  assert (Tv : is_token v = true) by (destruct Hv as [-> | ->]; reflexivity).
  assert (Hll : (length m + length t < 2048)%nat).
  { unfold request_line, len in Hlen. rewrite length_app in Hlen.
    cbn [length] in Hlen. rewrite length_app in Hlen. lia. }
  assert (Hcase : forall lit3 : bytes, (length lit3 <= 4)%nat ->
                    strcaseeq m lit3 = false).
  { intros l Hl. unfold strcaseeq.
    destruct (bytes_eqb (map tolower m) (map tolower l)) eqn:E; [|reflexivity].
    apply bytes_eqb_eq in E. apply (f_equal (@length ascii)) in E.
    rewrite !length_map in E. lia. }
  split; [apply Hcase; simpl; lia|]. split; [apply Hcase; simpl; lia|].
  assert (Hscan : sscanf_request (request_line m t v)
                  = (3, firstn 15 m, skipn 15 m, firstn 15 t)).
  { apply sscanf_long_method; auto. lia. }
  split; [exact Hscan|].
  assert (Hparse : parse_http_request (request_line m t v ++ CRLF ++ rest)
                     fresh_request = (400, fresh_request)).
  { rewrite parse_scanned_line.
    - rewrite Hscan. simpl (negb (3 =? 3)). cbv iota.
      destruct t as [|c0 t]; [contradiction|]. injection Hhd as ->.
      reflexivity.
    - apply existsb_request_line; [reflexivity| | |];
        apply is_token_no; auto; left; reflexivity.
    - apply existsb_request_line; [reflexivity| | |];
        apply is_token_no; auto.
    - split; [|exact Hlen]. unfold request_line. rewrite len_app.
      pose proof (len_nonneg (" "%char :: t ++ " "%char :: v)).
      unfold len at 1. lia. }
  split; [exact Hparse|].
  exists (error_response (clock w) c 400 false false).
  split.
  { rewrite prepare_response_eq. cbv zeta. rewrite Hbuf, Hparse. reflexivity. }
  split; [reflexivity|].
  split; [apply staged_headers_error_response|apply staged_body_error_response].
Qed.

Lemma long_method_token_rejected_witness :
  strcaseeq (lit "ABCDEFGHIJKLMNOP") (lit "GET") = false /\
  strcaseeq (lit "ABCDEFGHIJKLMNOP") (lit "HEAD") = false /\
  sscanf_request
    (request_line (lit "ABCDEFGHIJKLMNOP") (lit "/x") (lit "HTTP/1.1"))
  = (3, firstn 15 (lit "ABCDEFGHIJKLMNOP"), skipn 15 (lit "ABCDEFGHIJKLMNOP"),
     firstn 15 (lit "/x")) /\
  parse_http_request
    (request_line (lit "ABCDEFGHIJKLMNOP") (lit "/x") (lit "HTTP/1.1")
     ++ CRLF ++ CRLF) fresh_request
  = (400, fresh_request) /\
  exists c',
    prepare_response sample_fs sample_cfg sample_long_method_slot sample_idle
    = Some (0, c', sample_idle) /\
    mode c' = MODE_WRITING /\
    staged_headers c'
    = header_text (format_http_date (clock sample_idle)) 400
        (lit "text/html; charset=utf-8") (len (error_page 400)) false /\
    staged_body c' = error_page 400.
Proof.
  apply (long_method_token_rejected sample_fs sample_cfg sample_long_method_slot
           sample_idle (lit "ABCDEFGHIJKLMNOP") (lit "/x") (lit "HTTP/1.1") CRLF).
  - reflexivity.
  - simpl. lia.
  - reflexivity.
  - reflexivity.
  - reflexivity.
  - left. reflexivity.
  - vm_compute. reflexivity.
  - vm_compute. reflexivity.
Defined.

(** ** The token count of the request line *)

(** C7 at its failing input.  A first line of four tokens is accepted: the
    parser returns 0 for ["GET /index.html HTTP/1.1 extra"] and the reply
    staged is a 200; and a first line of two tokens, the first one longer
    than fifteen bytes, is answered 405. *)
Theorem extra_token_accepted :
  parse_http_request (lit "GET /index.html HTTP/1.1 extra" ++ CRLF ++ CRLF)
    fresh_request
  = (0, mk_request HTTP_METHOD_GET (lit "/index.html")) /\
  prepare_response sample_fs sample_cfg sample_extra_token_slot sample_open
  = Some sample_extra_token_prepared /\
  is_prefix (lit "HTTP/1.1 200 OK")
    (staged_headers (snd (fst sample_extra_token_prepared))) = true /\
  parse_http_request (lit "GETGETGETGETGET/index.html HTTP/1.1" ++ CRLF ++ CRLF)
    fresh_request
  = (405, mk_request HTTP_METHOD_UNSUPPORTED (lit "/index.html")).
Proof. repeat split; vm_compute; reflexivity. Qed.

(** What does hold of the version test: on a line of three tokens, a third
    token of at most fifteen bytes that is neither literal gives 400. *)
Lemma parse_bad_version (m t v rest : bytes) (out : http_request_t) :
  m <> [] -> t <> [] -> v <> [] ->
  is_token m = true -> is_token t = true -> is_token v = true ->
  (length m <= 15)%nat -> (length v <= 15)%nat ->
  len (request_line m t v) < 2048 ->
  v <> lit "HTTP/1.1" -> v <> lit "HTTP/1.0" ->
  parse_http_request (request_line m t v ++ CRLF ++ rest) out = (400, out).
Proof.
  intros Hm Ht Hv Tm Tt Tv Lm Lv Hlen H11 H10.
  assert (Hlt : (length t <= 4095)%nat).
  { unfold request_line, len in Hlen. rewrite length_app in Hlen.
    simpl in Hlen. rewrite length_app in Hlen. lia. }
  set (line := request_line m t v) in *.
  assert (Hcr : existsb (Ascii.eqb CR) line = false).
  { apply existsb_request_line; [reflexivity| | |];
      apply is_token_no; auto; left; reflexivity. }
  assert (Hnul : existsb (Ascii.eqb NUL) line = false).
  { apply existsb_request_line; [reflexivity| | |];
      apply is_token_no; auto. }
  assert (Hpos : 0 < len line).
  { unfold line, request_line. rewrite len_app.
    destruct m; [contradiction|]. rewrite len_cons.
    pose proof (len_nonneg m). pose proof (len_nonneg (" "%char :: t ++ " "%char :: v)).
    lia. }
  unfold parse_http_request.
  replace (len (line ++ CRLF ++ rest) =? 0) with false.
  2:{ symmetry. apply Z.eqb_neq. rewrite len_app.
      pose proof (len_nonneg (CRLF ++ rest)). lia. }
  unfold find_request_line_end. unfold CRLF at 1 2. simpl app.
  rewrite find_crlf_app by exact Hcr.
  rewrite Z.add_0_l, to_int_small by (unfold INT_MAX; lia).
  replace ((len line <=? 0) || (len line >=? 2048)) with false.
  2:{ symmetry. apply orb_false_intro; [apply Z.leb_gt; lia|].
      rewrite Z.geb_leb. apply Z.leb_gt. lia. }
  unfold len at 1. rewrite Nat2Z.id, firstn_app, Nat.sub_diag, firstn_all.
  simpl (firstn 0 _). rewrite app_nil_r, c_str_id by exact Hnul.
  unfold line. rewrite sscanf_request_line by auto.
  simpl (negb (3 =? 3)). cbv iota.
  apply bytes_eqb_neq in H11, H10. now rewrite H11, H10.
Qed.

(** ** The destination of [build_response_headers] *)

Lemma snprintf_buf_truncated (dst : bytes) (cap : Z) (s : bytes) :
  0 < cap <= len s ->
  firstn (Z.to_nat cap) (snprintf_buf dst cap s)
  = firstn (Z.to_nat (cap - 1)) s ++ [NUL] /\
  skipn (Z.to_nat cap) (snprintf_buf dst cap s) = skipn (Z.to_nat cap) dst.
Proof.
  intros H. unfold snprintf_buf, snprintf_str.
  destruct (cap <=? 0) eqn:E; [apply Z.leb_le in E; lia|].
  set (w := firstn (Z.to_nat (cap - 1)) s ++ [NUL]).
  assert (Hw : length w = Z.to_nat cap).
  { unfold w. rewrite length_app, length_firstn. simpl. unfold len in H. lia. }
  rewrite <- Hw. split.
  - rewrite firstn_app, Nat.sub_diag, firstn_all. simpl. apply app_nil_r.
  - rewrite skipn_app, skipn_all, Nat.sub_diag. reflexivity.
Qed.

(** C4, as amended.  When the capacity cannot hold the formatted header
    block, [build_response_headers] returns -1; the destination is as it was
    only for a capacity of 0, and otherwise holds the first [cap - 1] bytes
    of the block and a NUL, the cells from [cap] on being untouched.  The
    2048-byte header buffer of a slot always holds the block. *)
Theorem short_buffer_truncated_headers :
  (forall dst cap gm status ct cl allow,
     0 <= cap <= len (header_text (format_http_date gm) status ct cl allow) ->
     build_response_headers dst cap gm status ct cl allow
     = (-1, snprintf_buf dst cap
              (header_text (format_http_date gm) status ct cl allow)) /\
     (cap = 0 ->
      snprintf_buf dst cap (header_text (format_http_date gm) status ct cl allow)
      = dst) /\
     (0 < cap ->
      firstn (Z.to_nat cap)
        (snprintf_buf dst cap (header_text (format_http_date gm) status ct cl allow))
      = firstn (Z.to_nat (cap - 1))
          (header_text (format_http_date gm) status ct cl allow) ++ [NUL] /\
      skipn (Z.to_nat cap)
        (snprintf_buf dst cap (header_text (format_http_date gm) status ct cl allow))
      = skipn (Z.to_nat cap) dst)) /\
  (forall dst gm status ct cl allow,
     (length ct <= 64)%nat ->
     0 <= fst (build_response_headers dst MAX_RESP_HEADER gm status ct cl allow)).
Proof.
  split.
  - intros dst cap gm status ct cl allow H.
    set (text := header_text (format_http_date gm) status ct cl allow) in *.
    split; [|split].
    + unfold build_response_headers. fold text. unfold snprintf_ret.
      destruct (INT_MAX <? len text); [reflexivity|].
      replace (len text >=? cap) with true
        by (symmetry; rewrite Z.geb_leb; apply Z.leb_le; lia).
      now rewrite orb_true_r.
    + intros ->. reflexivity.
    + intros Hpos. apply snprintf_buf_truncated. lia.
  - intros dst gm status ct cl allow Hct.
    destruct (build_response_headers_fits dst gm status ct cl allow Hct) as [-> Hl].
    simpl. lia.
Qed.

Lemma short_buffer_truncated_headers_witness :
  0 <= 16 <= len (header_text (format_http_date sample_time) 200
                    (lit "text/html") 120 false) /\
  build_response_headers (repeat "x"%char 16) 16 sample_time 200
    (lit "text/html") 120 false
  = (-1, snprintf_buf (repeat "x"%char 16) 16
           (header_text (format_http_date sample_time) 200 (lit "text/html")
              120 false)).
Proof.
  assert (H : 0 <= 16 <= len (header_text (format_http_date sample_time) 200
                                (lit "text/html") 120 false)).
  { vm_compute. split; discriminate. }
  split; [exact H|].
  exact (proj1 (proj1 short_buffer_truncated_headers (repeat "x"%char 16) 16
                  sample_time 200 (lit "text/html") 120 false H)).
Defined.

(** C4, as stated, fails: with a capacity of 16 the call returns -1 and has
    overwritten the sixteen cells with the start of the status line. *)
Lemma truncated_headers_overwrite_buffer :
  build_response_headers (repeat "x"%char 16) 16 sample_time 200
    (lit "text/html") 120 false
  = (-1, lit "HTTP/1.1 200 OK" ++ [NUL]) /\
  ~ (forall dst cap gm status ct cl allow,
       fst (build_response_headers dst cap gm status ct cl allow) = -1 ->
       snd (build_response_headers dst cap gm status ct cl allow) = dst).
Proof.
  split; [vm_compute; reflexivity|].
  intros H.
  specialize (H (repeat "x"%char 16) 16 sample_time 200 (lit "text/html") 120 false).
  vm_compute in H. specialize (H eq_refl). discriminate.
Qed.

(** ** The version of the status line *)

Lemma header_text_version (date : bytes) (status : Z) (ct : bytes) (cl : Z)
    (allow : bool) (tail : bytes) :
  is_prefix (lit "HTTP/1.1 ") (header_text date status ct cl allow ++ tail) = true.
Proof. unfold header_text. rewrite <- app_assoc. apply is_prefix_app. Qed.

Lemma build_response_headers_version (dst : bytes) (cap : Z) (gm : tm_t)
    (status : Z) (ct : bytes) (cl : Z) (allow : bool) :
  0 <= fst (build_response_headers dst cap gm status ct cl allow) ->
  is_prefix (lit "HTTP/1.1 ")
    (snd (build_response_headers dst cap gm status ct cl allow)) = true.
Proof.
  unfold build_response_headers.
  set (text := header_text (format_http_date gm) status ct cl allow).
  destruct (snprintf_ret text <? 0) eqn:En; [simpl; lia|].
  destruct (snprintf_ret text >=? cap) eqn:Ec; [simpl; lia|].
  cbn [orb fst snd]. intros _.
  apply Z.ltb_ge in En. rewrite Z.geb_leb in Ec. apply Z.leb_gt in Ec.
  assert (Hlen : len text < cap).
  { unfold snprintf_ret in *. destruct (INT_MAX <? len text); lia. }
  rewrite snprintf_buf_fits by exact Hlen.
  apply header_text_version.
Qed.

Lemma staged_headers_version_error (gm : tm_t) (c : client_t) (status : Z)
    (ih allow : bool) :
  is_prefix (lit "HTTP/1.1 ")
    (staged_headers (error_response gm c status ih allow)) = true.
Proof.
  rewrite staged_headers_error_response, <- (app_nil_r (header_text _ _ _ _ _)).
  apply header_text_version.
Qed.

Lemma staged_headers_version_file (gm : tm_t) (c : client_t) (p : bytes)
    (st : stat_t) (ih : bool) (ffd : Z) :
  is_prefix (lit "HTTP/1.1 ")
    (staged_headers (file_response gm c p st ih ffd)) = true.
Proof.
  rewrite staged_headers_file_response, <- (app_nil_r (header_text _ _ _ _ _)).
  apply header_text_version.
Qed.

Lemma prepare_response_version (fs : filesys) (cfg : server_config_t)
    (c : client_t) (w : world) (r : Z) (c' : client_t) (w' : world) :
  prepare_response fs cfg c w = Some (r, c', w') ->
  mode c' = MODE_WRITING /\
  is_prefix (lit "HTTP/1.1 ") (staged_headers c') = true.
Proof.
  intros H.
  destruct (prepare_response_outcome _ _ _ _ _ _ _ H)
    as [(c1 & status & ih & allow & -> & _)
       |(req & p & st & ih & ffd & _ & _ & -> & _)].
  - split; [reflexivity|apply staged_headers_version_error].
  - split; [reflexivity|apply staged_headers_version_file].
Qed.

Lemma recv_loop_version (fs : filesys) (cfg : server_config_t) (gm : tm_t)
    (scr : list answer) :
  forall (tr : list event) (c : client_t) (r : Z) (c' : client_t) (w' : world),
  mode c = MODE_READING ->
  recv_loop fs cfg gm scr tr c = Some (r, c', w') ->
  mode c' = MODE_WRITING ->
  is_prefix (lit "HTTP/1.1 ") (staged_headers c') = true.
Proof.
  induction scr as [|a scr IH]; intros tr c r c' w' Hm H Hw; [discriminate|].
  rewrite recv_loop_cons in H. destruct a as [bs|k| |n|revs|e]; try discriminate.
  - cbv zeta in H.
    destruct (0 <? len _) in H; [|injection H as <- <- <-; congruence].
    destruct (_ >=? _) in H.
    + rewrite make_error_response_ok in H. injection H as <- <- <-.
      apply staged_headers_version_error.
    + destruct (has_header_end _ _) in H.
      * now apply prepare_response_version in H.
      * eapply IH; [|exact H|exact Hw]. exact Hm.
  - destruct (would_block e); injection H as <- <- <-; congruence.
Qed.

Lemma prepare_response_same_parse (fs : filesys) (cfg : server_config_t)
    (c : client_t) (w : world) (buf0 buf1 : bytes) :
  parse_http_request (firstn (Z.to_nat (req_len c)) buf0) fresh_request
  = parse_http_request (firstn (Z.to_nat (req_len c)) buf1) fresh_request ->
  prepare_response fs cfg (set_req_buf buf1 c) w
  = option_map (fun '(r, c', w') => (r, set_req_buf buf1 c', w'))
      (prepare_response fs cfg (set_req_buf buf0 c) w).
Proof.
  intros Hparse. rewrite !prepare_response_eq. cbv zeta.
  unfold set_req_buf at 1 2 5 6. cbn [req_len req_buf]. rewrite <- Hparse.
  destruct (parse_http_request _ _) as [rc req].
  destruct (rc =? 400); [reflexivity|].
  destruct (rc =? 405); [reflexivity|].
  destruct (resolve_path _ _ _ _ _) as [rc2 p].
  destruct (negb (rc2 =? 0)); [reflexivity|].
  destruct (fs_stat fs p) as [e|st]; [reflexivity|].
  destruct (negb _); [|reflexivity].
  destruct (script w) as [|[bs|k| |n|revs|e] rest]; try reflexivity.
  destruct (n <? 0); reflexivity.
Qed.

(** C10.  The header block that [build_response_headers] writes, and every
    header block that the read transition or the response preparation
    stages, begins with the literal "HTTP/1.1 "; and two request buffers
    that differ only in the version token of the request line, HTTP/1.0 in
    one and HTTP/1.1 in the other, are prepared into the same slot and the
    same world, the request buffer apart. *)
Theorem status_line_is_http_1_1 :
  (forall dst cap gm status ct cl allow,
     0 <= fst (build_response_headers dst cap gm status ct cl allow) ->
     is_prefix (lit "HTTP/1.1 ")
       (snd (build_response_headers dst cap gm status ct cl allow)) = true) /\
  (forall fs cfg c w r c' w',
     prepare_response fs cfg c w = Some (r, c', w') ->
     mode c' = MODE_WRITING /\
     is_prefix (lit "HTTP/1.1 ") (staged_headers c') = true) /\
  (forall fs cfg c w r c' w',
     mode c = MODE_READING ->
     read_client_request fs cfg c w = Some (r, c', w') ->
     mode c' = MODE_WRITING ->
     is_prefix (lit "HTTP/1.1 ") (staged_headers c') = true) /\
  (forall fs cfg c w buf0 buf1 m t rest,
     m <> [] -> t <> [] -> is_token m = true -> is_token t = true ->
     (length m <= 15)%nat ->
     len (request_line m t (lit "HTTP/1.0")) < 2048 ->
     firstn (Z.to_nat (req_len c)) buf0
     = request_line m t (lit "HTTP/1.0") ++ CRLF ++ rest ->
     firstn (Z.to_nat (req_len c)) buf1
     = request_line m t (lit "HTTP/1.1") ++ CRLF ++ rest ->
     prepare_response fs cfg (set_req_buf buf1 c) w
     = option_map (fun '(r, c', w') => (r, set_req_buf buf1 c', w'))
         (prepare_response fs cfg (set_req_buf buf0 c) w)).
Proof.
  split; [exact build_response_headers_version|].
  split; [exact prepare_response_version|].
  split.
  - intros fs cfg c w r c' w' Hm H Hw. unfold read_client_request in H.
    eapply recv_loop_version; eassumption.
  - intros fs cfg c w buf0 buf1 m t rest Hm Ht Tm Tt Lm Hlen H0 H1.
    apply prepare_response_same_parse. rewrite H0, H1.
    assert (Hlen1 : len (request_line m t (lit "HTTP/1.1")) < 2048).
    { unfold request_line, len in *. rewrite !length_app in *.
      simpl in *. rewrite !length_app in *. simpl in *. lia. }
    rewrite !parse_request_line by (auto; try (right; reflexivity); left; reflexivity).
    reflexivity.
Qed.

Lemma status_line_is_http_1_1_witness :
  0 <= fst (build_response_headers (zeros MAX_RESP_HEADER) MAX_RESP_HEADER
              sample_time 404 (lit "text/html; charset=utf-8") 47 false) /\
  is_prefix (lit "HTTP/1.1 ")
    (snd (build_response_headers (zeros MAX_RESP_HEADER) MAX_RESP_HEADER
            sample_time 404 (lit "text/html; charset=utf-8") 47 false)) = true.
Proof.
  assert (H : 0 <= fst (build_response_headers (zeros MAX_RESP_HEADER)
                          MAX_RESP_HEADER sample_time 404
                          (lit "text/html; charset=utf-8") 47 false)).
  { vm_compute. discriminate. }
  split; [exact H|].
  exact (proj1 status_line_is_http_1_1 (zeros MAX_RESP_HEADER) MAX_RESP_HEADER
           sample_time 404 (lit "text/html; charset=utf-8") 47 false H).
Defined.

(** ** Examples *)

Lemma sent_never_exceeds_length_witness :
  (exists res,
     event_loop 3 sample_fs sample_cfg (initial_pfds 3) initial_clients
       sample_session = Some res) /\
  Forall sent_inv (snd (fst sample_served)).
Proof.
  assert (Hrun : match event_loop 3 sample_fs sample_cfg (initial_pfds 3)
                         initial_clients sample_session with
                 | Some _ => true
                 | None => false
                 end = true).
  { vm_compute. reflexivity. }
  unfold sample_served.
  destruct (event_loop 3 sample_fs sample_cfg (initial_pfds 3) initial_clients
              sample_session) as [[[pfds clients] w']|] eqn:E; [|discriminate].
  split; [eexists; reflexivity|]. cbn [fst snd].
  exact (proj2 (proj2 (proj2 sent_never_exceeds_length)) 3%nat sample_fs
           sample_cfg 3 sample_session pfds clients w' E).
Defined.

(** The sample exchange, end to end: socket 7 receives the 200 header block
    and then the five bytes read from descriptor 9, both descriptors are
    closed, and every slot is free again. *)
Example sample_session_served :
  sent_on 7 (trace (snd sample_served))
  = header_text (format_http_date sample_time) 200
      (lit "text/html; charset=utf-8") 5 false ++ lit "hello" /\
  read_on 9 (trace (snd sample_served)) = lit "hello" /\
  opened (trace (snd sample_served)) = [lit "/srv/www/index.html"] /\
  closed (trace (snd sample_served)) = [7; 9] /\
  script (snd sample_served) = [] /\
  existsb active (snd (fst sample_served)) = false.
Proof. repeat split; vm_compute; reflexivity. Qed.

Example resolve_dotdot :
  fst (resolve_path sample_fs (lit "/srv/www") (lit "/../etc/passwd") [] 4096)
  = 403.
Proof. vm_compute. reflexivity. Qed.

Example resolve_symlink_escape :
  fst (resolve_path sample_fs (lit "/srv/www") (lit "/leak") [] 4096) = 403.
Proof. vm_compute. reflexivity. Qed.

Example resolve_missing :
  fst (resolve_path sample_fs (lit "/srv/www") (lit "/nope.txt") [] 4096) = 404.
Proof. vm_compute. reflexivity. Qed.

Example parse_malformed :
  fst (parse_http_request (lit "GET" ++ CRLF ++ CRLF) fresh_request) = 400.
Proof. vm_compute. reflexivity. Qed.

Example dec_examples :
  dec 405 = lit "405" /\ dec 0 = lit "0" /\ dec (-5) = lit "-5" /\
  dec 9223372036854775807 = lit "9223372036854775807".
Proof. repeat split; vm_compute; reflexivity. Qed.

Example format_http_date_example :
  format_http_date sample_time = lit "Sun, 01 Nov 2026 05:06:07 GMT".
Proof. vm_compute. reflexivity. Qed.

(** * Further properties

    The remaining functions of [server.c] ([parse_port_number],
    [parse_arguments], [init_server_socket], [run_server], [main]) and
    properties of the functions above that the code shows: what the parser
    reads, how a response is framed, the invariants of the two tables and of
    the descriptors. *)

(** ** Port numbers and the command line *)

Lemma strtol_digits_spec (ds : bytes) :
  forall (acc : Z),
  forallb isdigit ds = true ->
  strtol_digits acc ds
  = (fold_left (fun a c => a * 10 + (code c - 48)) ds acc, []).
Proof.
  induction ds as [|c ds IH]; intros acc H; [reflexivity|].
  cbn [forallb] in H. apply andb_true_iff in H as [Hc Hds].
  cbn [strtol_digits fold_left]. rewrite Hc. now apply IH.
Qed.

Lemma strtol_digits_rest (s : bytes) :
  forall (acc v : Z) (rest : bytes),
  strtol_digits acc s = (v, rest) ->
  exists ds, s = ds ++ rest /\ forallb isdigit ds = true /\
             v = fold_left (fun a c => a * 10 + (code c - 48)) ds acc.
Proof.
  induction s as [|c s IH]; intros acc v rest H.
  - injection H as <- <-. exists []. auto.
  - cbn [strtol_digits] in H. destruct (isdigit c) eqn:Ec.
    + apply IH in H as (ds & -> & Hds & ->).
      exists (c :: ds). cbn [forallb]. rewrite Ec. auto.
    + injection H as <- <-. exists []. auto.
Qed.

Lemma fold_digits_nonneg (ds : bytes) :
  forall acc, 0 <= acc -> forallb isdigit ds = true ->
  0 <= fold_left (fun a c => a * 10 + (code c - 48)) ds acc.
Proof.
  induction ds as [|c ds IH]; intros acc Ha H; [exact Ha|].
  cbn [forallb] in H. apply andb_true_iff in H as [Hc Hds].
  cbn [fold_left]. apply IH; [|exact Hds].
  unfold isdigit in Hc. apply andb_true_iff in Hc as [H1 H2].
  apply Z.leb_le in H1. lia.
Qed.

Lemma skip_space_split (s : bytes) :
  exists ws, s = ws ++ skip_space s /\ forallb isspace ws = true.
Proof.
  induction s as [|c s (ws & Hs & Hws)]; [exists []; auto|].
  cbn [skip_space]. destruct (isspace c) eqn:Ec.
  - exists (c :: ws). cbn [forallb app]. rewrite Ec, <- Hs. auto.
  - exists []. auto.
Qed.

Lemma skip_space_app (ws s : bytes) :
  forallb isspace ws = true -> skip_space (ws ++ s) = skip_space s.
Proof.
  induction ws as [|c ws IH]; intros H; [reflexivity|].
  cbn [forallb] in H. apply andb_true_iff in H as [Hc Hws].
  cbn [app skip_space]. rewrite Hc. now apply IH.
Qed.

Lemma isdigit_not_space (c : ascii) : isdigit c = true -> isspace c = false.
Proof.
  unfold isdigit, isspace. intros H. apply andb_true_iff in H as [H1 H2].
  apply Z.leb_le in H1.
  apply orb_false_iff. split; [apply Z.eqb_neq; lia|].
  apply andb_false_iff. right. apply Z.leb_gt. lia.
Qed.

Lemma isdigit_not_sign (c : ascii) :
  isdigit c = true ->
  Ascii.eqb c "-"%char = false /\ Ascii.eqb c "+"%char = false.
Proof.
  unfold isdigit. intros H. apply andb_true_iff in H as [H1 H2].
  apply Z.leb_le in H1.
  split; apply Ascii.eqb_neq; intros ->; vm_compute in H1; congruence.
Qed.

(** The text [strtol] accepts in full, and its value. *)
Lemma strtol_number (ws sign ds : bytes) :
  forallb isspace ws = true ->
  sign = [] \/ sign = ["+"%char] ->
  ds <> [] -> forallb isdigit ds = true ->
  strtol (ws ++ sign ++ ds) = (Z.min LONG_MAX (digits_value ds), []).
Proof.
  intros Hws Hsign Hne Hds. unfold strtol.
  rewrite skip_space_app by exact Hws.
  destruct ds as [|d ds]; [contradiction|].
  pose proof Hds as Hds'. cbn [forallb] in Hds'.
  apply andb_true_iff in Hds' as [Hd _].
  pose proof (isdigit_not_space d Hd) as Hsp.
  destruct (isdigit_not_sign d Hd) as [Hm Hp].
  destruct Hsign as [-> | ->].
  - cbn [app skip_space]. rewrite Hsp, Hm, Hp, Hd.
    rewrite (strtol_digits_spec (d :: ds) 0 Hds). reflexivity.
  - cbn [app skip_space]. change (isspace "+"%char) with false. cbv iota.
    change (Ascii.eqb "+" "-") with false. change (Ascii.eqb "+" "+") with true.
    cbv iota. rewrite Hd.
    rewrite (strtol_digits_spec (d :: ds) 0 Hds). reflexivity.
Qed.

Lemma digit_char (k : Z) :
  0 <= k < 10 ->
  isdigit (ascii_of_nat (48 + Z.to_nat k)) = true /\
  code (ascii_of_nat (48 + Z.to_nat k)) - 48 = k.
Proof.
  intros H. unfold isdigit, code.
  rewrite nat_ascii_embedding by lia.
  split; [apply andb_true_iff; split; apply Z.leb_le; lia | lia].
Qed.

Lemma digits_rev_value (fuel : nat) :
  forall (n : Z),
  (0 < fuel)%nat ->
  0 <= n < 10 ^ Z.of_nat fuel ->
  forallb isdigit (digits_rev fuel n) = true /\
  digits_rev fuel n <> [] /\
  fold_right (fun c a => a * 10 + (code c - 48)) 0 (digits_rev fuel n) = n.
Proof.
  induction fuel as [|f IH]; intros n Hf Hn; [lia|].
  - cbn [digits_rev].
    destruct (digit_char (n mod 10)) as [Hd Hv];
      [apply Z.mod_pos_bound; lia|].
    destruct (n <? 10) eqn:E.
    + apply Z.ltb_lt in E. cbn [forallb fold_right]. rewrite Hd, Hv.
      split; [reflexivity|]. split; [discriminate|].
      rewrite Z.mod_small by lia. lia.
    + apply Z.ltb_ge in E.
      assert (Hq : 0 <= n / 10 < 10 ^ Z.of_nat f).
      { split; [apply Z.div_pos; lia|].
        apply Z.div_lt_upper_bound; [lia|].
        rewrite Nat2Z.inj_succ, Z.pow_succ_r in Hn by lia. lia. }
      assert (Hf' : (0 < f)%nat).
      { destruct f; [simpl in Hn; lia|lia]. }
      destruct (IH _ Hf' Hq) as (Hall & Hne & Hval).
      cbn [forallb fold_right]. rewrite Hd, Hv, Hall, Hval.
      split; [reflexivity|]. split; [discriminate|].
      pose proof (Z.div_mod n 10). lia.
Qed.

Lemma forallb_rev {A : Type} (f : A -> bool) (l : list A) :
  forallb f (rev l) = forallb f l.
Proof.
  induction l as [|x l IH]; [reflexivity|].
  cbn [rev forallb]. rewrite forallb_app, IH. cbn [forallb].
  rewrite andb_true_r. apply andb_comm.
Qed.

Lemma dec_digits (n : Z) :
  0 <= n < 10 ^ 20 ->
  forallb isdigit (dec n) = true /\ dec n <> [] /\ digits_value (dec n) = n.
Proof.
  intros Hn. unfold dec.
  destruct (n <? 0) eqn:E; [apply Z.ltb_lt in E; lia|].
  destruct (digits_rev_value 20 n ltac:(lia) Hn) as (Hall & Hne & Hval).
  split; [now rewrite forallb_rev|].
  split.
  - intros H. apply (f_equal (@rev ascii)) in H. rewrite rev_involutive in H.
    exact (Hne H).
  - unfold digits_value. rewrite <- Hval at 2.
    rewrite <- (rev_involutive (digits_rev 20 n)) at 2.
    rewrite fold_left_rev_right. reflexivity.
Qed.

Lemma digits_value_zeros (k : nat) (ds : bytes) :
  digits_value (repeat "0"%char k ++ ds) = digits_value ds.
Proof.
  unfold digits_value. rewrite fold_left_app.
  replace (fold_left _ (repeat "0"%char k) 0) with 0; [reflexivity|].
  induction k as [|k IH]; [reflexivity|]. cbn [repeat fold_left].
  exact IH.
Qed.

Lemma forallb_repeat {A : Type} (f : A -> bool) (x : A) (k : nat) :
  f x = true -> forallb f (repeat x k) = true.
Proof.
  intros H. induction k as [|k IH]; [reflexivity|].
  cbn [repeat forallb]. now rewrite H, IH.
Qed.

Lemma parse_port_number_shape (s : bytes) :
  parse_port_number s = -1 \/
  1 <= parse_port_number s <= 65535 /\
  exists ws sign ds,
    s = ws ++ sign ++ ds /\
    forallb isspace ws = true /\
    (sign = [] \/ sign = ["+"%char]) /\
    ds <> [] /\ forallb isdigit ds = true /\
    parse_port_number s = digits_value ds.
Proof.
  unfold parse_port_number. destruct s as [|c0 s0]; [left; reflexivity|].
  set (s := c0 :: s0).
  destruct (strtol s) as [v e] eqn:Hs.
  destruct e as [|x e]; [|left; reflexivity].
  destruct ((v <? 1) || (v >? 65535)) eqn:Hr; [left; reflexivity|].
  apply orb_false_iff in Hr as [H1 H2].
  apply Z.ltb_ge in H1. rewrite Z.gtb_ltb in H2. apply Z.ltb_ge in H2.
  right. rewrite to_int_small by (unfold INT_MAX; lia).
  split; [lia|].
  unfold strtol in Hs.
  destruct (skip_space_split s) as (ws & Hsplit & Hws).
  destruct (skip_space s) as [|c r] eqn:Hsk.
  { injection Hs as _ He. subst s. discriminate. }
  assert (Hdigits : forall (neg : bool) s2,
            match s2 with
            | c1 :: _ =>
                if isdigit c1 then
                  let '(v1, rest) := strtol_digits 0 s2 in
                  (if neg then Z.max LONG_MIN (- v1) else Z.min LONG_MAX v1, rest)
                else (0, s)
            | [] => (0, s)
            end = (v, []) ->
            neg = false /\ s2 <> [] /\ forallb isdigit s2 = true /\
            v = digits_value s2).
  { intros neg s2 H. destruct s2 as [|c1 s2]; [injection H as _ He; discriminate|].
    destruct (isdigit c1) eqn:Ec1; [|injection H as _ He; discriminate].
    destruct (strtol_digits 0 (c1 :: s2)) as [v1 rest] eqn:Hd.
    injection H as Hv ->.
    apply strtol_digits_rest in Hd as (ds & Hds & Hall & ->).
    rewrite app_nil_r in Hds. subst ds.
    pose proof (fold_digits_nonneg (c1 :: s2) 0 ltac:(lia) Hall) as Hpos.
    destruct neg; [unfold LONG_MIN in Hv; lia|].
    split; [reflexivity|]. split; [discriminate|]. split; [exact Hall|].
    unfold digits_value. unfold LONG_MAX in Hv. lia. }
  destruct (Ascii.eqb c "-"%char) eqn:Em.
  { apply (Hdigits true r) in Hs as [Hneg _]. discriminate. }
  destruct (Ascii.eqb c "+"%char) eqn:Ep.
  - apply (Hdigits false r) in Hs as (_ & Hne & Hall & Hv).
    apply Ascii.eqb_eq in Ep. subst c.
    exists ws, ["+"%char], r. auto 10.
  - apply (Hdigits false (c :: r)) in Hs as (_ & Hne & Hall & Hv).
    exists ws, [], (c :: r). auto 10.
Qed.

(** X1.  [parse_port_number] returns -1 or a port in 1..65535; a text it
    accepts is white space, an optional plus sign and decimal digits up to
    its end, and the value returned is the value of the digits. *)
Theorem parse_port_number_accepts_only_ports (s : bytes) :
  parse_port_number s = -1 \/
  1 <= parse_port_number s <= 65535 /\
  exists ws sign ds,
    s = ws ++ sign ++ ds /\
    forallb isspace ws = true /\
    (sign = [] \/ sign = ["+"%char]) /\
    ds <> [] /\ forallb isdigit ds = true /\
    parse_port_number s = digits_value ds.
Proof. exact (parse_port_number_shape s). Qed.


(** X2.  Every port number printed in decimal is read back as itself, also
    after white space, a plus sign and leading zeros; the decimal text of a
    number outside 1..65535 is refused. *)
Theorem parse_port_number_decimal (n : Z) :
  (forall (ws sign : bytes) (k : nat),
     1 <= n <= 65535 ->
     forallb isspace ws = true ->
     sign = [] \/ sign = ["+"%char] ->
     parse_port_number (ws ++ sign ++ repeat "0"%char k ++ dec n) = n) /\
  (- 10 ^ 20 < n < 1 \/ 65535 < n < 10 ^ 20 ->
   parse_port_number (dec n) = -1).
Proof.
  split.
  - intros ws sign k Hn Hws Hsign.
    destruct (dec_digits n) as (Hall & Hne & Hval); [lia|].
    assert (Hds : forallb isdigit (repeat "0"%char k ++ dec n) = true).
    { rewrite forallb_app, Hall, forallb_repeat; reflexivity. }
    assert (Hne' : repeat "0"%char k ++ dec n <> []).
    { intros H. apply app_eq_nil in H as [_ H]. exact (Hne H). }
    unfold parse_port_number.
    destruct (ws ++ sign ++ repeat "0"%char k ++ dec n) as [|c0 s0] eqn:Es.
    { apply app_eq_nil in Es as [_ Es]. apply app_eq_nil in Es as [_ Es].
      contradiction. }
    rewrite <- Es, (strtol_number ws sign _ Hws Hsign Hne' Hds).
    rewrite digits_value_zeros, Hval.
    unfold LONG_MAX. rewrite Z.min_r by lia.
    replace (n <? 1) with false by (symmetry; apply Z.ltb_ge; lia).
    replace (n >? 65535) with false
      by (symmetry; rewrite Z.gtb_ltb; apply Z.ltb_ge; lia).
    cbn [orb]. apply to_int_small. unfold INT_MAX. lia.
  - intros Hn. unfold parse_port_number.
    destruct (dec n) as [|c0 s0] eqn:Ed; [reflexivity|]. rewrite <- Ed.
    destruct (Z.ltb_spec n 0) as [Hneg|Hpos].
    + (* a minus sign: the value is not positive *)
      unfold dec in *. replace (n <? 0) with true in *
        by (symmetry; apply Z.ltb_lt; lia).
      destruct (digits_rev_value 20 (- n)) as (Hall & Hne & Hval); [lia|lia|].
      rewrite <- forallb_rev in Hall.
      destruct (rev (digits_rev 20 (- n))) as [|d ds] eqn:Er.
      { apply (f_equal (@rev ascii)) in Er. rewrite rev_involutive in Er.
        contradiction. }
      unfold strtol. cbn [skip_space]. change (isspace "-"%char) with false.
      cbv iota. change (Ascii.eqb "-" "-") with true. cbv iota.
      pose proof Hall as Hall'. cbn [forallb] in Hall'.
      apply andb_true_iff in Hall' as [Hd _]. rewrite Hd.
      rewrite (strtol_digits_spec (d :: ds) 0 Hall).
      pose proof (fold_digits_nonneg (d :: ds) 0 ltac:(lia) Hall).
      replace (Z.max LONG_MIN _ <? 1) with true
        by (symmetry; apply Z.ltb_lt; unfold LONG_MIN; lia).
      reflexivity.
    + destruct (dec_digits n) as (Hall & Hne & Hval); [lia|].
      pose proof (strtol_number [] [] (dec n) eq_refl (or_introl eq_refl)
                    Hne Hall) as Hst.
      cbn [app] in Hst. rewrite Hst, Hval.
      destruct (Z.min LONG_MAX n <? 1) eqn:E1; [reflexivity|].
      replace (Z.min LONG_MAX n >? 65535) with true; [reflexivity|].
      symmetry. rewrite Z.gtb_ltb. apply Z.ltb_lt. unfold LONG_MAX.
      apply Z.ltb_ge in E1. lia.
Qed.

Lemma parse_port_number_decimal_witness :
  parse_port_number (lit " +008080") = 8080 /\
  parse_port_number (lit "65536") = -1.
Proof.
  split.
  - apply (proj1 (parse_port_number_decimal 8080) (lit " ") (lit "+") 2%nat);
      [lia | reflexivity | right; reflexivity].
  - apply (proj2 (parse_port_number_decimal 65536)). right. lia.
Defined.

Lemma snprintf_str_firstn (cap : Z) (s : bytes) :
  snprintf_str cap s = firstn (Z.to_nat (cap - 1)) s.
Proof. reflexivity. Qed.

(** X3.  [parse_arguments] succeeds exactly on four arguments whose second is
    an IP literal, whose third is a port number and whose fourth resolves to
    a directory; the configuration it then leaves holds the canonical root
    in full, the first 15 bytes of the port text, a header budget of 8192
    (within the hard cap) and a backlog of 128.  Every other call returns
    -1. *)
Theorem parse_arguments_spec (h : host_t) (fs : filesys) (g : bytes) :
  (forall (a0 ip p root canonical : bytes) (st : stat_t),
     is_valid_ip_literal h ip = true ->
     1 <= parse_port_number p <= 65535 ->
     realpath fs root = inr canonical ->
     fs_stat fs canonical = inr st ->
     st_isdir h canonical = true ->
     parse_arguments h fs [a0; ip; p; root] g
     = (0, mk_config (firstn 15 p) canonical 8192 128, firstn 63 ip)) /\
  (forall (argv : list bytes) (rc : Z) (cfg : server_config_t) (g' : bytes),
     parse_arguments h fs argv g = (rc, cfg, g') ->
     rc = -1 \/
     rc = 0 /\
     exists (a0 ip p root : bytes) (st : stat_t),
       argv = [a0; ip; p; root] /\
       is_valid_ip_literal h ip = true /\
       1 <= parse_port_number p <= 65535 /\
       realpath fs root = inr (doc_root cfg) /\
       fs_stat fs (doc_root cfg) = inr st /\
       st_isdir h (doc_root cfg) = true /\
       len (doc_root cfg) < PATH_MAX /\
       port cfg = firstn 15 p /\
       (len p <= 15 -> port cfg = p) /\
       max_header_size cfg = 8192 /\
       0 < max_header_size cfg <= MAX_HEADER_BYTES /\
       backlog cfg = 128 /\
       g' = firstn 63 ip).
Proof.
  assert (Hfull : forall root canonical,
            realpath fs root = inr canonical ->
            len canonical < PATH_MAX /\
            snprintf_str PATH_MAX canonical = canonical).
  { intros root canonical H. unfold realpath in H.
    destruct (fs_realpath fs root) as [e|q]; [discriminate|].
    destruct (len q <? PATH_MAX) eqn:E; [|discriminate].
    injection H as <-. apply Z.ltb_lt in E. split; [exact E|].
    apply snprintf_str_fits. exact E. }
  split.
  - intros a0 ip p root canonical st Hip Hport Hreal Hstat Hdir.
    unfold parse_arguments. rewrite Hip. cbn [negb].
    replace (parse_port_number p <? 0) with false
      by (symmetry; apply Z.ltb_ge; lia).
    rewrite Hreal, Hstat, Hdir. cbn [negb max_header_size port doc_root backlog].
    destruct (Hfull _ _ Hreal) as [_ ->]. reflexivity.
  - intros argv rc cfg g' H. unfold parse_arguments in H.
    destruct argv as [|a0 [|ip [|p [|root [|x argv]]]]];
      try (injection H as <- _ _; left; reflexivity).
    destruct (is_valid_ip_literal h ip) eqn:Hip;
      [|injection H as <- _ _; left; reflexivity].
    cbn [negb] in H.
    destruct (parse_port_number p <? 0) eqn:Hport;
      [injection H as <- _ _; left; reflexivity|].
    apply Z.ltb_ge in Hport.
    destruct (realpath fs root) as [e|canonical] eqn:Hreal;
      [injection H as <- _ _; left; reflexivity|].
    destruct (fs_stat fs canonical) as [e|st] eqn:Hstat;
      [injection H as <- _ _; left; reflexivity|].
    destruct (st_isdir h canonical) eqn:Hdir;
      [|injection H as <- _ _; left; reflexivity].
    cbn [negb max_header_size port doc_root backlog] in H.
    destruct (Hfull _ _ Hreal) as [Hlen Hcopy]. rewrite Hcopy in H.
    change ((8192 <=? 0) || (8192 >? MAX_HEADER_BYTES)) with false in H.
    injection H as <- <- <-. right. split; [reflexivity|].
    exists a0, ip, p, root, st. cbn [doc_root port max_header_size backlog].
    assert (Hrange : 1 <= parse_port_number p <= 65535).
    { destruct (parse_port_number_shape p) as [Hm|[Hr _]]; lia. }
    repeat split; try assumption; try reflexivity; try lia;
      try (unfold MAX_HEADER_BYTES; lia).
    intros Hp. unfold snprintf_str. apply firstn_all2. unfold len in Hp. lia.
Qed.

Lemma parse_arguments_spec_witness :
  parse_arguments sample_host sample_boot_fs sample_argv (lit "0.0.0.0")
  = (0, mk_config (lit "8080") (lit "/srv/www") 8192 128, lit "127.0.0.1") /\
  (0 = -1 \/
   0 = 0 /\
   exists (a0 ip p root : bytes) (st : stat_t),
     sample_argv = [a0; ip; p; root] /\
     is_valid_ip_literal sample_host ip = true /\
     1 <= parse_port_number p <= 65535 /\
     realpath sample_boot_fs root = inr (doc_root sample_cfg) /\
     fs_stat sample_boot_fs (doc_root sample_cfg) = inr st /\
     st_isdir sample_host (doc_root sample_cfg) = true /\
     len (doc_root sample_cfg) < PATH_MAX /\
     port sample_cfg = firstn 15 p /\
     (len p <= 15 -> port sample_cfg = p) /\
     max_header_size sample_cfg = 8192 /\
     0 < max_header_size sample_cfg <= MAX_HEADER_BYTES /\
     backlog sample_cfg = 128 /\
     lit "127.0.0.1" = firstn 63 ip).
Proof.
  assert (Hrun : parse_arguments sample_host sample_boot_fs sample_argv
                   (lit "0.0.0.0")
                 = (0, sample_cfg, lit "127.0.0.1")).
  { vm_compute. reflexivity. }
  split.
  - apply (proj1 (parse_arguments_spec sample_host sample_boot_fs (lit "0.0.0.0"))
             (lit "./server") (lit "127.0.0.1") (lit "8080") (lit "./www")
             (lit "/srv/www") (mk_stat 4096 false));
      vm_compute; try reflexivity; split; discriminate.
  - exact (proj2 (parse_arguments_spec sample_host sample_boot_fs (lit "0.0.0.0"))
             sample_argv 0 sample_cfg (lit "127.0.0.1") Hrun).
Defined.

(** ** The request line is all the parser reads *)

Lemma find_crlf_shift (s : bytes) :
  forall (i j : Z),
  find_crlf s (i + j) = option_map (Z.add j) (find_crlf s i).
Proof.
  induction s as [|a s IH]; intros i j; [reflexivity|].
  destruct s as [|b s]; [reflexivity|].
  rewrite !find_crlf_cons.
  destruct (Ascii.eqb a CR && Ascii.eqb b LF).
  - cbn [option_map]. f_equal. lia.
  - replace (i + j + 1) with (i + 1 + j) by lia. apply IH.
Qed.

Lemma find_crlf_none (s : bytes) (i : Z) :
  find_crlf s 0 = None -> find_crlf s i = None.
Proof.
  intros H. replace i with (0 + i) by lia.
  rewrite find_crlf_shift, H. reflexivity.
Qed.

Lemma find_crlf_first (line rest : bytes) :
  forall (i : Z),
  find_crlf line 0 = None ->
  find_crlf (line ++ CR :: LF :: rest) i = Some (i + len line).
Proof.
  induction line as [|a l IH]; intros i H.
  - cbn [app]. rewrite find_crlf_cons. change (Ascii.eqb CR CR) with true.
    change (Ascii.eqb LF LF) with true. cbn [andb]. f_equal.
    unfold len. simpl. lia.
  - cbn [app]. destruct l as [|b l].
    + cbn [app]. rewrite find_crlf_cons.
      change (Ascii.eqb CR LF) with false. rewrite andb_false_r.
      pose proof (IH (i + 1) eq_refl) as IH0. cbn [app] in IH0.
      rewrite IH0. f_equal. unfold len. simpl. lia.
    + cbn [app]. rewrite find_crlf_cons in H |- *.
      destruct (Ascii.eqb a CR && Ascii.eqb b LF); [discriminate|].
      assert (H0 : find_crlf (b :: l) 0 = None).
      { replace 1 with (0 + 1) in H by lia.
        rewrite find_crlf_shift in H.
        destruct (find_crlf (b :: l) 0); [discriminate|reflexivity]. }
      change (b :: l ++ CR :: LF :: rest) with ((b :: l) ++ CR :: LF :: rest).
      rewrite (IH (i + 1) H0). f_equal. rewrite (len_cons a). lia.
Qed.

(** X4.  The parser reads the request line only: the bytes that follow the
    first CR LF pair (header fields, a body, a second request) do not change
    its result. *)
Theorem parse_reads_first_line_only (line rest : bytes) (out : http_request_t) :
  find_crlf line 0 = None ->
  parse_http_request (line ++ CRLF ++ rest) out
  = parse_http_request (line ++ CRLF) out.
Proof.
  intros H. unfold parse_http_request.
  assert (Hne : forall r, (len (line ++ CRLF ++ r) =? 0) = false).
  { intros r. apply Z.eqb_neq. rewrite !len_app.
    pose proof (len_nonneg line). pose proof (len_nonneg r).
    change (len CRLF) with 2. lia. }
  rewrite (Hne rest). pose proof (Hne []) as Hne0.
  rewrite app_nil_r in Hne0. rewrite Hne0.
  unfold find_request_line_end. unfold CRLF. cbn [app].
  rewrite !find_crlf_first by exact H. rewrite Z.add_0_l.
  destruct ((to_int (len line) <=? 0) || (to_int (len line) >=? 2048));
    [reflexivity|].
  assert (Hcut : forall r, firstn (Z.to_nat (to_int (len line))) (line ++ r)
                           = firstn (Z.to_nat (to_int (len line))) line).
  { intros r. rewrite firstn_app.
    replace (Z.to_nat (to_int (len line)) - length line)%nat with 0%nat.
    - cbn [firstn]. apply app_nil_r.
    - pose proof (to_int_le (len line) (len_nonneg line)). unfold len in *. lia. }
  rewrite !Hcut. reflexivity.
Qed.

Lemma parse_reads_first_line_only_witness :
  parse_http_request
    (lit "GET / HTTP/1.0" ++ CRLF ++ lit "Host: a" ++ CRLF ++ CRLF) fresh_request
  = parse_http_request (lit "GET / HTTP/1.0" ++ CRLF) fresh_request.
Proof.
  apply (parse_reads_first_line_only (lit "GET / HTTP/1.0")
           (lit "Host: a" ++ CRLF ++ CRLF) fresh_request).
  reflexivity.
Defined.

(** ** Blanks around the three tokens *)

Lemma scan_s_blanks (w : nat) (ws tok rest : bytes) :
  forallb isspace ws = true ->
  tok <> [] -> is_token tok = true -> (length tok <= w)%nat ->
  match rest with [] => True | c :: _ => isspace c = true end ->
  scan_s w (ws ++ tok ++ rest) = Some (tok, rest).
Proof.
  intros Hws Hne Ht Hw Hrest.
  pose proof (scan_s_token w tok rest Hne Ht Hw Hrest) as H.
  unfold scan_s in *. rewrite skip_space_app by exact Hws. exact H.
Qed.

Lemma blanks_head (ws rest : bytes) :
  ws <> [] -> forallb isspace ws = true ->
  match ws ++ rest with [] => True | c :: _ => isspace c = true end.
Proof.
  intros Hne H. destruct ws as [|c ws]; [contradiction|].
  cbn [forallb] in H. apply andb_true_iff in H as [Hc _]. exact Hc.
Qed.

(** X5.  The tokens of the request line may be separated by any run of white
    space, white space may come before the method, and whatever follows the
    version token after white space is ignored: the result is that of the
    line [METHOD SP TARGET SP VERSION]. *)
Theorem parse_blank_separated (pre s1 s2 post m t v rest : bytes)
    (out : http_request_t) :
  let line := pre ++ m ++ s1 ++ t ++ s2 ++ v ++ post in
  forallb isspace pre = true ->
  s1 <> [] -> forallb isspace s1 = true ->
  s2 <> [] -> forallb isspace s2 = true ->
  match post with [] => True | c :: _ => isspace c = true end ->
  m <> [] -> is_token m = true -> (length m <= 15)%nat ->
  t <> [] -> is_token t = true -> (length t <= 4095)%nat ->
  v = lit "HTTP/1.1" \/ v = lit "HTTP/1.0" ->
  find_crlf line 0 = None ->
  existsb (Ascii.eqb NUL) line = false ->
  len line < 2048 ->
  parse_http_request (line ++ CRLF ++ rest) out
  = parse_http_request (request_line m t v ++ CRLF) out.
Proof.
  intros line Hpre Hs1 Ws1 Hs2 Ws2 Hpost Hm Tm Lm Ht Tt Lt Hv Hcr Hnul Hlen.
  assert (Tv : is_token v = true) by (destruct Hv as [-> | ->]; reflexivity).
  assert (Lv : (length v <= 15)%nat) by (destruct Hv as [-> | ->]; simpl; lia).
  assert (Nv : v <> []) by (destruct Hv as [-> | ->]; discriminate).
  assert (Hshort : len (request_line m t v) <= len line).
  { unfold line, request_line. rewrite !len_app, !len_cons, !len_app.
    rewrite !len_cons.
    pose proof (len_nonneg pre). pose proof (len_nonneg post).
    destruct s1; [contradiction|]. destruct s2; [contradiction|].
    rewrite !len_cons. pose proof (len_nonneg s1). pose proof (len_nonneg s2).
    lia. }
  assert (Hpos : 0 < len line).
  { unfold line. rewrite !len_app. destruct m; [contradiction|].
    rewrite len_cons. pose proof (len_nonneg pre). pose proof (len_nonneg m).
    pose proof (len_nonneg s1). pose proof (len_nonneg t).
    pose proof (len_nonneg s2). pose proof (len_nonneg v).
    pose proof (len_nonneg post). lia. }
  pose proof (parse_request_line m t v [] out Hm Ht Tm Tt Lm ltac:(lia) Hv) as Hcanon.
  rewrite app_nil_r in Hcanon. rewrite Hcanon.
  unfold parse_http_request.
  replace (len (line ++ CRLF ++ rest) =? 0) with false.
  2:{ symmetry. apply Z.eqb_neq. rewrite len_app.
      pose proof (len_nonneg (CRLF ++ rest)). lia. }
  unfold find_request_line_end. unfold CRLF. cbn [app].
  rewrite find_crlf_first by exact Hcr.
  rewrite Z.add_0_l, to_int_small by (unfold INT_MAX; lia).
  replace ((len line <=? 0) || (len line >=? 2048)) with false.
  2:{ symmetry. apply orb_false_intro; [apply Z.leb_gt; lia|].
      rewrite Z.geb_leb. apply Z.leb_gt. lia. }
  unfold len at 1. rewrite Nat2Z.id, firstn_app, Nat.sub_diag, firstn_all.
  cbn [firstn]. rewrite app_nil_r, c_str_id by exact Hnul.
  assert (Hscan : sscanf_request line = (3, m, t, v)).
  { unfold sscanf_request, line.
    rewrite scan_s_blanks; auto; [|now apply blanks_head].
    rewrite scan_s_blanks; auto; [|now apply blanks_head].
    rewrite scan_s_blanks; auto. }
  rewrite Hscan. cbn [Z.eqb Pos.eqb negb].
  replace (negb (bytes_eqb v (lit "HTTP/1.1")) && negb (bytes_eqb v (lit "HTTP/1.0")))
    with false by (destruct Hv as [-> | ->]; reflexivity).
  rewrite (firstn_all2 t) by (unfold PATH_MAX; lia).
  reflexivity.
Qed.

Lemma parse_blank_separated_witness :
  parse_http_request
    (([" "%char] ++ lit "get" ++ ["009"%char; " "%char] ++ lit "/a" ++ [LF]
      ++ lit "HTTP/1.0" ++ lit " x y") ++ CRLF ++ lit "Host: a" ++ CRLF ++ CRLF)
    fresh_request
  = parse_http_request
      (request_line (lit "get") (lit "/a") (lit "HTTP/1.0") ++ CRLF) fresh_request.
Proof.
  apply (parse_blank_separated [" "%char] ["009"%char; " "%char] [LF]
           (lit " x y") (lit "get") (lit "/a") (lit "HTTP/1.0")
           (lit "Host: a" ++ CRLF ++ CRLF) fresh_request);
    try reflexivity; try discriminate; try (simpl; lia);
    try (right; reflexivity); try (unfold len; simpl; lia).
Defined.

(** ** What the parser hands to its caller *)

Lemma take_token_sound (w : nat) :
  forall (s t r : bytes),
  take_token w s = (t, r) ->
  existsb isspace t = false /\ (length t <= w)%nat /\
  forall c, In c t -> In c s.
Proof.
  induction w as [|w IH]; intros s t r H.
  - destruct s; injection H as <- <-; cbn;
      (split; [reflexivity|]; split; [lia|]; intros c []).
  - destruct s as [|c s];
      [injection H as <- <-; cbn;
       (split; [reflexivity|]; split; [lia|]; intros c [])|].
    cbn [take_token] in H. destruct (isspace c) eqn:Ec.
    + injection H as <- <-. cbn.
      split; [reflexivity|]; split; [lia|]; intros x [].
    + destruct (take_token w s) as [t' r'] eqn:E. injection H as <- <-.
      destruct (IH _ _ _ E) as (Hsp & Hlen & Hin).
      cbn [existsb length]. rewrite Ec, Hsp. split; [reflexivity|].
      split; [lia|]. intros x [->|Hx]; [left; reflexivity|right; auto].
Qed.

Lemma skip_space_In (s : bytes) (c : ascii) : In c (skip_space s) -> In c s.
Proof.
  induction s as [|x s IH]; [auto|]. cbn [skip_space].
  destruct (isspace x); [right; auto|auto].
Qed.

Lemma take_token_rest_In (w : nat) :
  forall (s t r : bytes) (c : ascii),
  take_token w s = (t, r) -> In c r -> In c s.
Proof.
  induction w as [|w IH]; intros s t r c H Hc.
  - destruct s; injection H as <- <-; exact Hc.
  - destruct s as [|x s]; [injection H as <- <-; exact Hc|].
    cbn [take_token] in H. destruct (isspace x).
    + injection H as <- <-. exact Hc.
    + destruct (take_token w s) as [t' r'] eqn:E. injection H as <- <-.
      right. eapply IH; eassumption.
Qed.

Lemma scan_s_sound (w : nat) (s t r : bytes) :
  scan_s w s = Some (t, r) ->
  existsb isspace t = false /\ (length t <= w)%nat /\
  (forall c, In c t -> In c s) /\ (forall c, In c r -> In c s).
Proof.
  unfold scan_s. intros H.
  destruct (skip_space s) as [|x s'] eqn:E; [discriminate|].
  injection H as H. rewrite <- E in H.
  destruct (take_token_sound _ _ _ _ H) as (H1 & H2 & H3).
  repeat split; auto.
  - intros c Hc. apply skip_space_In. auto.
  - intros c Hc. apply skip_space_In. eapply take_token_rest_In; eassumption.
Qed.

Lemma c_str_no_nul (s : bytes) : ~ In NUL (c_str s).
Proof.
  induction s as [|c s IH]; [auto|]. cbn [c_str].
  destruct (Ascii.eqb c NUL) eqn:E; [auto|].
  intros [->|H]; [discriminate|contradiction].
Qed.

Lemma existsb_firstn_false {A : Type} (f : A -> bool) (n : nat) (l : list A) :
  existsb f l = false -> existsb f (firstn n l) = false.
Proof.
  revert l. induction n as [|n IH]; intros [|x l] H; try reflexivity.
  cbn [existsb firstn] in *. apply orb_false_iff in H as [Hx Hl].
  now rewrite Hx, IH.
Qed.

(** X6.  [parse_http_request] returns 0, 400 or 405.  With 400 it leaves
    [*out] as it was.  With 0 or 405 the target it stores starts with a
    slash, has at most 4095 bytes and holds no white space, no NUL and no
    control byte, and the method stored is unsupported exactly with 405. *)
Theorem parse_http_request_result (raw : bytes) (out : http_request_t) :
  let '(rc, req) := parse_http_request raw out in
  rc = 400 /\ req = out \/
  (rc = 0 /\ method req <> HTTP_METHOD_UNSUPPORTED \/
   rc = 405 /\ method req = HTTP_METHOD_UNSUPPORTED) /\
  hd_error (target req) = Some "/"%char /\
  len (target req) <= 4095 /\
  is_token (target req) = true /\
  existsb iscntrl (target req) = false.
Proof.
  destruct (parse_http_request raw out) as [rc req] eqn:H.
  assert (H400 : rc = 400 -> req = out).
  { intros ->. unfold parse_http_request in H.
    destruct (len raw =? 0); [now injection H as <-|].
    destruct (_ || _); [now injection H as <-|].
    destruct (sscanf_request _) as [[[parts m] t] v].
    repeat match type of H with
    | (if ?b then _ else _) = _ => destruct b
    | (_, _) = (_, _) => congruence
    end. }
  destruct (Z.eq_dec rc 400) as [E|E]; [left; auto|right].
  destruct (parse_accepted_target raw out rc req H E) as (Hhd & Hlen & Hctl & Hm).
  split; [exact Hm|]. split; [exact Hhd|].
  split; [unfold PATH_MAX in Hlen; lia|]. split; [|exact Hctl].
  unfold parse_http_request in H.
  destruct (len raw =? 0); [injection H as <- _; contradiction|].
  destruct (_ || _); [injection H as <- _; contradiction|].
  set (line := c_str _) in H. unfold sscanf_request in H.
  destruct (scan_s 15 line) as [[m r1]|] eqn:S1;
    [|cbn in H; injection H as <- _; contradiction].
  destruct (scan_s 4095 r1) as [[t r2]|] eqn:S2;
    [|cbn in H; injection H as <- _; contradiction].
  apply scan_s_sound in S1 as (_ & _ & _ & Hr1).
  apply scan_s_sound in S2 as (Hsp & _ & Hin & _).
  assert (Htok : is_token t = true).
  { unfold is_token. apply negb_true_iff.
    apply not_true_iff_false. intros Hex.
    apply existsb_exists in Hex as (c & Hc & Hbad).
    apply orb_true_iff in Hbad as [Hbad|Hbad].
    - assert (existsb isspace t = true)
        by (apply existsb_exists; exists c; auto). congruence.
    - apply Ascii.eqb_eq in Hbad. subst c.
      apply (c_str_no_nul (firstn (Z.to_nat (find_request_line_end raw)) raw)).
      apply Hr1, Hin, Hc. }
  assert (Hsaved : is_token (firstn (Z.to_nat (PATH_MAX - 1)) t) = true).
  { unfold is_token in *. apply negb_true_iff. apply negb_true_iff in Htok.
    now apply existsb_firstn_false. }
  destruct (scan_s 15 r2) as [[v r3]|];
    [|cbn in H; injection H as <- _; contradiction].
  repeat match type of H with
  | (if ?b then _ else _) = _ => destruct b
  | (_, _) = (_, _) =>
      injection H as H1 H2; subst; try contradiction; cbn [target]; auto
  end.
Qed.

(** ** The MIME type is a function of the extension *)

Lemma strrchr_none (s : bytes) (c : ascii) :
  strchr s c = false -> strrchr s c = None.
Proof.
  unfold strchr. induction s as [|x s IH]; intros H; [reflexivity|].
  cbn [existsb strrchr] in *. apply orb_false_iff in H as [Hx Hs].
  rewrite (IH Hs), Ascii.eqb_sym, Hx. reflexivity.
Qed.

Lemma strrchr_last (p e : bytes) (c : ascii) :
  strchr e c = false -> strrchr (p ++ c :: e) c = Some (c :: e).
Proof.
  intros H. induction p as [|x p IH].
  - cbn [app strrchr]. rewrite (strrchr_none e c H), Ascii.eqb_refl. reflexivity.
  - cbn [app strrchr]. rewrite IH. reflexivity.
Qed.

Lemma tolower_dot (x : ascii) :
  Ascii.eqb (tolower x) "."%char = Ascii.eqb x "."%char.
Proof.
  destruct x as [[] [] [] [] [] [] [] []]; vm_compute; reflexivity.
Qed.

Lemma strrchr_tolower (p : bytes) :
  strrchr (map tolower p) "."%char
  = option_map (map tolower) (strrchr p "."%char).
Proof.
  induction p as [|x p IH]; [reflexivity|].
  cbn [map strrchr]. rewrite IH.
  destruct (strrchr p "."%char) as [r|]; [reflexivity|].
  cbn [option_map]. rewrite tolower_dot.
  destruct (Ascii.eqb x "."%char); reflexivity.
Qed.

(** X7.  The MIME type depends on the text from the last dot of the path on,
    whatever the case of its letters; a path without a dot is
    [application/octet-stream]. *)
Theorem guess_mime_type_extension :
  (forall (p : bytes),
     strchr p "."%char = false ->
     guess_mime_type p = lit "application/octet-stream") /\
  (forall (p e : bytes),
     strchr e "."%char = false ->
     guess_mime_type (p ++ "."%char :: e) = guess_mime_type ("."%char :: e)) /\
  (forall (p q : bytes),
     map tolower p = map tolower q ->
     guess_mime_type p = guess_mime_type q).
Proof.
  split; [|split].
  - intros p H. unfold guess_mime_type. now rewrite strrchr_none.
  - intros p e H. unfold guess_mime_type.
    rewrite strrchr_last by exact H.
    pose proof (strrchr_last [] e "."%char H) as H0. cbn [app] in H0.
    rewrite H0. reflexivity.
  - intros p q H.
    pose proof (strrchr_tolower p) as Hp. pose proof (strrchr_tolower q) as Hq.
    rewrite H, Hq in Hp. unfold guess_mime_type.
    destruct (strrchr p "."%char) as [dp|], (strrchr q "."%char) as [dq|];
      try discriminate; [|reflexivity].
    injection Hp as Hd. unfold strcaseeq. rewrite Hd. reflexivity.
Qed.

Lemma guess_mime_type_extension_witness :
  guess_mime_type (lit "/srv/www/README") = lit "application/octet-stream" /\
  guess_mime_type (lit "/srv/www/a.b/c.PNG") = guess_mime_type (lit ".PNG") /\
  guess_mime_type (lit "/srv/www/Logo.PNG") = guess_mime_type (lit "/srv/www/logo.png").
Proof.
  split; [|split].
  - apply (proj1 guess_mime_type_extension). reflexivity.
  - apply (proj1 (proj2 guess_mime_type_extension) (lit "/srv/www/a.b/c")
             (lit "PNG")). reflexivity.
  - apply (proj2 (proj2 guess_mime_type_extension)). reflexivity.
Defined.

(** ** The width of the date *)

Lemma digits_rev_S (f : nat) (n : Z) :
  digits_rev (S f) n =
  let d := ascii_of_nat (48 + Z.to_nat (n mod 10)) in
  if n <? 10 then [d] else d :: digits_rev f (n / 10).
Proof. reflexivity. Qed.

Lemma dec_width_1 (z : Z) : 0 <= z < 10 -> length (dec z) = 1%nat.
Proof.
  intros H. unfold dec.
  replace (z <? 0) with false by (symmetry; apply Z.ltb_ge; lia).
  rewrite digits_rev_S. cbv zeta.
  replace (z <? 10) with true by (symmetry; apply Z.ltb_lt; lia). reflexivity.
Qed.

Lemma div10_bounds (z lo hi : Z) :
  10 * lo <= z < 10 * hi -> lo <= z / 10 < hi.
Proof.
  intros H. split.
  - apply Z.div_le_lower_bound; lia.
  - apply Z.div_lt_upper_bound; lia.
Qed.

Lemma dec_width_2 (z : Z) : 10 <= z < 100 -> length (dec z) = 2%nat.
Proof.
  intros H. unfold dec.
  replace (z <? 0) with false by (symmetry; apply Z.ltb_ge; lia).
  rewrite length_rev, !digits_rev_S. cbv zeta.
  pose proof (div10_bounds z 1 10 ltac:(lia)).
  replace (z <? 10) with false by (symmetry; apply Z.ltb_ge; lia).
  replace (z / 10 <? 10) with true by (symmetry; apply Z.ltb_lt; lia).
  reflexivity.
Qed.

Lemma dec_width_4 (z : Z) : 1000 <= z < 10000 -> length (dec z) = 4%nat.
Proof.
  intros H. unfold dec.
  replace (z <? 0) with false by (symmetry; apply Z.ltb_ge; lia).
  rewrite length_rev, !digits_rev_S. cbv zeta.
  pose proof (div10_bounds z 100 1000 ltac:(lia)).
  pose proof (div10_bounds (z / 10) 10 100 ltac:(lia)).
  pose proof (div10_bounds (z / 10 / 10) 1 10 ltac:(lia)).
  replace (z <? 10) with false by (symmetry; apply Z.ltb_ge; lia).
  replace (z / 10 <? 10) with false by (symmetry; apply Z.ltb_ge; lia).
  replace (z / 10 / 10 <? 10) with false by (symmetry; apply Z.ltb_ge; lia).
  replace (z / 10 / 10 / 10 <? 10) with true by (symmetry; apply Z.ltb_lt; lia).
  reflexivity.
Qed.

Lemma dec2_width (z : Z) : 0 <= z < 100 -> length (dec2 z) = 2%nat.
Proof.
  intros H. unfold dec2. destruct (Z.ltb_spec z 10).
  - replace (0 <=? z) with true by (symmetry; apply Z.leb_le; lia).
    cbn [andb length]. rewrite dec_width_1 by lia. reflexivity.
  - rewrite andb_false_r. apply dec_width_2. lia.
Qed.

Lemma name_of_width (names : list string) (i : Z) :
  Forall (fun s => length (lit s) = 3%nat) names ->
  0 <= i < Z.of_nat (length names) ->
  length (name_of names i) = 3%nat.
Proof.
  intros H Hi. unfold name_of.
  replace ((0 <=? i) && (i <? Z.of_nat (length names))) with true.
  - rewrite Forall_forall in H. apply H, nth_In. lia.
  - symmetry. apply andb_true_iff. split; [apply Z.leb_le|apply Z.ltb_lt]; lia.
Qed.

(** X8.  The date text always fits the 128-byte array [date] of
    [build_response_headers], and for every broken-down time whose fields
    are in their ranges, in a year from 1000 to 9999, it has the 29 bytes of
    the fixed-width HTTP date. *)
Theorem format_http_date_width (gm : tm_t) :
  len (format_http_date gm) < 128 /\
  (0 <= tm_wday gm <= 6 -> 1 <= tm_mday gm <= 31 -> 0 <= tm_mon gm <= 11 ->
   1000 <= tm_year gm + 1900 <= 9999 ->
   0 <= tm_hour gm <= 23 -> 0 <= tm_min gm <= 59 -> 0 <= tm_sec gm <= 60 ->
   len (format_http_date gm) = 29).
Proof.
  split.
  - pose proof (format_http_date_length gm). unfold len. lia.
  - intros Hw Hd Hm Hy Hh Hmi Hs. unfold len, format_http_date.
    repeat rewrite length_app.
    rewrite !dec2_width by lia. rewrite dec_width_4 by lia.
    rewrite !name_of_width;
      try (repeat (constructor; [reflexivity|]); constructor);
      try (cbn [length]; lia).
Qed.

Lemma format_http_date_width_witness :
  len (format_http_date sample_time) = 29.
Proof.
  apply (proj2 (format_http_date_width sample_time)); cbn; lia.
Defined.

(** ** The header block ends at its first empty line *)

Lemma existsb_false_forall {A : Type} (f : A -> bool) (l : list A) :
  existsb f l = false <-> forall x, In x l -> f x = false.
Proof.
  split.
  - intros H x Hx. destruct (f x) eqn:E; [|reflexivity].
    assert (existsb f l = true) by (apply existsb_exists; eauto). congruence.
  - intros H. apply not_true_iff_false. intros Hex.
    apply existsb_exists in Hex as (x & Hx & Hfx). rewrite (H x Hx) in Hfx.
    discriminate.
Qed.

Lemma digits_rev_isdigit (fuel : nat) :
  forall (n : Z), forallb isdigit (digits_rev fuel n) = true.
Proof.
  induction fuel as [|f IH]; intros n; [reflexivity|].
  rewrite digits_rev_S. cbv zeta.
  destruct (digit_char (n mod 10)) as [Hd _]; [apply Z.mod_pos_bound; lia|].
  destruct (n <? 10); cbn [forallb]; rewrite Hd; [reflexivity|apply IH].
Qed.

Lemma isdigit_not_cr (c : ascii) : isdigit c = true -> Ascii.eqb CR c = false.
Proof.
  intros H. apply Ascii.eqb_neq. intros <-. discriminate.
Qed.

Lemma dec_no_cr (z : Z) : existsb (Ascii.eqb CR) (dec z) = false.
Proof.
  assert (H : forall n, existsb (Ascii.eqb CR) (rev (digits_rev 20 n)) = false).
  { intros n. apply existsb_false_forall. intros x Hx. apply in_rev in Hx.
    pose proof (digits_rev_isdigit 20 n) as Hall.
    rewrite forallb_forall in Hall. apply isdigit_not_cr, Hall, Hx. }
  unfold dec. destruct (z <? 0); [cbn [existsb]; rewrite H; reflexivity|apply H].
Qed.

Lemma dec2_no_cr (z : Z) : existsb (Ascii.eqb CR) (dec2 z) = false.
Proof.
  unfold dec2. destruct (_ && _); [cbn [existsb]|]; rewrite dec_no_cr; reflexivity.
Qed.

Lemma name_of_no_cr (names : list string) (i : Z) :
  Forall (fun s => existsb (Ascii.eqb CR) (lit s) = false) names ->
  existsb (Ascii.eqb CR) (name_of names i) = false.
Proof.
  intros H. unfold name_of.
  destruct ((0 <=? i) && (i <? Z.of_nat (length names))) eqn:E; [|reflexivity].
  apply andb_prop in E as [E1 E2]. apply Z.leb_le in E1. apply Z.ltb_lt in E2.
  rewrite Forall_forall in H. apply H, nth_In. lia.
Qed.

Lemma format_http_date_no_cr (gm : tm_t) :
  existsb (Ascii.eqb CR) (format_http_date gm) = false.
Proof.
  unfold format_http_date. rewrite !existsb_app.
  rewrite !dec2_no_cr, dec_no_cr.
  rewrite !name_of_no_cr
    by (repeat (constructor; [reflexivity|]); constructor).
  reflexivity.
Qed.

Lemma http_reason_phrase_no_cr (status : Z) :
  existsb (Ascii.eqb CR) (http_reason_phrase status) = false.
Proof.
  unfold http_reason_phrase.
  repeat match goal with |- context [if ?b then _ else _] => destruct b end;
    reflexivity.
Qed.

Lemma guess_mime_type_no_cr (path : bytes) :
  existsb (Ascii.eqb CR) (guess_mime_type path) = false.
Proof.
  unfold guess_mime_type. destruct (strrchr path "."%char); [|reflexivity].
  repeat match goal with |- context [if ?b then _ else _] => destruct b end;
    reflexivity.
Qed.

Lemma strstr_cons (x : ascii) (hay needle : bytes) :
  strstr (x :: hay) needle = is_prefix needle (x :: hay) || strstr hay needle.
Proof. reflexivity. Qed.

Lemma strstr_skip_piece (l rest : bytes) :
  existsb (Ascii.eqb CR) l = false ->
  strstr (l ++ rest) (CRLF ++ CRLF) = strstr rest (CRLF ++ CRLF).
Proof.
  induction l as [|x l IH]; intros H; [reflexivity|].
  cbn [existsb] in H. apply orb_false_iff in H as [Hx Hl].
  cbn [app]. rewrite strstr_cons. rewrite (IH Hl).
  unfold CRLF at 1. cbn [app is_prefix]. rewrite Hx. reflexivity.
Qed.

Lemma strstr_skip_line_end (rest : bytes) :
  match rest with [] => True | c :: _ => Ascii.eqb CR c = false end ->
  strstr (CRLF ++ rest) (CRLF ++ CRLF) = strstr rest (CRLF ++ CRLF).
Proof.
  intros H. unfold CRLF at 1. cbn [app]. rewrite !strstr_cons.
  change (is_prefix (CRLF ++ CRLF) (LF :: rest)) with false.
  unfold CRLF at 1 2. cbn [app is_prefix].
  change (Ascii.eqb CR CR) with true. change (Ascii.eqb LF LF) with true.
  cbn [andb orb].
  destruct rest as [|c rest]; [reflexivity|]. rewrite H. reflexivity.
Qed.

(** The header block without the LF that ends it. *)
Lemma header_text_but_last (date : bytes) (status : Z) (ct : bytes) (cl : Z)
    (allow : bool) :
  existsb (Ascii.eqb CR) date = false ->
  existsb (Ascii.eqb CR) ct = false ->
  exists body,
    header_text date status ct cl allow = body ++ [CR; LF] /\
    strstr (body ++ [CR]) (CRLF ++ CRLF) = false /\
    strstr (body ++ [CR; LF]) (CRLF ++ CRLF) = true.
Proof.
  intros Hdate Hct.
  exists (lit "HTTP/1.1 " ++ dec status ++ lit " "
            ++ http_reason_phrase status ++ CRLF
          ++ lit "Date: " ++ date ++ CRLF
          ++ lit "Server: comp4981-httpd/1.0" ++ CRLF
          ++ lit "Connection: close" ++ CRLF
          ++ lit "Content-Type: " ++ ct ++ CRLF
          ++ lit "Content-Length: " ++ dec cl ++ CRLF
          ++ (if allow then lit "Allow: GET, HEAD" ++ CRLF else [])).
  assert (Hskip : forall tail,
            strstr ((lit "HTTP/1.1 " ++ dec status ++ lit " "
                       ++ http_reason_phrase status ++ CRLF
                     ++ lit "Date: " ++ date ++ CRLF
                     ++ lit "Server: comp4981-httpd/1.0" ++ CRLF
                     ++ lit "Connection: close" ++ CRLF
                     ++ lit "Content-Type: " ++ ct ++ CRLF
                     ++ lit "Content-Length: " ++ dec cl ++ CRLF
                     ++ (if allow then lit "Allow: GET, HEAD" ++ CRLF else []))
                    ++ tail) (CRLF ++ CRLF)
            = strstr (CRLF ++ tail) (CRLF ++ CRLF)).
  { intros tail. rewrite <- !app_assoc.
    rewrite (strstr_skip_piece (lit "HTTP/1.1 ")) by reflexivity.
    rewrite (strstr_skip_piece (dec status)) by apply dec_no_cr.
    rewrite (strstr_skip_piece (lit " ")) by reflexivity.
    rewrite (strstr_skip_piece (http_reason_phrase status))
      by apply http_reason_phrase_no_cr.
    rewrite strstr_skip_line_end by reflexivity.
    rewrite (strstr_skip_piece (lit "Date: ")) by reflexivity.
    rewrite (strstr_skip_piece date) by exact Hdate.
    rewrite strstr_skip_line_end by reflexivity.
    rewrite (strstr_skip_piece (lit "Server: comp4981-httpd/1.0")) by reflexivity.
    rewrite strstr_skip_line_end by reflexivity.
    rewrite (strstr_skip_piece (lit "Connection: close")) by reflexivity.
    rewrite strstr_skip_line_end by reflexivity.
    rewrite (strstr_skip_piece (lit "Content-Type: ")) by reflexivity.
    rewrite (strstr_skip_piece ct) by exact Hct.
    rewrite strstr_skip_line_end by reflexivity.
    rewrite (strstr_skip_piece (lit "Content-Length: ")) by reflexivity.
    rewrite (strstr_skip_piece (dec cl)) by apply dec_no_cr.
    destruct allow; [|reflexivity].
    rewrite strstr_skip_line_end by reflexivity.
    rewrite <- !app_assoc.
    rewrite (strstr_skip_piece (lit "Allow: GET, HEAD")) by reflexivity.
    reflexivity. }
  split; [|split].
  - unfold header_text. rewrite <- !app_assoc. reflexivity.
  - rewrite Hskip. reflexivity.
  - rewrite Hskip. reflexivity.
Qed.

(** X9.  In a header block that [build_response_headers] has written in
    full, the first empty line is the one that ends the block: the server's
    own test for the end of a header finds it in the [n] bytes written and
    not in the first [n - 1].  This holds for every block that
    [prepare_response] stages. *)
Theorem header_block_ends_at_blank_line :
  (forall (dst : bytes) (cap : Z) (gm : tm_t) (status : Z) (ct : bytes)
          (cl : Z) (allow : bool) (n : Z) (dst' : bytes),
     existsb (Ascii.eqb CR) ct = false ->
     build_response_headers dst cap gm status ct cl allow = (n, dst') ->
     0 <= n ->
     has_header_end dst' n = true /\ has_header_end dst' (n - 1) = false) /\
  (forall (fs : filesys) (cfg : server_config_t) (c : client_t) (w : world)
          (r : Z) (c' : client_t) (w' : world),
     prepare_response fs cfg c w = Some (r, c', w') ->
     has_header_end (hdr_buf c') (hdr_len c') = true /\
     has_header_end (hdr_buf c') (hdr_len c' - 1) = false).
Proof.
  assert (Hgen : forall dst cap gm status ct cl allow n dst',
            existsb (Ascii.eqb CR) ct = false ->
            build_response_headers dst cap gm status ct cl allow = (n, dst') ->
            0 <= n ->
            has_header_end dst' n = true /\ has_header_end dst' (n - 1) = false).
  { intros dst cap gm status ct cl allow n dst' Hct H Hn.
    unfold build_response_headers in H. cbv zeta in H.
    set (text := header_text (format_http_date gm) status ct cl allow) in *.
    destruct ((snprintf_ret text <? 0) || (snprintf_ret text >=? cap)) eqn:E;
      [injection H as <- _; lia|].
    injection H as <- <-.
    apply orb_false_iff in E as [E1 E2]. apply Z.ltb_ge in E1.
    rewrite Z.geb_leb in E2. apply Z.leb_gt in E2.
    assert (Hret : snprintf_ret text = len text).
    { unfold snprintf_ret in *. destruct (INT_MAX <? len text); [lia|reflexivity]. }
    rewrite Hret in *.
    destruct (header_text_but_last (format_http_date gm) status ct cl allow
                (format_http_date_no_cr gm) Hct) as (body & Hbody & Hno & Hyes).
    fold text in Hbody.
    assert (Hlen : len text = len body + 2).
    { rewrite Hbody, len_app. reflexivity. }
    assert (Hlong : 9 <= len text).
    { unfold text, header_text. rewrite len_app.
      match goal with |- _ <= _ + len ?x => pose proof (len_nonneg x) end.
      change (len (lit "HTTP/1.1 ")) with 9. lia. }
    rewrite snprintf_buf_fits by lia.
    unfold has_header_end.
    replace (len text <? 4) with false by (symmetry; apply Z.ltb_ge; lia).
    replace (len text - 1 <? 4) with false by (symmetry; apply Z.ltb_ge; lia).
    split.
    - unfold len at 1. rewrite Nat2Z.id, firstn_app, Nat.sub_diag, firstn_all.
      cbn [firstn]. rewrite app_nil_r, Hbody. exact Hyes.
    - rewrite firstn_app.
      replace (Z.to_nat (len text - 1) - length text)%nat with 0%nat
        by (unfold len; lia).
      cbn [firstn]. rewrite app_nil_r, Hbody, firstn_app.
      replace (Z.to_nat (len (body ++ [CR; LF]) - 1) - length body)%nat
        with 1%nat by (rewrite len_app; unfold len; cbn [length]; lia).
      rewrite firstn_all2 by (rewrite len_app; unfold len; cbn [length]; lia).
      exact Hno. }
  split; [exact Hgen|].
  intros fs cfg c w r c' w' H.
  apply prepare_response_outcome in H
    as [(c1 & status & ih & allow & -> & _)|(req & p & st & ih & ffd & _ & _ & -> & _)].
  - unfold error_response. cbn [hdr_buf hdr_len]. cbv zeta.
    destruct (build_response_headers_fits (hdr_buf c1) (clock w) status
                (lit "text/html; charset=utf-8") (len (error_page status)) allow)
      as [Hb Hl]; [simpl; lia|].
    eapply Hgen; [|exact Hb|lia]. reflexivity.
  - unfold file_response. cbn [hdr_buf hdr_len]. cbv zeta.
    destruct (build_response_headers_fits (hdr_buf c) (clock w) 200
                (guess_mime_type p) (st_size st) false
                (guess_mime_type_length p)) as [Hb Hl].
    eapply Hgen; [|exact Hb|lia]. apply guess_mime_type_no_cr.
Qed.

Lemma header_block_ends_at_blank_line_witness :
  has_header_end (hdr_buf sample_head_prepared) (hdr_len sample_head_prepared)
  = true /\
  has_header_end (hdr_buf sample_head_prepared)
    (hdr_len sample_head_prepared - 1) = false.
Proof.
  assert (Hrun : prepare_response sample_fs sample_cfg sample_head_slot sample_idle
                 = Some (0, sample_head_prepared, sample_idle)).
  { vm_compute. reflexivity. }
  exact (proj2 header_block_ends_at_blank_line _ _ _ _ _ _ _ Hrun).
Defined.

(** ** Lifting an invariant of the slots to the event loop *)

Section Lifting.

Variables (fs : filesys) (cfg : server_config_t).
Variable I : pollfd -> client_t -> Prop.

Hypothesis I_service :
  forall p c w p' c' w',
  I p c -> service_client fs cfg p c w = Some (p', c', w') -> I p' c'.
Hypothesis I_claim :
  forall cfd, 0 <= cfd -> I (mk_pollfd cfd POLLIN 0) (claimed_client cfd).
Hypothesis I_poll :
  forall p c r,
  I p c -> I (mk_pollfd (pfd_fd p) (events p) (if pfd_fd p <? 0 then 0 else r)) c.

Lemma service_clients_lift (pfds : list pollfd) :
  forall clients w pfds' clients' w',
  Forall2 I pfds clients ->
  service_clients fs cfg pfds clients w = Some (pfds', clients', w') ->
  Forall2 I pfds' clients'.
Proof.
  induction pfds as [|p ps IH]; intros clients w pfds' clients' w' Hall H.
  - simpl in H. injection H as <- <- <-. exact Hall.
  - destruct clients as [|c cs]; [inversion Hall|]. simpl in H.
    inversion Hall as [|? ? ? ? Hc Hcs]; subst.
    destruct (service_client fs cfg p c w) as [[[p1 c1] w1]|] eqn:E1;
      [|discriminate].
    destruct (service_clients fs cfg ps cs w1) as [[[ps2 cs2] w2]|] eqn:E2;
      [|discriminate].
    injection H as <- <- <-. constructor; eauto.
Qed.

Lemma add_client_from_lift (pfds : list pollfd) :
  forall clients cfd pfds' clients',
  0 <= cfd ->
  Forall2 I pfds clients ->
  add_client_from pfds clients cfd = Some (pfds', clients') ->
  Forall2 I pfds' clients'.
Proof.
  induction pfds as [|p ps IH]; intros clients cfd pfds' clients' Hfd Hall H;
    [discriminate|].
  destruct clients as [|c cs]; [discriminate|]. simpl in H.
  inversion Hall as [|? ? ? ? Hc Hcs]; subst.
  destruct (negb (active c)).
  - injection H as <- <-. constructor; auto.
  - destruct (add_client_from ps cs cfd) as [[ps' cs']|] eqn:E; [|discriminate].
    injection H as <- <-. constructor; eauto.
Qed.

Lemma add_client_to_slot_lift (pfds : list pollfd) (clients : list client_t)
    (cfd : Z) :
  0 <= cfd ->
  Forall2 I (tl pfds) (tl clients) ->
  let '(_, pfds', clients') := add_client_to_slot pfds clients cfd in
  Forall2 I (tl pfds') (tl clients').
Proof.
  intros Hfd Hall. unfold add_client_to_slot.
  destruct pfds as [|p0 ps]; [exact Hall|].
  destruct clients as [|c0 cs]; [exact Hall|].
  destruct (add_client_from ps cs cfd) as [[ps' cs']|] eqn:E; [|exact Hall].
  cbn [tl] in *. eapply add_client_from_lift; eassumption.
Qed.

Lemma accept_loop_lift (fuel : nat) :
  forall pfds clients w pfds' clients' w',
  Forall2 I (tl pfds) (tl clients) ->
  accept_loop fuel pfds clients w = Some (pfds', clients', w') ->
  Forall2 I (tl pfds') (tl clients').
Proof.
  induction fuel as [|fuel IH]; intros pfds clients w pfds' clients' w' Hall H;
    [discriminate|].
  simpl in H.
  destruct (script w) as [|[bs|k| |cfd|revs|e] rest]; try discriminate.
  - destruct rest as [|[bs|k| |n|revs|e] rest]; try discriminate.
    + destruct (cfd <? 0) eqn:Efd; [discriminate|]. apply Z.ltb_ge in Efd.
      pose proof (add_client_to_slot_lift pfds clients cfd Efd Hall) as Hadd.
      destruct (add_client_to_slot pfds clients cfd) as [[r ps1] cs1].
      destruct (negb (r =? 0)); eapply IH; eassumption.
    + destruct (cfd <? 0); [discriminate|]. eapply IH; eassumption.
  - injection H as <- <- <-. exact Hall.
Qed.

Lemma poll_fill_lift (pfds : list pollfd) :
  forall clients revs,
  Forall2 I pfds clients -> Forall2 I (poll_fill pfds revs) clients.
Proof.
  induction pfds as [|p ps IH]; intros clients revs Hall;
    inversion Hall as [|? ? ? ? Hc Hcs]; subst; cbn [poll_fill];
    constructor; auto.
Qed.

Lemma tl_poll_fill (pfds : list pollfd) (revs : list Z) :
  tl (poll_fill pfds revs) = poll_fill (tl pfds) (tl revs).
Proof. destruct pfds; reflexivity. Qed.

Lemma loop_iteration_lift (pfds : list pollfd) (clients : list client_t)
    (w : world) (go : bool) (pfds' : list pollfd) (clients' : list client_t)
    (w' : world) :
  Forall2 I (tl pfds) (tl clients) ->
  loop_iteration fs cfg pfds clients w = Some (go, pfds', clients', w') ->
  Forall2 I (tl pfds') (tl clients').
Proof.
  intros Hall H. unfold loop_iteration in H.
  destruct (script w) as [|[bs|k| |n|revs|e] rest]; try discriminate.
  - assert (Hfill : Forall2 I (tl (poll_fill pfds revs)) (tl clients)).
    { rewrite tl_poll_fill. now apply poll_fill_lift. }
    destruct (poll_count _ =? 0); [injection H as <- <- <- <-; exact Hfill|].
    match type of H with
    | context [if ?b then accept_new_clients ?p ?c ?w0 else _] =>
        assert (Hacc : forall ps cs w1,
                  (if b then accept_new_clients p c w0 else Some (p, c, w0))
                  = Some (ps, cs, w1) -> Forall2 I (tl ps) (tl cs));
          [intros ps cs w1 Ha; destruct b;
             [eapply accept_loop_lift; [exact Hfill|exact Ha]
             |injection Ha as <- <- <-; exact Hfill]|];
        destruct (if b then accept_new_clients p c w0 else Some (p, c, w0))
          as [[[ps cs] w1]|] eqn:E; [|discriminate]
    end.
    specialize (Hacc _ _ _ eq_refl).
    destruct ps as [|p0 ps]; [injection H as <- <- <- <-; exact Hacc|].
    destruct cs as [|c0 cs]; [injection H as <- <- <- <-; exact Hacc|].
    cbn [tl] in Hacc.
    destruct (service_clients fs cfg ps cs w1) as [[[ps2 cs2] w2]|] eqn:E2;
      [|discriminate].
    injection H as <- <- <- <-. cbn [tl].
    eapply service_clients_lift; eassumption.
  - destruct e; injection H as <- <- <- <-; exact Hall.
Qed.

Lemma event_loop_lift (n : nat) :
  forall pfds clients w pfds' clients' w',
  Forall2 I (tl pfds) (tl clients) ->
  event_loop n fs cfg pfds clients w = Some (pfds', clients', w') ->
  Forall2 I (tl pfds') (tl clients').
Proof.
  induction n as [|n IH]; intros pfds clients w pfds' clients' w' Hall H;
    simpl in H.
  - injection H as <- <- <-. exact Hall.
  - destruct (loop_iteration fs cfg pfds clients w) as [[[[go ps] cs] w1]|] eqn:E;
      [|discriminate].
    pose proof (loop_iteration_lift _ _ _ _ _ _ _ Hall E) as Hall1.
    destruct go; [eapply IH; eassumption|].
    injection H as <- <- <-. exact Hall1.
Qed.

Lemma initial_tables_lift (listen_fd : Z) :
  I (mk_pollfd (-1) 0 0) reset_client ->
  Forall2 I (tl (initial_pfds listen_fd)) (tl initial_clients).
Proof.
  intros H. unfold initial_pfds, initial_clients. cbn [tl].
  replace (Z.to_nat (MAX_CLIENTS + 1)) with (S (Z.to_nat MAX_CLIENTS))
    by (unfold MAX_CLIENTS; lia).
  cbn [repeat tl]. induction (Z.to_nat MAX_CLIENTS) as [|n IH];
    cbn [repeat]; constructor; auto.
Qed.

End Lifting.

(** ** What the calls of the write path leave alone *)

Lemma is_io_quiet (evs : list event) :
  Forall is_io evs ->
  closed evs = [] /\ opened evs = [] /\ forall s, recv_on s evs = [].
Proof.
  induction 1 as [|e evs He _ (IH1 & IH2 & IH3)]; [repeat split|].
  destruct e; try contradiction; cbn; auto.
Qed.

Ltac frame_done :=
  rewrite ?app_nil_r; repeat split; auto; try constructor; auto.

Lemma send_loop_frame (s : Z) (buf : bytes) (n : Z) (scr : list answer) :
  forall (tr : list event) (sent r sent' : Z) (scr' : list answer)
         (tr' : list event),
  send_loop s buf n scr tr sent = Some (r, sent', scr', tr') ->
  exists used evs,
    scr = used ++ scr' /\ tr' = tr ++ evs /\
    handed used = [] /\ Forall is_io evs.
Proof.
  induction scr as [|a scr IH]; intros tr sent r sent' scr' tr' H.
  - simpl in H. destruct (sent <? n); [discriminate|].
    injection H as <- <- <- <-. exists [], []. frame_done.
  - simpl in H. destruct (sent <? n).
    + destruct a as [bs|k| |fd0|revs|e]; try discriminate.
      * destruct (0 <? send_count k (n - sent)).
        -- apply IH in H as (used & evs & -> & -> & Hu & He).
           exists (Count k :: used),
                  (EvSend s (slice buf sent (send_count k (n - sent))) :: evs).
           rewrite <- app_assoc. frame_done. exact I.
        -- injection H as <- <- <- <-. exists [Count k], []. frame_done.
      * exists [Err e], [].
        destruct (would_block e); injection H as <- <- <- <-; frame_done.
    + injection H as <- <- <- <-. exists [], []. frame_done.
Qed.

Lemma send_buffer_frame (s : Z) (buf : bytes) (n sent : Z) (w : world)
    (r sent' : Z) (w' : world) :
  send_buffer s buf n sent w = Some (r, sent', w') ->
  exists used evs, advances w w' used evs /\ handed used = [] /\ Forall is_io evs.
Proof.
  unfold send_buffer. intros H.
  destruct (send_loop s buf n (script w) (trace w) sent)
    as [[[[r0 s0] scr0] tr0]|] eqn:E; [|discriminate].
  injection H as <- <- <-.
  apply send_loop_frame in E as (used & evs & Hs & Ht & Hu & He).
  exists used, evs. unfold advances. cbn [script trace clock]. auto.
Qed.

Lemma buf_write_len (dst : bytes) (off : Z) (src : bytes) :
  0 <= off -> off + len src <= len dst ->
  len (buf_write dst off src) = len dst.
Proof.
  intros Hoff Hfit. unfold buf_write, len in *.
  rewrite !length_app, length_firstn, length_skipn. lia.
Qed.

Lemma len_firstn_le (n : nat) (s : bytes) :
  len (firstn n s) <= Z.of_nat n /\ len (firstn n s) <= len s.
Proof. unfold len. rewrite length_firstn. lia. Qed.

Lemma flush_loop_frame (cfg : server_config_t) (scr : list answer) :
  forall (tr : list event) (c : client_t) (r : Z) (c' : client_t)
         (scr' : list answer) (tr' : list event),
  flush_loop scr tr c = Some (r, c', scr', tr') ->
  static_part c' = static_part c /\
  (arrays_inv cfg c -> arrays_inv cfg c') /\
  exists used evs,
    scr = used ++ scr' /\ tr' = tr ++ evs /\
    handed used = [] /\ Forall is_io evs.
Proof.
  induction scr as [|a scr IH]; intros tr c r c' scr' tr' H; [discriminate|].
  rewrite flush_loop_cons in H. cbv zeta in H.
  destruct ((chunk_len c =? 0) || (chunk_sent c =? chunk_len c)).
  - destruct a as [bs|k| |fd0|revs|e]; try discriminate.
    + destruct (len (firstn (Z.to_nat FILE_CHUNK) bs) =? 0) eqn:Er.
      * injection H as <- <- <- <-. split; [reflexivity|]. split; [auto|].
        exists [Bytes bs], []. frame_done.
      * apply IH in H as (Hst & Harr & used & evs & -> & -> & Hu & He).
        split; [rewrite Hst; static|]. split.
        -- intros Ha. apply Harr. clear - Ha.
           destruct Ha as (H1 & H2 & H3 & H4 & H5 & H6 & H7 & H8).
           pose proof (len_firstn_le (Z.to_nat FILE_CHUNK) bs) as [Hl _].
           pose proof (len_nonneg (firstn (Z.to_nat FILE_CHUNK) bs)).
           unfold arrays_inv. fields.
           rewrite buf_write_len by (unfold FILE_CHUNK in *; lia).
           repeat split; try assumption; try lia;
             unfold FILE_CHUNK in *; lia.
        -- eexists (Bytes bs :: used), (_ :: evs). rewrite <- app_assoc.
           frame_done. exact I.
    + destruct e;
        try (injection H as <- <- <- <-; split; [reflexivity|]; split; [auto|];
             eexists [Err _], []; frame_done).
      apply IH in H as (Hst & Harr & used & evs & -> & -> & Hu & He).
      split; [exact Hst|]. split; [exact Harr|].
      exists (Err EINTR :: used), evs. frame_done.
  - destruct (chunk_sent c <? chunk_len c); [|discriminate].
    destruct a as [bs|k| |fd0|revs|e]; try discriminate.
    + destruct (0 <? send_count k (chunk_len c - chunk_sent c)).
      * apply IH in H as (Hst & Harr & used & evs & -> & -> & Hu & He).
        split; [rewrite Hst; static|]. split.
        -- intros Ha. apply Harr. exact Ha.
        -- eexists (Count k :: used), (_ :: evs). rewrite <- app_assoc.
           frame_done. exact I.
      * injection H as <- <- <- <-. split; [reflexivity|]. split; [auto|].
        exists [Count k], []. frame_done.
    + split; [destruct (would_block e); injection H as <- <- <- <-; reflexivity|].
      split; [destruct (would_block e); injection H as <- <- <- <-; auto|].
      exists [Err e], [].
      destruct (would_block e); injection H as <- <- <- <-; frame_done.
Qed.

Lemma advances_refl (w : world) : advances w w [] [].
Proof. unfold advances. now rewrite app_nil_r. Qed.

Lemma advances_trans (w1 w2 w3 : world) (u1 u2 : list answer)
    (e1 e2 : list event) :
  advances w1 w2 u1 e1 -> advances w2 w3 u2 e2 ->
  advances w1 w3 (u1 ++ u2) (e1 ++ e2).
Proof.
  intros (H1 & H2 & H3) (H4 & H5 & H6). unfold advances.
  rewrite H1, H4, H5, H2, H6, H3, !app_assoc. auto.
Qed.

Lemma handed_app (a b : list answer) : handed (a ++ b) = handed a ++ handed b.
Proof. apply flat_map_app. Qed.

Lemma write_client_response_frame (cfg : server_config_t) (c : client_t)
    (w : world) (r : Z) (c' : client_t) (w' : world) :
  write_client_response c w = Some (r, c', w') ->
  static_part c' = static_part c /\
  (arrays_inv cfg c -> arrays_inv cfg c') /\
  exists used evs, advances w w' used evs /\ handed used = [] /\ Forall is_io evs.
Proof.
  intros H. unfold write_client_response in H.
  destruct (send_buffer (fd c) (hdr_buf c) (hdr_len c) (hdr_sent c) w)
    as [[[r1 sent1] w1]|] eqn:E1; [|discriminate].
  apply send_buffer_frame in E1 as (u1 & e1 & Hadv1 & Hu1 & He1).
  destruct (r1 <=? 0).
  { injection H as <- <- <-. split; [static|]. split; [auto|]. eauto. }
  destruct (is_head (set_hdr_sent sent1 c)).
  { injection H as <- <- <-. split; [static|]. split; [auto|]. eauto. }
  destruct (0 <? mem_len (set_hdr_sent sent1 c)).
  - fields.
    destruct (send_buffer (fd c) (mem_body c) (mem_len c) (mem_sent c) w1)
      as [[[r2 sent2] w2]|] eqn:E2; [|discriminate].
    apply send_buffer_frame in E2 as (u2 & e2 & Hadv2 & Hu2 & He2).
    injection H as <- <- <-. split; [static|]. split; [auto|].
    exists (u1 ++ u2), (e1 ++ e2). split; [eapply advances_trans; eassumption|].
    rewrite handed_app, Hu1, Hu2. split; [reflexivity|]. now apply Forall_app.
  - unfold flush_file in H.
    destruct (file_fd (set_hdr_sent sent1 c) <? 0).
    { injection H as <- <- <-. split; [static|]. split; [auto|]. eauto. }
    destruct (flush_loop (script w1) (trace w1) (set_hdr_sent sent1 c))
      as [[[[r2 c2] scr2] tr2]|] eqn:E2; [|discriminate].
    injection H as <- <- <-.
    apply (flush_loop_frame cfg) in E2 as (Hst & Harr & u2 & e2 & Hs2 & Ht2 & Hu2 & He2).
    split; [rewrite Hst; static|]. split; [intros Ha; apply Harr; exact Ha|].
    exists (u1 ++ u2), (e1 ++ e2). split.
    + eapply advances_trans; [exact Hadv1|].
      unfold advances. cbn [script trace clock]. auto.
    + rewrite handed_app, Hu1, Hu2. split; [reflexivity|]. now apply Forall_app.
Qed.

(** ** The arrays of a slot *)

Lemma snprintf_buf_len (dst : bytes) (cap : Z) (s : bytes) :
  len dst = cap -> len s < cap -> len (snprintf_buf dst cap s) = cap.
Proof.
  intros Hd Hs. rewrite snprintf_buf_fits by exact Hs.
  unfold len in *. rewrite length_app. cbn [length]. rewrite length_skipn. lia.
Qed.

Lemma arrays_inv_error_response (cfg : server_config_t) (gm : tm_t)
    (c : client_t) (status : Z) (ih allow : bool) :
  arrays_inv cfg c -> arrays_inv cfg (error_response gm c status ih allow).
Proof.
  intros (H1 & H2 & H3 & H4 & H5 & H6 & H7 & H8).
  destruct (build_response_headers_fits (hdr_buf c) gm status
              (lit "text/html; charset=utf-8") (len (error_page status)) allow)
    as [_ Hl]; [simpl; lia|]. cbv zeta in Hl.
  pose proof (error_page_length status) as Hp.
  pose proof (len_nonneg (error_page status)).
  unfold arrays_inv, error_response.
  cbn [req_buf hdr_buf mem_body chunk req_len hdr_len mem_len chunk_len].
  rewrite (snprintf_buf_len (hdr_buf c)) by (try assumption; lia).
  rewrite (snprintf_buf_len (mem_body c))
    by (try assumption; unfold MAX_ERROR_BODY, len in *; lia).
  repeat split; try assumption; try lia;
    unfold MAX_ERROR_BODY, FILE_CHUNK, len in *; lia.
Qed.

Lemma arrays_inv_file_response (cfg : server_config_t) (gm : tm_t)
    (c : client_t) (p : bytes) (st : stat_t) (ih : bool) (ffd : Z) :
  arrays_inv cfg c -> arrays_inv cfg (file_response gm c p st ih ffd).
Proof.
  intros (H1 & H2 & H3 & H4 & H5 & H6 & H7 & H8).
  destruct (build_response_headers_fits (hdr_buf c) gm 200
              (guess_mime_type p) (st_size st) false (guess_mime_type_length p))
    as [_ Hl]. cbv zeta in Hl.
  unfold arrays_inv, file_response.
  cbn [req_buf hdr_buf mem_body chunk req_len hdr_len mem_len chunk_len].
  rewrite (snprintf_buf_len (hdr_buf c)) by (try assumption; lia).
  repeat split; try assumption; try lia;
    unfold MAX_ERROR_BODY, FILE_CHUNK in *; lia.
Qed.

Lemma prepare_response_arrays (fs : filesys) (cfg : server_config_t)
    (c : client_t) (w : world) (r : Z) (c' : client_t) (w' : world) :
  arrays_inv cfg c ->
  prepare_response fs cfg c w = Some (r, c', w') ->
  arrays_inv cfg c' /\ mode c' = MODE_WRITING.
Proof.
  intros Ha. rewrite prepare_response_eq. cbv zeta.
  destruct (parse_http_request _ _) as [rc req].
  repeat match goal with
  | |- Some _ = Some _ -> _ => intros [= <- <- <-]
  | |- None = Some _ -> _ => discriminate
  | |- context [match ?x with _ => _ end] => destruct x
  end;
  (split; [auto using arrays_inv_error_response, arrays_inv_file_response
          |reflexivity]).
Qed.

Lemma recv_room (cfg : server_config_t) (c : client_t) (bs : bytes) :
  max_header_size cfg <= MAX_HEADER_BYTES ->
  arrays_inv cfg c -> req_len c < max_header_size cfg ->
  len (firstn (Z.to_nat (to_size (max_header_size cfg - req_len c))) bs)
  <= max_header_size cfg - req_len c.
Proof.
  intros Hcap (_ & _ & _ & _ & H5 & _) Hroom.
  rewrite to_size_small by (unfold MAX_HEADER_BYTES in *; lia).
  pose proof (len_firstn_le (Z.to_nat (max_header_size cfg - req_len c)) bs)
    as [Hl _].
  lia.
Qed.

Lemma arrays_inv_received (cfg : server_config_t) (c : client_t)
    (data : bytes) :
  max_header_size cfg <= MAX_HEADER_BYTES ->
  arrays_inv cfg c ->
  len data <= max_header_size cfg - req_len c ->
  arrays_inv cfg
    (set_req_buf
       (buf_write (buf_write (req_buf c) (req_len c) data)
          (req_len c + len data) [NUL])
       (set_req_len (req_len c + len data) c)).
Proof.
  intros Hcap (H1 & H2 & H3 & H4 & H5 & H6 & H7 & H8) Hdata.
  pose proof (len_nonneg data).
  unfold arrays_inv, set_req_buf, set_req_len.
  cbn [req_buf hdr_buf mem_body chunk req_len hdr_len mem_len chunk_len].
  assert (Hw1 : len (buf_write (req_buf c) (req_len c) data)
                = len (req_buf c))
    by (apply buf_write_len; unfold MAX_HEADER_BYTES in *; lia).
  rewrite buf_write_len
    by (rewrite ?Hw1; change (len [NUL]) with 1;
        unfold MAX_HEADER_BYTES in *; lia).
  rewrite Hw1. repeat split; try assumption; lia.
Qed.

Lemma recv_loop_arrays (fs : filesys) (cfg : server_config_t) (gm : tm_t)
    (scr : list answer) :
  forall (tr : list event) (c : client_t) (r : Z) (c' : client_t) (w' : world),
  max_header_size cfg <= MAX_HEADER_BYTES ->
  arrays_inv cfg c -> req_len c < max_header_size cfg ->
  recv_loop fs cfg gm scr tr c = Some (r, c', w') ->
  arrays_inv cfg c' /\
  (mode c' = MODE_WRITING \/
   mode c' = mode c /\ req_len c' < max_header_size cfg).
Proof.
  induction scr as [|a scr IH]; intros tr c r c' w' Hcap Ha Hroom H;
    [discriminate|].
  rewrite recv_loop_cons in H. destruct a as [bs|k| |n|revs|e]; try discriminate.
  - cbv zeta in H.
    pose proof (recv_room cfg c bs Hcap Ha Hroom) as Hdata.
    set (data := firstn _ bs) in *.
    destruct (0 <? len data) eqn:Epos;
      [|injection H as <- <- <-; auto].
    pose proof (arrays_inv_received cfg c data Hcap Ha Hdata) as Ha1.
    match type of H with
    | context [make_error_response gm ?x _ _ _] => set (c1 := x) in *
    end.
    destruct (req_len c1 >=? max_header_size cfg) eqn:Efull.
    + rewrite make_error_response_ok in H. injection H as <- <- <-.
      split; [now apply arrays_inv_error_response|left; reflexivity].
    + rewrite Z.geb_leb in Efull. apply Z.leb_gt in Efull.
      destruct (has_header_end _ _).
      * apply (prepare_response_arrays _ _ _ _ _ _ _ Ha1) in H as [H1 H2]. auto.
      * apply IH in H; [exact H|exact Hcap|exact Ha1|exact Efull].
  - destruct (would_block e); injection H as <- <- <-; auto.
Qed.

Lemma arrays_inv_reset (cfg : server_config_t) :
  0 <= max_header_size cfg -> arrays_inv cfg reset_client.
Proof.
  intros H. unfold arrays_inv, reset_client, zeros, len.
  cbn [req_buf hdr_buf mem_body chunk req_len hdr_len mem_len chunk_len].
  rewrite !repeat_length.
  unfold MAX_HEADER_BYTES, MAX_RESP_HEADER, MAX_ERROR_BODY, FILE_CHUNK. lia.
Qed.

Lemma buffers_inv_reset (cfg : server_config_t) :
  0 < max_header_size cfg -> buffers_inv cfg reset_client.
Proof.
  intros H. split; [apply arrays_inv_reset; lia|]. intros _. exact H.
Qed.

Lemma buffers_inv_service (fs : filesys) (cfg : server_config_t) (p : pollfd)
    (c : client_t) (w : world) (p' : pollfd) (c' : client_t) (w' : world) :
  0 < max_header_size cfg <= MAX_HEADER_BYTES ->
  buffers_inv cfg c ->
  service_client fs cfg p c w = Some (p', c', w') -> buffers_inv cfg c'.
Proof.
  intros Hcfg Hinv H. unfold service_client in H.
  destruct (negb (active c)); [injection H as <- <- <-; exact Hinv|].
  destruct (revents p =? 0); [injection H as <- <- <-; exact Hinv|].
  destruct (has_flag (revents p) _);
    [injection H as <- <- <-; apply buffers_inv_reset; lia|].
  destruct (mode_eqb (mode c) MODE_READING && has_flag (revents p) POLLIN) eqn:Eread.
  - apply andb_true_iff in Eread as [Emode _].
    assert (Hmode : mode c = MODE_READING) by (destruct (mode c); [reflexivity|discriminate]).
    destruct (read_client_request fs cfg c w) as [[[r0 c0] w0]|] eqn:E;
      [|discriminate].
    unfold read_client_request in E.
    apply recv_loop_arrays in E; [|lia|apply Hinv|apply Hinv, Hmode].
    assert (Hinv0 : buffers_inv cfg c0).
    { destruct E as [Ha [Hw|[Hm Hr]]]; split; auto.
      intros Hrd. rewrite Hw in Hrd. discriminate. }
    destruct (r0 <? 0); [injection H as <- <- <-; apply buffers_inv_reset; lia|].
    assert (Hwrite : forall (b : bool) p1,
              (if active c0 && b
                  && has_flag (revents p) POLLOUT
               then match write_client_response c0 w0 with
                    | Some (wr, c2, w2) =>
                        if (wr <? 0) || (0 <? wr)
                        then Some (close_client_slot p1 c2 w2)
                        else Some (p1, c2, w2)
                    | None => None
                    end
               else Some (p1, c0, w0)) = Some (p', c', w') ->
              buffers_inv cfg c').
    { intros b p1 Hw.
      destruct (active c0 && b && has_flag (revents p) POLLOUT);
        [|injection Hw as <- <- <-; exact Hinv0].
      destruct (write_client_response c0 w0) as [[[wr c2] w2]|] eqn:E2;
        [|discriminate].
      apply (write_client_response_frame cfg) in E2 as (Hst & Harr & _).
      destruct ((wr <? 0) || (0 <? wr));
        injection Hw as <- <- <-; [apply buffers_inv_reset; lia|].
      unfold static_part in Hst.
      injection Hst as _ _ Hm _ Hrl _ _ _ _ _ _ _.
      split; [apply Harr, Hinv0|]. rewrite Hm, Hrl. apply Hinv0. }
    revert H. destruct (mode_eqb (mode c0) MODE_WRITING); intros H;
      eapply Hwrite; exact H.
  - destruct (active c && mode_eqb (mode c) MODE_WRITING
              && has_flag (revents p) POLLOUT);
      [|injection H as <- <- <-; exact Hinv].
    destruct (write_client_response c w) as [[[wr c2] w2]|] eqn:E2;
      [|discriminate].
    apply (write_client_response_frame cfg) in E2 as (Hst & Harr & _).
    destruct ((wr <? 0) || (0 <? wr));
      injection H as <- <- <-; [apply buffers_inv_reset; lia|].
    unfold static_part in Hst.
    injection Hst as _ _ Hm _ Hrl _ _ _ _ _ _ _.
    split; [apply Harr, Hinv|]. rewrite Hm, Hrl. apply Hinv.
Qed.

Lemma buffers_inv_claimed (cfg : server_config_t) (cfd : Z) :
  0 < max_header_size cfg -> buffers_inv cfg (claimed_client cfd).
Proof. intros H. exact (buffers_inv_reset cfg H). Qed.

Lemma Forall2_right {A B : Type} (P : B -> Prop) (l : list A) (l' : list B) :
  Forall2 (fun _ y => P y) l l' -> Forall P l'.
Proof. induction 1; constructor; auto. Qed.

(** X10.  No array of a client slot is ever written past its end.  With a
    header budget within the hard cap (as [parse_arguments] leaves it), after
    any number of turns of the event loop every slot still has its four
    arrays at their declared sizes, the lengths recorded for them are within
    those sizes, the request length is at most the budget, and a slot that
    is still read into has room for one more byte and the terminating NUL. *)
Theorem buffers_stay_in_bounds (n : nat) (fs : filesys)
    (cfg : server_config_t) (listen_fd : Z) (w : world)
    (pfds' : list pollfd) (clients' : list client_t) (w' : world) :
  0 < max_header_size cfg <= MAX_HEADER_BYTES ->
  event_loop n fs cfg (initial_pfds listen_fd) initial_clients w
  = Some (pfds', clients', w') ->
  Forall (buffers_inv cfg) (tl clients').
Proof.
  intros Hcfg H.
  apply (Forall2_right (buffers_inv cfg) (tl pfds')).
  eapply (event_loop_lift fs cfg (fun _ c => buffers_inv cfg c)); [| | | |exact H].
  - intros p c w0 p' c' w0' Hc Hs. eapply buffers_inv_service; eassumption.
  - intros cfd _. apply buffers_inv_claimed. lia.
  - intros p c r Hc. exact Hc.
  - apply initial_tables_lift. apply buffers_inv_reset. lia.
Qed.

(** ** Descriptors handed out, held and closed *)

Ltac perm_count :=
  apply (Permutation_count_occ Z.eq_dec);
  let x := fresh "x" in
  intros x;
  repeat match goal with
  | H : Permutation _ _ |- _ =>
      rewrite (Permutation_count_occ Z.eq_dec) in H; specialize (H x)
  end;
  repeat (progress (rewrite ?count_occ_app in *; cbn [count_occ] in *));
  repeat match goal with
  | H : context [Z.eq_dec ?a ?b] |- _ => destruct (Z.eq_dec a b)
  | |- context [Z.eq_dec ?a ?b] => destruct (Z.eq_dec a b)
  end; try lia.

Lemma balanced_refl (w : world) (h : list Z) : balanced w w h h.
Proof. exists [], []. split; [apply advances_refl|reflexivity]. Qed.

Lemma balanced_trans (w1 w2 w3 : world) (h1 h2 h3 : list Z) :
  balanced w1 w2 h1 h2 -> balanced w2 w3 h2 h3 -> balanced w1 w3 h1 h3.
Proof.
  intros (u1 & e1 & A1 & P1) (u2 & e2 & A2 & P2).
  exists (u1 ++ u2), (e1 ++ e2). split; [eapply advances_trans; eassumption|].
  rewrite handed_app, closed_app. perm_count.
Qed.

Lemma balanced_frame (w w' : world) (h h' f g : list Z) :
  balanced w w' h h' -> balanced w w' (f ++ h ++ g) (f ++ h' ++ g).
Proof.
  intros (u & e & A & P). exists u, e. split; [exact A|]. perm_count.
Qed.

Lemma balanced_perm (w w' : world) (h1 h1' h2 h2' : list Z) :
  Permutation h1 h1' -> Permutation h2 h2' ->
  balanced w w' h1 h2 -> balanced w w' h1' h2'.
Proof.
  intros P1 P2 (u & e & A & P). exists u, e. split; [exact A|]. perm_count.
Qed.

Lemma held_reset : held reset_client = [].
Proof. reflexivity. Qed.

Lemma close_client_slot_shape (p : pollfd) (c : client_t) (w : world) :
  exists evs,
    close_client_slot p c w
    = (mk_pollfd (-1) 0 0, reset_client,
       mk_world (script w) (trace w ++ evs) (clock w)) /\
    closed evs = held c.
Proof.
  unfold close_client_slot, held, add_event.
  destruct (0 <=? fd c), (0 <=? file_fd c); cbn [script trace clock].
  - exists [EvClose (fd c); EvClose (file_fd c)].
    rewrite <- app_assoc. split; reflexivity.
  - exists [EvClose (fd c)]. split; reflexivity.
  - exists [EvClose (file_fd c)]. split; reflexivity.
  - exists []. rewrite app_nil_r. destruct w. split; reflexivity.
Qed.

Lemma close_client_slot_balanced (p : pollfd) (c : client_t) (w : world)
    (p' : pollfd) (c' : client_t) (w' : world) :
  close_client_slot p c w = (p', c', w') ->
  p' = mk_pollfd (-1) 0 0 /\ c' = reset_client /\
  balanced w w' (held c) [].
Proof.
  destruct (close_client_slot_shape p c w) as (evs & -> & Hc).
  intros [= <- <- <-]. split; [reflexivity|]. split; [reflexivity|].
  exists [], evs. split.
  - unfold advances. cbn [script trace clock]. auto.
  - rewrite Hc, app_nil_r. reflexivity.
Qed.

Lemma prepare_response_shape (fs : filesys) (cfg : server_config_t)
    (c : client_t) (w : world) (r : Z) (c' : client_t) (w' : world) :
  prepare_response fs cfg c w = Some (r, c', w') ->
  r = 0 /\ active c' = active c /\ fd c' = fd c /\ mode c' = MODE_WRITING /\
  (file_fd c' = -1 \/ 0 <= file_fd c') /\
  exists used evs,
    advances w w' used evs /\ closed evs = [] /\
    handed used = if 0 <=? file_fd c' then [file_fd c'] else [].
Proof.
  rewrite prepare_response_eq. cbv zeta.
  destruct (parse_http_request _ _) as [rc req].
  assert (Hstay : forall c1 status ih allow,
            Some (0, error_response (clock w) c1 status ih allow, w)
            = Some (r, c', w') ->
            active c1 = active c -> fd c1 = fd c ->
            r = 0 /\ active c' = active c /\ fd c' = fd c /\
            mode c' = MODE_WRITING /\
            (file_fd c' = -1 \/ 0 <= file_fd c') /\
            exists used evs,
              advances w w' used evs /\ closed evs = [] /\
              handed used = if 0 <=? file_fd c' then [file_fd c'] else []).
  { intros c1 status ih allow [= <- <- <-] Ha Hf.
    cbn [active fd mode file_fd error_response].
    split; [reflexivity|]. split; [exact Ha|]. split; [exact Hf|].
    split; [reflexivity|]. split; [left; reflexivity|].
    exists [], []. split; [apply advances_refl|]. split; reflexivity. }
  destruct (rc =? 400); [intros H; eapply Hstay; eauto|].
  destruct (rc =? 405); [intros H; eapply Hstay; eauto|].
  destruct (resolve_path _ _ _ _ _) as [rc2 fs_path].
  destruct (negb (rc2 =? 0)); [intros H; eapply Hstay; eauto|].
  destruct (fs_stat fs fs_path) as [e|st]; [intros H; eapply Hstay; eauto|].
  destruct (negb _).
  - destruct (script w) as [|[bs|k| |n|revs|e] rest] eqn:Es; try discriminate.
    + destruct (n <? 0) eqn:En; [discriminate|]. apply Z.ltb_ge in En.
      intros [= <- <- <-]. cbn [active fd mode file_fd file_response].
      do 4 (split; [reflexivity|]). split; [right; exact En|].
      exists [Fd n], [EvOpen fs_path n]. unfold advances.
      cbn [script trace clock]. rewrite Es.
      replace (0 <=? n) with true by (symmetry; apply Z.leb_le; lia).
      repeat split; reflexivity.
    + intros [= <- <- <-].
      cbn [active fd mode file_fd error_response file_response].
      do 4 (split; [reflexivity|]). split; [left; reflexivity|].
      exists [Err e], []. unfold advances. cbn [script trace clock].
      rewrite Es, app_nil_r. repeat split; reflexivity.
  - intros [= <- <- <-]. cbn [active fd mode file_fd file_response].
    do 4 (split; [reflexivity|]). split; [left; reflexivity|].
    exists [], []. split; [apply advances_refl|]. split; reflexivity.
Qed.

Lemma recv_loop_shape (fs : filesys) (cfg : server_config_t) (gm : tm_t)
    (scr : list answer) :
  forall (tr : list event) (c : client_t) (r : Z) (c' : client_t) (w' : world),
  recv_loop fs cfg gm scr tr c = Some (r, c', w') ->
  active c' = active c /\ fd c' = fd c /\
  exists used evs,
    scr = used ++ script w' /\ trace w' = tr ++ evs /\ clock w' = gm /\
    closed evs = [] /\
    (mode c' = MODE_WRITING /\ (file_fd c' = -1 \/ 0 <= file_fd c') /\
     handed used = (if 0 <=? file_fd c' then [file_fd c'] else [])
     \/ mode c' = mode c /\ file_fd c' = file_fd c /\ handed used = []).
Proof.
  induction scr as [|a scr IH]; intros tr c r c' w' H; [discriminate|].
  rewrite recv_loop_cons in H. destruct a as [bs|k| |n|revs|e]; try discriminate.
  - cbv zeta in H. set (data := firstn _ bs) in H.
    destruct (0 <? len data).
    2:{ injection H as <- <- <-. split; [reflexivity|]. split; [reflexivity|].
        exists [Bytes bs], []. cbn [script trace clock]. rewrite app_nil_r.
        do 4 (split; [reflexivity|]). right. auto. }
    match type of H with
    | context [make_error_response gm ?x _ _ _] => set (c1 := x) in H
    end.
    destruct (req_len c1 >=? max_header_size cfg).
    + rewrite make_error_response_ok in H. injection H as <- <- <-.
      cbn [active fd mode file_fd error_response].
      split; [reflexivity|]. split; [reflexivity|].
      exists [Bytes bs], [EvRecv (fd c) data]. cbn [script trace clock].
      do 4 (split; [reflexivity|]). left. auto.
    + destruct (has_header_end _ _).
      * apply prepare_response_shape in H
          as (_ & Ha & Hf & Hm & Hff & used & evs & (Hs & Ht & Hc) & Hcl & Hh).
        cbn [script trace clock] in *. split; [exact Ha|]. split; [exact Hf|].
        exists (Bytes bs :: used), (EvRecv (fd c) data :: evs).
        rewrite Hs, Ht, <- app_assoc.
        split; [reflexivity|]. split; [reflexivity|]. split; [exact Hc|].
        split; [exact Hcl|]. left. auto.
      * apply IH in H as (Ha & Hf & used & evs & Hs & Ht & Hc & Hcl & Hcase).
        split; [exact Ha|]. split; [exact Hf|].
        exists (Bytes bs :: used), (EvRecv (fd c) data :: evs).
        rewrite Hs, Ht, <- app_assoc.
        split; [reflexivity|]. split; [reflexivity|]. split; [exact Hc|].
        split; [exact Hcl|]. exact Hcase.
  - split; [destruct (would_block e); injection H as <- <- <-; reflexivity|].
    split; [destruct (would_block e); injection H as <- <- <-; reflexivity|].
    exists [Err e], [].
    destruct (would_block e); injection H as <- <- <-;
      cbn [script trace clock]; rewrite app_nil_r;
      (do 4 (split; [reflexivity|])); right; auto.
Qed.

Lemma static_held (c c' : client_t) :
  static_part c' = static_part c ->
  held c' = held c /\ active c' = active c /\ fd c' = fd c /\
  mode c' = mode c /\ file_fd c' = file_fd c.
Proof.
  unfold static_part, held. intros H.
  injection H as Ha Hf Hm _ _ _ _ _ _ _ Hff _. rewrite Hf, Hff. auto.
Qed.

Lemma slot_coherent_reset : slot_coherent (mk_pollfd (-1) 0 0) reset_client.
Proof. unfold slot_coherent. cbn. auto. Qed.

Lemma quiet_balanced (w w' : world) (used : list answer) (evs : list event)
    (h : list Z) :
  advances w w' used evs -> handed used = [] -> closed evs = [] ->
  balanced w w' h h.
Proof.
  intros A Hu He. exists used, evs. split; [exact A|]. now rewrite Hu, He.
Qed.

Lemma write_phase_shape (p : pollfd) (c : client_t) (w : world) (rev : Z)
    (p' : pollfd) (c' : client_t) (w' : world) :
  slot_coherent p c ->
  (if active c && mode_eqb (mode c) MODE_WRITING && has_flag rev POLLOUT then
     match write_client_response c w with
     | None => None
     | Some (wr, c2, w2) =>
         if (wr <? 0) || (0 <? wr) then Some (close_client_slot p c2 w2)
         else Some (p, c2, w2)
     end
   else Some (p, c, w)) = Some (p', c', w') ->
  slot_coherent p' c' /\ balanced w w' (held c) (held c').
Proof.
  intros Hco H.
  destruct (active c && mode_eqb (mode c) MODE_WRITING && has_flag rev POLLOUT)
    eqn:Econd.
  2:{ injection H as <- <- <-. split; [exact Hco|apply balanced_refl]. }
  apply andb_true_iff in Econd as [Econd _].
  apply andb_true_iff in Econd as [Hact _].
  destruct (write_client_response c w) as [[[wr c2] w2]|] eqn:E; [|discriminate].
  apply (write_client_response_frame (mk_config [] [] 0 0)) in E
    as (Hst & _ & used & evs & A & Hu & He).
  apply static_held in Hst as (Hh & Ha & Hf & Hm & Hff).
  apply is_io_quiet in He as (Hcl & _ & _).
  pose proof (quiet_balanced _ _ _ _ (held c) A Hu Hcl) as Hb.
  destruct ((wr <? 0) || (0 <? wr)).
  - symmetry in H. apply eq_sym in H.
    destruct (close_client_slot p c2 w2) as [[p3 c3] w3] eqn:Ec.
    apply close_client_slot_balanced in Ec as (-> & -> & Hb2).
    injection H as <- <- <-. split; [apply slot_coherent_reset|].
    eapply balanced_trans; [exact Hb|]. rewrite Hh in Hb2. exact Hb2.
  - injection H as <- <- <-. split.
    + unfold slot_coherent in *. rewrite Ha, Hf, Hm, Hff.
      rewrite Hact in *. exact Hco.
    + rewrite Hh. exact Hb.
Qed.

Lemma held_file_opened (c c' : client_t) (used : list answer) :
  fd c' = fd c -> file_fd c = -1 ->
  file_fd c' = -1 \/ 0 <= file_fd c' ->
  handed used = (if 0 <=? file_fd c' then [file_fd c'] else []) ->
  Permutation (handed used ++ held c) (held c').
Proof.
  intros Hf Hff Hcase Hu. unfold held. rewrite Hu, Hf, Hff.
  change (0 <=? -1) with false. rewrite app_nil_r.
  destruct (0 <=? file_fd c').
  - apply Permutation_app_comm.
  - cbn [app]. rewrite app_nil_r. reflexivity.
Qed.

Lemma service_client_shape (fs : filesys) (cfg : server_config_t) (p : pollfd)
    (c : client_t) (w : world) (p' : pollfd) (c' : client_t) (w' : world) :
  slot_coherent p c ->
  service_client fs cfg p c w = Some (p', c', w') ->
  slot_coherent p' c' /\ balanced w w' (held c) (held c').
Proof.
  intros Hco H. unfold service_client in H.
  destruct (active c) eqn:Hact; cbn [negb] in H.
  2:{ injection H as <- <- <-. split; [exact Hco|apply balanced_refl]. }
  destruct (revents p =? 0).
  { injection H as <- <- <-. split; [exact Hco|apply balanced_refl]. }
  destruct (has_flag (revents p) _).
  { destruct (close_client_slot p c w) as [[p3 c3] w3] eqn:Ec.
    apply close_client_slot_balanced in Ec as (-> & -> & Hb).
    injection H as <- <- <-. split; [apply slot_coherent_reset|exact Hb]. }
  pose proof Hco as Hco0. unfold slot_coherent in Hco0. rewrite Hact in Hco0.
  destruct Hco0 as (Hfd & Hpfd & Hmode).
  destruct (mode_eqb (mode c) MODE_READING && has_flag (revents p) POLLIN) eqn:Eread.
  - apply andb_true_iff in Eread as [Emode _].
    assert (Hrd : mode c = MODE_READING)
      by (destruct (mode c); [reflexivity|discriminate]).
    rewrite Hrd in Hmode. destruct Hmode as [Hev Hff].
    destruct (read_client_request fs cfg c w) as [[[r0 c0] w0]|] eqn:E;
      [|discriminate].
    unfold read_client_request in E.
    apply recv_loop_shape in E
      as (Ha0 & Hf0 & used & evs & Hs & Ht & Hc & Hcl & Hcase).
    assert (A0 : advances w w0 used evs) by (unfold advances; auto).
    assert (Hfile : file_fd c0 = -1 \/ 0 <= file_fd c0).
    { destruct Hcase as [(_ & Hx & _)|(_ & Hx & _)]; [exact Hx|].
      left. congruence. }
    assert (Hhand : handed used = (if 0 <=? file_fd c0 then [file_fd c0] else [])).
    { destruct Hcase as [(_ & _ & Hx)|(_ & Hx & Hy)]; [exact Hx|].
      rewrite Hx, Hff. exact Hy. }
    assert (Hb0 : balanced w w0 (held c) (held c0)).
    { exists used, evs. split; [exact A0|]. rewrite Hcl. cbn [app].
      now apply held_file_opened. }
    destruct (r0 <? 0).
    { destruct (close_client_slot p c0 w0) as [[p3 c3] w3] eqn:Ec.
      apply close_client_slot_balanced in Ec as (-> & -> & Hb).
      injection H as <- <- <-. split; [apply slot_coherent_reset|].
      eapply balanced_trans; eassumption. }
    destruct (mode_eqb (mode c0) MODE_WRITING) eqn:Em0.
    + assert (Hw0 : mode c0 = MODE_WRITING)
        by (destruct (mode c0); [discriminate|reflexivity]).
      assert (Hco1 : slot_coherent (set_events POLLOUT p) c0).
      { unfold slot_coherent. rewrite Ha0, Hact, Hf0, Hw0.
        cbn [set_events pfd_fd events]. auto. }
      apply write_phase_shape in H as [H1 H2]; [|exact Hco1].
      split; [exact H1|]. eapply balanced_trans; eassumption.
    + assert (Hr0 : mode c0 = MODE_READING)
        by (destruct (mode c0); [reflexivity|discriminate]).
      assert (Hco1 : slot_coherent p c0).
      { unfold slot_coherent. rewrite Ha0, Hact, Hf0, Hr0.
        destruct Hcase as [(Hx & _)|(_ & Hx & _)]; [congruence|].
        rewrite Hx. auto. }
      apply write_phase_shape in H as [H1 H2]; [|exact Hco1].
      split; [exact H1|]. eapply balanced_trans; eassumption.
  - apply write_phase_shape in H; [exact H|exact Hco].
Qed.

Lemma slot_coherent_service (fs : filesys) (cfg : server_config_t)
    (p : pollfd) (c : client_t) (w : world) (p' : pollfd) (c' : client_t)
    (w' : world) :
  slot_coherent p c ->
  service_client fs cfg p c w = Some (p', c', w') -> slot_coherent p' c'.
Proof. intros Hco H. exact (proj1 (service_client_shape _ _ _ _ _ _ _ _ Hco H)). Qed.

Lemma slot_coherent_claimed (cfd : Z) :
  0 <= cfd -> slot_coherent (mk_pollfd cfd POLLIN 0) (claimed_client cfd).
Proof. intros H. unfold slot_coherent. cbn. auto. Qed.

Lemma slot_coherent_poll (p : pollfd) (c : client_t) (r : Z) :
  slot_coherent p c ->
  slot_coherent
    (mk_pollfd (pfd_fd p) (events p) (if pfd_fd p <? 0 then 0 else r)) c.
Proof.
  unfold slot_coherent. destruct (active c); [cbn [pfd_fd events]; auto|].
  intros [-> ->]. cbn. auto.
Qed.

Lemma balanced_cons (w w' : world) (c c' : client_t) (cs cs' : list client_t)
    (w1 : world) :
  balanced w w1 (held c) (held c') ->
  balanced w1 w' (flat_map held cs) (flat_map held cs') ->
  balanced w w' (flat_map held (c :: cs)) (flat_map held (c' :: cs')).
Proof.
  intros H1 H2. cbn [flat_map].
  apply (balanced_frame _ _ _ _ [] (flat_map held cs)) in H1.
  apply (balanced_frame _ _ _ _ (held c') []) in H2.
  rewrite !app_nil_r in H2. cbn [app] in H1.
  eapply balanced_trans; eassumption.
Qed.

Lemma service_clients_balanced (fs : filesys) (cfg : server_config_t)
    (pfds : list pollfd) :
  forall clients w pfds' clients' w',
  Forall2 slot_coherent pfds clients ->
  service_clients fs cfg pfds clients w = Some (pfds', clients', w') ->
  balanced w w' (flat_map held clients) (flat_map held clients').
Proof.
  induction pfds as [|p ps IH]; intros clients w pfds' clients' w' Hall H.
  - simpl in H. injection H as <- <- <-. apply balanced_refl.
  - destruct clients as [|c cs]; [inversion Hall|]. simpl in H.
    inversion Hall as [|? ? ? ? Hc Hcs]; subst.
    destruct (service_client fs cfg p c w) as [[[p1 c1] w1]|] eqn:E1;
      [|discriminate].
    destruct (service_clients fs cfg ps cs w1) as [[[ps2 cs2] w2]|] eqn:E2;
      [|discriminate].
    injection H as <- <- <-.
    eapply balanced_cons.
    + exact (proj2 (service_client_shape _ _ _ _ _ _ _ _ Hc E1)).
    + eapply IH; eassumption.
Qed.

Lemma held_claimed (cfd : Z) : 0 <= cfd -> held (claimed_client cfd) = [cfd].
Proof.
  intros H. unfold held, claimed_client. cbn [fd file_fd set_file_fd set_mode
    set_fd set_active reset_client].
  replace (0 <=? cfd) with true by (symmetry; apply Z.leb_le; lia). reflexivity.
Qed.

Lemma add_client_from_held (pfds : list pollfd) :
  forall clients cfd pfds' clients',
  0 <= cfd ->
  Forall2 slot_coherent pfds clients ->
  add_client_from pfds clients cfd = Some (pfds', clients') ->
  Permutation (cfd :: flat_map held clients) (flat_map held clients').
Proof.
  induction pfds as [|p ps IH]; intros clients cfd pfds' clients' Hfd Hall H;
    [discriminate|].
  destruct clients as [|c cs]; [discriminate|]. simpl in H.
  inversion Hall as [|? ? ? ? Hc Hcs]; subst.
  destruct (active c) eqn:Hact; cbn [negb] in H.
  - destruct (add_client_from ps cs cfd) as [[ps' cs']|] eqn:E; [|discriminate].
    injection H as <- <-. pose proof (IH _ _ _ _ Hfd Hcs E) as HP.
    cbn [flat_map]. perm_count.
  - injection H as <- <-. unfold slot_coherent in Hc. rewrite Hact in Hc.
    destruct Hc as [_ ->]. cbn [flat_map]. rewrite held_claimed by exact Hfd.
    rewrite held_reset. reflexivity.
Qed.

Lemma add_client_to_slot_held (pfds : list pollfd) (clients : list client_t)
    (cfd r : Z) (pfds' : list pollfd) (clients' : list client_t) :
  0 <= cfd ->
  Forall2 slot_coherent (tl pfds) (tl clients) ->
  add_client_to_slot pfds clients cfd = (r, pfds', clients') ->
  r = 0 /\ Permutation (cfd :: flat_map held (tl clients))
                       (flat_map held (tl clients'))
  \/ r = -1 /\ pfds' = pfds /\ clients' = clients.
Proof.
  intros Hfd Hall H. unfold add_client_to_slot in H.
  destruct pfds as [|p0 ps]; [injection H as <- <- <-; auto|].
  destruct clients as [|c0 cs]; [injection H as <- <- <-; auto|].
  cbn [tl] in Hall.
  destruct (add_client_from ps cs cfd) as [[ps' cs']|] eqn:E;
    injection H as <- <- <-; [|auto].
  left. split; [reflexivity|]. cbn [tl].
  eapply add_client_from_held; eassumption.
Qed.

Lemma accept_loop_balanced (fuel : nat) :
  forall pfds clients w pfds' clients' w',
  Forall2 slot_coherent (tl pfds) (tl clients) ->
  accept_loop fuel pfds clients w = Some (pfds', clients', w') ->
  balanced w w' (flat_map held (tl clients)) (flat_map held (tl clients')).
Proof.
  induction fuel as [|fuel IH]; intros pfds clients w pfds' clients' w' Hall H;
    [discriminate|].
  simpl in H.
  destruct (script w) as [|[bs|k| |cfd|revs|e] rest] eqn:Es; try discriminate.
  - destruct rest as [|[bs|k| |n|revs|e] rest]; try discriminate.
    + destruct (cfd <? 0) eqn:Efd; [discriminate|]. apply Z.ltb_ge in Efd.
      pose proof (add_client_to_slot_lift slot_coherent slot_coherent_claimed
                    pfds clients cfd Efd Hall) as Hco1.
      destruct (add_client_to_slot pfds clients cfd) as [[r ps1] cs1] eqn:Ea.
      apply add_client_to_slot_held in Ea; [|exact Efd|exact Hall].
      destruct Ea as [[-> HP]|(-> & -> & ->)]; cbn [Z.eqb negb] in H.
      * apply IH in H; [|exact Hco1].
        eapply balanced_trans; [|exact H].
        exists [Fd cfd; Done], []. split.
        -- unfold advances. cbn [script trace clock]. rewrite Es, app_nil_r. auto.
        -- cbn [handed flat_map app closed]. exact HP.
      * apply IH in H; [|exact Hall].
        eapply balanced_trans; [|exact H].
        exists [Fd cfd; Done], [EvClose cfd]. split.
        -- unfold advances, add_event. cbn [script trace clock]. rewrite Es. auto.
        -- reflexivity.
    + destruct (cfd <? 0); [discriminate|].
      apply IH in H; [|exact Hall].
      eapply balanced_trans; [|exact H].
      exists [Fd cfd; Err e], [EvClose cfd]. split.
      * unfold advances, add_event. cbn [script trace clock]. rewrite Es. auto.
      * reflexivity.
  - injection H as <- <- <-.
    exists [Err e], []. split.
    + unfold advances. cbn [script trace clock]. rewrite Es, app_nil_r. auto.
    + reflexivity.
Qed.

Lemma poll_fill_clients (pfds : list pollfd) (revs : list Z)
    (clients : list client_t) :
  Forall2 slot_coherent (tl pfds) (tl clients) ->
  Forall2 slot_coherent (tl (poll_fill pfds revs)) (tl clients).
Proof.
  intros H. rewrite tl_poll_fill.
  apply (poll_fill_lift slot_coherent slot_coherent_poll). exact H.
Qed.

Lemma loop_iteration_balanced (fs : filesys) (cfg : server_config_t)
    (pfds : list pollfd) (clients : list client_t) (w : world) (go : bool)
    (pfds' : list pollfd) (clients' : list client_t) (w' : world) :
  Forall2 slot_coherent (tl pfds) (tl clients) ->
  loop_iteration fs cfg pfds clients w = Some (go, pfds', clients', w') ->
  balanced w w' (flat_map held (tl clients)) (flat_map held (tl clients')).
Proof.
  intros Hall H. unfold loop_iteration in H.
  destruct (script w) as [|[bs|k| |n|revs|e] rest] eqn:Es; try discriminate.
  - set (w0 := mk_world rest (trace w) (clock w)) in *.
    assert (Hpoll : forall h, balanced w w0 h h).
    { intros h. exists [Ready revs], []. split.
      - unfold advances, w0. cbn [script trace clock]. rewrite Es, app_nil_r. auto.
      - reflexivity. }
    pose proof (poll_fill_clients pfds revs clients Hall) as Hfill.
    destruct (poll_count _ =? 0); [injection H as <- <- <- <-; apply Hpoll|].
    match type of H with
    | context [if ?b then accept_new_clients ?p ?c ?w0 else _] =>
        assert (Hacc : forall ps cs w1,
                  (if b then accept_new_clients p c w0 else Some (p, c, w0))
                  = Some (ps, cs, w1) ->
                  Forall2 slot_coherent (tl ps) (tl cs) /\
                  balanced w0 w1 (flat_map held (tl clients))
                    (flat_map held (tl cs)));
          [intros ps cs w1 Ha; destruct b;
             [split;
              [eapply (accept_loop_lift slot_coherent slot_coherent_claimed);
                 [exact Hfill|exact Ha]
              |eapply accept_loop_balanced; [exact Hfill|exact Ha]]
             |injection Ha as <- <- <-; split; [exact Hfill|apply balanced_refl]]|];
        destruct (if b then accept_new_clients p c w0 else Some (p, c, w0))
          as [[[ps cs] w1]|] eqn:E; [|discriminate]
    end.
    destruct (Hacc _ _ _ eq_refl) as [Hco1 Hb1].
    assert (Hb01 : balanced w w1 (flat_map held (tl clients))
                     (flat_map held (tl cs))).
    { eapply balanced_trans; [apply Hpoll|exact Hb1]. }
    destruct ps as [|p0 ps]; [injection H as <- <- <- <-; exact Hb01|].
    destruct cs as [|c0 cs]; [injection H as <- <- <- <-; exact Hb01|].
    cbn [tl] in *.
    destruct (service_clients fs cfg ps cs w1) as [[[ps2 cs2] w2]|] eqn:E2;
      [|discriminate].
    injection H as <- <- <- <-. cbn [tl].
    eapply balanced_trans; [exact Hb01|].
    eapply service_clients_balanced; eassumption.
  - assert (Hb : balanced w (mk_world rest (trace w) (clock w))
                   (flat_map held (tl clients)) (flat_map held (tl clients))).
    { exists [Err e], []. split.
      - unfold advances. cbn [script trace clock]. rewrite Es, app_nil_r. auto.
      - reflexivity. }
    destruct e; injection H as <- <- <- <-; exact Hb.
Qed.

Lemma event_loop_balanced (n : nat) (fs : filesys) (cfg : server_config_t) :
  forall pfds clients w pfds' clients' w',
  Forall2 slot_coherent (tl pfds) (tl clients) ->
  event_loop n fs cfg pfds clients w = Some (pfds', clients', w') ->
  Forall2 slot_coherent (tl pfds') (tl clients') /\
  balanced w w' (flat_map held (tl clients)) (flat_map held (tl clients')).
Proof.
  induction n as [|n IH]; intros pfds clients w pfds' clients' w' Hall H;
    simpl in H.
  - injection H as <- <- <-. split; [exact Hall|apply balanced_refl].
  - destruct (loop_iteration fs cfg pfds clients w) as [[[[go ps] cs] w1]|] eqn:E;
      [|discriminate].
    pose proof (loop_iteration_lift fs cfg slot_coherent
                  (slot_coherent_service fs cfg) slot_coherent_claimed
                  slot_coherent_poll _ _ _ _ _ _ _ Hall E) as Hall1.
    pose proof (loop_iteration_balanced _ _ _ _ _ _ _ _ _ Hall E) as Hb1.
    destruct go.
    + apply IH in H as [H1 H2]; [|exact Hall1].
      split; [exact H1|]. eapply balanced_trans; eassumption.
    + injection H as <- <- <-. split; [exact Hall1|exact Hb1].
Qed.

Lemma initial_tables_coherent (listen_fd : Z) :
  Forall2 slot_coherent (tl (initial_pfds listen_fd)) (tl initial_clients).
Proof. apply initial_tables_lift, slot_coherent_reset. Qed.

Lemma initial_clients_hold_nothing : flat_map held (tl initial_clients) = [].
Proof.
  unfold initial_clients.
  replace (Z.to_nat (MAX_CLIENTS + 1)) with (S (Z.to_nat MAX_CLIENTS))
    by (unfold MAX_CLIENTS; lia).
  cbn [repeat tl]. induction (Z.to_nat MAX_CLIENTS) as [|n IH]; [reflexivity|].
  cbn [repeat flat_map]. rewrite IH. reflexivity.
Qed.

(** X11.  Between its start and any later turn of the event loop, the
    descriptors the kernel handed out (by [accept] and [open]) are, each as
    often, the descriptors the server closed and the ones its slots still
    hold: none is lost and none is closed twice. *)
Theorem event_loop_descriptors_balanced (n : nat) (fs : filesys)
    (cfg : server_config_t) (listen_fd : Z) (w : world)
    (pfds' : list pollfd) (clients' : list client_t) (w' : world) :
  event_loop n fs cfg (initial_pfds listen_fd) initial_clients w
  = Some (pfds', clients', w') ->
  exists used evs,
    script w = used ++ script w' /\ trace w' = trace w ++ evs /\
    Permutation (handed used) (closed evs ++ flat_map held (tl clients')).
Proof.
  intros H.
  apply event_loop_balanced in H as [_ (used & evs & (Hs & Ht & _) & HP)];
    [|apply initial_tables_coherent].
  rewrite initial_clients_hold_nothing, app_nil_r in HP.
  exists used, evs. auto.
Qed.

(** ** Start-up and shutdown *)

Lemma close_active_balanced (pfds : list pollfd) :
  forall clients w pfds' clients' w',
  Forall2 slot_coherent pfds clients ->
  close_active pfds clients w = (pfds', clients', w') ->
  balanced w w' (flat_map held clients) [] /\
  Forall (fun c => c = reset_client) clients'.
Proof.
  induction pfds as [|p ps IH]; intros clients w pfds' clients' w' Hall H.
  - inversion Hall; subst. injection H as <- <- <-.
    split; [apply balanced_refl|constructor].
  - destruct clients as [|c cs]; [inversion Hall|].
    inversion Hall as [|? ? ? ? Hc Hcs]; subst. cbn [close_active] in H.
    destruct (if active c then close_client_slot p c w else (p, c, w))
      as [[p1 c1] w1] eqn:E1.
    destruct (close_active ps cs w1) as [[ps2 cs2] w2] eqn:E2.
    injection H as <- <- <-.
    destruct (IH _ _ _ _ _ Hcs E2) as [Hb2 Hr2].
    assert (H1 : balanced w w1 (held c) [] /\ c1 = reset_client).
    { destruct (active c) eqn:Hact.
      - apply close_client_slot_balanced in E1 as (_ & -> & Hb). auto.
      - injection E1 as <- <- <-. unfold slot_coherent in Hc.
        rewrite Hact in Hc. destruct Hc as [_ ->].
        split; [apply balanced_refl|reflexivity]. }
    destruct H1 as [Hb1 ->]. split; [|constructor; auto].
    cbn [flat_map].
    apply (balanced_frame _ _ _ _ [] (flat_map held cs)) in Hb1.
    cbn [app] in Hb1. eapply balanced_trans; eassumption.
Qed.

Lemma try_candidates_balanced (k : nat) :
  forall (w : world) (r : Z) (w' : world),
  try_candidates k w = Some (r, w') ->
  (r = -1 \/ 0 <= r) /\
  balanced w w' [] (if 0 <=? r then [r] else []).
Proof.
  induction k as [|k IH]; intros w r w' H.
  - injection H as <- <-. split; [auto|apply balanced_refl].
  - cbn [try_candidates] in H.
    destruct (script w) as [|[bs|n| |fd0|revs|e] rest] eqn:Es; try discriminate.
    + destruct (fd0 <? 0) eqn:Efd; [discriminate|]. apply Z.ltb_ge in Efd.
      assert (Hfail : forall (skipped : list answer) rest',
                rest = skipped ++ rest' -> handed skipped = [] ->
                try_candidates k
                  (add_event (EvClose fd0) (mk_world rest' (trace w) (clock w)))
                = Some (r, w') ->
                (r = -1 \/ 0 <= r) /\
                balanced w w' [] (if 0 <=? r then [r] else [])).
      { intros skipped rest' Hr Hsk Ht. apply IH in Ht as [Hrange Hb].
        split; [exact Hrange|]. eapply balanced_trans; [|exact Hb].
        exists (Fd fd0 :: skipped), [EvClose fd0]. split.
        - unfold advances, add_event. cbn [script trace clock].
          rewrite Es, Hr. auto.
        - cbn [handed flat_map app]. fold (handed skipped). rewrite Hsk.
          reflexivity. }
      destruct rest as [|[bs|n| |n|revs|e1] rest1]; try discriminate.
      * destruct rest1 as [|[bs|n| |n|revs|e2] rest2]; try discriminate.
        -- destruct rest2 as [|[bs|n| |n|revs|e3] rest3]; try discriminate.
           ++ injection H as <- <-. split; [auto|].
              replace (0 <=? fd0) with true by (symmetry; apply Z.leb_le; lia).
              exists [Fd fd0; Done; Done; Done], []. split.
              ** unfold advances. cbn [script trace clock].
                 rewrite Es, app_nil_r. auto.
              ** reflexivity.
           ++ apply (Hfail [Done; Done; Err e3] rest3); auto.
        -- apply (Hfail [Done; Err e2] rest2); auto.
      * apply (Hfail [Err e1] rest1); auto.
    + apply IH in H as [Hrange Hb]. split; [exact Hrange|].
      eapply balanced_trans; [|exact Hb].
      exists [Err e], []. split.
      * unfold advances. cbn [script trace clock]. rewrite Es, app_nil_r. auto.
      * reflexivity.
Qed.

Lemma init_server_socket_balanced (bind_ip port_ : bytes) (backlog_ : Z)
    (w : world) (r : Z) (w' : world) :
  init_server_socket bind_ip port_ backlog_ w = Some (r, w') ->
  (r = -1 \/ 0 <= r) /\
  balanced w w' [] (if 0 <=? r then [r] else []).
Proof.
  unfold init_server_socket. intros H.
  destruct (script w) as [|[bs|n| |fd0|revs|e] rest] eqn:Es; try discriminate.
  - apply try_candidates_balanced in H as [Hrange Hb]. split; [exact Hrange|].
    eapply balanced_trans; [|exact Hb].
    exists [Count n], []. split.
    + unfold advances. cbn [script trace clock]. rewrite Es, app_nil_r. auto.
    + reflexivity.
  - injection H as <- <-. split; [auto|].
    exists [Err e], []. split.
    + unfold advances. cbn [script trace clock]. rewrite Es, app_nil_r. auto.
    + reflexivity.
Qed.

Lemma close_balanced (w : world) (d : Z) :
  balanced w (add_event (EvClose d) w) [d] [].
Proof.
  exists [], [EvClose d]. split.
  - unfold advances, add_event. cbn [script trace clock]. auto.
  - reflexivity.
Qed.

Lemma run_server_balanced (turns : nat) (alloc_ok : bool)
    (fs : filesys) (cfg : server_config_t) (g_bind_ip : bytes) (w : world)
    (rc : Z) (w' : world) :
  run_server turns alloc_ok fs cfg g_bind_ip w = Some (rc, w') ->
  (rc = 0 \/ rc = 1) /\ balanced w w' [] [].
Proof.
  intros H. unfold run_server in H.
  destruct (init_server_socket g_bind_ip (port cfg) (backlog cfg) w)
    as [[lfd w1]|] eqn:Einit; [|discriminate].
  apply init_server_socket_balanced in Einit as [Hrange Hb1].
  destruct (lfd <? 0) eqn:Elfd.
  { injection H as <- <-. split; [auto|].
    apply Z.ltb_lt in Elfd.
    replace (0 <=? lfd) with false in Hb1
      by (symmetry; apply Z.leb_gt; lia).
    exact Hb1. }
  apply Z.ltb_ge in Elfd.
  replace (0 <=? lfd) with true in Hb1 by (symmetry; apply Z.leb_le; lia).
  destruct (negb alloc_ok).
  { injection H as <- <-. split; [auto|].
    eapply balanced_trans; [exact Hb1|apply close_balanced]. }
  destruct (event_loop turns fs cfg (initial_pfds lfd) initial_clients w1)
    as [[[pfds1 clients1] w2]|] eqn:Eloop; [|discriminate].
  apply event_loop_balanced in Eloop as [Hco Hb2];
    [|apply initial_tables_coherent].
  rewrite initial_clients_hold_nothing in Hb2.
  destruct (close_active (tl pfds1) (tl clients1) w2) as [[ps3 cs3] w3] eqn:Ec.
  apply close_active_balanced in Ec as [Hb3 _]; [|exact Hco].
  injection H as <- <-. split; [auto|].
  eapply balanced_trans; [exact Hb1|].
  apply (balanced_frame _ _ _ _ [lfd] []) in Hb2.
  apply (balanced_frame _ _ _ _ [lfd] []) in Hb3.
  rewrite !app_nil_r in *. cbn [app] in *.
  eapply balanced_trans; [exact Hb2|].
  eapply balanced_trans; [exact Hb3|apply close_balanced].
Qed.

Lemma balanced_closed (w w' : world) :
  balanced w w' [] [] ->
  exists used evs,
    script w = used ++ script w' /\ trace w' = trace w ++ evs /\
    Permutation (handed used) (closed evs).
Proof.
  intros (used & evs & (Hs & Ht & _) & HP).
  exists used, evs. rewrite !app_nil_r in HP. auto.
Qed.

(** X12.  When [run_server] returns, every descriptor it was handed (by
    [socket], [accept] and [open]) has been closed, each as often as it was
    handed out: listening socket, client sockets and files alike, whether
    the server stops after serving, for want of memory or without a
    listening socket.  It returns 0 or 1. *)
Theorem run_server_closes_every_descriptor (turns : nat) (alloc_ok : bool)
    (fs : filesys) (cfg : server_config_t) (g_bind_ip : bytes) (w : world)
    (rc : Z) (w' : world) :
  run_server turns alloc_ok fs cfg g_bind_ip w = Some (rc, w') ->
  (rc = 0 \/ rc = 1) /\
  exists used evs,
    script w = used ++ script w' /\ trace w' = trace w ++ evs /\
    Permutation (handed used) (closed evs).
Proof.
  intros H. apply run_server_balanced in H as [Hrc Hb].
  split; [exact Hrc|apply balanced_closed, Hb].
Qed.

(** ** The poll table and the client table *)

Lemma service_clients_length (fs : filesys) (cfg : server_config_t)
    (pfds : list pollfd) :
  forall clients w pfds' clients' w',
  service_clients fs cfg pfds clients w = Some (pfds', clients', w') ->
  length pfds' = length pfds /\ length clients' = length clients.
Proof.
  induction pfds as [|p ps IH]; intros clients w pfds' clients' w' H.
  - simpl in H. injection H as <- <- <-. auto.
  - destruct clients as [|c cs]; simpl in H; [injection H as <- <- <-; auto|].
    destruct (service_client fs cfg p c w) as [[[p1 c1] w1]|]; [|discriminate].
    destruct (service_clients fs cfg ps cs w1) as [[[ps2 cs2] w2]|] eqn:E2;
      [|discriminate].
    injection H as <- <- <-. apply IH in E2 as [H1 H2]. cbn [length]. auto.
Qed.

Lemma add_client_from_length (pfds : list pollfd) :
  forall clients cfd pfds' clients',
  add_client_from pfds clients cfd = Some (pfds', clients') ->
  length pfds' = length pfds /\ length clients' = length clients.
Proof.
  induction pfds as [|p ps IH]; intros clients cfd pfds' clients' H;
    [discriminate|].
  destruct clients as [|c cs]; [discriminate|]. simpl in H.
  destruct (negb (active c)); [injection H as <- <-; auto|].
  destruct (add_client_from ps cs cfd) as [[ps' cs']|] eqn:E; [|discriminate].
  injection H as <- <-. apply IH in E as [H1 H2]. cbn [length]. auto.
Qed.

Lemma same_frame_refl pfds clients : same_frame pfds pfds clients clients.
Proof. unfold same_frame. auto. Qed.

Lemma same_frame_trans p1 p2 p3 c1 c2 c3 :
  same_frame p1 p2 c1 c2 -> same_frame p2 p3 c2 c3 -> same_frame p1 p3 c1 c3.
Proof.
  unfold same_frame. intros (A & B & C & D) (E & F & G & H).
  repeat split; congruence.
Qed.

Lemma add_client_to_slot_frame (pfds : list pollfd) (clients : list client_t)
    (cfd r : Z) (pfds' : list pollfd) (clients' : list client_t) :
  add_client_to_slot pfds clients cfd = (r, pfds', clients') ->
  same_frame pfds pfds' clients clients'.
Proof.
  unfold add_client_to_slot. intros H.
  destruct pfds as [|p0 ps]; [injection H as <- <- <-; apply same_frame_refl|].
  destruct clients as [|c0 cs]; [injection H as <- <- <-; apply same_frame_refl|].
  destruct (add_client_from ps cs cfd) as [[ps' cs']|] eqn:E;
    injection H as <- <- <-; [|apply same_frame_refl].
  apply add_client_from_length in E as [H1 H2].
  unfold same_frame. cbn [length hd_error option_map]. auto.
Qed.

Lemma accept_loop_frame (fuel : nat) :
  forall pfds clients w pfds' clients' w',
  accept_loop fuel pfds clients w = Some (pfds', clients', w') ->
  same_frame pfds pfds' clients clients'.
Proof.
  induction fuel as [|fuel IH]; intros pfds clients w pfds' clients' w' H;
    [discriminate|].
  simpl in H.
  destruct (script w) as [|[bs|k| |cfd|revs|e] rest]; try discriminate.
  - destruct rest as [|[bs|k| |n|revs|e] rest]; try discriminate.
    + destruct (cfd <? 0); [discriminate|].
      destruct (add_client_to_slot pfds clients cfd) as [[r ps1] cs1] eqn:Ea.
      apply add_client_to_slot_frame in Ea.
      destruct (negb (r =? 0)); apply IH in H;
        eapply same_frame_trans; eassumption.
    + destruct (cfd <? 0); [discriminate|]. eapply IH; eassumption.
  - injection H as <- <- <-. apply same_frame_refl.
Qed.

Lemma poll_fill_frame (pfds : list pollfd) (revs : list Z)
    (clients : list client_t) :
  same_frame pfds (poll_fill pfds revs) clients clients.
Proof.
  unfold same_frame. split; [|split; [reflexivity|split; [reflexivity|]]].
  - revert revs. induction pfds as [|p ps IH]; intros revs; [reflexivity|].
    cbn [poll_fill length]. now rewrite IH.
  - destruct pfds; reflexivity.
Qed.

Lemma loop_iteration_frame (fs : filesys) (cfg : server_config_t)
    (pfds : list pollfd) (clients : list client_t) (w : world) (go : bool)
    (pfds' : list pollfd) (clients' : list client_t) (w' : world) :
  loop_iteration fs cfg pfds clients w = Some (go, pfds', clients', w') ->
  same_frame pfds pfds' clients clients'.
Proof.
  intros H. unfold loop_iteration in H.
  destruct (script w) as [|[bs|k| |n|revs|e] rest]; try discriminate.
  - pose proof (poll_fill_frame pfds revs clients) as Hfill.
    destruct (poll_count _ =? 0); [injection H as <- <- <- <-; exact Hfill|].
    match type of H with
    | context [if ?b then accept_new_clients ?p ?c ?w0 else _] =>
        assert (Hacc : forall ps cs w1,
                  (if b then accept_new_clients p c w0 else Some (p, c, w0))
                  = Some (ps, cs, w1) -> same_frame p ps c cs);
          [intros ps cs w1 Ha; destruct b;
             [eapply accept_loop_frame; exact Ha
             |injection Ha as <- <- <-; apply same_frame_refl]|];
        destruct (if b then accept_new_clients p c w0 else Some (p, c, w0))
          as [[[ps cs] w1]|] eqn:E; [|discriminate]
    end.
    specialize (Hacc _ _ _ eq_refl).
    pose proof (same_frame_trans _ _ _ _ _ _ Hfill Hacc) as H01.
    destruct ps as [|p0 ps]; [injection H as <- <- <- <-; exact H01|].
    destruct cs as [|c0 cs]; [injection H as <- <- <- <-; exact H01|].
    destruct (service_clients fs cfg ps cs w1) as [[[ps2 cs2] w2]|] eqn:E2;
      [|discriminate].
    injection H as <- <- <- <-.
    apply service_clients_length in E2 as [H1 H2].
    eapply same_frame_trans; [exact H01|].
    unfold same_frame. cbn [length hd_error option_map]. auto.
  - destruct e; injection H as <- <- <- <-; apply same_frame_refl.
Qed.

Lemma event_loop_frame (n : nat) (fs : filesys) (cfg : server_config_t) :
  forall pfds clients w pfds' clients' w',
  event_loop n fs cfg pfds clients w = Some (pfds', clients', w') ->
  same_frame pfds pfds' clients clients'.
Proof.
  induction n as [|n IH]; intros pfds clients w pfds' clients' w' H; simpl in H.
  - injection H as <- <- <-. apply same_frame_refl.
  - destruct (loop_iteration fs cfg pfds clients w) as [[[[go ps] cs] w1]|] eqn:E;
      [|discriminate].
    apply loop_iteration_frame in E.
    destruct go.
    + apply IH in H. eapply same_frame_trans; eassumption.
    + injection H as <- <- <-. exact E.
Qed.

(** X13.  The poll table and the client table stay in step.  After any number
    of turns of the event loop both tables still have [MAX_CLIENTS + 1]
    entries; entry 0 still polls the listening socket for input and client
    slot 0 is unused; a free slot is in the state [reset_client] leaves, with
    a poll entry that is ignored; a slot in use has a socket, which its poll
    entry names, polled for input while the request is read (no file is open
    then) and for output once a response is staged. *)
Theorem poll_table_coherent (n : nat) (fs : filesys) (cfg : server_config_t)
    (listen_fd : Z) (w : world) (pfds' : list pollfd)
    (clients' : list client_t) (w' : world) :
  event_loop n fs cfg (initial_pfds listen_fd) initial_clients w
  = Some (pfds', clients', w') ->
  Z.of_nat (length pfds') = MAX_CLIENTS + 1 /\
  Z.of_nat (length clients') = MAX_CLIENTS + 1 /\
  (exists r ps, pfds' = mk_pollfd listen_fd POLLIN r :: ps) /\
  hd_error clients' = Some reset_client /\
  Forall2 slot_coherent (tl pfds') (tl clients').
Proof.
  intros H.
  pose proof (event_loop_frame _ _ _ _ _ _ _ _ _ H) as (H1 & H2 & H3 & H4).
  apply event_loop_balanced in H as [Hco _]; [|apply initial_tables_coherent].
  assert (L1 : length (initial_pfds listen_fd) = Z.to_nat (MAX_CLIENTS + 1)).
  { unfold initial_pfds. cbn [length]. rewrite repeat_length.
    unfold MAX_CLIENTS. lia. }
  assert (L2 : length initial_clients = Z.to_nat (MAX_CLIENTS + 1)).
  { unfold initial_clients. apply repeat_length. }
  split; [rewrite H1, L1; unfold MAX_CLIENTS; lia|].
  split; [rewrite H2, L2; unfold MAX_CLIENTS; lia|].
  split; [|split; [|exact Hco]].
  - unfold initial_pfds in H4. cbn [hd_error option_map pfd_fd events] in H4.
    destruct pfds' as [|[f e r] ps]; [discriminate|].
    cbn [hd_error option_map pfd_fd events] in H4. injection H4 as -> ->.
    eauto.
  - rewrite H3. unfold initial_clients.
    replace (Z.to_nat (MAX_CLIENTS + 1)) with (S (Z.to_nat MAX_CLIENTS))
      by (unfold MAX_CLIENTS; lia).
    reflexivity.
Qed.

(** ** The query string and the fragment *)

Lemma strip_query_cut (p : bytes) :
  forall (n : nat) (c : ascii) (q : bytes),
  existsb is_stop p = false -> is_stop c = true ->
  strip_query n (p ++ c :: q) = strip_query n p.
Proof.
  induction p as [|x p IH]; intros n c q Hp Hc.
  - destruct n; cbn [app strip_query]; [reflexivity|]. now rewrite Hc.
  - cbn [existsb] in Hp. apply orb_false_iff in Hp as [Hx Hp].
    destruct n; [reflexivity|]. cbn [app strip_query]. rewrite Hx.
    f_equal. now apply IH.
Qed.

(** X14.  [resolve_path] does not look past the first ['?'] or ['#'] of the
    target: a query string or a fragment changes neither the code nor the
    path. *)
Theorem resolve_path_ignores_query (fs : filesys)
    (doc_root_ p q out : bytes) (c : ascii) (out_sz : Z) :
  c = "?"%char \/ c = "#"%char ->
  existsb is_stop p = false ->
  resolve_path fs doc_root_ (p ++ c :: q) out out_sz
  = resolve_path fs doc_root_ p out out_sz.
Proof.
  intros Hc Hp. unfold resolve_path.
  destruct (out_sz =? 0); [reflexivity|].
  assert (Hstop : is_stop c = true) by (destruct Hc as [-> | ->]; reflexivity).
  destruct p as [|c0 p].
  - cbn [app]. destruct Hc as [-> | ->]; reflexivity.
  - cbn [app]. destruct (negb (Ascii.eqb c0 "/"%char)); [reflexivity|].
    change (c0 :: p ++ c :: q) with ((c0 :: p) ++ c :: q).
    rewrite strip_query_cut by assumption. reflexivity.
Qed.

Lemma resolve_path_ignores_query_witness :
  resolve_path sample_fs (lit "/srv/www") (lit "/index.html?a=/../b") [] PATH_MAX
  = resolve_path sample_fs (lit "/srv/www") (lit "/index.html") [] PATH_MAX.
Proof.
  apply (resolve_path_ignores_query sample_fs (lit "/srv/www")
           (lit "/index.html") (lit "a=/../b") [] "?"%char PATH_MAX).
  - left. reflexivity.
  - reflexivity.
Defined.

(** ** The first free slot *)

Lemma add_client_from_spec (pfds : list pollfd) :
  forall (clients : list client_t) (cfd : Z),
  length pfds = length clients ->
  add_client_from pfds clients cfd = None /\ forallb active clients = true
  \/ exists i,
       (i < length clients)%nat /\
       active (nth i clients reset_client) = false /\
       forallb active (firstn i clients) = true /\
       add_client_from pfds clients cfd
       = Some (firstn i pfds ++ mk_pollfd cfd POLLIN 0 :: skipn (S i) pfds,
               firstn i clients ++ claimed_client cfd :: skipn (S i) clients).
Proof.
  induction pfds as [|p ps IH]; intros clients cfd Hlen.
  - destruct clients; [|discriminate]. left. auto.
  - destruct clients as [|c cs]; [discriminate|]. cbn [add_client_from].
    destruct (active c) eqn:Hact; cbn [negb].
    + destruct (IH cs cfd) as [[Hnone Hall]|(i & Hi & Hfree & Hbusy & Hsome)];
        [cbn [length] in Hlen; lia| |].
      * left. rewrite Hnone. cbn [forallb]. rewrite Hact, Hall. auto.
      * right. exists (S i). cbn [length nth firstn skipn forallb].
        rewrite Hact, Hbusy, Hsome. repeat split; auto. lia.
    + right. exists 0%nat. cbn [length nth firstn skipn forallb app].
      repeat split; auto. lia.
Qed.

(** X15.  [add_client_to_slot] claims the free slot of lowest index from 1 on,
    for the new socket, in reading mode and polled for input; it leaves
    every other entry of both tables, entry 0 among them, as it was.  When
    the slots 1 and up are all in use it returns -1 and changes nothing. *)
Theorem add_client_to_slot_first_free (pfds : list pollfd)
    (clients : list client_t) (cfd : Z) :
  length pfds = length clients ->
  let '(r, pfds', clients') := add_client_to_slot pfds clients cfd in
  r = -1 /\ pfds' = pfds /\ clients' = clients /\
  forallb active (tl clients) = true
  \/ r = 0 /\
     exists i,
       (1 <= i < length clients)%nat /\
       active (nth i clients reset_client) = false /\
       forallb active (firstn (i - 1) (tl clients)) = true /\
       pfds' = firstn i pfds ++ mk_pollfd cfd POLLIN 0 :: skipn (S i) pfds /\
       clients' = firstn i clients ++ claimed_client cfd :: skipn (S i) clients.
Proof.
  intros Hlen. unfold add_client_to_slot.
  destruct pfds as [|p0 ps]; [destruct clients; [|discriminate]; left; auto|].
  destruct clients as [|c0 cs]; [discriminate|].
  destruct (add_client_from_spec ps cs cfd)
    as [[Hnone Hall]|(i & Hi & Hfree & Hbusy & Hsome)];
    [cbn [length] in Hlen; lia| |].
  - rewrite Hnone. left. auto.
  - rewrite Hsome. right. split; [reflexivity|]. exists (S i).
    replace (S i - 1)%nat with i by lia.
    cbn [length nth firstn skipn tl app].
    repeat split; auto; lia.
Qed.

Lemma add_client_to_slot_first_free_witness :
  let '(r, pfds', clients') :=
    add_client_to_slot sample_small_pfds sample_small_clients 8 in
  r = -1 /\ pfds' = sample_small_pfds /\ clients' = sample_small_clients /\
  forallb active (tl sample_small_clients) = true
  \/ r = 0 /\
     exists i,
       (1 <= i < length sample_small_clients)%nat /\
       active (nth i sample_small_clients reset_client) = false /\
       forallb active (firstn (i - 1) (tl sample_small_clients)) = true /\
       pfds' = firstn i sample_small_pfds ++ mk_pollfd 8 POLLIN 0
               :: skipn (S i) sample_small_pfds /\
       clients' = firstn i sample_small_clients ++ claimed_client 8
                  :: skipn (S i) sample_small_clients.
Proof.
  apply (add_client_to_slot_first_free sample_small_pfds sample_small_clients 8).
  reflexivity.
Defined.

(** ** A slot in writing mode *)

Lemma recv_on_app (s : Z) (a b : list event) :
  recv_on s (a ++ b) = recv_on s a ++ recv_on s b.
Proof. apply flat_map_app. Qed.

Lemma close_client_slot_quiet (p : pollfd) (c : client_t) (w : world) :
  exists evs,
    close_client_slot p c w
    = (mk_pollfd (-1) 0 0, reset_client,
       mk_world (script w) (trace w ++ evs) (clock w)) /\
    opened evs = [] /\ (forall s, recv_on s evs = []) /\
    (forall s, sent_on s evs = []).
Proof.
  unfold close_client_slot, add_event.
  destruct (0 <=? fd c), (0 <=? file_fd c); cbn [script trace clock].
  - exists [EvClose (fd c); EvClose (file_fd c)].
    rewrite <- app_assoc. repeat split.
  - exists [EvClose (fd c)]. repeat split.
  - exists [EvClose (file_fd c)]. repeat split.
  - exists []. rewrite app_nil_r. destruct w. repeat split.
Qed.

(** X16.  Once a response is staged, the slot serves that response and
    nothing else: a turn of the loop on a slot in writing mode receives no
    byte and opens no file, and it either closes the slot or leaves the mode,
    the request, the staged header block and body, the socket and the file
    as they are.  There is no second request on a connection. *)
Theorem writing_slot_keeps_response (fs : filesys) (cfg : server_config_t)
    (p : pollfd) (c : client_t) (w : world) (p' : pollfd) (c' : client_t)
    (w' : world) :
  active c = true -> mode c = MODE_WRITING ->
  service_client fs cfg p c w = Some (p', c', w') ->
  (exists evs,
     trace w' = trace w ++ evs /\
     (forall s, recv_on s evs = []) /\ opened evs = []) /\
  (p' = mk_pollfd (-1) 0 0 /\ c' = reset_client
   \/ p' = p /\ static_part c' = static_part c).
Proof.
  intros Hact Hmode H. unfold service_client in H.
  rewrite Hact, Hmode in H. cbn [negb mode_eqb andb] in H.
  assert (Hsame : Some (p, c, w) = Some (p', c', w') ->
            (exists evs,
               trace w' = trace w ++ evs /\
               (forall s, recv_on s evs = []) /\ opened evs = []) /\
            (p' = mk_pollfd (-1) 0 0 /\ c' = reset_client
             \/ p' = p /\ static_part c' = static_part c)).
  { intros [= <- <- <-]. split; [|right; auto].
    exists []. rewrite app_nil_r. auto. }
  destruct (revents p =? 0); [auto|].
  destruct (has_flag (revents p) _).
  { destruct (close_client_slot_quiet p c w) as (evs & Hc & Ho & Hr & _).
    rewrite Hc in H. injection H as <- <- <-. cbn [trace].
    split; [eauto|left; auto]. }
  rewrite ?Hact, ?Hmode in H. cbn [mode_eqb andb] in H.
  destruct (has_flag (revents p) POLLOUT); [|auto].
  destruct (write_client_response c w) as [[[wr c2] w2]|] eqn:E; [|discriminate].
  apply (write_client_response_frame cfg) in E
    as (Hst & _ & used & evs & (_ & Ht & _) & _ & Hio).
  apply is_io_quiet in Hio as (_ & Ho & Hr).
  destruct ((wr <? 0) || (0 <? wr)).
  - destruct (close_client_slot_quiet p c2 w2) as (evs2 & Hc & Ho2 & Hr2 & _).
    rewrite Hc in H. injection H as <- <- <-. cbn [trace]. split; [|left; auto].
    exists (evs ++ evs2). rewrite Ht, <- app_assoc. split; [reflexivity|].
    split.
    + intros s. rewrite recv_on_app, Hr, Hr2. reflexivity.
    + rewrite opened_app, Ho, Ho2. reflexivity.
  - injection H as <- <- <-. split; [eauto|right; auto].
Qed.

Lemma writing_slot_keeps_response_witness :
  (exists evs,
     trace (snd sample_write_turn)
     = trace (mk_world [Count 5000; Count 5000] [] sample_time) ++ evs /\
     (forall s, recv_on s evs = []) /\ opened evs = []) /\
  (fst (fst sample_write_turn) = mk_pollfd (-1) 0 0 /\
   snd (fst sample_write_turn) = reset_client
   \/ fst (fst sample_write_turn) = mk_pollfd 5 POLLOUT POLLOUT /\
      static_part (snd (fst sample_write_turn)) = static_part sample_error_slot).
Proof.
  assert (Hrun : match service_client sample_fs sample_cfg
                         (mk_pollfd 5 POLLOUT POLLOUT) sample_error_slot
                         (mk_world [Count 5000; Count 5000] [] sample_time) with
                 | Some _ => true
                 | None => false
                 end = true).
  { vm_compute. reflexivity. }
  unfold sample_write_turn.
  destruct (service_client sample_fs sample_cfg (mk_pollfd 5 POLLOUT POLLOUT)
              sample_error_slot
              (mk_world [Count 5000; Count 5000] [] sample_time))
    as [[[p' c'] w']|] eqn:E; [|discriminate].
  cbn [fst snd].
  exact (writing_slot_keeps_response sample_fs sample_cfg
           (mk_pollfd 5 POLLOUT POLLOUT) sample_error_slot
           (mk_world [Count 5000; Count 5000] [] sample_time) p' c' w'
           eq_refl eq_refl E).
Defined.

(** ** The request buffer holds what was received *)

Lemma firstn_buf_write (dst : bytes) (off : Z) (src : bytes) :
  0 <= off -> off + len src <= len dst ->
  firstn (Z.to_nat (off + len src)) (buf_write dst off src)
  = firstn (Z.to_nat off) dst ++ src.
Proof.
  intros Hoff Hfit. unfold buf_write.
  pose proof (len_nonneg src). unfold len in *.
  rewrite firstn_app, length_firstn.
  replace (Nat.min (Z.to_nat off) (length dst)) with (Z.to_nat off) by lia.
  rewrite firstn_all2 by (rewrite length_firstn; lia).
  f_equal.
  replace (Z.to_nat (off + Z.of_nat (length src)) - Z.to_nat off)%nat
    with (length src) by lia.
  rewrite firstn_app, Nat.sub_diag, firstn_all. cbn [firstn]. apply app_nil_r.
Qed.

Lemma firstn_buf_write_before (dst : bytes) (off : Z) (src : bytes) (n : nat) :
  (n <= Z.to_nat off)%nat -> off <= len dst ->
  firstn n (buf_write dst off src) = firstn n dst.
Proof.
  intros Hn Hoff. unfold buf_write, len in *.
  rewrite firstn_app, length_firstn.
  replace (n - Nat.min (Z.to_nat off) (length dst))%nat with 0%nat by lia.
  cbn [firstn]. rewrite app_nil_r, firstn_firstn.
  now replace (Nat.min n (Z.to_nat off)) with n by lia.
Qed.

Lemma prepare_response_keeps_request (fs : filesys) (cfg : server_config_t)
    (c : client_t) (w : world) (r : Z) (c' : client_t) (w' : world) :
  prepare_response fs cfg c w = Some (r, c', w') ->
  req_buf c' = req_buf c /\ req_len c' = req_len c /\
  exists evs, trace w' = trace w ++ evs /\ forall s, recv_on s evs = [].
Proof.
  rewrite prepare_response_eq. cbv zeta.
  destruct (parse_http_request _ _) as [rc req].
  assert (Hnil : exists evs : list event,
            trace w = trace w ++ evs /\ forall s, recv_on s evs = []).
  { exists []. rewrite app_nil_r. auto. }
  destruct (rc =? 400); [now intros [= <- <- <-]|].
  destruct (rc =? 405); [now intros [= <- <- <-]|].
  destruct (resolve_path _ _ _ _ _) as [rc2 p].
  destruct (negb (rc2 =? 0)); [now intros [= <- <- <-]|].
  destruct (fs_stat fs p) as [e|st]; [now intros [= <- <- <-]|].
  destruct (negb _); [|now intros [= <- <- <-]].
  destruct (script w) as [|[bs|k| |n|revs|e] rest]; try discriminate.
  - destruct (n <? 0); [discriminate|]. intros [= <- <- <-].
    cbn [trace]. split; [reflexivity|]. split; [reflexivity|].
    exists [EvOpen p n]. auto.
  - intros [= <- <- <-]. cbn [trace]. auto.
Qed.

Lemma recv_loop_accumulates (fs : filesys) (cfg : server_config_t) (gm : tm_t)
    (scr : list answer) :
  forall (tr : list event) (c : client_t) (r : Z) (c' : client_t) (w' : world),
  max_header_size cfg <= MAX_HEADER_BYTES ->
  arrays_inv cfg c -> req_len c < max_header_size cfg ->
  recv_loop fs cfg gm scr tr c = Some (r, c', w') ->
  exists evs,
    trace w' = tr ++ evs /\
    firstn (Z.to_nat (req_len c')) (req_buf c')
    = firstn (Z.to_nat (req_len c)) (req_buf c) ++ recv_on (fd c) evs /\
    req_len c' = req_len c + len (recv_on (fd c) evs).
Proof.
  induction scr as [|a scr IH]; intros tr c r c' w' Hcap Ha Hroom H;
    [discriminate|].
  assert (Hstay : exists evs : list event,
            tr = tr ++ evs /\
            firstn (Z.to_nat (req_len c)) (req_buf c)
            = firstn (Z.to_nat (req_len c)) (req_buf c) ++ recv_on (fd c) evs /\
            req_len c = req_len c + len (recv_on (fd c) evs)).
  { exists []. cbn [recv_on flat_map]. rewrite !app_nil_r.
    change (len []) with 0. repeat split. lia. }
  rewrite recv_loop_cons in H. destruct a as [bs|k| |n|revs|e]; try discriminate.
  - cbv zeta in H.
    pose proof (recv_room cfg c bs Hcap Ha Hroom) as Hdata.
    set (data := firstn _ bs) in *.
    destruct (0 <? len data) eqn:Epos;
      [|injection H as <- <- <-; exact Hstay].
    pose proof (arrays_inv_received cfg c data Hcap Ha Hdata) as Ha1.
    match type of H with
    | context [make_error_response gm ?x _ _ _] => set (c1 := x) in *
    end.
    assert (Hlen1 : req_len c1 = req_len c + len data) by reflexivity.
    assert (Hfd1 : fd c1 = fd c) by reflexivity.
    assert (Hbuf1 : firstn (Z.to_nat (req_len c1)) (req_buf c1)
                    = firstn (Z.to_nat (req_len c)) (req_buf c) ++ data).
    { destruct Ha as (H1 & _ & _ & _ & H5 & _). pose proof (len_nonneg data).
      unfold c1, set_req_buf, set_req_len. cbn [req_buf req_len].
      rewrite firstn_buf_write_before;
        [|lia|rewrite buf_write_len; unfold MAX_HEADER_BYTES in *; lia].
      apply firstn_buf_write; unfold MAX_HEADER_BYTES in *; lia. }
    assert (Hone : recv_on (fd c) [EvRecv (fd c) data] = data).
    { cbn [recv_on flat_map]. rewrite Z.eqb_refl. apply app_nil_r. }
    destruct (req_len c1 >=? max_header_size cfg) eqn:Efull.
    + rewrite make_error_response_ok in H. injection H as <- <- <-.
      exists [EvRecv (fd c) data]. cbn [trace req_len req_buf error_response].
      rewrite Hone. auto.
    + rewrite Z.geb_leb in Efull. apply Z.leb_gt in Efull.
      destruct (has_header_end _ _).
      * apply prepare_response_keeps_request in H
          as (Hb & Hl & evs & Ht & Hr).
        cbn [trace] in Ht.
        exists (EvRecv (fd c) data :: evs). rewrite Ht, <- app_assoc.
        split; [reflexivity|].
        change (EvRecv (fd c) data :: evs) with ([EvRecv (fd c) data] ++ evs).
        rewrite recv_on_app, Hone, Hr, app_nil_r, Hb, Hl. auto.
      * apply IH in H; [|exact Hcap|exact Ha1|exact Efull].
        destruct H as (evs & Ht & Hb & Hl).
        exists (EvRecv (fd c) data :: evs). rewrite Ht, <- app_assoc.
        split; [reflexivity|].
        change (EvRecv (fd c) data :: evs) with ([EvRecv (fd c) data] ++ evs).
        rewrite recv_on_app, Hone. rewrite Hfd1 in *.
        rewrite Hb, Hl, Hbuf1, Hlen1, len_app, <- app_assoc. split; [reflexivity|lia].
  - destruct (would_block e); injection H as <- <- <-; exact Hstay.
Qed.

(** X17.  [read_client_request] stores what it receives and nothing else:
    when it returns, the first [req_len] bytes of the request buffer are the
    bytes that were there followed by every byte the [recv] calls returned,
    in order, across any number of partial reads; and [req_len] has grown by
    their number. *)
Theorem request_buffer_holds_received_bytes (fs : filesys)
    (cfg : server_config_t) (c : client_t) (w : world) (r : Z)
    (c' : client_t) (w' : world) :
  max_header_size cfg <= MAX_HEADER_BYTES ->
  arrays_inv cfg c -> req_len c < max_header_size cfg ->
  read_client_request fs cfg c w = Some (r, c', w') ->
  exists evs,
    trace w' = trace w ++ evs /\
    firstn (Z.to_nat (req_len c')) (req_buf c')
    = firstn (Z.to_nat (req_len c)) (req_buf c) ++ recv_on (fd c) evs /\
    req_len c' = req_len c + len (recv_on (fd c) evs).
Proof.
  intros Hcap Ha Hroom H. unfold read_client_request in H.
  eapply recv_loop_accumulates; eassumption.
Qed.

Lemma request_buffer_holds_received_bytes_witness :
  exists evs,
    trace (snd sample_received) = trace sample_pieces ++ evs /\
    firstn (Z.to_nat (req_len (snd (fst sample_received))))
      (req_buf (snd (fst sample_received)))
    = firstn (Z.to_nat (req_len (claimed_client 5))) (req_buf (claimed_client 5))
      ++ recv_on (fd (claimed_client 5)) evs /\
    req_len (snd (fst sample_received))
    = req_len (claimed_client 5) + len (recv_on (fd (claimed_client 5)) evs).
Proof.
  assert (Hrun : match read_client_request sample_fs sample_cfg
                         (claimed_client 5) sample_pieces with
                 | Some _ => true
                 | None => false
                 end = true).
  { vm_compute. reflexivity. }
  unfold sample_received.
  destruct (read_client_request sample_fs sample_cfg (claimed_client 5)
              sample_pieces) as [[[r c'] w']|] eqn:E; [|discriminate].
  cbn [fst snd].
  apply (request_buffer_holds_received_bytes sample_fs sample_cfg
           (claimed_client 5) sample_pieces r c' w').
  - vm_compute. discriminate.
  - apply arrays_inv_reset. vm_compute. discriminate.
  - reflexivity.
  - exact E.
Defined.

(** ** The sample runs *)

Lemma sample_session_runs :
  match event_loop 3 sample_fs sample_cfg (initial_pfds 3) initial_clients
          sample_session with
  | Some _ => true
  | None => false
  end = true.
Proof. vm_compute. reflexivity. Qed.

Lemma buffers_stay_in_bounds_witness :
  Forall (buffers_inv sample_cfg) (tl (snd (fst sample_served))).
Proof.
  pose proof sample_session_runs as Hrun. unfold sample_served.
  destruct (event_loop 3 sample_fs sample_cfg (initial_pfds 3) initial_clients
              sample_session) as [[[pfds clients] w']|] eqn:E; [|discriminate].
  cbn [fst snd].
  apply (buffers_stay_in_bounds 3 sample_fs sample_cfg 3 sample_session
           pfds clients w'); [|exact E].
  vm_compute. split; [reflexivity|discriminate].
Defined.

Lemma event_loop_descriptors_balanced_witness :
  exists used evs,
    script sample_session = used ++ script (snd sample_served) /\
    trace (snd sample_served) = trace sample_session ++ evs /\
    Permutation (handed used)
      (closed evs ++ flat_map held (tl (snd (fst sample_served)))).
Proof.
  pose proof sample_session_runs as Hrun. unfold sample_served.
  destruct (event_loop 3 sample_fs sample_cfg (initial_pfds 3) initial_clients
              sample_session) as [[[pfds clients] w']|] eqn:E; [|discriminate].
  cbn [fst snd].
  exact (event_loop_descriptors_balanced 3 sample_fs sample_cfg 3
           sample_session pfds clients w' E).
Defined.

Lemma poll_table_coherent_witness :
  Z.of_nat (length (fst (fst sample_served))) = MAX_CLIENTS + 1 /\
  Z.of_nat (length (snd (fst sample_served))) = MAX_CLIENTS + 1 /\
  (exists r ps, fst (fst sample_served) = mk_pollfd 3 POLLIN r :: ps) /\
  hd_error (snd (fst sample_served)) = Some reset_client /\
  Forall2 slot_coherent (tl (fst (fst sample_served)))
    (tl (snd (fst sample_served))).
Proof.
  pose proof sample_session_runs as Hrun. unfold sample_served.
  destruct (event_loop 3 sample_fs sample_cfg (initial_pfds 3) initial_clients
              sample_session) as [[[pfds clients] w']|] eqn:E; [|discriminate].
  cbn [fst snd].
  exact (poll_table_coherent 3 sample_fs sample_cfg 3 sample_session
           pfds clients w' E).
Defined.

Lemma run_server_closes_every_descriptor_witness :
  (fst sample_ran = 0 \/ fst sample_ran = 1) /\
  exists used evs,
    script sample_run = used ++ script (snd sample_ran) /\
    trace (snd sample_ran) = trace sample_run ++ evs /\
    Permutation (handed used) (closed evs).
Proof.
  assert (Hrun : match run_server 3 true sample_fs sample_cfg (lit "127.0.0.1")
                         sample_run with
                 | Some _ => true
                 | None => false
                 end = true).
  { vm_compute. reflexivity. }
  unfold sample_ran.
  destruct (run_server 3 true sample_fs sample_cfg (lit "127.0.0.1") sample_run)
    as [[rc w']|] eqn:E; [|discriminate].
  cbn [fst snd].
  exact (run_server_closes_every_descriptor 3 true sample_fs sample_cfg
           (lit "127.0.0.1") sample_run rc w' E).
Defined.

Example sample_run_closes :
  fst sample_ran = 0 /\
  closed (trace (snd sample_ran)) = [3; 7; 9; 4] /\
  script (snd sample_ran) = [].
Proof. vm_compute. auto. Qed.

(** ** The whole program *)

(** X18.  [main] returns 0 or 1.  With a command line that [parse_arguments]
    refuses it returns 1 before [run_server] is entered: no call on the
    network or on a descriptor is made, so that no answer of the kernel is
    consumed and no event recorded (what [parse_arguments] itself calls,
    [inet_pton], [realpath], [stat] and the message it prints, is not part
    of the world).  It returns 0 only after [parse_arguments] accepted the
    command line.  In every case each descriptor the process was handed is
    closed when [main] returns. *)
Theorem main_returns_clean (h : host_t) (fs : filesys) (argv : list bytes)
    (turns : nat) (alloc_ok : bool) (w : world) (rc : Z) (w' : world) :
  main h fs argv turns alloc_ok w = Some (rc, w') ->
  (rc = 0 \/ rc = 1) /\
  (fst (fst (parse_arguments h fs argv (lit "0.0.0.0"))) <> 0 ->
   rc = 1 /\ w' = w) /\
  (rc = 0 -> fst (fst (parse_arguments h fs argv (lit "0.0.0.0"))) = 0) /\
  exists used evs,
    script w = used ++ script w' /\ trace w' = trace w ++ evs /\
    Permutation (handed used) (closed evs).
Proof.
  unfold main. intros H.
  destruct (parse_arguments h fs argv (lit "0.0.0.0")) as [[rc0 cfg] g].
  cbn [fst]. destruct (rc0 =? 0) eqn:E; cbn [negb] in H.
  - apply Z.eqb_eq in E. subst rc0.
    apply run_server_balanced in H as [Hrc Hbal].
    split; [exact Hrc|]. split; [intros Hne; contradiction|].
    split; [reflexivity|apply balanced_closed, Hbal].
  - apply Z.eqb_neq in E. injection H as <- <-.
    split; [auto|]. split; [auto|]. split; [intros Hx; discriminate|].
    exists [], []. rewrite app_nil_r. auto.
Qed.

Lemma main_returns_clean_witness :
  (fst sample_main = 0 \/ fst sample_main = 1) /\
  (fst (fst (parse_arguments sample_host sample_boot_fs sample_argv
               (lit "0.0.0.0"))) <> 0 ->
   fst sample_main = 1 /\ snd sample_main = sample_run) /\
  (fst sample_main = 0 ->
   fst (fst (parse_arguments sample_host sample_boot_fs sample_argv
               (lit "0.0.0.0"))) = 0) /\
  exists used evs,
    script sample_run = used ++ script (snd sample_main) /\
    trace (snd sample_main) = trace sample_run ++ evs /\
    Permutation (handed used) (closed evs).
Proof.
  assert (Hrun : match main sample_host sample_boot_fs sample_argv 3 true
                         sample_run with
                 | Some _ => true
                 | None => false
                 end = true).
  { vm_compute. reflexivity. }
  unfold sample_main.
  destruct (main sample_host sample_boot_fs sample_argv 3 true sample_run)
    as [[rc w']|] eqn:E; [|discriminate].
  cbn [fst snd].
  exact (main_returns_clean sample_host sample_boot_fs sample_argv 3 true
           sample_run rc w' E).
Defined.

(** ** Error responses *)

(** X19.  [make_error_response] never fails: for every status the page fits
    the 512-byte body array and the header block the 2048-byte header array,
    so it returns 0 and leaves the slot in writing mode with no file, the
    generated page staged as body and a header block whose Content-Length is
    the length of that page.  [prepare_response] therefore returns 0
    whenever it returns, with the slot in writing mode. *)
Theorem make_error_response_never_fails :
  (forall (gm : tm_t) (c : client_t) (status : Z) (ih allow : bool),
     let '(r, c') := make_error_response gm c status ih allow in
     r = 0 /\ mode c' = MODE_WRITING /\ file_fd c' = -1 /\ is_head c' = ih /\
     staged_body c' = error_page status /\
     mem_len c' = len (error_page status) /\
     len (error_page status) < MAX_ERROR_BODY /\
     hdr_len c' < MAX_RESP_HEADER /\
     exists pre post,
       staged_headers c'
       = pre ++ lit "Content-Length: " ++ dec (mem_len c') ++ CRLF ++ post) /\
  (forall (fs : filesys) (cfg : server_config_t) (c : client_t) (w : world)
          (r : Z) (c' : client_t) (w' : world),
     prepare_response fs cfg c w = Some (r, c', w') ->
     r = 0 /\ mode c' = MODE_WRITING).
Proof.
  split.
  - intros gm c status ih allow. rewrite make_error_response_ok.
    split; [reflexivity|]. split; [reflexivity|]. split; [reflexivity|].
    split; [reflexivity|]. split; [apply staged_body_error_response|].
    split; [reflexivity|].
    pose proof (error_page_length status) as Hp.
    split; [unfold MAX_ERROR_BODY, len; lia|].
    destruct (build_response_headers_fits (hdr_buf c) gm status
                (lit "text/html; charset=utf-8") (len (error_page status)) allow)
      as [_ Hl]; [simpl; lia|]. cbv zeta in Hl.
    split; [exact (proj2 Hl)|].
    rewrite staged_headers_error_response.
    cbn [mem_len error_response]. unfold header_text.
    exists (lit "HTTP/1.1 " ++ dec status ++ lit " "
              ++ http_reason_phrase status ++ CRLF
            ++ lit "Date: " ++ format_http_date gm ++ CRLF
            ++ lit "Server: comp4981-httpd/1.0" ++ CRLF
            ++ lit "Connection: close" ++ CRLF
            ++ lit "Content-Type: " ++ lit "text/html; charset=utf-8" ++ CRLF),
           ((if allow then lit "Allow: GET, HEAD" ++ CRLF else []) ++ CRLF).
    rewrite <- !app_assoc. reflexivity.
  - intros fs cfg c w r c' w' H.
    apply prepare_response_shape in H as (Hr & _ & _ & Hm & _). auto.
Qed.

Lemma make_error_response_never_fails_witness :
  0 = 0 /\ mode sample_head_prepared = MODE_WRITING.
Proof.
  assert (Hrun : prepare_response sample_fs sample_cfg sample_head_slot sample_idle
                 = Some (0, sample_head_prepared, sample_idle)).
  { vm_compute. reflexivity. }
  exact (proj2 make_error_response_never_fails sample_fs sample_cfg
           sample_head_slot sample_idle 0 sample_head_prepared sample_idle Hrun).
Defined.

Example sample_main_serves :
  fst sample_main = 0 /\
  sent_on 7 (trace (snd sample_main))
  = header_text (format_http_date sample_time) 200
      (lit "text/html; charset=utf-8") 5 false ++ lit "hello".
Proof. vm_compute. auto. Qed.

(** ** HEAD and GET *)

(** X20.  HEAD is answered with the header block of GET.  For two slots that
    differ in the request bytes only, one holding a GET and one a HEAD for
    the same target, the header block staged for the HEAD is byte for byte
    the one staged for the GET, unless the GET got as far as [open] and
    [open] failed; and staging the HEAD opens no file and makes no call on a
    descriptor: it consumes no answer of the kernel and records no event
    (like the GET it does call [realpath], [stat] and the clock, which are
    not part of the world). *)
Theorem head_mirrors_get (fs : filesys) (cfg : server_config_t)
    (c : client_t) (w : world) (t buf_h : bytes) (len_h : Z)
    (r1 r2 : Z) (c1 c2 : client_t) (w1 w2 : world) :
  parse_http_request (firstn (Z.to_nat (req_len c)) (req_buf c)) fresh_request
  = (0, mk_request HTTP_METHOD_GET t) ->
  parse_http_request (firstn (Z.to_nat len_h) buf_h) fresh_request
  = (0, mk_request HTTP_METHOD_HEAD t) ->
  prepare_response fs cfg c w = Some (r1, c1, w1) ->
  prepare_response fs cfg (set_req_len len_h (set_req_buf buf_h c)) w
  = Some (r2, c2, w2) ->
  w2 = w /\ is_head c2 = true /\ file_fd c2 = -1 /\ is_head c1 = false /\
  (staged_headers c2 = staged_headers c1
   \/ exists e rest p st,
        script w = Err e :: rest /\
        resolve_path fs (doc_root cfg) t [] PATH_MAX = (0, p) /\
        fs_stat fs p = inr st).
Proof.
  intros Hget Hhead H1 H2.
  rewrite prepare_response_eq in H1, H2. cbv zeta in H1, H2.
  cbn [req_len req_buf set_req_len set_req_buf] in H2.
  rewrite Hget in H1. rewrite Hhead in H2.
  cbn [Z.eqb method target negb] in H1, H2.
  destruct (resolve_path fs (doc_root cfg) t [] PATH_MAX) as [rc p] eqn:Hres.
  destruct (negb (rc =? 0)) eqn:Hrc.
  { injection H1 as <- <- <-. injection H2 as <- <- <-.
    do 4 (split; [reflexivity|]). left.
    now rewrite !staged_headers_error_response. }
  destruct (fs_stat fs p) as [e|st] eqn:Hst.
  { injection H1 as <- <- <-. injection H2 as <- <- <-.
    do 4 (split; [reflexivity|]). left.
    now rewrite !staged_headers_error_response. }
  injection H2 as <- <- <-.
  destruct (script w) as [|[bs|k| |n|revs|e] rest] eqn:Es; try discriminate.
  - destruct (n <? 0); [discriminate|]. injection H1 as <- <- <-.
    do 4 (split; [reflexivity|]). left.
    now rewrite !staged_headers_file_response.
  - injection H1 as <- <- <-.
    do 4 (split; [reflexivity|]). right.
    apply negb_false_iff, Z.eqb_eq in Hrc. subst rc. eauto 8.
Qed.

Lemma head_mirrors_get_witness :
  snd sample_head_prepared_open = sample_open /\
  is_head (snd (fst sample_head_prepared_open)) = true /\
  file_fd (snd (fst sample_head_prepared_open)) = -1 /\
  is_head (snd (fst sample_get_prepared)) = false /\
  (staged_headers (snd (fst sample_head_prepared_open))
   = staged_headers (snd (fst sample_get_prepared))
   \/ exists e rest p st,
        script sample_open = Err e :: rest /\
        resolve_path sample_fs (doc_root sample_cfg) (lit "/index.html") []
          PATH_MAX = (0, p) /\
        fs_stat sample_fs p = inr st).
Proof.
  assert (Hg : match prepare_response sample_fs sample_cfg sample_get_slot
                       sample_open with
               | Some _ => true
               | None => false
               end = true) by (vm_compute; reflexivity).
  assert (Hh : match prepare_response sample_fs sample_cfg sample_head_slot
                       sample_open with
               | Some _ => true
               | None => false
               end = true) by (vm_compute; reflexivity).
  unfold sample_get_prepared, sample_head_prepared_open.
  destruct (prepare_response sample_fs sample_cfg sample_get_slot sample_open)
    as [[[r1 c1] w1]|] eqn:E1; [|discriminate].
  destruct (prepare_response sample_fs sample_cfg sample_head_slot sample_open)
    as [[[r2 c2] w2]|] eqn:E2; [|discriminate].
  cbn [fst snd].
  apply (head_mirrors_get sample_fs sample_cfg sample_get_slot sample_open
           (lit "/index.html") (req_buf sample_head_slot)
           (req_len sample_head_slot) r1 r2 c1 c2 w1 w2).
  - vm_compute. reflexivity.
  - vm_compute. reflexivity.
  - exact E1.
  - exact E2.
Defined.

(** ** When a connection is dropped without an answer *)

Lemma firstn_nil_iff (n : nat) (bs : bytes) :
  (0 < n)%nat -> firstn n bs = [] -> bs = [].
Proof. destruct n, bs; intros; try lia; [reflexivity|discriminate]. Qed.

Lemma recv_loop_drop (fs : filesys) (cfg : server_config_t) (gm : tm_t)
    (scr : list answer) :
  forall (tr : list event) (c : client_t) (c' : client_t) (w' : world),
  max_header_size cfg <= MAX_HEADER_BYTES ->
  arrays_inv cfg c -> req_len c < max_header_size cfg ->
  recv_loop fs cfg gm scr tr c = Some (-1, c', w') ->
  mode c' = mode c /\
  exists used a,
    scr = used ++ a :: script w' /\
    (a = Bytes [] \/ exists e, a = Err e /\ would_block e = false).
Proof.
  induction scr as [|a scr IH]; intros tr c c' w' Hcap Ha Hroom H;
    [discriminate|].
  rewrite recv_loop_cons in H. destruct a as [bs|k| |n|revs|e]; try discriminate.
  - cbv zeta in H.
    pose proof (recv_room cfg c bs Hcap Ha Hroom) as Hdata.
    set (data := firstn _ bs) in *.
    destruct (0 <? len data) eqn:Epos.
    + pose proof (arrays_inv_received cfg c data Hcap Ha Hdata) as Ha1.
      match type of H with
      | context [make_error_response gm ?x _ _ _] => set (c1 := x) in *
      end.
      destruct (req_len c1 >=? max_header_size cfg) eqn:Efull.
      * rewrite make_error_response_ok in H. discriminate.
      * rewrite Z.geb_leb in Efull. apply Z.leb_gt in Efull.
        destruct (has_header_end _ _).
        -- apply prepare_response_shape in H as (Hr & _). discriminate.
        -- apply IH in H; [|exact Hcap|exact Ha1|exact Efull].
           destruct H as (Hm & used & a & -> & Hcase).
           split; [exact Hm|]. exists (Bytes bs :: used), a. auto.
    + injection H as <- <-. cbn [script]. split; [reflexivity|].
      exists [], (Bytes bs). split; [reflexivity|]. left. f_equal.
      apply Z.ltb_ge in Epos. pose proof (len_nonneg data).
      assert (Hnil : data = []).
      { destruct data; [reflexivity|]. rewrite len_cons in *.
        pose proof (len_nonneg data). lia. }
      unfold data in Hnil.
      apply firstn_nil_iff in Hnil; [exact Hnil|].
      destruct Ha as (_ & _ & _ & _ & H5 & _).
      rewrite to_size_small by (unfold MAX_HEADER_BYTES in *; lia). lia.
  - destruct (would_block e) eqn:Ew; [discriminate|].
    injection H as <- <-. cbn [script]. split; [reflexivity|].
    exists [], (Err e). split; [reflexivity|]. right. eauto.
Qed.

(** X21.  A connection is dropped without an answer only for what the socket
    did, never for what the request held.  When [read_client_request]
    returns -1 on a slot with room in its request buffer, the last [recv]
    either returned no byte (the peer closed) or failed with an error other
    than EAGAIN and EWOULDBLOCK; malformed or oversized requests are answered
    and never end in -1. *)
Theorem read_drops_only_on_socket_failure (fs : filesys)
    (cfg : server_config_t) (c : client_t) (w : world) (c' : client_t)
    (w' : world) :
  max_header_size cfg <= MAX_HEADER_BYTES ->
  arrays_inv cfg c -> req_len c < max_header_size cfg ->
  read_client_request fs cfg c w = Some (-1, c', w') ->
  mode c' = mode c /\
  exists used a,
    script w = used ++ a :: script w' /\
    (a = Bytes [] \/ exists e, a = Err e /\ would_block e = false).
Proof.
  intros Hcap Ha Hroom H. unfold read_client_request in H.
  eapply recv_loop_drop; eassumption.
Qed.

(** ** Accepting every pending connection *)

Lemma add_client_from_full (pfds : list pollfd) :
  forall (clients : list client_t) (cfd : Z),
  forallb active clients = true -> add_client_from pfds clients cfd = None.
Proof.
  induction pfds as [|p ps IH]; intros clients cfd H; [reflexivity|].
  destruct clients as [|c cs]; [reflexivity|].
  cbn [forallb] in H. apply andb_true_iff in H as [Hc Hcs].
  cbn [add_client_from]. rewrite Hc. cbn [negb]. now rewrite IH.
Qed.

Lemma add_client_to_slot_full (pfds : list pollfd) (clients : list client_t)
    (cfd : Z) :
  forallb active (tl clients) = true ->
  add_client_to_slot pfds clients cfd = (-1, pfds, clients).
Proof.
  intros H. unfold add_client_to_slot.
  destruct pfds as [|p0 ps]; [reflexivity|].
  destruct clients as [|c0 cs]; [reflexivity|].
  cbn [tl] in H. now rewrite add_client_from_full.
Qed.

Lemma accept_loop_drains (conns : list (Z * bool)) :
  forall (fuel : nat) (pfds : list pollfd) (clients : list client_t)
         (e : errno_t) (rest : list answer) (tr : list event) (gm : tm_t),
  Forall (fun conn => 0 <= fst conn) conns ->
  (length conns < fuel)%nat ->
  exists pfds' clients' evs,
    accept_loop fuel pfds clients
      (mk_world (pending_answers conns ++ Err e :: rest) tr gm)
    = Some (pfds', clients', mk_world rest (tr ++ evs) gm) /\
    (forall cfd, In (cfd, false) conns -> In cfd (closed evs)) /\
    (forall cfd, In cfd (closed evs) -> In cfd (map fst conns)) /\
    (forallb active (tl clients) = true ->
     pfds' = pfds /\ clients' = clients /\ closed evs = map fst conns).
Proof.
  induction conns as [|[cfd ok] conns IH];
    intros fuel pfds clients e rest tr gm Hall Hfuel.
  - destruct fuel; [cbn [length] in Hfuel; lia|].
    cbn [pending_answers flat_map app accept_loop script trace clock].
    exists pfds, clients, []. rewrite app_nil_r.
    split; [reflexivity|]. split; [intros cfd []|]. split; [intros cfd []|auto].
  - destruct fuel; [cbn [length] in Hfuel; lia|].
    inversion Hall as [|? ? Hfd Hrest]; subst. cbn [fst] in Hfd.
    cbn [length] in Hfuel.
    cbn [pending_answers flat_map app accept_loop script trace clock fst snd].
    fold (pending_answers conns).
    replace (cfd <? 0) with false by (symmetry; apply Z.ltb_ge; lia).
    assert (Hclose : forall pfds1 clients1,
              (forallb active (tl clients) = true ->
               pfds1 = pfds /\ clients1 = clients) ->
              exists pfds' clients' evs,
                accept_loop fuel pfds1 clients1
                  (add_event (EvClose cfd)
                     (mk_world (pending_answers conns ++ Err e :: rest) tr gm))
                = Some (pfds', clients', mk_world rest (tr ++ evs) gm) /\
                (forall cfd0, In (cfd0, false) ((cfd, ok) :: conns) ->
                   In cfd0 (closed evs)) /\
                (forall cfd0, In cfd0 (closed evs) ->
                   In cfd0 (map fst ((cfd, ok) :: conns))) /\
                (forallb active (tl clients) = true ->
                 pfds' = pfds /\ clients' = clients /\
                 closed evs = map fst ((cfd, ok) :: conns))).
    { intros pfds1 clients1 Hsame. unfold add_event. cbn [script trace clock].
      destruct (IH fuel pfds1 clients1 e rest (tr ++ [EvClose cfd]) gm Hrest
                  ltac:(lia)) as (ps & cs & evs & Hrun & Hbad & Honly & Hfull).
      exists ps, cs, (EvClose cfd :: evs).
      rewrite <- app_assoc in Hrun. split; [exact Hrun|].
      assert (Ec : closed (EvClose cfd :: evs) = cfd :: closed evs)
        by reflexivity.
      rewrite Ec. cbn [map fst].
      split; [|split].
      - intros cfd0 [[= <- _]|Hin]; [now left|right; now apply Hbad].
      - intros cfd0 [<-|Hin]; [now left|right; now apply Honly].
      - intros Hact. destruct (Hsame Hact) as [-> ->].
        destruct (Hfull Hact) as (-> & -> & Hc). now rewrite Hc. }
    destruct ok.
    + destruct (add_client_to_slot pfds clients cfd) as [[r ps1] cs1] eqn:Ea.
      destruct (negb (r =? 0)) eqn:Er.
      * apply Hclose. intros Hact.
        rewrite add_client_to_slot_full in Ea by exact Hact.
        injection Ea as _ <- <-. auto.
      * destruct (IH fuel ps1 cs1 e rest tr gm Hrest ltac:(lia))
          as (ps & cs & evs & Hrun & Hbad & Honly & _).
        exists ps, cs, evs. split; [exact Hrun|]. cbn [map fst].
        split; [|split].
        -- intros cfd0 [Heq|Hin]; [discriminate Heq|now apply Hbad].
        -- intros cfd0 Hin. right. now apply Honly.
        -- intros Hact. rewrite add_client_to_slot_full in Ea by exact Hact.
           injection Ea as <- _ _. discriminate.
    + apply Hclose. auto.
Qed.

Lemma pending_answers_length (conns : list (Z * bool)) :
  length (pending_answers conns) = (2 * length conns)%nat.
Proof.
  induction conns as [|conn conns IH]; [reflexivity|].
  cbn [pending_answers flat_map app length]. fold (pending_answers conns).
  rewrite IH. lia.
Qed.

(** X22.  [accept_new_clients] accepts every pending connection and returns
    at the first [accept] that fails, whatever the number of connections
    and whatever the error.  Every connection whose socket could not be made
    non-blocking is closed, whether or not a slot is free, and nothing is
    closed but accepted connections.  When the slots 1 and up are all in
    use it still accepts each connection, closes it at once, and leaves both
    tables as they were. *)
Theorem accept_new_clients_drains_queue (conns : list (Z * bool))
    (pfds : list pollfd) (clients : list client_t) (e : errno_t)
    (rest : list answer) (tr : list event) (gm : tm_t) :
  Forall (fun conn => 0 <= fst conn) conns ->
  exists pfds' clients' evs,
    accept_new_clients pfds clients
      (mk_world (pending_answers conns ++ Err e :: rest) tr gm)
    = Some (pfds', clients', mk_world rest (tr ++ evs) gm) /\
    (forall cfd, In (cfd, false) conns -> In cfd (closed evs)) /\
    (forall cfd, In cfd (closed evs) -> In cfd (map fst conns)) /\
    (forallb active (tl clients) = true ->
     pfds' = pfds /\ clients' = clients /\ closed evs = map fst conns).
Proof.
  intros Hall. unfold accept_new_clients. cbn [script].
  apply accept_loop_drains; [exact Hall|].
  rewrite length_app, pending_answers_length. cbn [length]. lia.
Qed.

Lemma accept_new_clients_drains_queue_witness :
  exists pfds' clients' evs,
    accept_new_clients [mk_pollfd 3 POLLIN POLLIN; mk_pollfd 7 POLLIN 0]
      [reset_client; claimed_client 7]
      (mk_world (pending_answers [(8, true); (9, false)] ++ Err EAGAIN :: [])
         [] sample_time)
    = Some (pfds', clients', mk_world [] ([] ++ evs) sample_time) /\
    (forall cfd, In (cfd, false) [(8, true); (9, false)] ->
       In cfd (closed evs)) /\
    (forall cfd, In cfd (closed evs) ->
       In cfd (map fst [(8, true); (9, false)])) /\
    (forallb active (tl [reset_client; claimed_client 7]) = true ->
     pfds' = [mk_pollfd 3 POLLIN POLLIN; mk_pollfd 7 POLLIN 0] /\
     clients' = [reset_client; claimed_client 7] /\
     closed evs = map fst [(8, true); (9, false)]).
Proof.
  apply (accept_new_clients_drains_queue [(8, true); (9, false)]
           [mk_pollfd 3 POLLIN POLLIN; mk_pollfd 7 POLLIN 0]
           [reset_client; claimed_client 7] EAGAIN [] [] sample_time).
  repeat constructor; cbn [fst]; lia.
Defined.

Lemma read_drops_only_on_socket_failure_witness :
  mode (claimed_client 5) = mode (claimed_client 5) /\
  exists used a,
    script (mk_world [Bytes (lit "GET /"); Bytes []] [] sample_time)
    = used ++ a :: script (mk_world [] [] sample_time) /\
    (a = Bytes [] \/ exists e, a = Err e /\ would_block e = false).
Proof.
  assert (Hrun : exists c',
            read_client_request sample_fs sample_cfg (claimed_client 5)
              (mk_world [Bytes (lit "GET /"); Bytes []] [] sample_time)
            = Some (-1, c', mk_world [] [EvRecv 5 (lit "GET /")] sample_time)
            /\ mode c' = mode (claimed_client 5)).
  { eexists. split; [vm_compute; reflexivity|reflexivity]. }
  destruct Hrun as (c' & Hrun & Hm).
  destruct (read_drops_only_on_socket_failure sample_fs sample_cfg
              (claimed_client 5)
              (mk_world [Bytes (lit "GET /"); Bytes []] [] sample_time)
              c' (mk_world [] [EvRecv 5 (lit "GET /")] sample_time))
    as [_ Hlast]; [vm_compute; discriminate
                  |apply arrays_inv_reset; vm_compute; discriminate
                  |reflexivity|exact Hrun|].
  split; [reflexivity|exact Hlast].
Defined.
